(* ===== verification/_CoqProject ===== *)
-Q . S2P
Prelude.v
Circ.v
Kernel.v
TxRing.v
Wire.v
Kfifo.v
BitbangUart.v
BitbangFrames.v
BitbangDriver.v
BitbangIo.v
BitbangSystem.v
BitbangPipe.v
GpioUartTty.v
GpioUartFrames.v
GpioUartConfig.v
GpioUartSystem.v
GpioUartTtyGpiod.v
SpiRing.v
SpiHw.v
SpiSlave.v
SpiReceive.v
SpiLifetime.v
SpiWakeup.v
KfifoRxTx.v
KfifoRxTxSystem.v
KfifoDev.v
Decimal.v
UdpXorProxy.v
UdpXorMulti.v
UdpXorThreads.v
UdpXorPlain.v
SimplePdrv.v
TextDevices.v
GpioDrivers.v
TtyModules.v
SoftUartEcho.v
SoftUartLink.v
LinuxDrivers.v
Macros.v
MacroHeader.v
DebugMacros.v
PlatformModules.v
SignalThreads.v
ForkDemo.v
CppObjects.v
CppClasses.v
EnumMap.v
ProgramOptions.v
IniStream.v
IniLists.v
KeysManager.v
KeysTable.v
KeysTyping.v
KeysSession.v
KeysWindow.v
Vkbd.v
