(* ===== verification/Prelude.v ===== *)
(** * Verification of the C and C++ code of the [testings] repository

    The repository collects kernel modules for small routers and i.MX boards, a UDP
    proxy, Qt components and language experiments.  This library models the parts
    that have logic of their own and proves what they do, on every branch, and where
    they do not do what they mean to.  Names of files are those under [src/]; the
    directory [openwrt/kernel/] is left out of them.

    ** How the code is modelled

    A kernel driver is a program of the monad [M S] of [Kernel]: the state is the
    driver's own record, every function of the kernel is a [call] that an environment
    answers, and the calls with their answers make a trace, newest first.  A [sleep]
    lets other tasks change the state ([interfere]); what they may do is the rely
    condition of a theorem.  Interrupts, timers and users that run in between are steps
    of a transition relation ([BitbangSystem], [GpioUartSystem], [SpiWakeup]) or of a
    sequence of operations ([KfifoDev], [TtyModules], [KeysManager]); the threads of the
    proxy and the processes of a fork run as a schedule says ([UdpXorThreads],
    [ForkDemo]).  [wp] gives the outcomes of a program in
    one environment; a theorem that quantifies over environments covers every answer of
    the kernel.  The [ledger] of a trace is what is held after it, and has no value if
    something is given back that was not held.  User space programs are functions whose
    undefined behaviour (a read outside an array, a division by 0) is [None].  Integers
    are [Z] with the wrap-around of their width written out ([u8], [u32], [i32]).

    ** Parts, files and sources

    - Shared: this file (integers, bits, lists), [Circ] (index arithmetic of rings),
      [Kernel], [Wire] (frames and levels of a line), [Kfifo] (the interface of
      [linux/kfifo.h] as a class with its laws), [Decimal] (numbers as text).
    - Bit-bang UART character device, [soft_uart/bitbang/]: [BitbangUart] is [uart.c] and
      [bitbang.h], [BitbangDriver] is [bitbang-main.c], [bitbang-sysfs.c] and
      [bitbang-proc.c].  Users call the file operations, which fill and empty two
      queues; two timers and one interrupt move bits between queues and pins.
      Theorems: [BitbangFrames] (frames out and in), [BitbangIo] (read and write),
      [BitbangSystem] (all interleavings), [BitbangPipe] (what users and the line see,
      as an abstract pipe of bytes that the system refines).
    - GPIO UART terminal, [soft_uart/gpt/]: [GpioUartTty] is [gpio_uart_tty.c],
      [GpioUartTtyGpiod] is [gpio_uart_tty_gpiod.c], [TxRing] is [tx_ring.c].
      Theorems: [GpioUartFrames] (timing of frames), [GpioUartConfig] (settings,
      loading), [TxRing] (the ring refines a bounded queue), [GpioUartSystem] (all interleavings of
      users, settings and the receive timer, in time).
    - SPI slave, [linux/kernel/slave-spi-driver/]: [SpiRing] (packet ring and
      [paketizer]) and [SpiSlave] are [spi-slave-main.c], [SpiHw] is [spi-slave-hw.c].
      The receiving thread fills the ring, transfers empty it.  Theorems: [SpiReceive],
      [SpiLifetime], and [SpiWakeup], which has the transfer and the thread at the
      grain of their calls, with the wait queue explicit.
    - Queue devices, [gpt/]: [KfifoRxTx] is [kfifo_rxtx.c], with its interleavings in
      [KfifoRxTxSystem]; [KfifoDev] is [kfifo.c].
    - UDP proxy, [python/udp_xor_proxy/]: [UdpXorProxy] is [udp_xor_proxy.c],
      [UdpXorMulti] is [udp_xor_proxy_multi_cleanup.c] with lists of clients,
      [UdpXorThreads] its two threads on a linked list in memory, [UdpXorPlain] the
      [main] of [udp_xor_proxy_multi.c], whose other functions are the same.
    - Small drivers: [SimplePdrv] ([gpt/simple_pdrv.c] and its two variants) with their
      tables of file operations in [TextDevices],
      [GpioDrivers] ([gpt/mygpio_full.c] and the drivers of one pin), [TtyModules]
      ([tty_loopback.c], [mini_uart.c], [dummy_uart-main.c], [softuart_tty-main.c]),
      [SoftUartEcho] and [SoftUartLink] (the two software UARTs of [soft_uart/gpt/]),
      [LinuxDrivers] ([regulator-main.c] and [gpioirq-main.c] under [linux/kernel/]),
      [PlatformModules] ([dtmod-main.c], the two [testmod-main.c], [kmod-main.c],
      [gpt/pdrv_sysfs.c] and what [gpioirq-main.c] prints).
    - Language: [Macros] is [c/ceil_div.c] and [c/buffer_align.c]; [MacroHeader] is
      [imx8mm/hello_world/macro.h] with the program that tests it, against the older
      headers; [DebugMacros] has their [dbg.h], [trace.h] and the [kdbg.h] of the kernel
      modules; [SignalThreads] is [c/signal_thrd]; [ForkDemo] is [c/fork_demo.c],
      [printf_fork.c], [printf_fork_printf.c] and [fscanf.c]; [CppObjects] is
      [class_ops.cpp], [unique_ptr.cpp] and [vector_move.cpp] of [cpp/other], [CppClasses]
      eight more programs from there; [EnumMap] has the enumerations of
      [qt/EnumMapTemplateTest] and [qt/EnumMapTest]; [ProgramOptions] is
      [cpp/boost/program_options].
    - Qt: [IniStream] is [qt/inistream/IniStreamConfig.cpp], with its lists in
      [IniLists]; [KeysManager] is [qt/qkeywin/KeysManager.cpp], with theorems in
      [KeysTyping] and [KeysSession] and the tables of its header in [KeysTable];
      [KeysWindow] is its registry with the slots of [MainWindow.cpp], [KbdWidget.cpp] and [KeyDialog.cpp]; [Vkbd] is the input
      context and the panel of [qt/vkbd/VkbdProxyPlugin].

    ** What the theorems show

    - Frames: the transmit callbacks send exactly the frames of the bytes queued, the
      receivers deliver exactly the frames that are right, a byte crosses a line that is
      sampled late, and where rounding or a late start makes a receiver slip.
    - Queues: rings and lists refine bounded queues and tables; bytes come out in order,
      none twice, and what is lost is said exactly.
    - Systems: invariants of all interleavings, and that what is written is sent.
    - Refinement: the bit-bang device is a pipe of bytes; the threads of the proxy do
      the operations on lists, one at a time; the window of keys is a machine of two
      modes.
    - Time: a receiver in the middle of a byte ends within ten callbacks; one that was
      found disabled never starts again; an idle line keeps its callback due.
    - Objects: whatever is made, copied, moved, assigned and destroyed, each piece of
      memory has one owner, and none is left.
    - Schedules: which ones let the main thread of the proxy use a freed client, and
      which ones put the SPI transfer to sleep after its wake-up; what is enough to
      exclude the first, and that the next packet ends the second; what parent and child
      leave in a file and on a terminal in all of them.
    - Files: every outcome of read and write, faults, signals and no-wait included.
    - Resources: what loading, probing, opening and their failures hold in the end.
    - Text: round trips of printing and parsing; the last setting wins.
    - Keys: no event sequence fails an assertion; what it types and which widget it
      leaves writable.
    - Errors: where the code divides by 0, reads outside an array, dereferences a null
      pointer, loses bytes or leaks; the findings of the manifest name these theorems.

    ** Fuel and bounds

    Loops over a list of known length are recursions on it.  Loops that wait or drain
    ([bitbang_rx], [bitbang_tx], [mydev_write], [tx_work_fn], [receive_packet],
    [mx51_ecspi_reset], the slots of [KeysWindow] and the timer runs of [BitbangFrames])
    take fuel.  Their theorems give an amount that is enough and prove that the loop has
    ended with it: two tests of a wait whose wake-up is justified, the bytes queued and
    still to come, the answers the controller gives before it has no more data, four
    slots that call each other.  The linked list of [UdpXorThreads] is read with as much
    fuel as the memory has clients.  [decimal] takes ten digits for an [int].
    [always] of [ForkDemo] explores every schedule with as much fuel as the processes have
    statements.  Facts about all bytes are settled by evaluation over 256 values.

    ** Not modelled

    - Printing of the drivers, except where it is read back by a user or is all that a
      program does.
    - Kernel, C library and Qt: parameters and environments, with the documented
      behaviour that a theorem needs as a named hypothesis or a class of laws.
    - The programs of [c/], [cpp/other] and [imx8mm/] that only greet, or whose result
      the compiler decides or [std::function] and [std::string] keep to themselves.
    - [qt/] apart from the parts above: painting, layout, audio, plots and plug-ins made
      of Qt classes.
    - Scripts and Python programs.

    ** Plan

    What is left has no logic of its own: the look of the panel of [qt/vkbd] (flags and
    geometry), the windows, plots and sounds of [qt/], which wire up classes of Qt and Qwt,
    and copies of headers that are modelled once. *)
From Stdlib Require Export ZArith List Bool Lia.
From stdpp Require Export base numbers list option strings.
From stdpp Require Import options.

#[global] Set Default Proof Using "Type".
#[global] Open Scope Z_scope.

(** ** Machine integers

    A C unsigned integer of width [w] is a [Z] reduced modulo [2^w]; a signed
    one is folded back to the interval from [-2^(w-1)]. *)

Definition wrapu (w x : Z) : Z := x mod 2 ^ w.
Definition wraps (w x : Z) : Z := (x + 2 ^ (w - 1)) mod 2 ^ w - 2 ^ (w - 1).

Abbreviation u8 := (wrapu 8).
Abbreviation u32 := (wrapu 32).
Abbreviation u64 := (wrapu 64).
Abbreviation i32 := (wraps 32).

(** C truth values: an [int] used as a condition, a comparison used as an
    [int]. *)
Definition c_true (x : Z) : bool := negb (x =? 0).
Definition b2z (b : bool) : Z := if b then 1 else 0.

Lemma wrapu_range w x : 0 <= w -> 0 <= wrapu w x < 2 ^ w.
Proof. intros; unfold wrapu. apply Z.mod_pos_bound. apply Z.pow_pos_nonneg; lia. Qed.

Lemma wrapu_small w x : 0 <= x < 2 ^ w -> wrapu w x = x.
Proof. intros; unfold wrapu. by apply Z.mod_small. Qed.

Lemma wraps_small w x : 0 < w -> - 2 ^ (w - 1) <= x < 2 ^ (w - 1) -> wraps w x = x.
Proof.
  intros Hw Hx; unfold wraps.
  assert (2 ^ w = 2 * 2 ^ (w - 1)) as ->
    by (replace w with (1 + (w - 1)) at 1 by lia; rewrite Z.pow_add_r; lia).
  rewrite Z.mod_small; lia.
Qed.

Lemma b2z_range b : 0 <= b2z b <= 1.
Proof. destruct b; simpl; lia. Qed.

Lemma c_true_b2z b : c_true (b2z b) = b.
Proof. by destruct b. Qed.

Create HintDb words discriminated.
Create Rewrite HintDb words.
#[export] Hint Resolve wrapu_range b2z_range : words.
#[export] Hint Rewrite c_true_b2z : words.

(** ** Bits of a byte

    [bit i x] is the C expression [(x >> i) & 1]. *)
Definition bit (i x : Z) : Z := Z.land (Z.shiftr x i) 1.

Lemma bit_testbit i x : 0 <= i -> bit i x = b2z (Z.testbit x i).
Proof.
  intros Hi; unfold bit. change 1 with (Z.ones 1).
  rewrite Z.land_ones, Z.pow_1_r, <- Z.bit0_mod by lia.
  rewrite Z.shiftr_spec, Z.add_0_l by lia. by destruct (Z.testbit x i).
Qed.

(** All the values of a byte, for the facts settled by evaluation. *)
Definition bytes : list Z := map Z.of_nat (seq 0 256).

Lemma byte_cases (P : Z -> bool) :
  forallb P bytes = true -> forall b, 0 <= b < 256 -> P b = true.
Proof.
  intros H b Hb. eapply forallb_forall in H; [exact H|].
  unfold bytes. apply in_map_iff. exists (Z.to_nat b).
  split; [lia | apply in_seq; lia].
Qed.

(** ** Lists *)

(** The last [n] elements of a list. *)
Definition lastn {A} (n : nat) (l : list A) : list A := drop (length l - n) l.

Lemma lastn_all {A} n (l : list A) : (length l <= n)%nat -> lastn n l = l.
Proof. intros. unfold lastn. by replace (length l - n)%nat with 0%nat by lia. Qed.

Lemma lastn_length {A} n (l : list A) : (length (lastn n l) <= n)%nat.
Proof. unfold lastn. rewrite length_drop. lia. Qed.

(** Keeping the last [n] elements commutes with appending one at a time. *)
Lemma lastn_app {A} n (l k : list A) : lastn n (lastn n l ++ k) = lastn n (l ++ k).
Proof.
  unfold lastn. rewrite !length_app, length_drop, !skipn_app, length_drop, drop_drop.
  destruct (le_lt_dec (length l) n).
  - replace (length l - n)%nat with 0%nat by lia. simpl. f_equal; f_equal; lia.
  - f_equal; f_equal; lia.
Qed.

Lemma map_const_seq {A} (x : A) i n : map (fun _ => x) (seq i n) = replicate n x.
Proof. revert i. induction n as [|n IH]; intros i; [done|]. cbn. by rewrite IH. Qed.

(** C arrays indexed by an [int] or [unsigned]: reading and writing are
    defined inside the bounds only. *)
Definition zget {A} (l : list A) (i : Z) : option A :=
  if 0 <=? i then l !! Z.to_nat i else None.
Definition zset {A} (i : Z) (x : A) (l : list A) : option (list A) :=
  if (0 <=? i) && (i <? Z.of_nat (length l)) then Some (<[Z.to_nat i := x]> l) else None.

Lemma zget_Some_lt {A} (l : list A) i x :
  zget l i = Some x -> 0 <= i < Z.of_nat (length l).
Proof.
  unfold zget. destruct (Z.leb_spec 0 i); [|done]. intros H1%lookup_lt_Some. lia.
Qed.

Lemma zget_lookup {A} (l : list A) i : 0 <= i -> zget l i = l !! Z.to_nat i.
Proof. intros; unfold zget. by destruct (Z.leb_spec 0 i); [|lia]. Qed.

Lemma zset_Some {A} (l : list A) i x :
  0 <= i < Z.of_nat (length l) -> zset i x l = Some (<[Z.to_nat i := x]> l).
Proof.
  intros; unfold zset.
  destruct (Z.leb_spec 0 i), (Z.ltb_spec i (Z.of_nat (length l))); simpl; done || lia.
Qed.

(** ** Case analysis on the tests of the code *)
Ltac case_z :=
  match goal with
  | |- context [?a =? ?b] => destruct (Z.eqb_spec a b)
  | |- context [?a <? ?b] => destruct (Z.ltb_spec a b)
  | |- context [?a <=? ?b] => destruct (Z.leb_spec a b)
  end.
Ltac case_zs := repeat (case_z; try lia).
