(* ===== verification/Circ.v ===== *)
(** * Circular buffers

    Index arithmetic shared by the software rings of the repository: the
    transmit rings of [tx_ring.c] and [gpio_uart_tty_gpiod.c] and the packet
    ring of [spi-slave-main.c].  A ring has [N] slots, a [tail] to read from and
    a [head] to write to; one slot stays free, so that [head = tail] means
    empty. *)
From S2P Require Import Prelude.
From stdpp Require Import options.

Definition circ_count (N head tail : Z) : Z := (head - tail) mod N.

(** The slots in use, oldest first. *)
Definition circ_slots (N head tail : Z) : list Z :=
  map (fun k => (tail + Z.of_nat k) mod N) (seq 0 (Z.to_nat (circ_count N head tail))).

Definition circ_contents (N : Z) (buf : list Z) (head tail : Z) : list Z :=
  map (fun i => nth (Z.to_nat i) buf 0) (circ_slots N head tail).

Section circ.
Context (N : Z) (HN : 1 < N).

Lemma circ_count_range h t : 0 <= circ_count N h t < N.
Proof using HN. apply Z.mod_pos_bound. lia. Qed.

Lemma circ_slots_length h t : Z.of_nat (length (circ_slots N h t)) = circ_count N h t.
Proof using HN.
  unfold circ_slots. rewrite length_map, length_seq, Z2Nat.id; [done|].
  apply circ_count_range.
Qed.

Lemma circ_contents_length buf h t :
  Z.of_nat (length (circ_contents N buf h t)) = circ_count N h t.
Proof using HN. unfold circ_contents. rewrite length_map. apply circ_slots_length. Qed.

Lemma circ_count_alt h t : 0 <= h < N -> 0 <= t < N ->
  circ_count N h t = if t <=? h then h - t else h - t + N.
Proof using HN.
  intros Hh Ht; unfold circ_count. case_zs.
  - by apply Z.mod_small; lia.
  - rewrite <- (Z.mod_add _ 1), Z.mod_small; lia.
Qed.

Lemma circ_succ i : 0 <= i < N -> (i + 1) mod N = if i =? N - 1 then 0 else i + 1.
Proof using HN.
  intros Hi. case_zs.
  - subst. replace (N - 1 + 1) with N by lia. apply Z.mod_same. lia.
  - apply Z.mod_small. lia.
Qed.

Lemma circ_succ_range i : 0 <= (i + 1) mod N < N.
Proof using HN. apply Z.mod_pos_bound. lia. Qed.

(** The writer meets the reader exactly when one slot is left. *)
Lemma circ_full_iff h t : 0 <= h < N -> 0 <= t < N ->
  (h + 1) mod N = t <-> circ_count N h t = N - 1.
Proof using HN.
  intros Hh Ht. rewrite circ_count_alt, circ_succ by lia. case_zs; split; lia.
Qed.

Lemma circ_empty_iff h t : 0 <= h < N -> 0 <= t < N ->
  h = t <-> circ_count N h t = 0.
Proof using HN. intros Hh Ht. rewrite circ_count_alt by lia. case_zs; lia. Qed.

Lemma circ_count_push h t : 0 <= h < N -> 0 <= t < N -> circ_count N h t < N - 1 ->
  circ_count N ((h + 1) mod N) t = circ_count N h t + 1.
Proof using HN.
  intros Hh Ht. pose proof (circ_succ_range h).
  rewrite !circ_count_alt, circ_succ by lia. case_zs.
Qed.

Lemma circ_count_pop h t : 0 <= h < N -> 0 <= t < N -> 0 < circ_count N h t ->
  circ_count N h ((t + 1) mod N) = circ_count N h t - 1.
Proof using HN.
  intros Hh Ht. pose proof (circ_succ_range t).
  rewrite !circ_count_alt, circ_succ by lia. case_zs.
Qed.

Lemma circ_head_slot h t : 0 <= h < N -> 0 <= t < N ->
  (t + circ_count N h t) mod N = h.
Proof using HN.
  intros Hh Ht. unfold circ_count. rewrite Zplus_mod_idemp_r.
  replace (t + (h - t)) with h by lia. apply Z.mod_small; lia.
Qed.

Lemma circ_slots_push h t : 0 <= h < N -> 0 <= t < N -> circ_count N h t < N - 1 ->
  circ_slots N ((h + 1) mod N) t = circ_slots N h t ++ [h].
Proof using HN.
  intros Hh Ht Hc. unfold circ_slots. pose proof (circ_count_range h t).
  rewrite circ_count_push, Z2Nat.inj_add, Nat.add_1_r, seq_S, map_app by lia.
  simpl. by rewrite Z2Nat.id, circ_head_slot by lia.
Qed.

Lemma circ_slots_pop h t : 0 <= h < N -> 0 <= t < N -> 0 < circ_count N h t ->
  circ_slots N h t = t :: circ_slots N h ((t + 1) mod N).
Proof using HN.
  intros Hh Ht Hc. unfold circ_slots. rewrite circ_count_pop by lia.
  replace (Z.to_nat (circ_count N h t)) with (S (Z.to_nat (circ_count N h t - 1))) by lia.
  cbn [seq map]. f_equal; [rewrite Z.add_0_r; apply Z.mod_small; lia|].
  rewrite <- (seq_shift _ 0), map_map. apply map_ext. intros k.
  rewrite Zplus_mod_idemp_l. f_equal. lia.
Qed.

Lemma circ_slots_elem h t i : 0 <= h < N -> 0 <= t < N ->
  In i (circ_slots N h t) -> 0 <= i < N /\ i <> h.
Proof using HN.
  intros Hh Ht (k & <- & Hk%in_seq)%in_map_iff. split; [apply Z.mod_pos_bound; lia|].
  pose proof (circ_count_range h t). rewrite circ_count_alt in * by lia.
  intros Heq. revert Hk Heq.
  destruct (Z.leb_spec t h); intros Hk Heq.
  - rewrite Z.mod_small in Heq; lia.
  - destruct (Z.ltb_spec (t + Z.of_nat k) N).
    + rewrite Z.mod_small in Heq; lia.
    + rewrite <- (Z.mod_add _ (-1)), Z.mod_small in Heq; lia.
Qed.

Lemma circ_contents_push buf h t x :
  N <= Z.of_nat (length buf) -> 0 <= h < N -> 0 <= t < N -> circ_count N h t < N - 1 ->
  circ_contents N (<[Z.to_nat h := x]> buf) ((h + 1) mod N) t =
  circ_contents N buf h t ++ [x].
Proof using HN.
  intros Hlen Hh Ht Hc. unfold circ_contents.
  rewrite circ_slots_push, map_app by lia. f_equal.
  - apply map_ext_in. intros i [Hi Hne]%circ_slots_elem; [|lia..].
    rewrite !nth_lookup, list_lookup_insert_ne by lia. done.
  - simpl. rewrite nth_lookup, list_lookup_insert_eq by lia. done.
Qed.

Lemma circ_contents_pop buf h t : 0 <= h < N -> 0 <= t < N -> 0 < circ_count N h t ->
  circ_contents N buf h t = nth (Z.to_nat t) buf 0 :: circ_contents N buf h ((t + 1) mod N).
Proof using HN. intros. unfold circ_contents. by rewrite circ_slots_pop by lia. Qed.

Lemma circ_slots_NoDup h t : NoDup (circ_slots N h t).
Proof using HN.
  unfold circ_slots. pose proof (circ_count_range h t) as Hc.
  apply NoDup_fmap_2_strong; [|apply NoDup_seq].
  intros i j Hi%elem_of_seq Hj%elem_of_seq Heq.
  rewrite !Z.mod_eq in Heq by lia.
  assert (Z.of_nat i - Z.of_nat j = N * ((t + Z.of_nat i) / N - (t + Z.of_nat j) / N)) as H by lia.
  assert (Z.of_nat i < N) by (clear Heq H; lia). assert (Z.of_nat j < N) by (clear Heq H; lia).
  clear Heq Hi Hj. set (k := _ - _ / N) in H. clearbody k. assert (k = 0) by nia. lia.
Qed.

(** Writing outside of the slots in use. *)
Lemma circ_contents_insert_other buf h t j x : 0 <= j ->
  ~ In j (circ_slots N h t) -> 0 <= h < N -> 0 <= t < N ->
  circ_contents N (<[Z.to_nat j := x]> buf) h t = circ_contents N buf h t.
Proof using HN.
  intros Hj Hni Hh Ht. unfold circ_contents. apply map_ext_in. intros i Hi.
  assert (i <> j) by (intros ->; done). apply circ_slots_elem in Hi as [Hi _]; [|lia..].
  rewrite !nth_lookup, list_lookup_insert_ne by lia. done.
Qed.
End circ.
