(* ===== verification/Kernel.v ===== *)
(** * The boundary between the drivers and the Linux kernel

    The drivers are modelled as programs of a state monad [M S] over their own
    record [S].  Whatever the kernel does is outside of the sources: a program
    performs a [call], the environment [env] answers it, and the call with its
    answer goes to the trace (newest first).  The [interfere] part of the
    environment is what interrupt handlers and other tasks do to the driver's
    record while the program sleeps.

    The second half of the file is specification: which resource a call takes or
    gives back ([effect_of], the pairing documented by the kernel: what
    [gpio_request] takes, [gpio_free] gives back), and the [ledger] of the
    resources held after a trace, undefined as soon as a resource is given back
    that is not held, or a lock is taken twice. *)
From S2P Require Import Prelude.
From stdpp Require Import options.

(** ** Error codes and encoded pointers

    A pointer is the [Z] the program tests: 0 for [NULL], [-4095..-1] for an
    error encoded by [ERR_PTR]. *)
Abbreviation EIO := 5.
Abbreviation ENXIO := 6.
Abbreviation EAGAIN := 11.
Abbreviation ENOMEM := 12.
Abbreviation EFAULT := 14.
Abbreviation ENODEV := 19.
Abbreviation EINVAL := 22.
Abbreviation ERANGE := 34.
Abbreviation ERESTARTSYS := 512.
Abbreviation MAX_ERRNO := 4095.
Abbreviation INT_MAX := 2147483647.
Abbreviation NSEC_PER_SEC := 1000000000.

Definition IS_ERR (p : Z) : bool := (- MAX_ERRNO <=? p) && (p <? 0).
Definition PTR_ERR (p : Z) : Z := p.

(** ** Calls *)
Inductive call : Type :=
  (* locks, sleeping, wake-ups *)
  | spin_lock (l : string) | spin_unlock (l : string)
  | spin_lock_irq (l : string) | spin_unlock_irq (l : string)
  | spin_lock_irqsave (l : string) | spin_unlock_irqrestore (l : string)
  | wait_event_interruptible (wq : string)
  | wake_up_interruptible (wq : string) | wake_up (wq : string) | poll_wait (wq : string)
  | prepare_to_wait (wq : string) | finish_wait (wq : string)
  | schedule | signal_pending | kthread_should_stop
  (* gpio by number *)
  | gpio_request (pin : Z) | gpio_free (pin : Z)
  | gpio_direction_output (pin v : Z) | gpio_direction_input (pin : Z)
  | gpio_get_value (pin : Z) | gpio_set_value (pin v : Z) | gpio_to_irq (pin : Z)
  (* gpio by descriptor *)
  | gpio_to_desc (pin : Z) | gpiod_get (name : string) | gpiod_put (d : Z)
  | devm_gpiod_get_optional (name : string) | devm_gpiod_get_optional_out (name : string) (v : Z)
  | gpiod_direction_output (d v : Z) | gpiod_direction_input (d : Z)
  | gpiod_get_value (d : Z) | gpiod_set_value (d v : Z)
  | gpiod_set_value_cansleep (d v : Z) | gpiod_to_irq (d : Z)
  (* interrupts *)
  | request_irq (irq : Z) | request_threaded_irq (irq : Z) | free_irq (irq : Z)
  | devm_request_threaded_irq (irq : Z)
  | enable_irq (irq : Z) | disable_irq (irq : Z) | synchronize_irq (irq : Z)
  (* time *)
  | hrtimer_init (t : string) | hrtimer_start (t : string) (ns : Z)
  | hrtimer_cancel (t : string) | hrtimer_active (t : string)
  | hrtimer_forward (t : string) (ns : Z) | hrtimer_forward_now (t : string) (ns : Z)
  | udelay (us : Z) | jiffies
  (* memory *)
  | kzalloc (what : string) | kfree (p : Z) | devm_kzalloc (what : string)
  | kfifo_alloc (f : string) | kfifo_free (f : string)
  | user_access (n : Z)
  (* character devices, classes, attributes *)
  | alloc_chrdev_region | unregister_chrdev_region
  | register_chrdev (major : Z) | unregister_chrdev (major : Z)
  | cdev_init | cdev_add | cdev_del
  | class_create | class_destroy | device_create | device_destroy
  | device_create_file (a : string) | device_remove_file (a : string)
  | misc_register | misc_deregister
  | proc_create (n : string) | proc_remove (p : Z)
  | proc_create_single (n : string) | remove_proc_entry (n : string)
  | kobject_create_and_add (n : string) | kobject_put (k : Z)
  | sysfs_create_group (k : Z) | sysfs_remove_group (k : Z)
  (* tty layer *)
  | alloc_tty_driver | tty_alloc_driver | put_tty_driver (d : Z)
  | tty_register_driver (d : Z) | tty_unregister_driver (d : Z)
  | tty_port_init | tty_port_destroy
  | tty_register_device (d : Z) | tty_unregister_device (d : Z) | tty_port_link_device (d : Z)
  | tty_port_register_device (d : Z) | tty_device_destroy (d : Z) | tty_standard_install
  | tty_port_open | tty_port_close | tty_port_initialized
  | tty_insert_flip_char (c : Z) | tty_insert_flip_string (cs : list Z)
  | tty_flip_buffer_push | tty_get_baud_rate
  (* platform bus, work queues *)
  | platform_device_register_simple | platform_device_unregister (p : Z)
  | platform_driver_register | platform_driver_unregister
  | platform_set_drvdata
  | schedule_work (w : string) | cancel_work_sync (w : string)
  (* hardware stubs of the sources *)
  | hw_send (b : Z)
  (* memory mapped registers *)
  | readl (off : Z) | writel (v off : Z)
  (* SPI core, clocks, threads *)
  | spi_alloc_slave | spi_master_put
  | spi_bitbang_start | spi_bitbang_stop
  | devm_ioremap_resource | platform_get_irq | devm_clk_get (c : string)
  | clk_prepare_enable (c : string) | clk_disable_unprepare (c : string)
  | clk_get_rate (c : string)
  | kthread_create | wake_up_process (t : Z) | kthread_stop (t : Z)
  | sched_set_normal
  (* device tree, regulators *)
  | of_match_device | devm_regulator_bulk_get
  | regulator_bulk_enable | regulator_bulk_disable.

Record event := Ev { ev_call : call; ev_ret : Z }.
Abbreviation trace := (list event).

(** ** Programs *)
Record env (S : Type) := Env {
  answer : trace -> call -> Z;
  interfere : trace -> S -> S;
}.
Arguments Env {S}. Arguments answer {S}. Arguments interfere {S}.

Definition M (S A : Type) : Type := env S -> S -> trace -> A * S * trace.

#[export] Instance M_ret {S} : MRet (M S) := fun A a e s t => (a, s, t).
#[export] Instance M_bind {S} : MBind (M S) := fun A B f m e s t =>
  let '(a, s', t') := m e s t in f a e s' t'.

Section primitives.
Context {S : Type}.

Definition ask (c : call) : M S Z := fun e s t =>
  let r := answer e t c in (r, s, Ev c r :: t).
Definition gets {A} (f : S -> A) : M S A := fun e s t => (f s, s, t).
Definition modify (f : S -> S) : M S unit := fun e s t => (tt, f s, t).
(** Performs a call whose result the code drops. *)
Definition do_ (c : call) : M S unit := _ ← ask c; mret tt.
(** A call during which the task sleeps. *)
Definition sleep (c : call) : M S Z := fun e s t =>
  let r := answer e t c in (r, interfere e t s, Ev c r :: t).
Definition when (b : bool) (m : M S unit) : M S unit := if b then m else mret tt.
(** A counting loop, as the list of the values of its counter. *)
Fixpoint for_each {A} (f : A -> M S unit) (l : list A) : M S unit :=
  match l with [] => mret tt | x :: l' => f x;; for_each f l' end.
End primitives.

(** A program over a part of the state; it must not sleep. *)
Definition zoom {S T A} (get : T -> S) (put : S -> T -> T) (m : M S A) : M T A := fun e x t =>
  let '(a, s', t') := m (Env (answer e) (fun t s => get (interfere e t (put s x)))) (get x) t in
  (a, put s' x, t').

(** ** Timers *)
Inductive hrtimer_restart := HRTIMER_NORESTART | HRTIMER_RESTART.

#[export] Instance hrtimer_restart_eq_dec : EqDecision hrtimer_restart.
Proof. solve_decision. Defined.

Definition restarts (r : hrtimer_restart) : bool :=
  match r with HRTIMER_RESTART => true | HRTIMER_NORESTART => false end.

(** ** Weakest preconditions

    [wp e m Q s t]: run in the state [s] after the trace [t], the program [m]
    ends in a result, a state and a trace that satisfy [Q]. *)
Definition wp {S A} (e : env S) (m : M S A) (Q : A -> S -> trace -> Prop)
    (s : S) (t : trace) : Prop :=
  let '(a, s', t') := m e s t in Q a s' t'.

(** A run that satisfies a precondition satisfies the condition after it. *)
Lemma run_wp {S A} (m : M S A) e s t a s' t' (Q : A -> S -> trace -> Prop) :
  m e s t = (a, s', t') -> wp e m Q s t -> Q a s' t'.
Proof. unfold wp. by intros ->. Qed.

Section wp_rules.
Context {S : Type} (e : env S).
Implicit Types (s : S) (t : trace).

Lemma wp_ret {A} (a : A) Q s t : Q a s t -> wp e (mret a) Q s t.
Proof. done. Qed.

Lemma wp_bind {A B} (m : M S A) (f : A -> M S B) Q s t :
  wp e m (fun a s' t' => wp e (f a) Q s' t') s t -> wp e (m ≫= f) Q s t.
Proof.
  unfold wp, mbind, M_bind. by destruct (m e s t) as [[a s'] t'].
Qed.

Lemma wp_ask c (Q : Z -> S -> trace -> Prop) s t :
  (forall r, r = answer e t c -> Q r s (Ev c r :: t)) -> wp e (ask c) Q s t.
Proof. intros H. by apply H. Qed.

Lemma wp_sleep c (Q : Z -> S -> trace -> Prop) s t :
  (forall r, r = answer e t c -> Q r (interfere e t s) (Ev c r :: t)) ->
  wp e (sleep c) Q s t.
Proof. intros H. by apply H. Qed.

Lemma wp_do c (Q : unit -> S -> trace -> Prop) s t :
  (forall r, Q tt s (Ev c r :: t)) -> wp e (do_ c) Q s t.
Proof. intros H. by apply H. Qed.

Lemma wp_gets {A} (f : S -> A) Q s t : Q (f s) s t -> wp e (gets f) Q s t.
Proof. done. Qed.

Lemma wp_modify f (Q : unit -> S -> trace -> Prop) s t :
  Q tt (f s) t -> wp e (modify f) Q s t.
Proof. done. Qed.

Lemma wp_mono {A} (m : M S A) (Q Q' : A -> S -> trace -> Prop) s t :
  wp e m Q s t -> (forall a s' t', Q a s' t' -> Q' a s' t') -> wp e m Q' s t.
Proof. unfold wp. destruct (m e s t) as [[a s'] t']. auto. Qed.

(** A loop whose body is known to add the calls [body x] and to change the state
    by [step x]. *)
Lemma wp_for_each {A} (f : A -> M S unit) (Q : unit -> S -> trace -> Prop)
    (body : A -> list call) (step : A -> S -> S) l s t :
  (forall x s t (Q' : unit -> S -> trace -> Prop), x ∈ l ->
     (forall t', map ev_call t' = rev (body x) ++ map ev_call t -> Q' tt (step x s) t') ->
     wp e (f x) Q' s t) ->
  (forall t', map ev_call t' = rev (flat_map body l) ++ map ev_call t ->
     Q tt (foldl (fun s x => step x s) s l) t') ->
  wp e (for_each f l) Q s t.
Proof.
  revert s t. induction l as [|x l IH]; intros s t Hf HQ; cbn [for_each].
  - by apply HQ.
  - apply wp_bind, Hf; [left|]. intros t' Ht'. apply IH; [intros; apply Hf; [by right|done]|].
    intros t'' Ht''. apply HQ. cbn [flat_map]. by rewrite rev_app_distr, <- app_assoc, <- Ht'.
Qed.

Lemma wp_conj {A} (m : M S A) Q1 Q2 s t :
  wp e m Q1 s t -> wp e m Q2 s t -> wp e m (fun a s' t' => Q1 a s' t' /\ Q2 a s' t') s t.
Proof. unfold wp. by destruct (m e s t) as [[a s'] t']. Qed.
End wp_rules.

Lemma wp_zoom {S T A} (e : env T) (get : T -> S) put (m : M S A) Q x t :
  (forall e', wp e' m (fun a s' t' => Q a (put s' x) t') (get x) t) ->
  wp e (zoom get put m) Q x t.
Proof.
  intros H. unfold wp, zoom.
  specialize (H (Env (answer e) (fun t s => get (interfere e t (put s x))))). unfold wp in H.
  by destruct (m _ _ _) as [[a s'] t'].
Qed.

(** One step of symbolic execution; [wp_run] goes to the end of every branch,
    leaving one goal per path. *)
Ltac decide_test b :=
  lazymatch b with
  | c_true (- Zpos _) => change b with true
  | c_true (Zneg _) => change b with true
  | c_true (Zpos _) => change b with true
  | c_true 0 => change b with false
  | true => idtac
  | false => idtac
  | _ => first [match goal with H : b = _ |- _ => rewrite H end | destruct b eqn:?]
  end; cbn beta iota.
Ltac wp_step :=
  lazymatch goal with
  | |- wp _ (mbind _ _) _ _ _ => apply wp_bind
  | |- wp _ (mret _) _ _ _ => apply wp_ret
  | |- wp _ (ask _) _ _ _ => apply wp_ask; intros ? _
  | |- wp _ (do_ _) _ _ _ => apply wp_do; intros ?
  | |- wp _ (gets _) _ _ _ => apply wp_gets
  | |- wp _ (modify _) _ _ _ => apply wp_modify
  | |- wp _ (sleep _) _ _ _ => apply wp_sleep; intros ? _
  | |- wp _ (when ?b _) _ _ _ => decide_test b; cbn [when]
  | |- wp _ (if ?b then _ else _) _ _ _ => decide_test b
  end.
Ltac wp_run := repeat (wp_step; cbn beta zeta).

(** ** Resources *)
Inductive resource : Type :=
  | R_lock (l : string) | R_gpio (pin : Z) | R_gpiod (d : Z) | R_irq (irq : Z)
  | R_timer (t : string) | R_mem (p : Z) | R_fifo (f : string)
  | R_chrdev_region | R_chrdev (major : Z) | R_cdev | R_class | R_device
  | R_attr (a : string) | R_misc | R_proc (p : Z) | R_procname (n : string)
  | R_kobj (k : Z) | R_group (k : Z)
  | R_tty_driver (d : Z) | R_tty_registered (d : Z) | R_tty_device (d : Z) | R_tty_port
  | R_platform_device (p : Z) | R_platform_driver | R_work (w : string)
  | R_regulators | R_spi_master | R_spi_bitbang | R_clk (c : string) | R_thread (t : Z).

#[export] Instance resource_eq_dec : EqDecision resource.
Proof. solve_decision. Defined.

(** What a call does to the resources held.  [Ensure] and [Clear] are for the
    calls that may be repeated: arming an armed timer, cancelling an idle one. *)
Inductive effect : Type :=
  | Acquire (r : resource) | Release (r : resource)
  | Ensure (r : resource) | Clear (r : resource) | Neutral.

Definition acquire_if (ok : bool) (r : resource) : effect :=
  if ok then Acquire r else Neutral.

Definition effect_of (ev : event) : effect :=
  let r := ev_ret ev in
  let ok := r =? 0 in
  let valid := negb (IS_ERR r) in
  match ev_call ev with
  | spin_lock l | spin_lock_irq l | spin_lock_irqsave l => Acquire (R_lock l)
  | spin_unlock l | spin_unlock_irq l | spin_unlock_irqrestore l => Release (R_lock l)
  | gpio_request p => acquire_if ok (R_gpio p)
  | gpio_free p => Release (R_gpio p)
  | gpiod_get _ => acquire_if valid (R_gpiod r)
  | gpiod_put d => Release (R_gpiod d)
  | request_irq i | request_threaded_irq i => acquire_if ok (R_irq i)
  | free_irq i => Release (R_irq i)
  | hrtimer_start t _ => Ensure (R_timer t)
  | hrtimer_cancel t => Clear (R_timer t)
  | kzalloc _ => acquire_if (negb ok) (R_mem r)
  | kfree p => if p =? 0 then Neutral else Release (R_mem p)
  | kfifo_alloc f => acquire_if ok (R_fifo f)
  | kfifo_free f => Release (R_fifo f)
  | alloc_chrdev_region => acquire_if ok R_chrdev_region
  | unregister_chrdev_region => Release R_chrdev_region
  | register_chrdev m => acquire_if (0 <=? r) (R_chrdev m)
  | unregister_chrdev m => Release (R_chrdev m)
  | cdev_add => acquire_if ok R_cdev
  | cdev_del => Release R_cdev
  | class_create => acquire_if valid R_class
  | class_destroy => Release R_class
  | device_create => acquire_if valid R_device
  | device_destroy => Release R_device
  | device_create_file a => acquire_if ok (R_attr a)
  | device_remove_file a => Release (R_attr a)
  | misc_register => acquire_if ok R_misc
  | misc_deregister => Release R_misc
  | proc_create _ => acquire_if (negb ok) (R_proc r)
  | proc_remove p => Release (R_proc p)
  | proc_create_single n => acquire_if (negb ok) (R_procname n)
  | remove_proc_entry n => Release (R_procname n)
  | kobject_create_and_add _ => acquire_if (negb ok) (R_kobj r)
  | kobject_put k => Release (R_kobj k)
  | sysfs_create_group k => acquire_if ok (R_group k)
  | sysfs_remove_group k => Clear (R_group k)
  | alloc_tty_driver => acquire_if (negb ok) (R_tty_driver r)
  | tty_alloc_driver => acquire_if valid (R_tty_driver r)
  | put_tty_driver d => Release (R_tty_driver d)
  | tty_register_driver d => acquire_if ok (R_tty_registered d)
  | tty_unregister_driver d => Release (R_tty_registered d)
  | tty_port_init => Acquire R_tty_port
  | tty_port_destroy => Release R_tty_port
  | tty_register_device d | tty_port_register_device d =>
      acquire_if valid (R_tty_device d)
  | tty_unregister_device d | tty_device_destroy d => Release (R_tty_device d)
  | platform_device_register_simple => acquire_if valid (R_platform_device r)
  | platform_device_unregister p => Release (R_platform_device p)
  | platform_driver_register => acquire_if ok R_platform_driver
  | platform_driver_unregister => Release R_platform_driver
  | schedule_work w => Ensure (R_work w)
  | cancel_work_sync w => Clear (R_work w)
  | spi_alloc_slave => acquire_if (negb ok) R_spi_master
  | spi_master_put => Release R_spi_master
  | spi_bitbang_start => acquire_if ok R_spi_bitbang
  | spi_bitbang_stop => Release R_spi_bitbang
  | clk_prepare_enable c => acquire_if ok (R_clk c)
  | clk_disable_unprepare c => Release (R_clk c)
  | regulator_bulk_enable => acquire_if ok R_regulators
  | regulator_bulk_disable => if ok then Release R_regulators else Neutral
  | _ => Neutral
  end.

Definition mem (r : resource) (l : list resource) : bool :=
  existsb (fun x => bool_decide (r = x)) l.
Fixpoint remove1 (r : resource) (l : list resource) : list resource :=
  match l with
  | [] => []
  | x :: l' => if bool_decide (r = x) then l' else x :: remove1 r l'
  end.

Definition apply_effect (f : effect) (l : list resource) : option (list resource) :=
  match f with
  | Acquire (R_lock k) => if mem (R_lock k) l then None else Some (R_lock k :: l)
  | Acquire r => Some (r :: l)
  | Release r => if mem r l then Some (remove1 r l) else None
  | Ensure r => Some (if mem r l then l else r :: l)
  | Clear r => Some (remove1 r l)
  | Neutral => Some l
  end.

Fixpoint ledger_from (l0 : list resource) (t : trace) : option (list resource) :=
  match t with
  | [] => Some l0
  | ev :: t' => ledger_from l0 t' ≫= apply_effect (effect_of ev)
  end.
Abbreviation ledger := (ledger_from []).

Lemma ledger_from_cons l0 ev t :
  ledger_from l0 (ev :: t) = ledger_from l0 t ≫= apply_effect (effect_of ev).
Proof. done. Qed.

Lemma mem_cons_eq r l : mem r (r :: l) = true.
Proof. unfold mem; simpl. by rewrite bool_decide_eq_true_2. Qed.
Lemma remove1_cons_eq r l : remove1 r (r :: l) = l.
Proof. simpl. by rewrite bool_decide_eq_true_2. Qed.

Lemma IS_ERR_neg p : IS_ERR p = true -> p < 0.
Proof. unfold IS_ERR. intros [_ ?%Z.ltb_lt]%andb_true_iff. done. Qed.

(** Turns the tests left by [wp_run] into equations between booleans the
    [ledger] computes with. *)
Ltac norm_tests :=
  repeat match goal with
  | H : c_true _ = _ |- _ => unfold c_true in H
  | H : negb _ = true |- _ => apply negb_true_iff in H
  | H : negb _ = false |- _ => apply negb_false_iff in H
  | H : _ && _ = true |- _ => apply andb_true_iff in H as [? ?]
  | H : _ || _ = false |- _ => apply orb_false_iff in H as [? ?]
  end.

(** Evaluates a ledger on a trace of known calls. *)
Ltac rewrite_tests :=
  repeat match goal with
  | H : ?b = true |- context [?b] => rewrite H
  | H : ?b = false |- context [?b] => rewrite H
  | H : ledger_from ?l ?t = Some _ |- context [ledger_from ?l ?t] => rewrite H
  end.
Ltac decide_step :=
  match goal with
  | |- context [bool_decide (?x = ?x)] =>
      rewrite (bool_decide_eq_true_2 (x = x) eq_refl)
  | |- context [bool_decide (?x = ?y)] =>
      rewrite (bool_decide_eq_false_2 (x = y)) by (congruence || discriminate)
  | |- context [bool_decide (?x = ?y)] =>
      let E := fresh "Heq" in
      destruct (bool_decide_reflect (x = y)) as [E|];
      [injection E as E; rewrite ?E in *|]
  end.
Ltac ledger_cbn := cbn -[bool_decide Z.eqb Z.leb Z.ltb IS_ERR].
Ltac ledger_eval :=
  ledger_cbn; repeat (progress (rewrite_tests; repeat decide_step); ledger_cbn).

(** Closes the goals of one path: what is held is computed, and the remaining
    facts follow from the tests. *)
Ltac path_facts :=
  unfold PTR_ERR in *;
  repeat match goal with
  | H : (_ =? _) = true |- _ => apply Z.eqb_eq in H
  | H : (_ =? _) = false |- _ => apply Z.eqb_neq in H
  | H : (_ <? _) = true |- _ => apply Z.ltb_lt in H
  | H : (_ <? _) = false |- _ => apply Z.ltb_ge in H
  | H : (_ <=? _) = true |- _ => apply Z.leb_le in H
  | H : (_ <=? _) = false |- _ => apply Z.leb_gt in H
  | H : IS_ERR _ = true |- _ => apply IS_ERR_neg in H
  end.

(** Discharges a path whose tests contradict each other. *)
Ltac path_contra := exfalso; path_facts; lia.

(** Cases for the results that the code does not look at. *)
Ltac split_results :=
  repeat match goal with
  | |- context [acquire_if (negb ?b) _] => destruct b eqn:?; ledger_eval
  | |- context [acquire_if ?b _] => destruct b eqn:?; ledger_eval
  end.

(** Runs the ledger over the trace of one path. *)
Ltac path_ledger :=
  norm_tests; ledger_eval; split_results; try discriminate; try (path_contra).

(** ** Probe and remove *)
(** A probe that fails holds nothing, and what one that succeeds holds is given back
    by [remove]. *)
Definition balanced {S} (e : env S) (probe remove : M S Z) (s : S) : Prop :=
  wp e probe (fun r s' t' =>
    if r =? 0 then wp e remove (fun _ _ t'' => ledger t'' = Some []) s' t'
    else ledger t' = Some []) s [].

(** Every path of a probe that holds nothing in the end, or everything. *)
Ltac end_path :=
  norm_tests;
  lazymatch goal with |- if ?b then _ else _ => destruct b eqn:? end; try path_contra;
  wp_run; path_ledger; try done.
Ltac balanced_paths := wp_run; end_path.

(** ** An environment in which every call succeeds

    For the witnesses: allocations give a non-null pointer, everything else 0. *)
Definition granted (c : call) : Z :=
  match c with
  | kzalloc _ | devm_kzalloc _ | proc_create _ | proc_create_single _
  | kobject_create_and_add _
  | class_create | device_create | platform_device_register_simple
  | alloc_tty_driver | tty_alloc_driver | tty_register_device _
  | tty_port_register_device _ | gpiod_get _ | gpio_to_desc _ | devm_gpiod_get_optional _
  | devm_gpiod_get_optional_out _ _ | of_match_device | gpio_to_irq _ | gpiod_to_irq _ | devm_clk_get _ | devm_ioremap_resource
  | platform_get_irq | spi_alloc_slave | kthread_create => 4096
  | _ => 0
  end.
Definition calm {S} : env S := Env (fun _ c => granted c) (fun _ s => s).

(** The calls of a trace, oldest first. *)
Definition calls (t : trace) : list call := rev (map ev_call t).

(** A flag the kernel keeps, such as whether a timer is armed: what the newest
    call that sets or clears it left, [b0] before the first one. *)
Fixpoint flag (sets clears : call -> bool) (b0 : bool) (t : trace) : bool :=
  match t with
  | [] => b0
  | ev :: t' =>
      if sets (ev_call ev) then true
      else if clears (ev_call ev) then false
      else flag sets clears b0 t'
  end.
