(* ===== verification/TxRing.v ===== *)
(** * The software transmit ring

    [soft_uart/gpt/tx_ring.c].  The operations run under the ring's own spin
    lock; [contents] is the queue of bytes the ring stands for, and each
    operation is shown to refine the corresponding operation of a queue of at
    most 511 bytes, with the lock given back on every path. *)
From S2P Require Import Prelude.
From S2P Require Import Circ.
From S2P Require Import Kernel.
From stdpp Require Import options.

Definition TX_BUF_SIZE : Z := 512.

Record tx_ring := TxRing { tx_buf : list Z; tx_head : Z; tx_tail : Z }.

Definition set_head (h : Z) (r : tx_ring) : tx_ring := TxRing (tx_buf r) h (tx_tail r).
Definition set_tail (t : Z) (r : tx_ring) : tx_ring := TxRing (tx_buf r) (tx_head r) t.
(** [r->buf[i] = x]; [wf] keeps [i] inside the array. *)
Definition store_buf (i x : Z) (r : tx_ring) : tx_ring :=
  TxRing (<[Z.to_nat i := x]> (tx_buf r)) (tx_head r) (tx_tail r).

Definition tx_ring_init : M tx_ring unit :=
  modify (set_head 0);; modify (set_tail 0).

Definition tx_ring_put (byte : Z) : M tx_ring bool :=
  do_ (spin_lock_irqsave "lock");;
  head ← gets tx_head;
  tail ← gets tx_tail;
  let next := u32 (head + 1) mod TX_BUF_SIZE in
  if next =? tail then
    do_ (spin_unlock_irqrestore "lock");;
    mret false
  else
    modify (store_buf head byte);;
    modify (set_head next);;
    do_ (spin_unlock_irqrestore "lock");;
    mret true.

(** [*byte] is the second component, defined when the first one is true. *)
Definition tx_ring_get : M tx_ring (bool * option Z) :=
  do_ (spin_lock_irqsave "lock");;
  head ← gets tx_head;
  tail ← gets tx_tail;
  if head =? tail then
    do_ (spin_unlock_irqrestore "lock");;
    mret (false, None)
  else
    byte ← gets (fun r => zget (tx_buf r) tail);
    modify (set_tail (u32 (tail + 1) mod TX_BUF_SIZE));;
    do_ (spin_unlock_irqrestore "lock");;
    mret (true, byte).

Definition tx_ring_count : M tx_ring Z :=
  do_ (spin_lock_irqsave "lock");;
  count ← gets (fun r => u32 (tx_head r + TX_BUF_SIZE - tx_tail r) mod TX_BUF_SIZE);
  do_ (spin_unlock_irqrestore "lock");;
  mret count.

(** ** Invariant and abstraction *)
Definition wf (r : tx_ring) : Prop :=
  Z.of_nat (length (tx_buf r)) = TX_BUF_SIZE /\
  0 <= tx_head r < TX_BUF_SIZE /\ 0 <= tx_tail r < TX_BUF_SIZE.

Definition contents (r : tx_ring) : list Z :=
  circ_contents TX_BUF_SIZE (tx_buf r) (tx_head r) (tx_tail r).

(** The queue a ring implements. *)
Definition queue_capacity : nat := 511.
Definition queue_put (x : Z) (q : list Z) : bool * list Z :=
  if (length q <? queue_capacity)%nat then (true, q ++ [x]) else (false, q).
Definition queue_get (q : list Z) : (bool * option Z) * list Z :=
  match q with [] => ((false, None), []) | x :: q' => ((true, Some x), q') end.

(** The trace of one critical section. *)
Definition locked (t : trace) (t' : trace) : Prop :=
  exists r1 r2, t' = Ev (spin_unlock_irqrestore "lock") r1 :: Ev (spin_lock_irqsave "lock") r2 :: t.

Lemma locked_ledger t t' L :
  locked t t' -> ledger t = Some L -> mem (R_lock "lock") L = false -> ledger t' = Some L.
Proof.
  intros (r1 & r2 & ->) HL Hm. rewrite !ledger_from_cons, HL. cbn -[mem remove1].
  rewrite Hm. cbn -[mem remove1]. by rewrite mem_cons_eq, remove1_cons_eq.
Qed.

Lemma size_gt1 : 1 < TX_BUF_SIZE. Proof. unfold TX_BUF_SIZE. lia. Qed.
#[local] Hint Resolve size_gt1 : core.

Lemma u32_succ_index i : 0 <= i < TX_BUF_SIZE -> u32 (i + 1) = i + 1.
Proof. unfold TX_BUF_SIZE. intros. apply wrapu_small. lia. Qed.

Lemma contents_length r : Z.of_nat (length (contents r)) =
  circ_count TX_BUF_SIZE (tx_head r) (tx_tail r).
Proof. by apply circ_contents_length. Qed.

Lemma queue_put_full r : wf r ->
  (length (contents r) <? queue_capacity)%nat =
  negb ((tx_head r + 1) mod TX_BUF_SIZE =? tx_tail r).
Proof.
  intros (_ & Hh & Ht). pose proof (contents_length r) as Hl.
  pose proof (circ_full_iff _ size_gt1 _ _ Hh Ht) as Hf.
  pose proof (circ_count_range _ size_gt1 (tx_head r) (tx_tail r)).
  unfold queue_capacity, TX_BUF_SIZE in *.
  destruct (Z.eqb_spec ((tx_head r + 1) mod 512) (tx_tail r)) as [He|He]; simpl.
  - apply Nat.ltb_ge. lia.
  - apply Nat.ltb_lt. destruct Hf as [_ Hf]. lia.
Qed.

Lemma put_refines (e : env tx_ring) r t byte : wf r ->
  wp e (tx_ring_put byte) (fun ok r' t' =>
    wf r' /\ (ok, contents r') = queue_put byte (contents r) /\ locked t t') r t.
Proof.
  intros Hwf. unfold queue_put. rewrite queue_put_full by done.
  destruct Hwf as (Hl & Hh & Ht). pose proof (circ_full_iff _ size_gt1 _ _ Hh Ht) as Hf.
  pose proof (circ_count_range _ size_gt1 (tx_head r) (tx_tail r)).
  unfold tx_ring_put. wp_run; rewrite u32_succ_index in * by done;
    (split; [|split; [|by eexists _, _]]).
  - done.
  - by rewrite Heqb.
  - repeat split; simpl; try lia; [by rewrite length_insert|..]; by apply circ_succ_range.
  - rewrite Heqb. simpl. f_equal. apply Z.eqb_neq in Heqb.
    assert (circ_count TX_BUF_SIZE (tx_head r) (tx_tail r) <> TX_BUF_SIZE - 1)
      by (intros E; by apply Heqb, Hf).
    apply circ_contents_push; auto; simpl; lia.
Qed.

Lemma get_refines (e : env tx_ring) r t : wf r ->
  wp e tx_ring_get (fun out r' t' =>
    wf r' /\ (out, contents r') = queue_get (contents r) /\ locked t t') r t.
Proof.
  intros (Hl & Hh & Ht). pose proof (circ_empty_iff _ size_gt1 _ _ Hh Ht) as He.
  pose proof (circ_count_range _ size_gt1 (tx_head r) (tx_tail r)).
  unfold tx_ring_get. wp_run; (split; [|split; [|by eexists _, _]]); try done.
  - apply Z.eqb_eq in Heqb. assert (contents r = []) as ->; [|done].
    apply length_zero_iff_nil. pose proof (contents_length r). lia.
  - rewrite u32_succ_index by done. repeat split; simpl; try lia; by apply circ_succ_range.
  - apply Z.eqb_neq in Heqb. rewrite u32_succ_index by done.
    unfold contents at 2. rewrite (circ_contents_pop _ size_gt1) by lia. simpl.
    rewrite zget_lookup by lia. f_equal. f_equal.
    destruct (lookup_lt_is_Some_2 (tx_buf r) (Z.to_nat (tx_tail r))) as [x Hx]; [lia|].
    rewrite Hx. f_equal. symmetry. rewrite nth_lookup, Hx. done.
Qed.

Lemma count_refines (e : env tx_ring) r t : wf r ->
  wp e tx_ring_count (fun n r' t' =>
    n = Z.of_nat (length (contents r)) /\ r' = r /\ locked t t') r t.
Proof.
  intros (Hl & Hh & Ht). unfold tx_ring_count. wp_run.
  split; [|split; [done|by eexists _, _]]. rewrite contents_length.
  unfold circ_count, TX_BUF_SIZE in *. rewrite wrapu_small by lia.
  replace (tx_head r + 512 - tx_tail r) with (tx_head r - tx_tail r + 1 * 512) by lia.
  by rewrite Z.mod_add.
Qed.

(** [tx_ring_init] gives the empty queue. *)
Lemma tx_ring_init_empty (e : env tx_ring) r t :
  Z.of_nat (length (tx_buf r)) = TX_BUF_SIZE ->
  wp e tx_ring_init (fun _ r' t' => wf r' /\ contents r' = [] /\ t' = t) r t.
Proof. intros Hl. unfold tx_ring_init. wp_run. unfold wf. by repeat split. Qed.

(** ** The ring as a queue *)
Inductive ring_op := Put (byte : Z) | Get | Count.
Inductive ring_result := R_put (ok : bool) | R_get (out : bool * option Z) | R_count (n : Z).

Definition run_op (o : ring_op) : M tx_ring ring_result :=
  match o with
  | Put b => ok ← tx_ring_put b; mret (R_put ok)
  | Get => out ← tx_ring_get; mret (R_get out)
  | Count => n ← tx_ring_count; mret (R_count n)
  end.

Fixpoint run_ops (os : list ring_op) : M tx_ring (list ring_result) :=
  match os with
  | [] => mret []
  | o :: os' => r ← run_op o; rs ← run_ops os'; mret (r :: rs)
  end.

Definition queue_op (o : ring_op) (q : list Z) : ring_result * list Z :=
  match o with
  | Put b => let '(ok, q') := queue_put b q in (R_put ok, q')
  | Get => let '(out, q') := queue_get q in (R_get out, q')
  | Count => (R_count (Z.of_nat (length q)), q)
  end.

Fixpoint queue_ops (os : list ring_op) (q : list Z) : list ring_result * list Z :=
  match os with
  | [] => ([], q)
  | o :: os' =>
      let '(r, q1) := queue_op o q in
      let '(rs, q2) := queue_ops os' q1 in (r :: rs, q2)
  end.

Lemma run_op_refines (e : env tx_ring) o r t : wf r ->
  wp e (run_op o) (fun res r' t' =>
    wf r' /\ (res, contents r') = queue_op o (contents r) /\ locked t t') r t.
Proof.
  intros Hwf. destruct o as [b| |]; unfold run_op, queue_op; apply wp_bind.
  - eapply wp_mono; [by apply put_refines|]. intros ok r' t' (Hw & Hq & Hl). apply wp_ret.
    by rewrite <- Hq.
  - eapply wp_mono; [by apply get_refines|]. intros out r' t' (Hw & Hq & Hl). apply wp_ret.
    by rewrite <- Hq.
  - eapply wp_mono; [by apply count_refines|]. intros n r' t' (-> & -> & Hl). by apply wp_ret.
Qed.

(** C16: initialised once, the ring behaves under any sequence of operations as a
    queue of at most 511 bytes: every result, full and empty rings included, and
    the bytes left at the end are those of the queue, indices never leave the
    buffer, and every operation releases the lock it took. *)
Theorem tx_ring_implements_queue (e : env tx_ring) os r :
  Z.of_nat (length (tx_buf r)) = TX_BUF_SIZE ->
  wp e (tx_ring_init;; run_ops os) (fun res r' t' =>
    wf r' /\ (res, contents r') = queue_ops os [] /\ ledger t' = Some []) r [].
Proof.
  intros Hl. apply wp_bind. eapply wp_mono; [by apply tx_ring_init_empty|].
  intros _ r1 t1 (Hwf & Hc & ->). rewrite <- Hc. clear Hc Hl.
  assert (ledger [] = Some []) as HL by done. revert HL. generalize (@nil event) as t.
  revert r1 Hwf. induction os as [|o os IH]; intros r1 Hwf t HL; cbn [run_ops queue_ops].
  - by apply wp_ret.
  - apply wp_bind. eapply wp_mono; [by apply run_op_refines|].
    intros res r2 t2 (Hwf2 & Hq & Hlk). rewrite <- Hq. apply wp_bind.
    eapply wp_mono; [apply IH; [done|by eapply locked_ledger]|].
    intros rs r3 t3 (Hwf3 & Hq3 & HL3). apply wp_ret. by rewrite <- Hq3.
Qed.

(** ** Concrete runs *)
Lemma tx_ring_implements_queue_witness :
  wp calm (tx_ring_init;; run_ops [Put 65; Put 66; Count; Get; Get; Get]) (fun res r' _ =>
    res = [R_put true; R_put true; R_count 2; R_get (true, Some 65); R_get (true, Some 66);
           R_get (false, None)] /\ contents r' = []) (TxRing (replicate 512 7) 511 510) [].
Proof.
  eapply wp_mono; [apply (tx_ring_implements_queue calm); reflexivity|].
  intros res r' t' (_ & Hq & _). cbn in Hq. injection Hq as Hres Hc. split; [exact Hres|exact Hc].
Defined.
