(* ===== verification/Wire.v ===== *)
(** * Serial frames and the levels of a line

    Specification vocabulary of the UART drivers: the bits of a byte in the
    order they are sent, its parity, and the level of a line that carries a
    frame, as a function of the time since the falling edge of its start bit. *)
From S2P Require Import Prelude.
From S2P Require Import Kernel.
From stdpp Require Import options.

(** The eight data bits, least significant first. *)
Definition data_bits (b : Z) : list Z := map (fun i => bit (Z.of_nat i) b) (seq 0 8).

(** Number of ones modulo two. *)
Definition odd_ones (bs : list Z) : Z := foldr Z.lxor 0 bs.
Definition parity (b : Z) : Z := odd_ones (data_bits b).

(** The byte whose bits are [bs], least significant first. *)
Fixpoint of_bits (bs : list Z) : Z :=
  match bs with [] => 0 | v :: bs' => v + 2 * of_bits bs' end.

Lemma of_data_bits b : 0 <= b < 256 -> of_bits (data_bits b) = b.
Proof.
  intros Hb. apply Z.eqb_eq, (byte_cases (fun b => of_bits (data_bits b) =? b)); [|done].
  by vm_compute.
Qed.

Lemma data_bits_01 b : Forall (fun v => v = 0 \/ v = 1) (data_bits b).
Proof.
  unfold data_bits. apply Forall_map, Forall_forall. intros i _; simpl.
  rewrite bit_testbit by lia. destruct (Z.testbit _ _); auto.
Qed.

Lemma data_bits_length b : length (data_bits b) = 8%nat. Proof. done. Qed.

Lemma data_bits_lookup b i : 0 <= i < 8 -> nth (Z.to_nat i) (data_bits b) 1 = bit i b.
Proof.
  intros Hi. destruct (decide (i = 0)) as [->|]; [done|].
  destruct (decide (i = 1)) as [->|]; [done|]. destruct (decide (i = 2)) as [->|]; [done|].
  destruct (decide (i = 3)) as [->|]; [done|]. destruct (decide (i = 4)) as [->|]; [done|].
  destruct (decide (i = 5)) as [->|]; [done|]. destruct (decide (i = 6)) as [->|]; [done|].
  destruct (decide (i = 7)) as [->|]; [done|]. lia.
Qed.

Lemma parity_01 b : parity b = 0 \/ parity b = 1.
Proof.
  unfold parity. generalize (data_bits_01 b). generalize (data_bits b).
  induction l as [|v l IH]; simpl; [by left|].
  intros [[-> | ->] Hl]%Forall_cons; destruct (IH Hl) as [-> | ->]; by vm_compute; auto.
Qed.

(** Level of a line that carries [levels], one per [period], and idles high. *)
Definition line_level (period : Z) (levels : list Z) (time : Z) : Z :=
  if time <? 0 then 1 else nth (Z.to_nat (time / period)) levels 1.

Lemma line_level_slot period levels time k :
  0 < period -> 0 <= k -> k * period <= time < (k + 1) * period ->
  line_level period levels time = nth (Z.to_nat k) levels 1.
Proof.
  intros Hp Hk Ht. unfold line_level.
  destruct (Z.ltb_spec time 0); [nia|].
  replace (time / period) with k; [done|].
  apply (Z.div_unique _ _ _ (time - k * period)); lia.
Qed.

(** The levels a program drives on a pin, oldest first. *)
Fixpoint driven (pin : Z) (t : trace) : list Z :=
  match t with
  | [] => []
  | Ev (gpio_set_value p v) _ :: t' =>
      if p =? pin then driven pin t' ++ [v] else driven pin t'
  | _ :: t' => driven pin t'
  end.

(** The level of an output that a program holds for a while, as the pairs of
    level and microseconds; [level] is the level before. *)
Fixpoint wave (level : Z) (cs : list call) : list (Z * Z) :=
  match cs with
  | [] => []
  | gpiod_set_value _ v :: cs' => wave v cs'
  | udelay us :: cs' => (level, us) :: wave level cs'
  | _ :: cs' => wave level cs'
  end.

(** The level of a wave at an instant; [scale] instants are one microsecond, and
    the last level stays. *)
Fixpoint level_at (scale idle : Z) (w : list (Z * Z)) (time : Z) : Z :=
  match w with
  | [] => idle
  | (v, us) :: w' =>
      if time <? scale * us then v else level_at scale v w' (time - scale * us)
  end.

(** The characters given to the terminal layer, oldest first. *)
Fixpoint inserted (t : trace) : list Z :=
  match t with
  | [] => []
  | Ev (tty_insert_flip_char c) _ :: t' => inserted t' ++ [c]
  | Ev (tty_insert_flip_string cs) _ :: t' => inserted t' ++ cs
  | _ :: t' => inserted t'
  end.

(** A wave of equal steps. *)
Lemma level_at_steps scale idle us levels time k :
  0 < scale * us -> (k < length levels)%nat ->
  Z.of_nat k * (scale * us) <= time < (Z.of_nat k + 1) * (scale * us) ->
  level_at scale idle (map (fun v => (v, us)) levels) time = nth k levels 1.
Proof.
  intros Hp. revert idle levels time. induction k as [|k IH]; intros idle levels time Hk Ht;
    (destruct levels as [|v levels]; cbn [length] in *; [lia|]); cbn [map level_at nth].
  - destruct (Z.ltb_spec time (scale * us)); [done|lia].
  - destruct (Z.ltb_spec time (scale * us)); [nia|]. apply IH; [lia|]. nia.
Qed.

(** The environment in which every reading of a pin gives the level [v]. *)
Definition with_level {S} (v : Z) (e : env S) : env S :=
  Env (fun t c => match c with
                  | gpio_get_value _ | gpiod_get_value _ => v
                  | _ => answer e t c
                  end) (interfere e).

(** ** Callbacks that sample the line *)
Section levels.
Context {S A : Type}.

(** The program runs at an instant when the line is at level [v]. *)
Definition at_level {B} (v : Z) (m : M S B) : M S B := fun e => m (with_level v e).

(** The callback [cb] runs once for every level. *)
Fixpoint run_levels (cb : M S A) (levels : list Z) : M S (list A) :=
  match levels with
  | [] => mret []
  | v :: levels' =>
      r ← at_level v cb;
      rs ← run_levels cb levels';
      mret (r :: rs)
  end.

Lemma wp_at_level {B} (e : env S) v (m : M S B) Q s t :
  wp (with_level v e) m Q s t -> wp e (at_level v m) Q s t.
Proof. done. Qed.

Lemma run_levels_app (e : env S) cb l1 l2 Q s t :
  wp e (run_levels cb l1)
    (fun r1 s1 t1 => wp e (run_levels cb l2) (fun r2 => Q (r1 ++ r2)) s1 t1) s t ->
  wp e (run_levels cb (l1 ++ l2)) Q s t.
Proof.
  assert (run_levels cb (l1 ++ l2) e s t =
          let '(r1, s1, t1) := run_levels cb l1 e s t in
          let '(r2, s2, t2) := run_levels cb l2 e s1 t1 in (r1 ++ r2, s2, t2)) as Heq.
  { clear. revert s t. induction l1 as [|v l1 IH]; intros s t; cbn [app run_levels].
    - unfold mret, M_ret. by destruct (run_levels cb l2 e s t) as [[r2 s2] t2].
    - unfold mbind, M_bind, mret, M_ret. destruct (at_level v cb e s t) as [[r s'] t'].
      rewrite IH. destruct (run_levels cb l1 e s' t') as [[r1 s1] t1].
      by destruct (run_levels cb l2 e s1 t1) as [[r2 s2] t2]. }
  unfold wp. rewrite Heq. unfold wp. destruct (run_levels cb l1 e s t) as [[r1 s1] t1].
  by destruct (run_levels cb l2 e s1 t1) as [[r2 s2] t2].
Qed.
End levels.

(** Bytes as received: least significant bit first. *)
Lemma of_bits_range vs : length vs = 8%nat -> Forall (fun v => v = 0 \/ v = 1) vs ->
  0 <= of_bits vs < 256.
Proof.
  intros Hl Hv. do 8 (destruct vs as [|? vs]; [discriminate Hl|]). destruct vs; [|discriminate Hl].
  rewrite !Forall_cons in Hv. destruct_and! Hv. cbn [of_bits]. lia.
Qed.
