(* ===== verification/Kfifo.v ===== *)
(** * The kernel's byte queue

    [linux/kfifo.h] is not part of the repository: the drivers are modelled
    over any implementation of its operations ([Kfifo]), and their theorems use
    its documented behaviour ([KfifoSpec]): a queue of at most [capacity]
    elements, where [kfifo_in] copies what fits, [kfifo_out] removes what there
    is, and the user-space variants stop at a faulting address.  [list_fifo] is
    an implementation, which shows that the hypotheses can be met. *)
From S2P Require Import Prelude.
From S2P Require Import Kernel.
From stdpp Require Import options.

Class Kfifo (F : Type) := {
  (** [kfifo_in (&f, buf, n)] with [buf] of [n] bytes; the number copied. *)
  kfifo_in : list Z -> F -> F * Z;
  (** [kfifo_out (&f, buf, n)]; the bytes stored in [buf]. *)
  kfifo_out : Z -> F -> F * list Z;
  (** [kfifo_to_user (&f, to, n, &copied)]: the result and the bytes that reached
      user space.  The first argument is the number of bytes the user address
      refuses, 0 for an access that succeeds. *)
  kfifo_to_user : Z -> Z -> F -> F * (Z * list Z);
  (** [kfifo_from_user (&f, from, n, &copied)]: the result and [copied]. *)
  kfifo_from_user : Z -> list Z -> F -> F * (Z * Z);
  kfifo_is_empty : F -> bool;
  kfifo_is_full : F -> bool;
  kfifo_len : F -> Z;
  kfifo_reset : F -> F;
}.

Class KfifoSpec (F : Type) `{Kfifo F} := {
  items : F -> list Z;
  capacity : nat;
  capacity_pos : (0 < capacity)%nat;
  items_bound f : (length (items f) <= capacity)%nat;
  kfifo_is_empty_spec f : kfifo_is_empty f = (length (items f) =? 0)%nat;
  kfifo_is_full_spec f : kfifo_is_full f = (length (items f) =? capacity)%nat;
  kfifo_len_spec f : kfifo_len f = Z.of_nat (length (items f));
  kfifo_reset_spec f : items (kfifo_reset f) = [];
  kfifo_in_spec xs f f' n : kfifo_in xs f = (f', n) ->
    items f' = items f ++ take (capacity - length (items f)) xs /\
    n = Z.of_nat (min (length xs) (capacity - length (items f)));
  kfifo_out_spec k f f' out : 0 <= k -> kfifo_out k f = (f', out) ->
    items f' = drop (Z.to_nat k) (items f) /\ out = take (Z.to_nat k) (items f);
  kfifo_to_user_spec u k f f' r out : 0 <= u -> 0 <= k ->
    kfifo_to_user u k f = (f', (r, out)) ->
    items f = out ++ items f' /\ (length out <= Z.to_nat k)%nat /\
    (u = 0 -> r = 0 /\ out = take (Z.to_nat k) (items f)) /\
    (u <> 0 -> r = - EFAULT);
  kfifo_from_user_spec u xs f f' r n : 0 <= u ->
    kfifo_from_user u xs f = (f', (r, n)) ->
    0 <= n <= Z.of_nat (length xs) /\
    items f' = items f ++ take (Z.to_nat n) xs /\
    (u = 0 -> r = 0 /\ n = Z.of_nat (min (length xs) (capacity - length (items f)))) /\
    (u <> 0 -> r = - EFAULT);
}.

Section derived.
Context `{HF : KfifoSpec F}.
Implicit Types f : F.

(** The overwrite-on-full step of the receive paths: drop the oldest byte of a
    full queue, then append. *)
Definition push_overwrite (x : Z) f : F :=
  let f1 := if kfifo_is_full f then fst (kfifo_out 1 f) else f in
  fst (kfifo_in [x] f1).

Lemma push_overwrite_items x f :
  items (push_overwrite x f) = lastn capacity (items f ++ [x]).
Proof.
  unfold push_overwrite. pose proof (items_bound f) as Hb. pose proof capacity_pos as Hc.
  rewrite kfifo_is_full_spec. destruct (Nat.eqb_spec (length (items f)) capacity) as [Hf|Hf].
  - destruct (kfifo_out 1 f) as [f1 out] eqn:Ho. simpl.
    apply kfifo_out_spec in Ho as [Ho _]; [|lia].
    destruct (kfifo_in [x] f1) as [f2 n] eqn:Hi. simpl.
    apply kfifo_in_spec in Hi as [-> _]. rewrite Ho.
    unfold lastn. rewrite length_app, length_drop, Hf. simpl.
    rewrite take_ge by (simpl; lia). rewrite skipn_app.
    replace (capacity + 1 - capacity)%nat with 1%nat by lia.
    by replace (1 - length (items f))%nat with 0%nat by lia.
  - destruct (kfifo_in [x] f) as [f2 n] eqn:Hi. simpl.
    apply kfifo_in_spec in Hi as [-> _]. rewrite take_ge by (simpl; lia).
    rewrite lastn_all; [done|]. rewrite length_app. simpl. lia.
Qed.

(** A receive queue holds the last [capacity] bytes that arrived. *)
Lemma push_overwrite_history xs f :
  items (foldl (fun f x => push_overwrite x f) f xs) = lastn capacity (items f ++ xs).
Proof.
  revert f. induction xs as [|x xs IH]; intros f; simpl.
  - rewrite app_nil_r, lastn_all; [done|apply items_bound].
  - by rewrite IH, push_overwrite_items, lastn_app, <- app_assoc.
Qed.

Lemma kfifo_empty_nil f : kfifo_is_empty f = true <-> items f = [].
Proof.
  rewrite kfifo_is_empty_spec, Nat.eqb_eq. split; [apply length_zero_iff_nil|by intros ->].
Qed.
End derived.

(** ** An implementation *)
Definition FIFO_CAP : nat := 1024.
Definition list_fifo : Type := list Z.
Definition lf_items (f : list_fifo) : list Z := take FIFO_CAP f.

#[export] Instance list_kfifo : Kfifo list_fifo := {
  kfifo_in xs f :=
    let room := (FIFO_CAP - length (lf_items f))%nat in
    (lf_items f ++ take room xs, Z.of_nat (min (length xs) room));
  kfifo_out k f := (drop (Z.to_nat k) (lf_items f), take (Z.to_nat k) (lf_items f));
  kfifo_to_user u k f :=
    let n := if u =? 0 then Z.to_nat k else (Z.to_nat k - Z.to_nat u)%nat in
    (drop n (lf_items f), (if u =? 0 then 0 else - EFAULT, take n (lf_items f)));
  kfifo_from_user u xs f :=
    let n := if u =? 0 then min (length xs) (FIFO_CAP - length (lf_items f))
             else min (length xs - Z.to_nat u) (FIFO_CAP - length (lf_items f)) in
    (lf_items f ++ take n xs, (if u =? 0 then 0 else - EFAULT, Z.of_nat n));
  kfifo_is_empty f := (length (lf_items f) =? 0)%nat;
  kfifo_is_full f := (length (lf_items f) =? FIFO_CAP)%nat;
  kfifo_len f := Z.of_nat (length (lf_items f));
  kfifo_reset f := [];
}.

Lemma lf_items_bound f : (length (lf_items f) <= FIFO_CAP)%nat.
Proof. unfold lf_items. rewrite length_take. lia. Qed.

Lemma lf_items_id f : (length f <= FIFO_CAP)%nat -> lf_items f = f.
Proof. apply take_ge. Qed.

#[export] Program Instance list_kfifo_spec : KfifoSpec list_fifo := {
  items := lf_items;
  capacity := FIFO_CAP;
}.
Next Obligation. unfold FIFO_CAP. lia. Qed.
Next Obligation. intros. apply lf_items_bound. Qed.
Next Obligation. done. Qed.
Next Obligation. done. Qed.
Next Obligation. done. Qed.
Next Obligation. done. Qed.
Next Obligation.
  intros xs f f' n [= <- <-]. split; [|done]. apply lf_items_id.
  rewrite length_app, length_take. pose proof (lf_items_bound f). lia.
Qed.
Next Obligation.
  intros k f f' out Hk [= <- <-]. split; [|done]. apply lf_items_id.
  rewrite length_drop. pose proof (lf_items_bound f). lia.
Qed.
Next Obligation.
  intros u k f f' r out Hu Hk [= <- <- <-]. pose proof (lf_items_bound f).
  split; [|split; [|split]].
  - rewrite (lf_items_id (drop _ _)) by (rewrite length_drop; lia). by rewrite take_drop.
  - rewrite length_take. destruct (u =? 0); lia.
  - by intros ->.
  - intros Hne. by destruct (Z.eqb_spec u 0).
Qed.
Next Obligation.
  intros u xs f f' r n Hu [= <- <- <-]. pose proof (lf_items_bound f).
  split; [destruct (u =? 0); lia|]. split; [|split].
  - rewrite lf_items_id; [by rewrite Nat2Z.id|].
    rewrite length_app, length_take. destruct (u =? 0); lia.
  - by intros ->.
  - intros Hne. by destruct (Z.eqb_spec u 0).
Qed.
