(* ===== verification/BitbangUart.v ===== *)
(** * The bit-bang UART core

    [soft_uart/bitbang/uart.c] over the records of [bitbang.h]: the character
    queues, the two timer callbacks that shift a frame out and in, the receive
    interrupt, open and close, and the set-up and tear-down of pins, interrupt
    and timers.  The state of every program is [bitbang_priv], whose field
    [uart] is the [struct bitbang_uart] that [priv->uart] points to; [stats] is
    shared with it, as [d->stats] is [&priv->stats].  Debug printing is left
    out. *)
From S2P Require Import Prelude.
From S2P Require Import Kernel.
From S2P Require Import Wire.
From S2P Require Import Kfifo.
From stdpp Require Import options.

Record bitbang_chr := Chr { idx : Z; parity_bit : Z; data : Z }.

Record bitbang_stats := Stats {
  tx_counter : Z;
  rx_counter : Z;
  rx_errs_start : Z;
  rx_errs_stop : Z;
  rx_errs_parity : Z;
}.

Record bitbang_uart (F : Type) := Uart {
  period : Z;
  half_period : Z;
  irq : Z;
  tx_fifo : F;
  rx_fifo : F;
  tx_chr : bitbang_chr;
  rx_chr : bitbang_chr;
  tx_gpio : Z;
  rx_gpio : Z;
  open_count : Z;
}.

Record bitbang_priv (F : Type) := Priv {
  uart : bitbang_uart F;
  stats : bitbang_stats;
  p_tx_gpio : Z;
  p_rx_gpio : Z;
  period_ms : Z;
  proc_entry : Z;
}.
Arguments Uart {F}. Arguments Priv {F}.
Arguments period {F}. Arguments half_period {F}. Arguments irq {F}.
Arguments tx_fifo {F}. Arguments rx_fifo {F}. Arguments tx_chr {F}. Arguments rx_chr {F}.
Arguments tx_gpio {F}. Arguments rx_gpio {F}. Arguments open_count {F}.
Arguments uart {F}. Arguments stats {F}. Arguments p_tx_gpio {F}. Arguments p_rx_gpio {F}.
Arguments period_ms {F}. Arguments proc_entry {F}.

(** ** Field updates *)
Section updates.
Context {F : Type}.
Implicit Types (d : bitbang_uart F) (p : bitbang_priv F).

Definition set_chr_idx (i : Z) (c : bitbang_chr) : bitbang_chr :=
  Chr i (parity_bit c) (data c).
Definition set_chr_parity (v : Z) (c : bitbang_chr) : bitbang_chr := Chr (idx c) v (data c).
Definition set_chr_data (v : Z) (c : bitbang_chr) : bitbang_chr :=
  Chr (idx c) (parity_bit c) v.

Definition set_periods (a b : Z) d : bitbang_uart F :=
  Uart a b (irq d) (tx_fifo d) (rx_fifo d) (tx_chr d) (rx_chr d) (tx_gpio d) (rx_gpio d)
    (open_count d).
Definition set_irq (i : Z) d : bitbang_uart F :=
  Uart (period d) (half_period d) i (tx_fifo d) (rx_fifo d) (tx_chr d) (rx_chr d)
    (tx_gpio d) (rx_gpio d) (open_count d).
Definition set_tx_fifo (f : F) d : bitbang_uart F :=
  Uart (period d) (half_period d) (irq d) f (rx_fifo d) (tx_chr d) (rx_chr d) (tx_gpio d)
    (rx_gpio d) (open_count d).
Definition set_rx_fifo (f : F) d : bitbang_uart F :=
  Uart (period d) (half_period d) (irq d) (tx_fifo d) f (tx_chr d) (rx_chr d) (tx_gpio d)
    (rx_gpio d) (open_count d).
Definition upd_tx_chr (g : bitbang_chr -> bitbang_chr) d : bitbang_uart F :=
  Uart (period d) (half_period d) (irq d) (tx_fifo d) (rx_fifo d) (g (tx_chr d)) (rx_chr d)
    (tx_gpio d) (rx_gpio d) (open_count d).
Definition upd_rx_chr (g : bitbang_chr -> bitbang_chr) d : bitbang_uart F :=
  Uart (period d) (half_period d) (irq d) (tx_fifo d) (rx_fifo d) (tx_chr d) (g (rx_chr d))
    (tx_gpio d) (rx_gpio d) (open_count d).
Definition set_gpios (tx rx : Z) d : bitbang_uart F :=
  Uart (period d) (half_period d) (irq d) (tx_fifo d) (rx_fifo d) (tx_chr d) (rx_chr d) tx rx
    (open_count d).
Definition set_open_count (n : Z) d : bitbang_uart F :=
  Uart (period d) (half_period d) (irq d) (tx_fifo d) (rx_fifo d) (tx_chr d) (rx_chr d)
    (tx_gpio d) (rx_gpio d) n.

(** What [kzalloc] leaves in a [struct bitbang_uart]; the queues are set up by
    [INIT_KFIFO]. *)
Definition zero_uart d : bitbang_uart F :=
  Uart 0 0 0 (tx_fifo d) (rx_fifo d) (Chr 0 0 0) (Chr 0 0 0) 0 0 0.

Definition upd_uart (g : bitbang_uart F -> bitbang_uart F) p : bitbang_priv F :=
  Priv (g (uart p)) (stats p) (p_tx_gpio p) (p_rx_gpio p) (period_ms p) (proc_entry p).
Definition upd_stats (g : bitbang_stats -> bitbang_stats) p : bitbang_priv F :=
  Priv (uart p) (g (stats p)) (p_tx_gpio p) (p_rx_gpio p) (period_ms p) (proc_entry p).

(** The counters are [int]; the kernel is built with wrapping signed
    arithmetic. *)
Definition count_tx (s : bitbang_stats) : bitbang_stats :=
  Stats (i32 (tx_counter s + 1)) (rx_counter s) (rx_errs_start s) (rx_errs_stop s)
    (rx_errs_parity s).
Definition count_rx (s : bitbang_stats) : bitbang_stats :=
  Stats (tx_counter s) (i32 (rx_counter s + 1)) (rx_errs_start s) (rx_errs_stop s)
    (rx_errs_parity s).
Definition count_start (s : bitbang_stats) : bitbang_stats :=
  Stats (tx_counter s) (rx_counter s) (i32 (rx_errs_start s + 1)) (rx_errs_stop s)
    (rx_errs_parity s).
Definition count_stop (s : bitbang_stats) : bitbang_stats :=
  Stats (tx_counter s) (rx_counter s) (rx_errs_start s) (i32 (rx_errs_stop s + 1))
    (rx_errs_parity s).
Definition count_parity (s : bitbang_stats) : bitbang_stats :=
  Stats (tx_counter s) (rx_counter s) (rx_errs_start s) (rx_errs_stop s)
    (i32 (rx_errs_parity s + 1)).
End updates.

(** ** The code *)
Section code.
Context {F : Type} `{HF : Kfifo F}.
Notation prog := (M (bitbang_priv F)).

(** A pure queue operation on one of the two queues. *)
Definition on_tx_fifo {A} (op : F -> F * A) : prog A := fun e s t =>
  let '(f, a) := op (tx_fifo (uart s)) in (a, upd_uart (set_tx_fifo f) s, t).
Definition on_rx_fifo {A} (op : F -> F * A) : prog A := fun e s t =>
  let '(f, a) := op (rx_fifo (uart s)) in (a, upd_uart (set_rx_fifo f) s, t).

(** The loop at the head of [bitbang_rx]: [Some 0] once the queue holds a byte,
    [Some ret] when the sleep was interrupted, [None] out of fuel. *)
Fixpoint bitbang_rx_wait (fuel : nat) : prog (option Z) :=
  match fuel with
  | O => mret None
  | S fuel' =>
      empty ← gets (fun s => kfifo_is_empty (rx_fifo (uart s)));
      if (empty : bool) then
        ret ← sleep (wait_event_interruptible "rx_wq");
        if c_true ret then mret (Some ret) else bitbang_rx_wait fuel'
      else mret (Some 0)
  end.

(** The result and the bytes that reached [to]. *)
Definition bitbang_rx (fuel : nat) (count : Z) : prog (option (Z * list Z)) :=
  w ← bitbang_rx_wait fuel;
  match w with
  | None => mret None
  | Some ret =>
      if c_true ret then mret (Some (ret, []))
      else
        do_ (spin_lock_irqsave "lock");;
        u ← ask (user_access count);
        '(ret, out) ← on_rx_fifo (kfifo_to_user u count);
        do_ (spin_unlock_irqrestore "lock");;
        let copied := Z.of_nat (length out) in
        mret (Some (if c_true ret then ret else copied, out))
  end.

Fixpoint bitbang_tx_wait (fuel : nat) : prog (option Z) :=
  match fuel with
  | O => mret None
  | S fuel' =>
      full ← gets (fun s => kfifo_is_full (tx_fifo (uart s)));
      if (full : bool) then
        ret ← sleep (wait_event_interruptible "tx_wq");
        if c_true ret then mret (Some ret) else bitbang_tx_wait fuel'
      else mret (Some 0)
  end.

Definition bitbang_tx (fuel : nat) (from : list Z) : prog (option Z) :=
  w ← bitbang_tx_wait fuel;
  match w with
  | None => mret None
  | Some ret =>
      if c_true ret then mret (Some ret)
      else
        do_ (spin_lock_irqsave "lock");;
        u ← ask (user_access (Z.of_nat (length from)));
        '(ret, copied) ← on_tx_fifo (kfifo_from_user u from);
        do_ (spin_unlock_irqrestore "lock");;
        (if c_true copied then
           active ← ask (hrtimer_active "tx_timer");
           if negb (c_true active) then
             p ← gets (fun s => period (uart s));
             do_ (hrtimer_start "tx_timer" p)
           else mret tt
         else mret tt);;
        mret (Some (if c_true ret then ret else copied))
  end.

(** [atomic_fetch_add_unless (v, a, u)] and [atomic_dec_return (v)] on
    [open_count]; an [atomic_t] wraps. *)
Definition atomic_fetch_add_unless (a u : Z) : prog Z :=
  old ← gets (fun s => open_count (uart s));
  modify (upd_uart (set_open_count (if old =? u then old else i32 (old + a))));;
  mret old.
Definition atomic_dec_return : prog Z :=
  old ← gets (fun s => open_count (uart s));
  modify (upd_uart (set_open_count (i32 (old - 1))));;
  mret (i32 (old - 1)).

Definition reset_rx_fifo : prog unit := on_rx_fifo (fun f => (kfifo_reset f, tt)).

Definition bitbang_uart_open : prog Z :=
  opened ← atomic_fetch_add_unless 1 INT_MAX;
  when (opened =? 0)
    (reset_rx_fifo;;
     modify (upd_uart (upd_tx_chr (set_chr_idx (-1))));;
     modify (upd_uart (upd_rx_chr (set_chr_idx (-1))));;
     i ← gets (fun s => irq (uart s));
     do_ (enable_irq i));;
  mret 0.

Definition bitbang_uart_close : prog unit :=
  n ← atomic_dec_return;
  when (n =? 0)
    (i ← gets (fun s => irq (uart s));
     do_ (disable_irq i);;
     reset_rx_fifo).

Definition bitbang_uart_tx_buffer_full : prog bool :=
  gets (fun s => kfifo_is_full (tx_fifo (uart s))).
Definition bitbang_uart_rx_buffer_empty : prog bool :=
  gets (fun s => kfifo_is_empty (rx_fifo (uart s))).

(** The falling edge of a start bit; the result is always [IRQ_HANDLED]. *)
Definition rx_irq_handler : prog unit :=
  pin ← gets (fun s => rx_gpio (uart s));
  if c_true pin then
    val ← ask (gpio_get_value pin);
    if c_true val then mret tt
    else
      i ← gets (fun s => idx (rx_chr (uart s)));
      when (i =? -1)
        (h ← gets (fun s => half_period (uart s));
         do_ (hrtimer_start "rx_timer" h))
  else mret tt.

(** [u8 x; x ^= x >> 4; x ^= x >> 2; x ^= x >> 1; return x & 1;] *)
Definition parity_even8 (x : Z) : Z :=
  let x := u8 (Z.lxor x (Z.shiftr x 4)) in
  let x := u8 (Z.lxor x (Z.shiftr x 2)) in
  let x := u8 (Z.lxor x (Z.shiftr x 1)) in
  Z.land x 1.

Definition TXBIT (x : Z) : prog unit :=
  pin ← gets (fun s => tx_gpio (uart s));
  do_ (gpio_set_value pin x).

Definition set_tx_idx (i : Z) : prog unit := modify (upd_uart (upd_tx_chr (set_chr_idx i))).
Definition set_rx_idx (i : Z) : prog unit := modify (upd_uart (upd_rx_chr (set_chr_idx i))).

(** [case -1] of [tx_timer_cb]: fetch a byte and send the start bit.  The new
    bit index and the result. *)
Definition tx_start (i : Z) : prog (Z * hrtimer_restart) :=
  do_ (spin_lock_irqsave "lock");;
  out ← on_tx_fifo (kfifo_out 1);
  do_ (spin_unlock_irqrestore "lock");;
  match out with
  | [x] =>
      modify (upd_uart (upd_tx_chr (set_chr_data x)));;
      modify (upd_uart (upd_tx_chr (set_chr_parity (parity_even8 x))));;
      TXBIT 0;;
      do_ (wake_up_interruptible "tx_wq");;
      mret (i + 1, HRTIMER_RESTART)
  | _ => mret (i, HRTIMER_NORESTART)
  end.

Definition tx_timer_cb : prog hrtimer_restart :=
  i ← gets (fun s => idx (tx_chr (uart s)));
  '(i', ret) ←
    (if (10 <? i) || (i <? -1) then mret (-1, HRTIMER_NORESTART)
     else if i =? -1 then tx_start i
     else if i =? 8 then
       b ← gets (fun s => parity_bit (tx_chr (uart s)));
       TXBIT b;;
       mret (i + 1, HRTIMER_RESTART)
     else if i =? 9 then
       TXBIT 1;;
       mret (i + 1, HRTIMER_RESTART)
     else if i =? 10 then
       TXBIT 1;;
       modify (upd_stats count_tx);;
       mret (-1, HRTIMER_RESTART)
     else
       x ← gets (fun s => data (tx_chr (uart s)));
       TXBIT (Z.land 1 (Z.shiftr x i));;
       mret (i + 1, HRTIMER_RESTART));
  set_tx_idx i';;
  (if restarts ret then
     p ← gets (fun s => period (uart s));
     do_ (hrtimer_forward "tx_timer" p)
   else mret tt);;
  mret ret.

Definition RXBIT : prog Z :=
  pin ← gets (fun s => rx_gpio (uart s));
  ask (gpio_get_value pin).

Definition INSERT_BIT (byte b : Z) : Z :=
  Z.lor (Z.shiftr byte 1) (Z.shiftl (Z.land b 1) 7).

(** [case 9] of [rx_timer_cb]: the stop bit decides the fate of the byte. *)
Definition rx_stop : prog unit :=
  v ← RXBIT;
  c ← gets (fun s => rx_chr (uart s));
  let i := parity_even8 (data c) in
  let wrong := Z.lxor i (parity_bit c) in
  if c_true v && negb (c_true wrong) then
    do_ (spin_lock_irqsave "lock");;
    on_rx_fifo (fun f => (push_overwrite (data c) f, tt));;
    modify (upd_stats count_rx);;
    do_ (spin_unlock_irqrestore "lock");;
    do_ (wake_up_interruptible "rx_wq")
  else
    when (c_true wrong) (modify (upd_stats count_parity));;
    when (negb (c_true v)) (modify (upd_stats count_stop)).

Definition rx_timer_cb : prog hrtimer_restart :=
  i ← gets (fun s => idx (rx_chr (uart s)));
  '(i', ret) ←
    (if (9 <? i) || (i <? -1) then mret (-1, HRTIMER_NORESTART)
     else if i =? -1 then
       v ← RXBIT;
       if c_true v then
         modify (upd_stats count_start);;
         mret (i, HRTIMER_NORESTART)
       else mret (i + 1, HRTIMER_RESTART)
     else if i =? 8 then
       v ← RXBIT;
       modify (upd_uart (upd_rx_chr (set_chr_parity (Z.land 1 v))));;
       mret (i + 1, HRTIMER_RESTART)
     else if i =? 9 then
       rx_stop;;
       mret (-1, HRTIMER_NORESTART)
     else
       v ← RXBIT;
       modify (upd_uart (upd_rx_chr (fun c => set_chr_data (u8 (INSERT_BIT (data c) v)) c)));;
       mret (i + 1, HRTIMER_RESTART));
  set_rx_idx i';;
  (if restarts ret then
     p ← gets (fun s => period (uart s));
     do_ (hrtimer_forward "rx_timer" p)
   else mret tt);;
  mret ret.

Definition gpio_init (pin : Z) (out : bool) : prog Z :=
  ret ← ask (gpio_request pin);
  if c_true ret then mret (- ENXIO)
  else if out then ask (gpio_direction_output pin 1)
  else ask (gpio_direction_input pin).

Definition irq_init : prog Z :=
  pin ← gets (fun s => rx_gpio (uart s));
  i ← ask (gpio_to_irq pin);
  if i <? 0 then mret i
  else
    ret ← ask (request_threaded_irq i);
    if c_true ret then mret ret
    else
      do_ (disable_irq i);;
      modify (upd_uart (set_irq i));;
      mret ret.

(** [ms_to_ktime] is nanoseconds, [ktime_divns (t, 2)] halves. *)
Definition bitbang_uart_set_period : prog unit :=
  ms ← gets period_ms;
  if (ms =? 0) || (1000 <? ms) then mret tt
  else
    let p := ms * 1000000 in
    modify (upd_uart (set_periods p (Z.quot p 2))).

Definition bitbang_uart_init : prog Z :=
  d ← ask (devm_kzalloc "bitbang_uart");
  if d =? 0 then mret (- ENOMEM)
  else
    modify (upd_uart zero_uart);;
    s ← gets (fun s => s);
    modify (upd_uart (set_gpios (p_tx_gpio s) (p_rx_gpio s)));;
    bitbang_uart_set_period;;
    let rx := p_rx_gpio s in
    let tx := p_tx_gpio s in
    ret ← (if c_true rx then gpio_init rx false else mret 0);
    if c_true ret then mret ret
    else
      ret ← (if c_true tx then gpio_init tx true else mret 0);
      if c_true ret then
        when (c_true rx) (do_ (gpio_free rx));;
        mret ret
      else
        ret ← (if c_true rx then irq_init else mret 0);
        if c_true ret then
          do_ (gpio_free rx);;
          when (c_true tx) (do_ (gpio_free tx));;
          mret ret
        else
          on_tx_fifo (fun f => (kfifo_reset f, tt));;
          on_rx_fifo (fun f => (kfifo_reset f, tt));;
          modify (upd_uart (set_open_count 0));;
          do_ (hrtimer_init "tx_timer");;
          do_ (hrtimer_init "rx_timer");;
          mret 0.

Definition bitbang_uart_exit : prog unit :=
  do_ (hrtimer_cancel "tx_timer");;
  do_ (hrtimer_cancel "rx_timer");;
  s ← gets uart;
  when (c_true (rx_gpio s))
    (when (c_true (irq s))
       (do_ (synchronize_irq (irq s));; do_ (free_irq (irq s)));;
     do_ (gpio_free (rx_gpio s)));;
  when (c_true (tx_gpio s)) (do_ (gpio_free (tx_gpio s))).
End code.

Section lemmas.
Context {F : Type} `{HF : Kfifo F}.

(** A queue operation is a step of its own. *)
Lemma wp_on_tx_fifo {A} (e : env (bitbang_priv F)) (op : F -> F * A) Q s t :
  Q (snd (op (tx_fifo (uart s)))) (upd_uart (set_tx_fifo (fst (op (tx_fifo (uart s))))) s) t ->
  wp e (on_tx_fifo op) Q s t.
Proof. unfold wp, on_tx_fifo. by destruct (op (tx_fifo (uart s))). Qed.

Lemma wp_on_rx_fifo {A} (e : env (bitbang_priv F)) (op : F -> F * A) Q s t :
  Q (snd (op (rx_fifo (uart s)))) (upd_uart (set_rx_fifo (fst (op (rx_fifo (uart s))))) s) t ->
  wp e (on_rx_fifo op) Q s t.
Proof. unfold wp, on_rx_fifo. by destruct (op (rx_fifo (uart s))). Qed.

(** Setting the period makes no call. *)
Lemma wp_set_period (e : env (bitbang_priv F)) Q s t :
  (forall a b, Q tt (upd_uart (set_periods a b) s) t) ->
  wp e bitbang_uart_set_period Q s t.
Proof.
  intros HQ. unfold bitbang_uart_set_period. wp_run; [|apply HQ].
  specialize (HQ (period (uart s)) (half_period (uart s))).
  by destruct s as [[] ? ? ? ? ?].
Qed.
End lemmas.

(** Symbolic execution with the steps of this driver. *)
Ltac uart_step :=
  first [apply wp_set_period; intros ? ? | apply wp_on_tx_fifo | apply wp_on_rx_fifo | wp_step].
Ltac uart_run := repeat (uart_step; cbn beta zeta).
