(* ===== verification/BitbangFrames.v ===== *)
(** * Frames sent and received by the bit-bang UART

    The two timer callbacks of [uart.c] against the frames of [Wire]: what the
    transmit callback drives on the pin for a queue of bytes, what the receive
    callback makes of any sequence of sampled levels, and the two together over
    a line that is sampled with a delay. *)
From S2P Require Import Prelude.
From S2P Require Import Kernel.
From S2P Require Import Wire.
From S2P Require Import Kfifo.
From S2P Require Import BitbangUart.
From stdpp Require Import options.

(** The frame of the driver: start bit, eight data bits, even parity, two stop
    bits. *)
Definition frame (b : Z) : list Z := 0 :: data_bits b ++ [parity b; 1; 1].

Lemma parity_even8_spec b : 0 <= b < 256 -> parity_even8 b = parity b.
Proof.
  intros Hb. apply Z.eqb_eq, (byte_cases (fun b => parity_even8 b =? parity b)); [|done].
  by vm_compute.
Qed.

(** ** The receive shift register *)
Lemma insert_bit_spec d v : 0 <= d < 256 -> v = 0 \/ v = 1 ->
  u8 (INSERT_BIT d v) = d / 2 + 128 * v.
Proof.
  intros Hd Hv. apply Z.eqb_eq.
  destruct Hv as [-> | ->];
    [apply (byte_cases (fun d => u8 (INSERT_BIT d 0) =? d / 2 + 128 * 0))
    |apply (byte_cases (fun d => u8 (INSERT_BIT d 1) =? d / 2 + 128 * 1))];
    done || by vm_compute.
Qed.

Ltac eight vs H :=
  destruct vs as [|? [|? [|? [|? [|? [|? [|? [|? [|? ?]]]]]]]]]; try discriminate H.

Definition shift_in (d0 : Z) (vs : list Z) : Z :=
  foldl (fun d v => u8 (INSERT_BIT d v)) d0 vs.

Lemma shift_in_range d0 vs : 0 <= d0 < 256 -> 0 <= shift_in d0 vs < 256.
Proof.
  revert d0; induction vs as [|v vs IH]; intros d0 Hd; [done|].
  apply IH. by apply wrapu_range.
Qed.

(** After [k] steps the bits received sit above what is left of the old
    contents. *)
Lemma shift_in_spec vs d0 k : Forall (fun v => v = 0 \/ v = 1) vs ->
  Z.of_nat (length vs) = k -> k <= 8 -> 0 <= d0 < 256 ->
  shift_in d0 vs = of_bits vs * 2 ^ (8 - k) + d0 / 2 ^ k.
Proof.
  revert d0 k. induction vs as [|v vs IH]; intros d0 k Hv <- Hk Hd; cbn [length] in *.
  - unfold shift_in; simpl. by rewrite Z.div_1_r.
  - apply Forall_cons in Hv as [Hv Hvs]. unfold shift_in; cbn [foldl]; fold (shift_in (u8 (INSERT_BIT d0 v)) vs).
    rewrite (IH _ (Z.of_nat (length vs))); [|done|done|lia|by apply wrapu_range].
    rewrite insert_bit_spec by done. cbn [of_bits]. set (n := Z.of_nat (length vs)).
    replace (Z.of_nat (S (length vs))) with (n + 1) by lia.
    replace (128 * v) with (v * 2 ^ (7 - n) * 2 ^ n)
      by (rewrite <- Z.mul_assoc, <- Z.pow_add_r by lia; replace (7 - n + n) with 7 by lia; lia).
    rewrite Z.div_add by (apply Z.pow_nonzero; lia).
    rewrite Z.div_div by (try apply Z.pow_pos_nonneg; lia).
    rewrite (Z.pow_add_r 2 n 1), (Z.mul_comm (2 ^ n)) by lia. change (2 ^ 1) with 2.
    replace (8 - n) with (7 - n + 1) by lia. replace (8 - (n + 1)) with (7 - n) by lia.
    rewrite Z.pow_add_r by lia. lia.
Qed.

Lemma shift_in_byte d0 vs : length vs = 8%nat -> Forall (fun v => v = 0 \/ v = 1) vs ->
  0 <= d0 < 256 -> shift_in d0 vs = of_bits vs.
Proof.
  intros Hl Hv Hd. rewrite (shift_in_spec vs d0 8) by (done || lia).
  rewrite (Z.div_small d0) by done. change (2 ^ (8 - 8)) with 1. lia.
Qed.

Lemma parity_of_bits vs : length vs = 8%nat -> Forall (fun v => v = 0 \/ v = 1) vs ->
  parity_even8 (of_bits vs) = odd_ones vs.
Proof.
  intros Hl Hv. eight vs Hl. rewrite !Forall_cons in Hv. destruct_and! Hv.
  repeat match goal with H : _ \/ _ |- _ => destruct H as [-> | ->] end; by vm_compute.
Qed.

(** ** Running the callbacks *)
Section frames.
Context {F : Type} `{HF : KfifoSpec F}.
Notation priv := (bitbang_priv F).

(** The transmit timer runs until the callback does not restart it. *)
Fixpoint run_tx (fuel : nat) : M priv (option unit) :=
  match fuel with
  | O => mret None
  | S fuel' =>
      r ← tx_timer_cb;
      if restarts r then run_tx fuel' else mret (Some tt)
  end.

Definition run_rx (levels : list Z) : M priv (list hrtimer_restart) :=
  run_levels rx_timer_cb levels.

(** *** Transmission *)

(** What the transmit path leaves alone. *)
Definition tx_rest (s : priv) :=
  let d := uart s in
  (period d, half_period d, irq d, rx_fifo d, rx_chr d, tx_gpio d, rx_gpio d, open_count d,
   period_ms s, proc_entry s).

(** The transmitter is about to send bit [i] of the byte [b]; [q] waits. *)
Record tx_at (s0 : priv) (i b : Z) (q : list Z) (st : bitbang_stats) (s : priv) : Prop := {
  at_idx : idx (tx_chr (uart s)) = i;
  at_data : data (tx_chr (uart s)) = b;
  at_parity : parity_bit (tx_chr (uart s)) = parity b;
  at_queue : items (tx_fifo (uart s)) = q;
  at_stats : stats s = st;
  at_rest : tx_rest s = tx_rest s0;
}.

(** The transmitter is between two bytes. *)
Record tx_idle (s0 : priv) (q : list Z) (st : bitbang_stats) (s : priv) : Prop := {
  idle_idx : idx (tx_chr (uart s)) = -1;
  idle_queue : items (tx_fifo (uart s)) = q;
  idle_stats : stats s = st;
  idle_rest : tx_rest s = tx_rest s0;
}.

Definition pin_of (s : priv) : Z := tx_gpio (uart s).

Lemma rest_pin s s0 : tx_rest s = tx_rest s0 -> pin_of s = pin_of s0.
Proof. unfold tx_rest, pin_of. by intros [= _ _ _ _ _ -> _ _ _ _]. Qed.

Lemma driven_set pin v r t : driven pin (Ev (gpio_set_value pin v) r :: t) = driven pin t ++ [v].
Proof. simpl. by rewrite Z.eqb_refl. Qed.

(** One callback in the middle of a frame sends one level. *)
Lemma tx_bit_step (e : env priv) s0 i b q st s t : 0 <= i <= 9 ->
  tx_at s0 i b q st s ->
  wp e tx_timer_cb (fun r s' t' =>
    r = HRTIMER_RESTART /\ tx_at s0 (i + 1) b q st s' /\
    driven (pin_of s0) t' =
      driven (pin_of s0) t ++ [nth (Z.to_nat (i + 1)) (frame b) 1]) s t.
Proof.
  intros Hi [Hidx Hdata Hpar Hq Hst Hrest]. pose proof (rest_pin _ _ Hrest) as Hpin.
  unfold tx_timer_cb, TXBIT. apply wp_bind, wp_gets. rewrite Hidx.
  destruct (Z.ltb_spec 10 i), (Z.ltb_spec i (-1)); try lia; cbn [orb].
  destruct (Z.eqb_spec i (-1)); [lia|].
  destruct (Z.eqb_spec i 8) as [->|]; [|destruct (Z.eqb_spec i 9) as [->|]; [|
    destruct (Z.eqb_spec i 10); [lia|]]];
  wp_run; cbn [restarts] in *; try discriminate;
  (split; [done|split; [by constructor|]]);
  cbn [driven]; fold driven; fold (pin_of s); rewrite Hpin, Z.eqb_refl; f_equal; f_equal.
  - done.
  - change (frame b) with (0 :: data_bits b ++ [parity b; 1; 1]).
    rewrite Z2Nat.inj_add, Nat.add_1_r by lia. cbn [nth].
    rewrite app_nth1 by (rewrite data_bits_length; lia).
    rewrite data_bits_lookup by lia. rewrite Hdata. unfold bit. apply Z.land_comm.
Qed.

(** The byte kept in the transmit record. *)
Definition same_byte (s s' : priv) : Prop :=
  data (tx_chr (uart s')) = data (tx_chr (uart s)) /\
  parity_bit (tx_chr (uart s')) = parity_bit (tx_chr (uart s)).

Lemma tx_end_step (e : env priv) s0 b q st s t :
  tx_at s0 10 b q st s ->
  wp e tx_timer_cb (fun r s' t' =>
    r = HRTIMER_RESTART /\ tx_idle s0 q (count_tx st) s' /\
    driven (pin_of s0) t' = driven (pin_of s0) t ++ [1] /\ same_byte s s') s t.
Proof.
  intros [Hidx Hdata Hpar Hq Hst Hrest]. pose proof (rest_pin _ _ Hrest) as Hpin.
  unfold tx_timer_cb, TXBIT. apply wp_bind, wp_gets. rewrite Hidx. simpl.
  wp_run; cbn [restarts] in *; try discriminate.
  split; [done|split; [constructor; try done; simpl; by rewrite Hst|]].
  split; [|by split]. cbn [driven]. fold (pin_of s). by rewrite Hpin, Z.eqb_refl.
Qed.

Lemma tx_start_step (e : env priv) s0 b q st s t : 0 <= b < 256 ->
  tx_idle s0 (b :: q) st s ->
  wp e tx_timer_cb (fun r s' t' =>
    r = HRTIMER_RESTART /\ tx_at s0 0 b q st s' /\
    driven (pin_of s0) t' = driven (pin_of s0) t ++ [0]) s t.
Proof.
  intros Hb [Hidx Hq Hst Hrest]. pose proof (rest_pin _ _ Hrest) as Hpin.
  unfold tx_timer_cb, tx_start, TXBIT. apply wp_bind, wp_gets. rewrite Hidx. simpl.
  apply wp_bind, wp_bind, wp_do; intros ?. apply wp_bind, wp_on_tx_fifo.
  destruct (kfifo_out 1 (tx_fifo (uart s))) as [f out] eqn:Ho.
  apply kfifo_out_spec in Ho as [Hf ->]; [|lia]. rewrite Hq in *. simpl in Hf |- *.
  wp_run; cbn [restarts] in *; try discriminate.
  split; [done|split; [constructor; try done; by apply parity_even8_spec|]].
  simpl. fold (pin_of s). by rewrite Hpin, Z.eqb_refl.
Qed.

Lemma tx_empty_step (e : env priv) s0 st s t :
  tx_idle s0 [] st s ->
  wp e tx_timer_cb (fun r s' t' =>
    r = HRTIMER_NORESTART /\ tx_idle s0 [] st s' /\
    driven (pin_of s0) t' = driven (pin_of s0) t /\ same_byte s s') s t.
Proof.
  intros [Hidx Hq Hst Hrest]. pose proof (rest_pin _ _ Hrest) as Hpin.
  unfold tx_timer_cb, tx_start. apply wp_bind, wp_gets. rewrite Hidx. simpl.
  apply wp_bind, wp_bind, wp_do; intros ?. apply wp_bind, wp_on_tx_fifo.
  destruct (kfifo_out 1 (tx_fifo (uart s))) as [f out] eqn:Ho.
  apply kfifo_out_spec in Ho as [Hf ->]; [|lia]. rewrite Hq in *. simpl in Hf |- *.
  wp_run; cbn [restarts] in *; try discriminate.
  split; [done|split; [by constructor|done]].
Qed.

(** The rest of the frame from bit [i] on. *)
Lemma run_tx_bits (e : env priv) s0 b q st n Q : forall k i s t,
  Z.of_nat k = 10 - i -> 0 <= i ->
  tx_at s0 i b q st s ->
  (forall s' t', tx_idle s0 q (count_tx st) s' ->
     driven (pin_of s0) t' = driven (pin_of s0) t ++ drop (Z.to_nat (i + 1)) (frame b) ->
     wp e (run_tx n) Q s' t') ->
  wp e (run_tx (S k + n)) Q s t.
Proof.
  induction k as [|k IH]; intros i s t Hk Hi Hat Hcont; cbn [run_tx Nat.add].
  - apply wp_bind. assert (i = 10) as -> by lia.
    eapply wp_mono; [by eapply tx_end_step|]. intros r s' t' (-> & Hid & Hd & _). simpl.
    apply Hcont; done.
  - apply wp_bind. eapply wp_mono; [eapply tx_bit_step; [|done]; lia|].
    intros r s' t' (-> & Hat' & Hd). cbn [restarts].
    apply (IH (i + 1)); [lia|lia|done|]. intros s'' t'' Hid Hd''.
    apply Hcont; [done|]. rewrite Hd'', Hd, <- app_assoc. f_equal.
    rewrite (drop_S (frame b) (nth (Z.to_nat (i + 1)) (frame b) 1) (Z.to_nat (i + 1))).
    + cbn [app]. do 2 f_equal. by rewrite Z2Nat.inj_add, (Nat.add_comm _ (Z.to_nat 1)) by lia.
    + rewrite nth_lookup. destruct (lookup_lt_is_Some_2 (frame b) (Z.to_nat (i + 1))) as [x Hx].
      * unfold frame. simpl. lia.
      * by rewrite Hx.
Qed.

(** Twelve callbacks send one byte of the queue. *)
Lemma run_tx_byte (e : env priv) s0 b q st n Q s t : 0 <= b < 256 ->
  tx_idle s0 (b :: q) st s ->
  (forall s' t', tx_idle s0 q (count_tx st) s' ->
     driven (pin_of s0) t' = driven (pin_of s0) t ++ frame b ->
     wp e (run_tx n) Q s' t') ->
  wp e (run_tx (12 + n)) Q s t.
Proof.
  intros Hb Hid Hcont. change (12 + n)%nat with (S (11 + n)). cbn [run_tx].
  apply wp_bind. eapply wp_mono; [by eapply tx_start_step|].
  intros r s' t' (-> & Hat & Hd). cbn [restarts].
  apply (run_tx_bits e s0 b q st n Q 10 0 s' t'); [done|done|done|].
  intros s'' t'' Hid' Hd'. apply Hcont; [done|]. rewrite Hd', Hd, <- app_assoc. done.
Qed.

Lemma run_tx_queue (e : env priv) s0 q st s t : Forall (fun b => 0 <= b < 256) q ->
  tx_idle s0 q st s ->
  wp e (run_tx (12 * length q + 1)) (fun r s' t' =>
    r = Some tt /\ tx_idle s0 [] (Nat.iter (length q) count_tx st) s' /\
    driven (pin_of s0) t' = driven (pin_of s0) t ++ concat (map frame q)) s t.
Proof.
  intros Hq. revert st s t. induction Hq as [|b q Hb Hq IH]; intros st s t Hid.
  - cbn [length Nat.mul Nat.add run_tx]. apply wp_bind.
    eapply wp_mono; [by eapply tx_empty_step|]. intros r s' t' (-> & Hid' & Hd & _). simpl.
    by rewrite app_nil_r.
  - replace (12 * length (b :: q) + 1)%nat with (12 + (12 * length q + 1))%nat by (simpl; lia).
    eapply run_tx_byte; [done|done|]. intros s' t' Hid' Hd.
    eapply wp_mono; [by apply IH|]. intros r s'' t'' (-> & Hid'' & Hd').
    split; [done|]. split; [|by rewrite Hd', Hd, <- app_assoc].
    cbn [length]. by rewrite Nat.iter_succ_r.
Qed.

(** *** Reception *)

Definition rx_rest (s : priv) :=
  let d := uart s in
  (period d, half_period d, irq d, tx_fifo d, tx_chr d, tx_gpio d, rx_gpio d, open_count d,
   period_ms s, proc_entry s).

(** The receiver has just sampled what precedes bit [i]; [d] is its shift
    register. *)
Record rx_at (s0 : priv) (i d : Z) (st : bitbang_stats) (f : F) (s : priv) : Prop := {
  rat_idx : idx (rx_chr (uart s)) = i;
  rat_data : data (rx_chr (uart s)) = d;
  rat_stats : stats s = st;
  rat_fifo : rx_fifo (uart s) = f;
  rat_rest : rx_rest s = rx_rest s0;
}.

Lemma wp_rxbit (e : env priv) v (Q : Z -> priv -> trace -> Prop) s t :
  Q v s (Ev (gpio_get_value (rx_gpio (uart s))) v :: t) -> wp (with_level v e) RXBIT Q s t.
Proof. done. Qed.

Ltac rx_enter H :=
  apply wp_at_level; unfold rx_timer_cb; apply wp_bind, wp_gets; rewrite H; simpl.
Ltac rx_level := apply wp_bind, wp_bind, wp_rxbit.
Ltac rx_done := wp_run; cbn [restarts] in *; try discriminate.

(** A start sample at a high level is an error and ends the reception. *)
Lemma rx_start_step (e : env priv) s0 v d st f s t : rx_at s0 (-1) d st f s ->
  wp e (at_level v rx_timer_cb) (fun r s' _ =>
    if c_true v then r = HRTIMER_NORESTART /\ rx_at s0 (-1) d (count_start st) f s'
    else r = HRTIMER_RESTART /\ rx_at s0 0 d st f s') s t.
Proof.
  intros [Hidx Hdata Hst Hf Hrest]. rx_enter Hidx. rx_level.
  destruct (c_true v) eqn:Hv; rx_done; (split; [done|]); constructor; try done.
  simpl. by rewrite Hst.
Qed.

Lemma rx_bit_step (e : env priv) s0 v i d st f s t : 0 <= i <= 7 -> rx_at s0 i d st f s ->
  wp e (at_level v rx_timer_cb) (fun r s' _ =>
    r = HRTIMER_RESTART /\ rx_at s0 (i + 1) (u8 (INSERT_BIT d v)) st f s') s t.
Proof.
  intros Hi [Hidx Hdata Hst Hf Hrest]. rx_enter Hidx.
  destruct (Z.ltb_spec 9 i), (Z.ltb_spec i (-1)); try lia; cbn [orb].
  destruct (Z.eqb_spec i (-1)), (Z.eqb_spec i 8), (Z.eqb_spec i 9); try lia.
  rx_level. rx_done. split; [done|]. constructor; try done. simpl. by rewrite Hdata.
Qed.

Lemma rx_parity_step (e : env priv) s0 v d st f s t : rx_at s0 8 d st f s ->
  wp e (at_level v rx_timer_cb) (fun r s' _ =>
    r = HRTIMER_RESTART /\ rx_at s0 9 d st f s' /\
    parity_bit (rx_chr (uart s')) = Z.land 1 v) s t.
Proof.
  intros [Hidx Hdata Hst Hf Hrest]. rx_enter Hidx. rx_level. rx_done.
  split; [done|]. split; [by constructor|done].
Qed.

(** The verdict on a received byte: [good] when the stop bit is high and the
    parity bit is right. *)
Definition rx_verdict (v wrong d : Z) (st : bitbang_stats) (f : F) : bitbang_stats * F :=
  if c_true v && negb (c_true wrong) then (count_rx st, push_overwrite d f)
  else
    let st1 := if c_true wrong then count_parity st else st in
    (if c_true v then st1 else count_stop st1, f).

Lemma rx_stop_step (e : env priv) s0 v d st f s t : rx_at s0 9 d st f s ->
  wp e (at_level v rx_timer_cb) (fun r s' _ =>
    let w := Z.lxor (parity_even8 d) (parity_bit (rx_chr (uart s))) in
    r = HRTIMER_NORESTART /\
    rx_at s0 (-1) d (fst (rx_verdict v w d st f)) (snd (rx_verdict v w d st f)) s') s t.
Proof.
  intros [Hidx Hdata Hst Hf Hrest]. rx_enter Hidx. unfold rx_stop.
  apply wp_bind, wp_bind, wp_bind, wp_rxbit. apply wp_bind, wp_gets. rewrite Hdata.
  unfold rx_verdict. set (w := Z.lxor _ _).
  destruct (c_true v) eqn:Hv, (c_true w) eqn:Hw; cbn [andb negb when fst snd];
    repeat (first [apply wp_on_rx_fifo | wp_step]; cbn beta zeta);
    cbn [restarts] in *; try discriminate;
    (split; [done|]); constructor; try done; simpl; congruence.
Qed.

Lemma run_rx_data (e : env priv) s0 vs : forall i d st f s t,
  0 <= i -> i + Z.of_nat (length vs) <= 8 -> rx_at s0 i d st f s ->
  wp e (run_rx vs) (fun rs s' _ =>
    rs = replicate (length vs) HRTIMER_RESTART /\
    rx_at s0 (i + Z.of_nat (length vs)) (shift_in d vs) st f s') s t.
Proof.
  induction vs as [|v vs IH]; intros i d st f s t Hi Hl Hat; unfold run_rx in *; cbn [run_levels length] in *.
  - wp_run. by rewrite Z.add_0_r.
  - apply wp_bind. eapply wp_mono; [apply (rx_bit_step e s0 v i d st f); [lia|done]|].
    intros r s' t' (-> & Hat'). apply wp_bind.
    eapply wp_mono; [apply (IH (i + 1) (u8 (INSERT_BIT d v)) st f); [lia|lia|done]|]. intros rs s'' t'' (-> & Hat'').
    wp_run. split; [done|]. replace (i + Z.of_nat (S (length vs))) with
      (i + 1 + Z.of_nat (length vs)) by lia. done.
Qed.

(** A whole frame, start bit low: every level between the start bit and the stop
    bit is taken, and the reception always ends at the stop bit. *)
Lemma run_rx_frame (e : env priv) s0 vs p v st f s t : length vs = 8%nat ->
  Forall (fun x => x = 0 \/ x = 1) vs -> p = 0 \/ p = 1 ->
  (forall d, rx_at s0 (-1) d st f s -> 0 <= d < 256 ->
  wp e (run_rx (0 :: vs ++ [p; v])) (fun rs s' _ =>
    let w := Z.lxor (odd_ones vs) p in
    rs = replicate 10 HRTIMER_RESTART ++ [HRTIMER_NORESTART] /\
    rx_at s0 (-1) (of_bits vs) (fst (rx_verdict v w (of_bits vs) st f))
      (snd (rx_verdict v w (of_bits vs) st f)) s') s t).
Proof.
  intros Hl Hvs Hp d Hat Hd. unfold run_rx; cbn [run_levels]. apply wp_bind.
  eapply wp_mono; [by eapply (rx_start_step e s0 0)|]. intros r s1 t1. cbn [c_true].
  intros (-> & Hat1). apply wp_bind, run_levels_app.
  eapply wp_mono; [eapply (run_rx_data e s0 vs 0 d); [lia|rewrite Hl; lia|done]|].
  intros rs s2 t2 (-> & Hat2). rewrite Hl, shift_in_byte in Hat2 by done.
  unfold run_rx; cbn [run_levels]. apply wp_bind. eapply wp_mono; [by eapply (rx_parity_step e s0 p)|].
  intros r s3 t3 (-> & Hat3 & Hpar). apply wp_bind, wp_bind.
  eapply wp_mono; [by eapply (rx_stop_step e s0 v)|]. intros r s4 t4.
  rewrite parity_of_bits by done. cbv zeta. intros (-> & Hat4). wp_run.
  rewrite Hl. split; [done|].
  replace (Z.lxor (odd_ones vs) p) with (Z.lxor (odd_ones vs) (parity_bit (rx_chr (uart s3))));
    [done|]. rewrite Hpar. by destruct Hp as [-> | ->].
Qed.
End frames.

Lemma odd_ones_snoc vs p : odd_ones (vs ++ [p]) = Z.lxor (odd_ones vs) p.
Proof.
  unfold odd_ones. rewrite foldr_app. cbn [foldr]. rewrite Z.lxor_0_r.
  induction vs as [|v vs IH]; simpl; [done|]. by rewrite IH, Z.lxor_assoc.
Qed.

(** A frame has an even number of ones; flipping one of its levels makes it odd. *)
Lemma odd_ones_frame vs : odd_ones (vs ++ [odd_ones vs]) = 0.
Proof. by rewrite odd_ones_snoc, Z.lxor_nilpotent. Qed.

Lemma odd_ones_flip vs k : length vs = 8%nat -> Forall (fun v => v = 0 \/ v = 1) vs ->
  (k < 9)%nat ->
  let sent := vs ++ [odd_ones vs] in odd_ones (<[k := 1 - nth k sent 0]> sent) = 1.
Proof.
  intros Hl Hv Hk. cbv zeta. eight vs Hl. rewrite !Forall_cons in Hv. destruct_and! Hv.
  do 9 (destruct k as [|k]; [
    repeat match goal with H : _ \/ _ |- _ => destruct H as [-> | ->] end; by vm_compute|]).
  lia.
Qed.

Lemma flip_01 (sent : list Z) k : Forall (fun x => x = 0 \/ x = 1) sent ->
  Forall (fun x => x = 0 \/ x = 1) (<[k := 1 - nth k sent 0]> sent).
Proof.
  intros Hf. apply Forall_insert; [done|].
  rewrite nth_lookup. destruct (_ !! k) as [x|] eqn:Hx; simpl; [|by right].
  eapply Forall_lookup_1 in Hf; [|done]. lia.
Qed.

(** ** Properties *)
Section properties.
Context {F : Type} `{HF : KfifoSpec F}.
Notation priv := (bitbang_priv F).

(** C1: started between two bytes, the transmit timer sends every byte of the
    queue in order, each as start bit, eight data bits from the least
    significant, even parity and two stop bits, then stops by itself with the
    queue empty and the transmit counter advanced by the number of bytes;
    twelve callbacks per byte and one more are enough.  Nothing of the receive
    side is touched. *)
Theorem tx_drains_queue (e : env priv) (s : priv) (t : trace) :
  idx (tx_chr (uart s)) = -1 ->
  Forall (fun b => 0 <= b < 256) (items (tx_fifo (uart s))) ->
  let q := items (tx_fifo (uart s)) in
  let pin := tx_gpio (uart s) in
  wp e (run_tx (12 * length q + 1)) (fun r s' t' =>
    r = Some tt /\
    driven pin t' = driven pin t ++ concat (map frame q) /\
    items (tx_fifo (uart s')) = [] /\ idx (tx_chr (uart s')) = -1 /\
    stats s' = Nat.iter (length q) count_tx (stats s) /\
    tx_rest s' = tx_rest s) s t.
Proof.
  intros Hidx Hq. cbv zeta.
  eapply wp_mono; [apply (run_tx_queue e s _ (stats s)); [done|by constructor]|].
  by intros r s' t' (-> & [] & Hd).
Qed.

(** C2: whatever levels are sampled after a good start bit, the receiver ends
    with the stop bit, ready for the next start bit, and the byte is queued,
    dropping the oldest one when the queue is full, exactly when the stop level
    is high and the parity level makes the number of ones even; otherwise the
    queue is unchanged and exactly the errors that occurred are counted. *)
Theorem rx_frame_verdict (e : env priv) (s : priv) (t : trace) vs p stop :
  idx (rx_chr (uart s)) = -1 -> 0 <= data (rx_chr (uart s)) < 256 ->
  length vs = 8%nat -> Forall (fun x => x = 0 \/ x = 1) vs -> p = 0 \/ p = 1 ->
  wp e (run_rx (0 :: vs ++ [p; stop])) (fun rs s' _ =>
    let even := odd_ones (vs ++ [p]) =? 0 in
    rs = replicate 10 HRTIMER_RESTART ++ [HRTIMER_NORESTART] /\
    idx (rx_chr (uart s')) = -1 /\ rx_rest s' = rx_rest s /\
    items (rx_fifo (uart s')) =
      (if even && c_true stop
       then lastn capacity (items (rx_fifo (uart s)) ++ [of_bits vs])
       else items (rx_fifo (uart s))) /\
    stats s' =
      (if even then if c_true stop then count_rx (stats s) else count_stop (stats s)
       else if c_true stop then count_parity (stats s)
       else count_stop (count_parity (stats s)))) s t.
Proof.
  intros Hidx Hd Hl Hvs Hp.
  eapply wp_mono;
    [apply (run_rx_frame e s vs p stop (stats s) (rx_fifo (uart s)) s t Hl Hvs Hp
              (data (rx_chr (uart s)))); [by constructor|done]|].
  intros rs s' t'. cbv zeta. intros (-> & [Hi Hda Hst Hf Hr]).
  rewrite odd_ones_snoc.
  split; [done|]. split; [done|]. split; [done|]. rewrite Hf, Hst. unfold rx_verdict.
  change (c_true (Z.lxor (odd_ones vs) p)) with (negb (Z.lxor (odd_ones vs) p =? 0)).
  destruct (Z.lxor (odd_ones vs) p =? 0), (c_true stop); simpl;
    try done; by rewrite push_overwrite_items.
Qed.

(** A single wrong level among the eight data bits and the parity bit of a
    frame is always detected: the byte is not queued and one parity error is
    counted. *)
Theorem rx_detects_single_error (e : env priv) (s : priv) (t : trace) b k :
  idx (rx_chr (uart s)) = -1 -> 0 <= data (rx_chr (uart s)) < 256 -> (k < 9)%nat ->
  let sent := data_bits b ++ [parity b] in
  let seen := <[k := 1 - nth k sent 0]> sent in
  wp e (run_rx (0 :: seen ++ [1])) (fun _ s' _ =>
    items (rx_fifo (uart s')) = items (rx_fifo (uart s)) /\
    stats s' = count_parity (stats s)) s t.
Proof.
  intros Hidx Hd Hk. cbv zeta.
  assert (Forall (fun x => x = 0 \/ x = 1) (data_bits b ++ [parity b])) as Hs.
  { apply Forall_app. split; [apply data_bits_01|]. constructor; [apply parity_01|done]. }
  apply (flip_01 _ k) in Hs.
  pose proof (odd_ones_flip (data_bits b) k (data_bits_length b) (data_bits_01 b) Hk) as Hodd.
  cbv zeta in Hodd. fold (parity b) in Hodd. set (seen := <[k := _]> _) in *.
  assert (length seen = 9%nat) as Hlen
    by (subst seen; rewrite length_insert, length_app, data_bits_length; done).
  clearbody seen. destruct seen as [|p vs _] using rev_ind; [done|].
  rewrite length_app in Hlen. simpl in Hlen. apply Forall_app in Hs as [Hvs [Hp _]%Forall_cons].
  rewrite odd_ones_snoc in Hodd. rewrite <- app_assoc. cbn [app].
  eapply wp_mono; [eapply (run_rx_frame e s vs p 1 (stats s) (rx_fifo (uart s)) s t);
                     [lia|exact Hvs|exact Hp|by constructor|exact Hd]|].
  intros rs s' t'. cbv zeta. rewrite Hodd. cbn.
  intros (_ & [_ _ -> -> _]). done.
Qed.

(** The levels the receive callback finds when the interrupt of the falling edge
    is served [delay] after it and arms the timer with [half]; the timer then
    expires every [p]. *)
Definition samples (p half delay : Z) (levels : list Z) : list Z :=
  map (fun k => line_level p levels (delay + half + Z.of_nat k * p)) (seq 0 11).

Lemma samples_frame p half delay b : 0 < p -> 0 <= half -> 0 <= delay -> delay + half < p ->
  samples p half delay (frame b) = 0 :: data_bits b ++ [parity b; 1].
Proof.
  intros Hp Hh Hd Hlt.
  transitivity (map (fun k => nth k (frame b) 1) (seq 0 11)); [|done].
  apply map_ext_in. intros k _. rewrite (line_level_slot _ _ _ (Z.of_nat k)) by nia.
  by rewrite Nat2Z.id.
Qed.

End properties.

(** ** Concrete runs *)
Definition demo_priv (txq rxq : list_fifo) : bitbang_priv list_fifo :=
  Priv (Uart 10000000 5000000 40 txq rxq (Chr (-1) 0 0) (Chr (-1) 0 0) 17 18 1)
    (Stats 0 0 0 0 0) 17 18 10 1.

Lemma tx_drains_queue_witness :
  wp calm (run_tx (12 * 2 + 1)) (fun r s' t' =>
    r = Some tt /\ driven 17 t' = frame 85 ++ frame 170 /\ items (tx_fifo (uart s')) = [])
    (demo_priv [85; 170] []) [].
Proof.
  assert (idx (tx_chr (uart (demo_priv [85; 170] []))) = -1) as H1 by reflexivity.
  assert (items (tx_fifo (uart (demo_priv [85; 170] []))) = [85; 170]) as Hq by reflexivity.
  assert (Forall (fun b => 0 <= b < 256) (items (tx_fifo (uart (demo_priv [85; 170] [])))))
    as H2 by (rewrite Hq; repeat constructor; lia).
  pose proof (tx_drains_queue calm (demo_priv [85; 170] []) [] H1 H2) as H. cbv zeta in H.
  rewrite Hq in H. cbn [length] in H. eapply wp_mono; [exact H|].
  intros r s' t' (Hr & Hd & Hf & _). split; [exact Hr|]. split; [exact Hd|exact Hf].
Defined.

Lemma rx_frame_verdict_witness :
  wp calm (run_rx (0 :: data_bits 65 ++ [0; 1])) (fun _ s' _ =>
    items (rx_fifo (uart s')) = [1; 2; 65] /\ rx_counter (stats s') = 1)
    (demo_priv [] [1; 2]) [].
Proof.
  eapply wp_mono; [apply (rx_frame_verdict calm (demo_priv [] [1; 2]) [] (data_bits 65) 0 1);
                   try reflexivity; [cbn; lia|apply data_bits_01|left; reflexivity]|].
  intros rs s' t' (_ & _ & _ & Hq & Hst). split; [exact Hq|rewrite Hst; reflexivity].
Defined.

Lemma rx_detects_single_error_witness :
  wp calm (run_rx [0; 1; 0; 0; 1; 0; 0; 1; 0; 0; 1]) (fun _ s' _ =>
    items (rx_fifo (uart s')) = [] /\ rx_errs_parity (stats s') = 1)
    (demo_priv [] []) [].
Proof.
  eapply wp_mono; [apply (rx_detects_single_error calm (demo_priv [] []) [] 65 3);
                   [reflexivity|cbn; lia|lia]|].
  intros rs s' t' (Hq & Hst). split; [exact Hq|rewrite Hst; reflexivity].
Defined.

