(* ===== verification/BitbangDriver.v ===== *)
(** * The bit-bang UART character device

    [soft_uart/bitbang/bitbang-main.c], [bitbang-sysfs.c] and [bitbang-proc.c]
    around the core of [BitbangUart]: the file operations, the sysfs attributes,
    probe and remove of the platform driver, loading and unloading of the
    module.  The module parameters are arguments of [bitbang_probe]; what the
    formatted reads print is the list of the numbers they format. *)
From S2P Require Import Prelude.
From S2P Require Import Kernel.
From S2P Require Import Kfifo.
From S2P Require Import BitbangUart.
From stdpp Require Import options.

Definition PERIOD_MS : Z := 10.

Section code.
Context {F : Type} `{HF : Kfifo F}.
Notation prog := (M (bitbang_priv F)).

(** [kstrtouint (buf, 10, &v)] belongs to the kernel: [inr v], or [inl] a
    negative error code. *)
Context (kstrtouint : string -> Z + Z).

Definition set_params (tx rx ms : Z) (p : bitbang_priv F) : bitbang_priv F :=
  Priv (uart p) (stats p) tx rx ms (proc_entry p).
Definition set_period_ms (ms : Z) (p : bitbang_priv F) : bitbang_priv F :=
  Priv (uart p) (stats p) (p_tx_gpio p) (p_rx_gpio p) ms (proc_entry p).
Definition set_proc_entry (e : Z) (p : bitbang_priv F) : bitbang_priv F :=
  Priv (uart p) (stats p) (p_tx_gpio p) (p_rx_gpio p) (period_ms p) e.

Definition zero_priv (p : bitbang_priv F) : bitbang_priv F :=
  Priv (uart p) (Stats 0 0 0 0 0) 0 0 0 0.

(** ** File operations *)
Definition bitbang_read (nonblock : bool) (fuel : nat) (count : Z) : prog (option (Z * list Z)) :=
  empty ← bitbang_uart_rx_buffer_empty;
  if empty && nonblock then mret (Some (- EAGAIN, []))
  else bitbang_rx fuel count.

Definition bitbang_write (nonblock : bool) (fuel : nat) (from : list Z) : prog (option Z) :=
  full ← bitbang_uart_tx_buffer_full;
  if full && nonblock then mret (Some (- EAGAIN))
  else bitbang_tx fuel from.

Definition bitbang_open : prog Z := bitbang_uart_open.

(** [filp->private_data] was set by [bitbang_open]. *)
Definition bitbang_release : prog Z :=
  bitbang_uart_close;;
  mret 0.

(** ** sysfs *)
Definition period_show : prog (list Z) := ms ← gets period_ms; mret [ms].

Definition period_store (buf : string) (count : Z) : prog Z :=
  match kstrtouint buf with
  | inl ret => mret ret
  | inr v =>
      if (v <? 1) || (1000 <? v) then mret (- ERANGE)
      else
        modify (set_period_ms v);;
        bitbang_uart_set_period;;
        mret count
  end.

(** The debug level [DBG_LVL] is a variable of the module: old value in, new
    value out. *)
Definition dbg_show (DBG_LVL : Z) : list Z := [DBG_LVL].
Definition dbg_store (buf : string) (count : Z) (DBG_LVL : Z) : Z * Z :=
  match kstrtouint buf with
  | inl ret => (ret, DBG_LVL)
  | inr v => if 10 <? v then (- ERANGE, DBG_LVL) else (count, i32 v)
  end.

Definition bitbang_sysfs_init : prog Z :=
  ret ← ask (device_create_file "period");
  if c_true ret then mret ret
  else
    ret ← ask (device_create_file "dbg");
    if c_true ret then
      do_ (device_remove_file "period");;
      mret ret
    else mret ret.

Definition bitbang_sysfs_exit : prog unit := do_ (device_remove_file "period").

(** ** procfs *)
Definition bitbang_proc_show : prog (list Z) :=
  s ← gets stats;
  mret [tx_counter s; rx_counter s; rx_errs_start s; rx_errs_stop s; rx_errs_parity s].

Definition bitbang_proc_init : prog Z :=
  p ← ask (proc_create "bitbang");
  modify (set_proc_entry p);;
  mret 0.

Definition bitbang_proc_exit : prog unit :=
  p ← gets proc_entry;
  when (c_true p) (do_ (proc_remove p)).

(** ** Platform driver *)
Definition bitbang_probe (m_tx m_rx m_period : Z) : prog Z :=
  priv ← ask (devm_kzalloc "bitbang_priv");
  if priv =? 0 then mret (- ENOMEM)
  else
    modify zero_priv;;
    let period := if m_period =? 0 then PERIOD_MS else m_period in
    modify (set_params m_tx m_rx period);;
    ret ← ask alloc_chrdev_region;
    if c_true ret then mret ret
    else
      let err_unregister_chrdev ret := do_ unregister_chrdev_region;; mret ret in
      let err_cdev_del ret := do_ cdev_del;; err_unregister_chrdev ret in
      let err_class_destroy ret := do_ class_destroy;; err_cdev_del ret in
      let err_device_destroy ret := do_ device_destroy;; err_class_destroy ret in
      let err_sysfs_remove ret :=
        bitbang_proc_exit;; bitbang_sysfs_exit;; err_device_destroy ret in
      do_ cdev_init;;
      ret ← ask cdev_add;
      if c_true ret then err_unregister_chrdev ret
      else
        cls ← ask class_create;
        if IS_ERR cls then err_cdev_del (PTR_ERR cls)
        else
          dev ← ask device_create;
          if IS_ERR dev then err_class_destroy (PTR_ERR dev)
          else
            ret ← bitbang_sysfs_init;
            if c_true ret then err_device_destroy ret
            else
              _ ← bitbang_proc_init;
              do_ platform_set_drvdata;;
              ret ← bitbang_uart_init;
              if c_true ret then err_sysfs_remove ret else mret ret.

Definition bitbang_remove : prog Z :=
  bitbang_uart_exit;;
  bitbang_proc_exit;;
  bitbang_sysfs_exit;;
  do_ device_destroy;;
  do_ class_destroy;;
  do_ cdev_del;;
  do_ unregister_chrdev_region;;
  mret 0.

(** The second component is what [bitbang_uart_pdev] is set to. *)
Definition mod_init : prog (Z * Z) :=
  pdev ← ask platform_device_register_simple;
  if IS_ERR pdev then mret (PTR_ERR pdev, 0)
  else
    ret ← ask platform_driver_register;
    if c_true ret then
      do_ (platform_device_unregister pdev);;
      mret (ret, 0)
    else mret (0, pdev).

Definition mod_exit (bitbang_uart_pdev : Z) : prog unit :=
  do_ platform_driver_unregister;;
  do_ (platform_device_unregister bitbang_uart_pdev).
End code.

(** ** What is held after a probe *)
Section resources.
Context {F : Type} `{HF : KfifoSpec F}.
Notation priv := (bitbang_priv F).

(** The resources of a running device, newest first. *)
Definition uart_resources (tx rx i : Z) : list resource :=
  (if c_true rx then [R_irq i] else []) ++
  (if c_true tx then [R_gpio tx] else []) ++ (if c_true rx then [R_gpio rx] else []).

(** The attribute [a] was created. *)
Fixpoint created (a : string) (t : trace) : bool :=
  match t with
  | [] => false
  | Ev (device_create_file a') r :: t' => (String.eqb a a' && (r =? 0)) || created a t'
  | _ :: t' => created a t'
  end.

(** Every pin whose direction was set took it. *)
Fixpoint directions_ok (t : trace) : Prop :=
  match t with
  | [] => True
  | Ev (gpio_direction_input _) r :: t' | Ev (gpio_direction_output _ _) r :: t' =>
      r = 0 /\ directions_ok t'
  | _ :: t' => directions_ok t'
  end.

(** What a failed set-up can leave behind: one pin, when it refused its
    direction. *)
Definition stuck_pins (tx rx : Z) (t : trace) (K : list resource) : Prop :=
  (K = [] \/ K = [R_gpio rx] \/ K = [R_gpio tx]) /\ (directions_ok t -> K = []).

Lemma bitbang_uart_init_ledger (e : env priv) s t L0 :
  ledger t = Some L0 ->
  wp e bitbang_uart_init (fun r s' t' =>
    exists L, ledger t' = Some L /\
    (r = 0 -> L = uart_resources (p_tx_gpio s) (p_rx_gpio s) (irq (uart s')) ++ L0) /\
    (r <> 0 -> exists K, L = K ++ L0 /\ stuck_pins (p_tx_gpio s) (p_rx_gpio s) t' K) /\
    (forall a, created a t' = created a t) /\ proc_entry s' = proc_entry s) s t.
Proof.
  intros HL. unfold bitbang_uart_init, gpio_init, irq_init. uart_run.
  all: unfold uart_resources, stuck_pins, c_true; cbn [upd_uart p_rx_gpio p_tx_gpio] in *;
    path_ledger; eexists; (split; [reflexivity|]); split_and!; intros; rewrite_tests; try done;
    try path_contra.
  all: first [exists []; split; [reflexivity|]
             |exists [R_gpio (p_rx_gpio s)]; split; [reflexivity|]
             |exists [R_gpio (p_tx_gpio s)]; split; [reflexivity|]];
    split; [tauto|]; intros; destruct_and?; try done; path_contra.
Qed.

(** The same as a rule for the code that follows the set-up. *)
Lemma wp_uart_init (e : env priv) (Q : Z -> priv -> trace -> Prop) s t L0 :
  ledger t = Some L0 ->
  (forall s' t', ledger t' =
       Some (uart_resources (p_tx_gpio s) (p_rx_gpio s) (irq (uart s')) ++ L0) ->
     (forall a, created a t' = created a t) -> proc_entry s' = proc_entry s -> Q 0 s' t') ->
  (forall r s' t' K, (r =? 0) = false -> ledger t' = Some (K ++ L0) ->
     K = [] \/ K = [R_gpio (p_rx_gpio s)] \/ K = [R_gpio (p_tx_gpio s)] ->
     (directions_ok t' -> K = []) ->
     (forall a, created a t' = created a t) -> proc_entry s' = proc_entry s -> Q r s' t') ->
  wp e bitbang_uart_init Q s t.
Proof.
  intros HL Hok Hfail. eapply wp_mono; [by apply bitbang_uart_init_ledger|].
  intros r s' t' (L & HL' & Hz & Hnz & Hcr & Hpe). destruct (Z.eqb_spec r 0) as [->|Hr].
  - apply Hok; [|done..]. by rewrite <- Hz.
  - destruct (Hnz Hr) as (K & -> & HK & HK'). apply (Hfail r s' t' K); try done.
    by apply Z.eqb_neq.
Qed.

(** Everything a probed device holds, newest first. *)
Definition running_resources (tx rx : Z) (s : priv) : list resource :=
  uart_resources tx rx (irq (uart s)) ++
  (if c_true (proc_entry s) then [R_proc (proc_entry s)] else []) ++
  [R_attr "dbg"; R_attr "period"; R_device; R_class; R_cdev; R_chrdev_region].

(** C39: a probe never gives back what it does not hold; when it succeeds it
    holds exactly the resources of a running device; when it fails it has given
    everything back but the attribute [dbg], which stays if it was created, and
    at most one pin, which stays only if it refused its direction. *)
Theorem bitbang_probe_resources (e : env priv) s tx rx ms :
  wp e (bitbang_probe tx rx ms) (fun r s' t' =>
    exists L, ledger t' = Some L /\
    (r = 0 -> L = running_resources tx rx s') /\
    (r <> 0 -> exists K, stuck_pins tx rx t' K /\
     L = K ++ if created "dbg" t' then [R_attr "dbg"] else [])) s [].
Proof.
  unfold bitbang_probe, bitbang_sysfs_init, bitbang_proc_init, bitbang_proc_exit,
    bitbang_sysfs_exit. cbv zeta.
  repeat (lazymatch goal with
          | |- wp _ bitbang_uart_init _ _ (Ev _ _ :: Ev _ ?r :: _) =>
              destruct (r =? 0) eqn:?;
              (eapply wp_uart_init; [path_ledger; reflexivity|intros|intros;
               match goal with H : _ \/ _ |- _ => destruct H as [-> | [-> | ->]] end])
          | _ => uart_step
          end; cbn beta zeta).
  all: unfold running_resources, stuck_pins, c_true in *; cbn [proc_entry set_proc_entry] in *;
    try match goal with H : proc_entry _ = _ |- _ => rewrite H in * end; path_ledger;
    try match goal with H : forall a, created a _ = _ |- _ => rewrite H end.
  all: cbn; rewrite_tests; cbn; (eexists; split; [reflexivity|]);
    split; intros; try done; try path_contra.
  all: first [exists []; split; [|reflexivity]
             |exists [R_gpio rx]; split; [|reflexivity]
             |exists [R_gpio tx]; split; [|reflexivity]].
  all: split; [tauto|]; intros; try done; exfalso.
  all: match goal with H : directions_ok _ -> _, H' : _ |- _ => by specialize (H H') end.
Qed.

(** The timers that can be armed when the device is removed. *)
Definition armed_timers (T : list resource) : Prop :=
  T = [] \/ T = [R_timer "tx_timer"] \/ T = [R_timer "rx_timer"] \/
  T = [R_timer "tx_timer"; R_timer "rx_timer"] \/ T = [R_timer "rx_timer"; R_timer "tx_timer"].

Lemma remove1_absent r L : mem r L = false -> remove1 r L = L.
Proof.
  unfold mem. induction L as [|x L IH]; [done|]. cbn.
  intros [Hx HL]%orb_false_iff. by rewrite Hx, IH.
Qed.

(** Cancelling both timers. *)
Lemma cancel_both t T L r1 r2 : armed_timers T -> ledger t = Some (T ++ L) ->
  mem (R_timer "tx_timer") L = false -> mem (R_timer "rx_timer") L = false ->
  ledger (Ev (hrtimer_cancel "rx_timer") r1 :: Ev (hrtimer_cancel "tx_timer") r2 :: t) = Some L.
Proof.
  intros HT HL H1%remove1_absent H2%remove1_absent. rewrite !ledger_from_cons, HL.
  destruct HT as [-> | [-> | [-> | [-> | ->]]]];
    cbn [app]; ledger_eval; rewrite ?H1; cbn; by rewrite ?H2.
Qed.

(** Removing a running device, whatever timers are armed, gives back every
    resource of [running_resources] and stops both timers, without giving back
    anything twice; what stays is the attribute [dbg], and the interrupt when its
    number is 0, which the driver takes for none. *)
Theorem bitbang_remove_resources (e : env priv) s t T :
  armed_timers T ->
  ledger t = Some (T ++ running_resources (tx_gpio (uart s)) (rx_gpio (uart s)) s) ->
  wp e bitbang_remove (fun r _ t' =>
    r = 0 /\
    ledger t' = Some
      ((if c_true (rx_gpio (uart s)) && negb (c_true (irq (uart s))) then [R_irq (irq (uart s))]
        else []) ++ [R_attr "dbg"])) s t.
Proof.
  intros HT HL. unfold bitbang_remove, bitbang_uart_exit, bitbang_proc_exit,
    bitbang_sysfs_exit. apply wp_bind. do 2 (apply wp_bind, wp_do; intros ?).
  apply wp_bind, wp_gets.
  match goal with |- wp _ _ _ _ ?t' => assert (ledger t' =
    Some (running_resources (tx_gpio (uart s)) (rx_gpio (uart s)) s)) as HL' end.
  { apply (cancel_both t T); try done; unfold running_resources, uart_resources;
      by repeat case_match. }
  clear HL HT. match goal with |- wp _ _ _ _ ?t' => generalize dependent t' end.
  unfold running_resources, uart_resources. intros t' HL. wp_run; (split; [done|]).
  all: norm_tests; rewrite_tests; cbn [negb] in *; rewrite_tests; ledger_eval; done.
Qed.
End resources.

(** ** Concrete runs *)
Definition blank_priv : bitbang_priv list_fifo :=
  Priv (Uart 0 0 0 [] [] (Chr 0 0 0) (Chr 0 0 0) 0 0 0) (Stats 0 0 0 0 0) 0 0 0 0.

Lemma bitbang_probe_resources_witness :
  wp calm (bitbang_probe 17 18 0) (fun r s' t' =>
    r = 0 /\ ledger t' = Some (running_resources 17 18 s')) blank_priv [].
Proof.
  assert (wp calm (bitbang_probe 17 18 0) (fun r _ _ => r = 0) blank_priv []) as H0
    by (vm_compute; reflexivity).
  eapply wp_mono;
    [apply (wp_conj _ _ _ _ _ _ H0 (bitbang_probe_resources calm blank_priv 17 18 0))|].
  intros r s' t' (-> & L & HL & Hok & _). split; [reflexivity|].
  rewrite HL. f_equal. apply Hok. reflexivity.
Defined.

(** A device that was opened and is sending. *)
Definition running_priv : bitbang_priv list_fifo :=
  Priv (Uart 10000000 5000000 40 [] [] (Chr 3 0 0) (Chr (-1) 0 0) 17 18 1)
    (Stats 0 0 0 0 0) 17 18 10 4096.
Definition running_trace : trace :=
  [ Ev (hrtimer_start "tx_timer" 10000000) 0; Ev (request_irq 40) 0; Ev (gpio_request 17) 0;
    Ev (gpio_request 18) 0; Ev (proc_create "bitbang") 4096; Ev (device_create_file "dbg") 0;
    Ev (device_create_file "period") 0; Ev device_create 1; Ev class_create 1; Ev cdev_add 0;
    Ev alloc_chrdev_region 0 ].

Lemma bitbang_remove_resources_witness :
  wp calm bitbang_remove (fun r _ t' => r = 0 /\ ledger t' = Some [R_attr "dbg"])
    running_priv running_trace.
Proof.
  apply (bitbang_remove_resources calm running_priv running_trace [R_timer "tx_timer"]).
  - right; left; reflexivity.
  - vm_compute. reflexivity.
Defined.
