(* ===== verification/BitbangIo.v ===== *)
(** * Reading and writing the bit-bang UART

    [bitbang_read] and [bitbang_write] against the two queues: what reaches user
    space is a prefix of the receive queue, what is queued is a prefix of the
    caller's bytes, a call that may not block does not sleep, and one that may
    block sleeps at most once.  What the sleep relies on is the documented
    contract of [wait_event_interruptible]. *)
From S2P Require Import Prelude.
From S2P Require Import Kernel.
From S2P Require Import Kfifo.
From S2P Require Import BitbangUart.
From S2P Require Import BitbangDriver.
From stdpp Require Import options.

Section io.
Context {F : Type} `{HF : KfifoSpec F}.
Notation priv := (bitbang_priv F).
Context (e : env priv).

(** [wait_event_interruptible (wq, condition)] returns 0 only with the condition
    true. *)
Definition rx_wait_law : Prop := forall t s,
  answer e t (wait_event_interruptible "rx_wq") = 0 ->
  kfifo_is_empty (rx_fifo (uart (interfere e t s))) = false.
Definition tx_wait_law : Prop := forall t s,
  answer e t (wait_event_interruptible "tx_wq") = 0 ->
  kfifo_is_full (tx_fifo (uart (interfere e t s))) = false.

(** [copy_to_user] and [copy_from_user] report how much they could not copy. *)
Definition user_law : Prop := forall t n, 0 <= answer e t (user_access n).

Definition rx_items (s : priv) : list Z := items (rx_fifo (uart s)).
Definition tx_items (s : priv) : list Z := items (tx_fifo (uart s)).

(** The state in which the queues are accessed: the one found, or the one left
    by the others when the sleep ends. *)
Definition awake (slept : bool) (s : priv) (t : trace) : priv :=
  if slept then interfere e t s else s.

Lemma rx_empty s : kfifo_is_empty (rx_fifo (uart s)) = true <-> rx_items s = [].
Proof. apply kfifo_empty_nil. Qed.

Lemma wp_rx_wait (Q : option Z -> priv -> trace -> Prop) s t :
  rx_wait_law ->
  (rx_items s <> [] -> Q (Some 0) s t) ->
  (forall r, rx_items s = [] -> r = answer e t (wait_event_interruptible "rx_wq") ->
     (r = 0 -> rx_items (interfere e t s) <> []) ->
     Q (Some r) (interfere e t s) (Ev (wait_event_interruptible "rx_wq") r :: t)) ->
  wp e (bitbang_rx_wait 2) Q s t.
Proof.
  intros Hlaw Hnow Hslept. cbn [bitbang_rx_wait]. apply wp_bind, wp_gets.
  destruct (kfifo_is_empty _) eqn:He.
  - apply wp_bind, wp_sleep. intros r Hr. apply rx_empty in He.
    specialize (Hslept r He Hr). unfold c_true.
    destruct (Z.eqb_spec r 0) as [Hz|Hz]; cbn [negb].
    + assert (kfifo_is_empty (rx_fifo (uart (interfere e t s))) = false) as Hf
        by (apply Hlaw; congruence).
      apply wp_bind, wp_gets. rewrite Hf. apply wp_ret. rewrite <- Hz. apply Hslept.
      intros _ Hnil%rx_empty. congruence.
    + apply wp_ret, Hslept. done.
  - apply wp_ret, Hnow. rewrite <- rx_empty, He. done.
Qed.

Lemma wp_tx_wait (Q : option Z -> priv -> trace -> Prop) s t :
  tx_wait_law ->
  ((length (tx_items s) < capacity)%nat -> Q (Some 0) s t) ->
  (forall r, length (tx_items s) = capacity ->
     r = answer e t (wait_event_interruptible "tx_wq") ->
     (r = 0 -> (length (tx_items (interfere e t s)) < capacity)%nat) ->
     Q (Some r) (interfere e t s) (Ev (wait_event_interruptible "tx_wq") r :: t)) ->
  wp e (bitbang_tx_wait 2) Q s t.
Proof.
  intros Hlaw Hnow Hslept. cbn [bitbang_tx_wait]. apply wp_bind, wp_gets.
  assert (forall s', kfifo_is_full (tx_fifo (uart s')) = false ->
            (length (tx_items s') < capacity)%nat) as Hnf.
  { intros s'. rewrite kfifo_is_full_spec. intros ?%Nat.eqb_neq.
    pose proof (items_bound (tx_fifo (uart s'))). unfold tx_items. lia. }
  destruct (kfifo_is_full _) eqn:He.
  - apply wp_bind, wp_sleep. intros r Hr.
    rewrite kfifo_is_full_spec in He. apply Nat.eqb_eq in He.
    specialize (Hslept r He Hr). unfold c_true.
    destruct (Z.eqb_spec r 0) as [Hz|Hz]; cbn [negb].
    + assert (kfifo_is_full (tx_fifo (uart (interfere e t s))) = false) as Hf
        by (apply Hlaw; congruence).
      apply wp_bind, wp_gets. rewrite Hf. apply wp_ret. rewrite <- Hz. by apply Hslept; auto.
    + apply wp_ret, Hslept. done.
  - by apply wp_ret, Hnow, Hnf.
Qed.

(** The outcomes of a read: result, bytes delivered, state afterwards.  Only a
    call that may block can have slept. *)
Inductive read_outcome (nonblock : bool) (count : Z) (s : priv) (t : trace) :
    Z -> list Z -> priv -> Prop :=
  | read_again : nonblock = true -> rx_items s = [] ->
      read_outcome nonblock count s t (- EAGAIN) [] s
  | read_interrupted r : nonblock = false -> rx_items s = [] ->
      r = answer e t (wait_event_interruptible "rx_wq") -> r <> 0 ->
      read_outcome nonblock count s t r [] (interfere e t s)
  | read_bytes slept f out :
      (slept = true -> nonblock = false /\ rx_items s = []) ->
      rx_items (awake slept s t) <> [] ->
      rx_items (awake slept s t) = out ++ items f ->
      out = take (Z.to_nat count) (rx_items (awake slept s t)) ->
      read_outcome nonblock count s t (Z.of_nat (length out)) out
        (upd_uart (set_rx_fifo f) (awake slept s t))
  | read_fault slept f out :
      (slept = true -> nonblock = false /\ rx_items s = []) ->
      rx_items (awake slept s t) = out ++ items f ->
      (length out <= Z.to_nat count)%nat ->
      read_outcome nonblock count s t (- EFAULT) out
        (upd_uart (set_rx_fifo f) (awake slept s t)).

(** The outcomes of a write of the bytes [from]. *)
Inductive write_outcome (nonblock : bool) (from : list Z) (s : priv) (t : trace) :
    Z -> priv -> Prop :=
  | write_again : nonblock = true -> length (tx_items s) = capacity ->
      write_outcome nonblock from s t (- EAGAIN) s
  | write_interrupted r : nonblock = false -> length (tx_items s) = capacity ->
      r = answer e t (wait_event_interruptible "tx_wq") -> r <> 0 ->
      write_outcome nonblock from s t r (interfere e t s)
  | write_bytes slept f n :
      (slept = true -> nonblock = false /\ length (tx_items s) = capacity) ->
      n = min (length from) (capacity - length (tx_items (awake slept s t))) ->
      (from <> [] -> 0 < n)%nat ->
      items f = tx_items (awake slept s t) ++ take n from ->
      write_outcome nonblock from s t (Z.of_nat n)
        (upd_uart (set_tx_fifo f) (awake slept s t))
  | write_fault slept f n :
      (slept = true -> nonblock = false /\ length (tx_items s) = capacity) ->
      (n <= length from)%nat ->
      items f = tx_items (awake slept s t) ++ take n from ->
      write_outcome nonblock from s t (- EFAULT)
        (upd_uart (set_tx_fifo f) (awake slept s t)).

(** The critical section of a read. *)
Lemma wp_rx_copy (Q : option (Z * list Z) -> priv -> trace -> Prop) count s t L :
  user_law -> 0 <= count -> ledger t = Some L -> mem (R_lock "lock") L = false ->
  (forall f r out t', rx_items s = out ++ items f -> ledger t' = Some L ->
     (length out <= Z.to_nat count)%nat ->
     (r = 0 /\ out = take (Z.to_nat count) (rx_items s)) \/ r = - EFAULT ->
     Q (Some (if c_true r then r else Z.of_nat (length out), out))
       (upd_uart (set_rx_fifo f) s) t') ->
  wp e (do_ (spin_lock_irqsave "lock");;
        u ← ask (user_access count);
        '(ret, out) ← on_rx_fifo (kfifo_to_user u count);
        do_ (spin_unlock_irqrestore "lock");;
        mret (Some (if c_true ret then ret else Z.of_nat (length out), out))) Q s t.
Proof.
  intros Hu Hc HL Hm HQ. apply wp_bind, wp_do; intros r1.
  apply wp_bind, wp_ask; intros u Hueq. apply wp_bind, wp_on_rx_fifo.
  destruct (kfifo_to_user u count (rx_fifo (uart s))) as [f [r out]] eqn:Hk. simpl.
  apply kfifo_to_user_spec in Hk as (Hit & Hlen & Hz & Hnz);
    [|subst u; apply Hu|done].
  apply wp_bind, wp_do; intros r2. apply wp_ret. apply HQ; try done.
  - rewrite !ledger_from_cons, HL. cbn -[mem remove1]. rewrite Hm. cbn -[mem remove1].
    by rewrite mem_cons_eq, remove1_cons_eq.
  - destruct (Z.eq_dec u 0); [left|right]; auto.
Qed.

Lemma wp_tx_copy (Q : option Z -> priv -> trace -> Prop) from s t L :
  user_law -> ledger t = Some L -> mem (R_lock "lock") L = false ->
  (forall f r n t' L', items f = tx_items s ++ take n from ->
     ledger t' = Some L' -> (forall l, mem (R_lock l) L' = mem (R_lock l) L) ->
     (n <= length from)%nat ->
     (r = 0 /\ n = min (length from) (capacity - length (tx_items s))) \/ r = - EFAULT ->
     Q (Some (if c_true r then r else Z.of_nat n)) (upd_uart (set_tx_fifo f) s) t') ->
  wp e (do_ (spin_lock_irqsave "lock");;
        u ← ask (user_access (Z.of_nat (length from)));
        '(ret, copied) ← on_tx_fifo (kfifo_from_user u from);
        do_ (spin_unlock_irqrestore "lock");;
        (if c_true copied then
           active ← ask (hrtimer_active "tx_timer");
           if negb (c_true active) then
             p ← gets (fun s => period (uart s));
             do_ (hrtimer_start "tx_timer" p)
           else mret tt
         else mret tt);;
        mret (Some (if c_true ret then ret else copied))) Q s t.
Proof.
  intros Hu HL Hm HQ. apply wp_bind, wp_do; intros r1.
  apply wp_bind, wp_ask; intros u Hueq. apply wp_bind, wp_on_tx_fifo.
  destruct (kfifo_from_user u from (tx_fifo (uart s))) as [f [r n]] eqn:Hk. simpl.
  apply kfifo_from_user_spec in Hk as (Hn & Hit & Hz & Hnz); [|subst u; apply Hu].
  assert (exists m, n = Z.of_nat m) as [m ->] by (exists (Z.to_nat n); lia).
  rewrite Nat2Z.id in Hit.
  assert (r = 0 /\ m = min (length from) (capacity - length (tx_items s)) \/ r = - EFAULT)
    as Hr.
  { destruct (Z.eq_dec u 0) as [H0|]; [left|right; auto].
    destruct (Hz H0). split; [done|]. unfold tx_items. lia. }
  clear Hz Hnz Hueq.
  apply wp_bind, wp_do; intros r2.
  assert (ledger (Ev (spin_unlock_irqrestore "lock") r2
                  :: Ev (user_access (Z.of_nat (length from))) u
                  :: Ev (spin_lock_irqsave "lock") r1 :: t) = Some L) as HL1.
  { rewrite !ledger_from_cons, HL. cbn -[mem remove1]. rewrite Hm. cbn -[mem remove1].
    by rewrite mem_cons_eq, remove1_cons_eq. }
  wp_run.
  1: eapply (HQ f r m); [done| | |lia|done];
       [rewrite ledger_from_cons, ledger_from_cons, HL1; cbn -[mem]; reflexivity|].
  1: intros l; destruct (mem (R_timer "tx_timer") L); done.
  - eapply (HQ f r m _ L); [done|by rewrite ledger_from_cons, HL1|done|lia|done].
  - eapply (HQ f r m _ L); [done|exact HL1|done|lia|done].
Qed.


End io.

(** ** Concrete runs *)

(** While the task sleeps, the receiver queues two bytes and the transmitter sends
    one. *)
Definition io_env : env (bitbang_priv list_fifo) :=
  Env (fun _ c => granted c)
    (fun _ s => Priv (set_tx_fifo (tail (lf_items (tx_fifo (uart s))))
                        (set_rx_fifo ([10; 20] : list_fifo) (uart s)))
       (stats s) (p_tx_gpio s) (p_rx_gpio s) (period_ms s) (proc_entry s)).

Definition io_priv (txq rxq : list_fifo) : bitbang_priv list_fifo :=
  Priv (Uart 10000000 5000000 40 txq rxq (Chr (-1) 0 0) (Chr (-1) 0 0) 17 18 1)
    (Stats 0 0 0 0 0) 17 18 10 1.


