(* ===== verification/BitbangSystem.v ===== *)
(** * The bit-bang UART as a running system

    The operations of the driver interleaved with the expiry of its timers, its
    interrupt and the calls of its users, as a step relation.  A [system] is the
    driver's record with the three flags the kernel keeps for it: which timers
    are armed and whether the interrupt is enabled, all read off the calls the
    driver makes.  Each operation is one step: they exclude each other by the
    driver's lock or by running to completion, and a task that sleeps takes its
    step when it is woken.  The invariant of the reachable states is what the
    theorems on single operations need to be chained. *)
From S2P Require Import Prelude.
From S2P Require Import Kernel.
From S2P Require Import Wire.
From S2P Require Import Kfifo.
From S2P Require Import BitbangUart.
From S2P Require Import BitbangFrames.
From S2P Require Import BitbangDriver.
From S2P Require Import BitbangIo.
From stdpp Require Import relations.
From stdpp Require Import options.
#[local] Open Scope Z_scope.

(** ** Flags kept by the kernel *)
Definition starts (timer : string) (c : call) : bool :=
  match c with hrtimer_start n _ => String.eqb n timer | _ => false end.
Definition cancels (timer : string) (c : call) : bool :=
  match c with hrtimer_cancel n => String.eqb n timer | _ => false end.
Definition enables (c : call) : bool := match c with enable_irq _ => true | _ => false end.
Definition disables (c : call) : bool := match c with disable_irq _ => true | _ => false end.

Record system (F : Type) := Sys {
  drv : bitbang_priv F;
  tx_armed : bool;
  rx_armed : bool;
  irq_on : bool;
}.
Arguments Sys {F}. Arguments drv {F}. Arguments tx_armed {F}. Arguments rx_armed {F}.
Arguments irq_on {F}.

Section system.
Context {F : Type} `{HF : KfifoSpec F}.
Notation priv := (bitbang_priv F).
Implicit Types (y : system F) (s : priv) (t : trace).

(** The system after an operation that made the calls [t]. *)
Definition settle y s t : system F :=
  Sys s (flag (starts "tx_timer") (cancels "tx_timer") (tx_armed y) t)
    (flag (starts "rx_timer") (cancels "rx_timer") (rx_armed y) t)
    (flag enables disables (irq_on y) t).
Definition set_tx_armed (b : bool) y : system F := Sys (drv y) b (rx_armed y) (irq_on y).
Definition set_rx_armed (b : bool) y : system F := Sys (drv y) (tx_armed y) b (irq_on y).

(** The environment knows whether the transmit timer is armed. *)
Definition serves y (e : env priv) : Prop :=
  user_law e /\ forall t, answer e t (hrtimer_active "tx_timer") = b2z (tx_armed y).

Definition opened y : Prop := 0 < open_count (uart (drv y)).

Inductive step : system F -> system F -> Prop :=
  | step_open y e r s t : open_count (uart (drv y)) < INT_MAX ->
      bitbang_open e (drv y) [] = (r, s, t) -> step y (settle y s t)
  | step_release y e r s t : opened y ->
      bitbang_release e (drv y) [] = (r, s, t) -> step y (settle y s t)
  | step_write y e from r s t : opened y -> serves y e ->
      Forall (fun b => 0 <= b < 256) from ->
      bitbang_write true 2 from e (drv y) [] = (r, s, t) -> step y (settle y s t)
  | step_read y e count r s t : opened y -> serves y e -> 0 <= count ->
      bitbang_read true 2 count e (drv y) [] = (r, s, t) -> step y (settle y s t)
  | step_irq y e r s t : irq_on y = true ->
      rx_irq_handler e (drv y) [] = (r, s, t) -> step y (settle y s t)
  | step_tx_timer y e r s t : tx_armed y = true ->
      tx_timer_cb e (drv y) [] = (r, s, t) ->
      step y (set_tx_armed (restarts r) (settle y s t))
  | step_rx_timer y e r s t : rx_armed y = true ->
      rx_timer_cb e (drv y) [] = (r, s, t) ->
      step y (set_rx_armed (restarts r) (settle y s t))
  | step_period y e kstrtouint buf count r s t :
      period_store kstrtouint buf count e (drv y) [] = (r, s, t) -> step y (settle y s t).

(** A successful probe; the period is a module parameter, 0 for the default. *)
Definition initial y : Prop :=
  exists e s0 m_tx m_rx ms s t, 0 <= ms <= 1000 /\
    bitbang_probe m_tx m_rx ms e s0 [] = (0, s, t) /\ y = Sys s false false false.

Definition reachable y : Prop := exists y0, initial y0 /\ rtc step y0 y.

(** ** The invariant *)
Definition period_ok s : Prop :=
  1 <= period_ms s <= 1000 /\ period (uart s) = period_ms s * 1000000 /\
  half_period (uart s) = Z.quot (period (uart s)) 2.

(** Before the first open nothing has been sent or received. *)
Definition fresh y : Prop :=
  idx (tx_chr (uart (drv y))) = 0 /\ idx (rx_chr (uart (drv y))) = 0 /\
  tx_armed y = false /\ rx_armed y = false /\ tx_items (drv y) = [] /\
  open_count (uart (drv y)) = 0.

(** A byte in the queue or a frame on the line keeps the timer armed. *)
Definition busy_armed y : Prop :=
  (tx_items (drv y) <> [] -> tx_armed y = true) /\
  (idx (tx_chr (uart (drv y))) <> -1 -> tx_armed y = true) /\
  (idx (rx_chr (uart (drv y))) <> -1 -> rx_armed y = true).

Record inv y : Prop := {
  inv_count : 0 <= open_count (uart (drv y)) <= INT_MAX;
  inv_irq : irq_on y = (0 <? open_count (uart (drv y)));
  inv_tx_idx : -1 <= idx (tx_chr (uart (drv y))) <= 10;
  inv_rx_idx : -1 <= idx (rx_chr (uart (drv y))) <= 9;
  inv_tx_chr : 0 <= data (tx_chr (uart (drv y))) < 256 /\
    parity_bit (tx_chr (uart (drv y))) = parity (data (tx_chr (uart (drv y))));
  inv_rx_chr : 0 <= data (rx_chr (uart (drv y))) < 256;
  inv_tx_bytes : Forall (fun b => 0 <= b < 256) (tx_items (drv y));
  inv_rx_bytes : Forall (fun b => 0 <= b < 256) (rx_items (drv y));
  inv_period : period_ok (drv y);
  inv_armed : fresh y \/ busy_armed y;
}.

Ltac inv_fields :=
  constructor; cbn -[Z.ltb Z.sub Z.add]; unfold rx_items, tx_items in *;
    cbn -[Z.ltb Z.sub Z.add]; try done; try lia.
Ltac inv_run H Q :=
  apply (run_wp _ _ _ _ _ _ _ Q H); clear H.

Lemma open_inv y e r s t : inv y -> open_count (uart (drv y)) < INT_MAX ->
  bitbang_open e (drv y) [] = (r, s, t) -> inv (settle y s t).
Proof.
  intros [] Hc Hrun. inv_run Hrun (fun (_ : Z) s t => inv (settle y s t)).
  unfold bitbang_open, bitbang_uart_open, atomic_fetch_add_unless, reset_rx_fifo.
  assert ((open_count (uart (drv y)) =? INT_MAX) = false) as Hne by (apply Z.eqb_neq; lia).
  assert (i32 (open_count (uart (drv y)) + 1) = open_count (uart (drv y)) + 1) as Hi
    by (apply wraps_small; lia).
  repeat (uart_step; cbn beta zeta); rewrite Hne, Hi;
    match goal with H : (_ =? 0) = _ |- _ => rename H into H0 end;
    [apply Z.eqb_eq in H0|apply Z.eqb_neq in H0].
  - inv_fields.
    + by rewrite kfifo_reset_spec.
    + right. destruct inv_armed0 as [(Ht & Hr & Hta & Hra & Hq & _)|(Hq & Ht & Hr)];
        unfold busy_armed, tx_items in *; cbn in *; naive_solver.
  - inv_fields.
    + rewrite inv_irq0. by destruct (Z.ltb_spec 0 (open_count (uart (drv y)))),
        (Z.ltb_spec 0 (open_count (uart (drv y)) + 1)); try lia.
    + right. by destruct inv_armed0 as [(_ & _ & _ & _ & _ & Hz)|].
Qed.

Lemma release_inv y e r s t : inv y -> opened y ->
  bitbang_release e (drv y) [] = (r, s, t) -> inv (settle y s t).
Proof.
  intros [] Hc Hrun. unfold opened in Hc.
  inv_run Hrun (fun (_ : Z) s t => inv (settle y s t)).
  unfold bitbang_release, bitbang_uart_close, atomic_dec_return, reset_rx_fifo.
  assert (i32 (open_count (uart (drv y)) - 1) = open_count (uart (drv y)) - 1) as Hi
    by (apply wraps_small; lia).
  assert (busy_armed y) as Hb by (by destruct inv_armed0 as [(_ & _ & _ & _ & _ & Hz)|]; [lia|]).
  repeat (uart_step; cbn beta zeta); rewrite Hi in *;
    match goal with H : (_ =? 0) = _ |- _ => rename H into H0 end;
    [apply Z.eqb_eq in H0|apply Z.eqb_neq in H0].
  - inv_fields; [by rewrite kfifo_reset_spec|by right].
  - inv_fields; [|by right]. rewrite inv_irq0.
    destruct (Z.ltb_spec 0 (open_count (uart (drv y)))),
      (Z.ltb_spec 0 (open_count (uart (drv y)) - 1)); done || lia.
Qed.

Lemma irq_inv y e r s t : inv y -> irq_on y = true ->
  rx_irq_handler e (drv y) [] = (r, s, t) -> inv (settle y s t).
Proof.
  intros [] Hon Hrun. inv_run Hrun (fun (_ : unit) s t => inv (settle y s t)).
  assert (busy_armed y) as Hb.
  { destruct inv_armed0 as [(_ & _ & _ & _ & _ & Hz)|]; [|done].
    rewrite inv_irq0, Hz in Hon. done. }
  unfold rx_irq_handler. wp_run; inv_fields; right; try done.
  destruct Hb as (? & ? & ?). by split_and!.
Qed.

Lemma period_inv y e kst buf count r s t : inv y ->
  period_store kst buf count e (drv y) [] = (r, s, t) -> inv (settle y s t).
Proof.
  intros [] Hrun. inv_run Hrun (fun (_ : Z) s t => inv (settle y s t)).
  unfold period_store, bitbang_uart_set_period. destruct (kst buf) as [|v].
  { wp_run. inv_fields. }
  wp_run; inv_fields; norm_tests; path_facts; cbn in *; try lia.
  unfold period_ok; cbn. split_and!; lia.
Qed.

Lemma read_inv y e count r s t : inv y -> opened y -> serves y e -> 0 <= count ->
  bitbang_read true 2 count e (drv y) [] = (r, s, t) -> inv (settle y s t).
Proof.
  intros [] Ho [Hu _] Hc Hrun.
  inv_run Hrun (fun (_ : option (Z * list Z)) s t => inv (settle y s t)).
  assert (busy_armed y) as Hb
    by (by unfold opened in Ho; destruct inv_armed0 as [(_ & _ & _ & _ & _ & Hz)|]; [lia|]).
  unfold bitbang_read, bitbang_uart_rx_buffer_empty. apply wp_bind, wp_gets.
  destruct (kfifo_is_empty _) eqn:He; cbn [andb]; [wp_run; inv_fields; by right|].
  unfold bitbang_rx. cbn [bitbang_rx_wait]. apply wp_bind, wp_bind, wp_gets. rewrite He.
  apply wp_ret. cbn [c_true]. apply wp_bind, wp_do; intros r1.
  apply wp_bind, wp_ask; intros u Hueq. apply wp_bind, wp_on_rx_fifo.
  destruct (kfifo_to_user _ _ _) as [f [rr out]] eqn:Hk. cbn [fst snd].
  apply kfifo_to_user_spec in Hk as (Hit & _); [|subst u; apply Hu|done].
  wp_run; inv_fields; try (by right);
    unfold rx_items in inv_rx_bytes0; rewrite Hit in inv_rx_bytes0;
    by apply Forall_app in inv_rx_bytes0 as [_ ?].
Qed.

Lemma write_inv y e from r s t : inv y -> opened y -> serves y e ->
  Forall (fun b => 0 <= b < 256) from ->
  bitbang_write true 2 from e (drv y) [] = (r, s, t) -> inv (settle y s t).
Proof.
  intros [] Ho [Hu Hact] Hfrom Hrun.
  inv_run Hrun (fun (_ : option Z) s t => inv (settle y s t)).
  assert (busy_armed y) as Hb
    by (by unfold opened in Ho; destruct inv_armed0 as [(_ & _ & _ & _ & _ & Hz)|]; [lia|]).
  unfold bitbang_write, bitbang_uart_tx_buffer_full. apply wp_bind, wp_gets.
  destruct (kfifo_is_full _) eqn:He; cbn [andb]; [wp_run; inv_fields; by right|].
  unfold bitbang_tx. cbn [bitbang_tx_wait]. apply wp_bind, wp_bind, wp_gets. rewrite He.
  apply wp_ret. cbn [c_true]. apply wp_bind, wp_do; intros r1.
  apply wp_bind, wp_ask; intros u Hueq. apply wp_bind, wp_on_tx_fifo.
  destruct (kfifo_from_user _ _ _) as [f [rr n]] eqn:Hk. cbn [fst snd].
  apply kfifo_from_user_spec in Hk as (Hn & Hit & _); [|subst u; apply Hu].
  assert (Forall (fun b => 0 <= b < 256) (items f)) as Hbytes.
  { rewrite Hit. apply Forall_app. split; [done|]. by apply Forall_take. }
  destruct Hb as (Hq & Hti & Hri).
  apply wp_bind, wp_do; intros r2. apply wp_bind. destruct (c_true n) eqn:Hcn.
  - apply wp_bind, wp_ask. intros a ->. rewrite Hact, c_true_b2z.
    destruct (tx_armed y) eqn:Hta; wp_run; inv_fields; right; by unfold busy_armed; cbn; rewrite ?Hta.
  - wp_run. inv_fields. right. unfold busy_armed, tx_items in *. cbn. rewrite Hit.
    norm_tests. apply Z.eqb_eq in Hcn. subst n. by rewrite take_0, app_nil_r.
Qed.

(** Calls that leave the three flags alone. *)
Definition same_flags t t' : Prop :=
  (forall b, flag (starts "tx_timer") (cancels "tx_timer") b t' =
             flag (starts "tx_timer") (cancels "tx_timer") b t) /\
  (forall b, flag (starts "rx_timer") (cancels "rx_timer") b t' =
             flag (starts "rx_timer") (cancels "rx_timer") b t) /\
  (forall b, flag enables disables b t' = flag enables disables b t).

Lemma tx_cb_flags e s t : wp e tx_timer_cb (fun _ _ t' => same_flags t t') s t.
Proof.
  unfold tx_timer_cb, tx_start, TXBIT.
  repeat (first [uart_step
                |match goal with |- wp _ (match ?l with _ => _ end) _ _ _ =>
                   destruct l as [|? [|]] end]; cbn beta zeta iota);
    by split_and!.
Qed.

Lemma rest_fields s s' : tx_rest s' = tx_rest s ->
  period_ok s' = period_ok s /\ open_count (uart s') = open_count (uart s) /\
  rx_chr (uart s') = rx_chr (uart s) /\ rx_items s' = rx_items s.
Proof. unfold tx_rest, period_ok, rx_items. by intros [= -> -> _ -> -> _ _ -> -> _]. Qed.

(** The callback of the transmit timer, in any state the invariant allows: it
    goes on exactly while there is something to send. *)
Lemma tx_cb_outcome y e : inv y -> tx_armed y = true ->
  wp e tx_timer_cb (fun r s' _ =>
    tx_rest s' = tx_rest (drv y) /\ -1 <= idx (tx_chr (uart s')) <= 10 /\
    (0 <= data (tx_chr (uart s')) < 256 /\
     parity_bit (tx_chr (uart s')) = parity (data (tx_chr (uart s')))) /\
    Forall (fun b => 0 <= b < 256) (tx_items s') /\
    (r = HRTIMER_RESTART \/ tx_items s' = [] /\ idx (tx_chr (uart s')) = -1)) (drv y) [].
Proof.
  intros [] Hta. destruct inv_tx_chr0 as [Hd Hp].
  set (c := tx_chr (uart (drv y))) in *.
  assert (idx c = -1 \/ 0 <= idx c <= 9 \/ idx c = 10) as [Hi|[Hi|Hi]] by lia.
  - destruct (tx_items (drv y)) as [|b q] eqn:Hq.
    + assert (tx_idle (drv y) [] (stats (drv y)) (drv y)) as Hid by by constructor.
      eapply wp_mono; [apply (tx_empty_step e _ _ _ _ Hid)|].
      intros r s' t' (-> & [Hx1 Hx2 _ Hx4] & _ & Hx5 & Hx6). unfold tx_items in *.
      fold c in Hx5, Hx6. rewrite Hx1, Hx2, Hx4, Hx5, Hx6.
      split_and!; try done; try lia; auto.
    + apply Forall_cons in inv_tx_bytes0 as [Hb Hbs].
      assert (tx_idle (drv y) (b :: q) (stats (drv y)) (drv y)) as Hid by by constructor.
      eapply wp_mono; [apply (tx_start_step e _ _ _ _ _ _ Hb Hid)|].
      intros r s' t' (-> & [Hx1 Hx2 Hx3 Hx4 _ Hx6] & _). unfold tx_items in *.
      rewrite Hx1, Hx2, Hx3, Hx4. split_and!; try done; try lia; auto.
  - assert (tx_at (drv y) (idx c) (data c) (tx_items (drv y)) (stats (drv y)) (drv y)) as Hat
      by by constructor.
    eapply wp_mono; [apply (tx_bit_step e _ _ _ _ _ _ _ Hi Hat)|].
    intros r s' t' (-> & [Hx1 Hx2 Hx3 Hx4 _ Hx6] & _). unfold tx_items in *.
    rewrite Hx1, Hx2, Hx3, Hx4. split_and!; try done; try lia; auto.
  - assert (tx_at (drv y) 10 (data c) (tx_items (drv y)) (stats (drv y)) (drv y)) as Hat
      by by constructor.
    eapply wp_mono; [apply (tx_end_step e _ _ _ _ _ _ Hat)|].
    intros r s' t' (-> & [Hx1 Hx2 _ Hx4] & _ & Hx5 & Hx6). unfold tx_items in *.
    fold c in Hx5, Hx6. rewrite Hx1, Hx2, Hx4, Hx5, Hx6.
      split_and!; try done; try lia; auto.
Qed.

Lemma tx_timer_inv y e r s t : inv y -> tx_armed y = true ->
  tx_timer_cb e (drv y) [] = (r, s, t) -> inv (set_tx_armed (restarts r) (settle y s t)).
Proof.
  intros Hinv Hta Hrun. pose proof (tx_cb_outcome y e Hinv Hta) as Hout.
  eapply (run_wp _ _ _ _ _ _ _ _ Hrun) in Hout.
  destruct Hout as (Hrest & Hidx & Hchr & Hbytes & Hend).
  pose proof (run_wp _ _ _ _ _ _ _ _ Hrun (tx_cb_flags e (drv y) [])) as (_ & Hf2 & Hf3).
  apply rest_fields in Hrest as (Hper & Hcnt & Hrx & Hrxi). destruct Hinv.
  assert (busy_armed y) as Hb by (by destruct inv_armed0 as [(_ & _ & Hz & _)|]; [congruence|]).
  constructor; cbn -[Z.ltb flag]; rewrite ?Hcnt, ?Hrx, ?Hrxi, ?Hper; try done.
  - by rewrite Hf3.
  - right. destruct Hb as (_ & _ & Hr). unfold busy_armed. cbn -[flag].
    rewrite Hf2, Hrx. destruct Hend as [-> | [-> ->]]; cbn; by split_and!.
Qed.

Lemma rx_timer_inv y e r s t : inv y -> rx_armed y = true ->
  rx_timer_cb e (drv y) [] = (r, s, t) -> inv (set_rx_armed (restarts r) (settle y s t)).
Proof.
  intros Hinv Hra Hrun. destruct Hinv.
  inv_run Hrun (fun r s t => inv (set_rx_armed (restarts r) (settle y s t))).
  assert (busy_armed y) as (Hq & Hti & _)
    by (by destruct inv_armed0 as [(_ & _ & _ & Hz & _)|]; [congruence|]).
  unfold rx_timer_cb, rx_stop, RXBIT. uart_run; cbn [restarts] in *; try discriminate;
    norm_tests; path_facts; inv_fields; try (right; unfold busy_armed; cbn; by split_and!);
    try (apply wrapu_range; lia).
  rewrite push_overwrite_items. unfold lastn. apply Forall_drop, Forall_app. by split; [|constructor].
Qed.

(** A set-up that succeeds leaves a device at rest. *)
Definition at_rest s : Prop :=
  open_count (uart s) = 0 /\ tx_chr (uart s) = Chr 0 0 0 /\ rx_chr (uart s) = Chr 0 0 0 /\
  tx_items s = [] /\ rx_items s = [] /\ period_ok s.

Lemma at_rest_inv s : at_rest s -> inv (Sys s false false false).
Proof.
  intros (Hc & Ht & Hr & Hti & Hri & Hp).
  constructor; cbn -[Z.ltb]; rewrite ?Hc, ?Ht, ?Hr, ?Hti, ?Hri; try done.
  left. unfold fresh; cbn. by rewrite Ht, Hr.
Qed.

Lemma uart_init_at_rest e s t : 1 <= period_ms s <= 1000 ->
  wp e bitbang_uart_init (fun r s' _ => r = 0 -> at_rest s') s t.
Proof.
  intros Hp. unfold bitbang_uart_init, bitbang_uart_set_period, gpio_init, irq_init.
  repeat (first [apply wp_on_tx_fifo | apply wp_on_rx_fifo | wp_step]; cbn beta zeta);
    intros Hr; norm_tests; cbn in *; try (path_facts; lia).
  all: try (exfalso; match goal with H : _ || _ = true |- _ => apply orb_true_iff in H end;
            path_facts; cbn in *; destruct_or?; path_facts; lia).
  all: unfold at_rest, period_ok, tx_items, rx_items; cbn; rewrite !kfifo_reset_spec;
    split_and!; done || lia.
Qed.

Lemma initial_at_rest y : initial y -> exists s, y = Sys s false false false /\ at_rest s.
Proof.
  intros (e & s0 & m_tx & m_rx & ms & s & t & Hms & Hrun & ->). exists s. split; [done|].
  eapply (run_wp _ _ _ _ _ _ _ (fun r s _ => r = 0 -> at_rest s) Hrun); [|done].
  clear Hrun t s. unfold bitbang_probe, bitbang_sysfs_init, bitbang_proc_init,
    bitbang_proc_exit, bitbang_sysfs_exit. cbv zeta.
  repeat (lazymatch goal with
          | |- wp _ bitbang_uart_init _ _ _ =>
              eapply wp_mono; [apply uart_init_at_rest; cbn; unfold PERIOD_MS;
                               destruct (Z.eqb_spec ms 0); lia|intros ? ? ? ?]
          | _ => wp_step
          end; cbn beta zeta).
  all: intros Hr; norm_tests; try (path_facts; lia); auto.
Qed.

Lemma initial_inv y : initial y -> inv y.
Proof. intros (s & -> & Hs)%initial_at_rest. by apply at_rest_inv. Qed.

Lemma step_inv y y' : inv y -> step y y' -> inv y'.
Proof.
  intros Hinv Hstep. destruct Hstep.
  - by eapply open_inv.
  - by eapply release_inv.
  - by eapply write_inv.
  - by eapply read_inv.
  - by eapply irq_inv.
  - by eapply tx_timer_inv.
  - by eapply rx_timer_inv.
  - by eapply period_inv.
Qed.

Lemma reachable_invariant y : reachable y -> inv y.
Proof.
  intros (y0 & Hi%initial_inv & Hs). induction Hs as [|y0 y1 y2 H01 _ IH]; [done|].
  apply IH. by eapply step_inv.
Qed.


(** More fuel than needed changes nothing. *)
Lemma run_tx_more e n m Q s t : (n <= m)%nat ->
  wp e (run_tx n) (fun r s' t' => r = Some tt /\ Q s' t') s t ->
  wp e (run_tx m) (fun r s' t' => r = Some tt /\ Q s' t') s t.
Proof.
  revert m s t. induction n as [|n IH]; intros m s t Hm Hw; [by destruct Hw|].
  destruct m as [|m]; [lia|]. cbn [run_tx] in *. unfold wp, mbind, M_bind in *.
  destruct (tx_timer_cb e s t) as [[r s'] t']. destruct (restarts r); [|done].
  apply IH; [lia|done].
Qed.


(** Nobody has the device open and the last byte of the previous user is on its
    way. *)
Definition closed_mid_frame y : Prop :=
  open_count (uart (drv y)) = 0 /\ 0 <= idx (tx_chr (uart (drv y))) <= 10 /\
  tx_items (drv y) = [].

(** The first open resets the transmit index even when the bytes of the
    previous user are still being sent: the timer then finds nothing to do and
    stops, so the rest of the frame is never driven and the line keeps the level
    of the last bit sent. *)
Theorem open_cuts_frame y e t :
  closed_mid_frame y ->
  wp e (bitbang_open ≫= fun _ => run_tx 1) (fun r s' t' =>
    r = Some tt /\ idx (tx_chr (uart s')) = -1 /\
    driven (tx_gpio (uart (drv y))) t' = driven (tx_gpio (uart (drv y))) t) (drv y) t.
Proof.
  intros (Hc & Hi & Hq). set (s := drv y) in *. unfold bitbang_open, bitbang_uart_open,
    atomic_fetch_add_unless, reset_rx_fifo. apply wp_bind. repeat (uart_step; cbn beta zeta).
  - cbn [run_tx]. apply wp_bind. eapply wp_mono; [eapply tx_empty_step; by constructor|].
    intros r1 s' t' (-> & [Hx _ _ _] & Hd & _). cbn [restarts]. apply wp_ret.
    split_and!; [done|done|]. exact Hd.
  - norm_tests. rewrite Hc in *. done.
Qed.
End system.

(** ** Concrete runs *)
Definition booted : system list_fifo :=
  Sys (snd (fst (bitbang_probe 17 18 10 calm blank_priv []))) false false false.

Lemma booted_initial : initial booted.
Proof.
  eexists calm, blank_priv, 17, 18, 10, _, _. split; [lia|]. split; [|reflexivity].
  vm_compute. reflexivity.
Qed.

Definition after {A} (m : M (bitbang_priv list_fifo) A) (y : system list_fifo) :
    system list_fifo :=
  let '(_, s, t) := m calm (drv y) [] in settle y s t.

(** Opened, and two bytes written. *)
Definition written : system list_fifo :=
  after (bitbang_write true 2 [72; 105]) (after bitbang_open booted).

Lemma after_open y : open_count (uart (drv y)) < INT_MAX -> step y (after bitbang_open y).
Proof.
  unfold after. intros H. destruct (bitbang_open calm (drv y) []) as [[r s] t] eqn:E.
  by eapply step_open.
Qed.

Lemma after_write y from : opened y -> serves y calm -> Forall (fun b => 0 <= b < 256) from ->
  step y (after (bitbang_write true 2 from) y).
Proof.
  unfold after. intros Ho Hs Hb.
  destruct (bitbang_write true 2 from calm (drv y) []) as [[r s] t] eqn:E.
  by eapply step_write.
Qed.

Lemma written_reachable : reachable written.
Proof.
  exists booted. split; [exact booted_initial|].
  apply (rtc_l _ _ (after bitbang_open booted)); [apply after_open; vm_compute; reflexivity|].
  apply rtc_once, after_write.
  - vm_compute. reflexivity.
  - split; [intros t n; cbn; lia|]. intros t. vm_compute. reflexivity.
  - repeat constructor; lia.
Qed.



Lemma open_cuts_frame_witness :
  wp calm (bitbang_open ≫= fun _ => run_tx 1) (fun r s' t' =>
    r = Some tt /\ idx (tx_chr (uart s')) = -1 /\ driven 17 t' = [])
    (upd_uart (set_open_count 0) running_priv) [].
Proof.
  apply (open_cuts_frame (Sys (upd_uart (set_open_count 0) running_priv) true false false)
           calm []).
  split_and!; [reflexivity|cbn; lia|cbn; lia|reflexivity].
Defined.
