(* ===== verification/BitbangPipe.v ===== *)
(** * The bit-bang UART as a pipe

    What a user of the device ([soft_uart/bitbang/]) and an observer of its transmit
    line may rely on, without queues of the kernel, bit indices and timers: a [pipe]
    holds the bytes that wait to be sent, the levels that are left of the frame on
    the line, the bytes that wait to be read and the number of users.  Every step of
    the system of [BitbangSystem] that can be seen is one that the pipe allows: the
    device refines the pipe.  What follows for the bytes is proved on the pipe. *)
From S2P Require Import Prelude.
From S2P Require Import Kernel.
From S2P Require Import Wire.
From S2P Require Import Kfifo.
From S2P Require Import BitbangUart.
From S2P Require Import BitbangFrames.
From S2P Require Import BitbangDriver.
From S2P Require Import BitbangIo.
From S2P Require Import BitbangSystem.
From stdpp Require Import relations.
From stdpp Require Import options.
#[local] Open Scope Z_scope.

(** ** The pipe *)
Record pipe := Pipe {
  queued : list Z;
  line : list Z;
  arrived : list Z;
  users : Z;
}.

(** What can be seen of a step: calls of users with their results, the levels a
    callback of the transmit timer puts on the line. *)
Inductive seen :=
  | S_open
  | S_close
  | S_write (from : list Z) (ret : Z)
  | S_read (count ret : Z) (out : list Z)
  | S_line (levels : list Z)
  | S_receiver (good : list Z)  (** an interrupt or a sample, with the byte it completes *)
  | S_period.

Section pipe.
Context (capacity : nat).

(** [allows v p acc came p']: the pipe [p] may show [v] and become [p']; it takes the
    bytes [acc] from the writer and [came] from the receive line. *)
Inductive allows : seen -> pipe -> list Z -> list Z -> pipe -> Prop :=
  | allows_open p : users p < INT_MAX ->
      allows S_open p [] []
        (Pipe (queued p) (if users p =? 0 then [] else line p)
           (if users p =? 0 then [] else arrived p) (users p + 1))
  | allows_close p : 0 < users p ->
      allows S_close p [] []
        (Pipe (queued p) (line p) (if users p =? 1 then [] else arrived p) (users p - 1))
  | allows_write p from n : 0 < users p -> (length (queued p) < capacity)%nat ->
      n = min (length from) (capacity - length (queued p)) ->
      allows (S_write from (Z.of_nat n)) p (take n from) []
        (Pipe (queued p ++ take n from) (line p) (arrived p) (users p))
  | allows_write_full p from : length (queued p) = capacity ->
      allows (S_write from (- EAGAIN)) p [] [] p
  | allows_write_fault p from n : 0 < users p -> (n <= length from)%nat ->
      allows (S_write from (- EFAULT)) p (take n from) []
        (Pipe (queued p ++ take n from) (line p) (arrived p) (users p))
  | allows_read p count : 0 < users p -> arrived p <> [] ->
      allows (S_read count (Z.of_nat (length (take (Z.to_nat count) (arrived p))))
                (take (Z.to_nat count) (arrived p))) p [] []
        (Pipe (queued p) (line p) (drop (Z.to_nat count) (arrived p)) (users p))
  | allows_read_empty p count : arrived p = [] ->
      allows (S_read count (- EAGAIN) []) p [] [] p
  | allows_read_fault p count out rest : arrived p = out ++ rest ->
      (length out <= Z.to_nat count)%nat ->
      allows (S_read count (- EFAULT) out) p [] []
        (Pipe (queued p) (line p) rest (users p))
  | allows_level p v rest : line p = v :: rest ->
      allows (S_line [v]) p [] [] (Pipe (queued p) rest (arrived p) (users p))
  | allows_byte p b q : line p = [] -> queued p = b :: q ->
      allows (S_line [0]) p [] [] (Pipe q (tail (frame b)) (arrived p) (users p))
  | allows_rest p : line p = [] -> queued p = [] ->
      allows (S_line []) p [] [] p
  | allows_sample p :
      allows (S_receiver []) p [] [] p
  | allows_arrival p b : 0 <= b < 256 ->
      allows (S_receiver [b]) p [] [b]
        (Pipe (queued p) (line p) (lastn capacity (arrived p ++ [b])) (users p))
  | allows_period p :
      allows S_period p [] [] p.

(** From the empty pipe: what is seen, and the bytes taken at both ends. *)
Inductive pipe_run : list seen -> list Z -> list Z -> pipe -> Prop :=
  | pipe_start : pipe_run [] [] [] (Pipe [] [] [] 0)
  | pipe_more vs acc came p v a c p' :
      pipe_run vs acc came p -> allows v p a c p' ->
      pipe_run (vs ++ [v]) (acc ++ a) (came ++ c) p'.

(** *** Bytes through the pipe *)
Definition levels_of (v : seen) : list Z := match v with S_line l => l | _ => [] end.
Definition arrivals (v : seen) : list Z := match v with S_receiver good => good | _ => [] end.
Definition bytes_read (v : seen) : list Z := match v with S_read _ _ out => out | _ => [] end.

(** The bytes a write takes: as many as it says, or some of them when the copy from
    the user fails. *)
Definition accepts (v : seen) (a : list Z) : Prop :=
  match v with
  | S_write from ret => if ret =? - EFAULT then a `prefix_of` from else a = take (Z.to_nat ret) from
  | _ => a = []
  end.

(** The users after [vs], and how many of its opens were the first one. *)
Definition users_after (n : Z) (v : seen) : Z :=
  match v with S_open => n + 1 | S_close => n - 1 | _ => n end.
Fixpoint opens_first (n : Z) (vs : list seen) : nat :=
  match vs with
  | [] => 0
  | v :: vs' => match v with S_open => if n =? 0 then 1 else 0 | _ => 0 end +
                opens_first (users_after n v) vs'
  end.

Lemma opens_first_snoc n vs v : opens_first n (vs ++ [v]) =
  (opens_first n vs +
   match v with S_open => if (foldl users_after n vs =? 0)%Z then 1 else 0 | _ => 0 end)%nat.
Proof. revert n; induction vs as [|w vs IH]; intros n; cbn; [lia|]. rewrite IH. lia. Qed.

(** A byte that was sent, with the levels that were driven for it. *)
Definition sent_ok (x : Z * list Z) : Prop := snd x <> [] /\ snd x `prefix_of` frame (fst x).
Definition cut (x : Z * list Z) : bool := bool_decide (snd x <> frame (fst x)).
Definition cuts (sent : list (Z * list Z)) : nat := length (List.filter cut sent).

Lemma cuts_app l k : cuts (l ++ k) = (cuts l + cuts k)%nat.
Proof. unfold cuts. by rewrite List.filter_app, length_app. Qed.

(** What the pipe has done with the bytes it took. *)
Record streamed (vs : list seen) (acc came : list Z) (p : pipe)
    (sent : list (Z * list Z)) : Prop := {
  st_users : users p = foldl users_after 0 vs /\ 0 <= users p;
  st_unused : opens_first 0 vs = 0%nat -> users p = 0 /\ line p = [] /\ queued p = [];
  st_sent : acc = map fst sent ++ queued p;
  st_levels : flat_map levels_of vs = concat (map snd sent);
  st_ok : Forall sent_ok sent;
  st_cuts : (cuts sent <= opens_first 0 vs - 1 + (if decide (line p = []) then 0 else 1))%nat;
  st_line : line p <> [] -> exists sent' b l, sent = sent' ++ [(b, l)] /\ frame b = l ++ line p;
  st_read : (flat_map bytes_read vs ++ arrived p) `sublist_of` came;
}.

Lemma lastn_sublist (l : list Z) : lastn capacity l `sublist_of` l.
Proof. unfold lastn. apply sublist_drop. Qed.

Lemma pipe_start_streamed : streamed [] [] [] (Pipe [] [] [] 0) [].
Proof. constructor; done || (cbn; lia). Qed.

Lemma allows_arrivals v p a c p' : allows v p a c p' -> c = arrivals v.
Proof. by destruct 1. Qed.

Lemma allows_accepts v p a c p' : allows v p a c p' -> accepts v a.
Proof.
  destruct 1; cbn; try done.
  - rewrite (proj2 (Z.eqb_neq _ _)); [by rewrite Nat2Z.id|lia].
  - apply prefix_take.
Qed.

(** Steps at the ends of the pipe: the levels already sent stay as they are. *)
Lemma streamed_ends vs acc came p sent v a c q l' r' u :
  streamed vs acc came p sent ->
  levels_of v = [] ->
  u = users_after (users p) v -> 0 <= u ->
  (v = S_open /\ l' = (if users p =? 0 then [] else line p) \/ v <> S_open /\ l' = line p) ->
  (q <> queued p -> 0 < users p) -> q = queued p ++ a ->
  (bytes_read v ++ r') `sublist_of` (arrived p ++ c) ->
  streamed (vs ++ [v]) (acc ++ a) (came ++ c) (Pipe q l' r' u) sent.
Proof.
  intros [] Hlev -> Hu Hopen Hq -> Hrd. destruct st_users0 as [Hus Hup].
  pose proof (opens_first_snoc 0 vs v) as Hof. rewrite <- Hus in Hof.
  constructor; cbn.
  - by rewrite foldl_app, <- Hus.
  - intros Hz. rewrite Hz in Hof. assert (opens_first 0 vs = 0%nat) as Hz0 by lia.
    destruct (st_unused0 Hz0) as (Hn & Hl & Hqe). rewrite Hn in *. cbn in *.
    destruct Hopen as [[-> _]|[Hne ->]]; [cbn in Hof; lia|].
    destruct v; try done; cbn in *; try lia; split_and!; try done;
      destruct a; rewrite ?app_nil_r; try done; exfalso;
      enough (0 < 0) by lia; apply Hq; intros [=]%(f_equal length);
      rewrite length_app in *; cbn in *; lia.
  - by rewrite st_sent0, app_assoc.
  - by rewrite flat_map_app, st_levels0; cbn; rewrite Hlev, !app_nil_r.
  - done.
  - rewrite Hof. destruct Hopen as [[-> ->]|[Hne ->]].
    + destruct (Z.eqb_spec (users p) 0) as [Hz|Hz].
      * destruct (decide (line p = [])); destruct (decide ([] = [])); try done; try lia.
        destruct (decide (opens_first 0 vs = 0%nat)) as [Hz0|]; [|lia].
        by destruct (st_unused0 Hz0) as (_ & ? & _).
      * lia.
    + destruct v; try done; lia.
  - intros Hl. destruct Hopen as [[-> ->]|[Hne ->]]; [|by apply st_line0].
    destruct (users p =? 0); [done|by apply st_line0].
  - rewrite flat_map_app. cbn. rewrite app_nil_r, <- app_assoc.
    etransitivity; [apply sublist_app; [reflexivity|exact Hrd]|].
    rewrite app_assoc. by apply sublist_app.
Qed.

(** A level of the frame on the line. *)
Lemma streamed_level vs acc came p sent x rest : line p = x :: rest ->
  streamed vs acc came p sent -> exists sent',
  streamed (vs ++ [S_line [x]]) acc came (Pipe (queued p) rest (arrived p) (users p)) sent'.
Proof.
  intros Hl []. destruct st_line0 as (sent' & b & l & -> & Hb); [by rewrite Hl|].
  pose proof (opens_first_snoc 0 vs (S_line [x])) as Hof. rewrite Nat.add_0_r in Hof.
  destruct st_users0 as [Hus Hup].
  exists (sent' ++ [(b, l ++ [x])]). constructor; cbn [users line queued arrived].
  - by rewrite foldl_app.
  - intros Hz. rewrite Hof in Hz. apply st_unused0 in Hz as (_ & Hz & _). congruence.
  - by rewrite st_sent0, !map_app.
  - by rewrite flat_map_app, st_levels0, !map_app, !concat_app; cbn; rewrite !app_nil_r, app_assoc.
  - apply Forall_app in st_ok0 as [Hs _]. apply Forall_app. split; [done|].
    apply Forall_singleton. split; cbn; [by destruct l|]. exists rest. by rewrite Hb, Hl, <- app_assoc.
  - rewrite Hof. rewrite cuts_app in *. destruct (decide (line p = [])); [congruence|].
    assert (opens_first 0 vs <> 0%nat) as Hne by (intros Hz; by apply st_unused0 in Hz as (_ & ? & _)).
    assert (cuts [(b, l)] = 1%nat) as Hc1.
    { unfold cuts, cut; cbn. rewrite bool_decide_eq_true_2; [done|]. intros Heq.
      apply (f_equal length) in Hb. rewrite <- Heq, length_app, Hl in Hb. cbn in Hb. lia. }
    assert (cuts [(b, l ++ [x])] = if decide (rest = []) then 0%nat else 1%nat) as Hc2.
    { unfold cuts, cut; cbn [List.filter fst snd]. rewrite Hb, Hl.
      destruct (decide (rest = [])) as [->|Hr].
      - by rewrite bool_decide_eq_false_2 by (intros Hx; by apply Hx).
      - rewrite bool_decide_eq_true_2; [done|]. intros Heq. apply app_inv_head in Heq.
        destruct rest; done. }
    rewrite Hc2, Hc1 in *. destruct (decide (rest = [])); lia.
  - intros _. exists sent', b, (l ++ [x]). split; [done|]. by rewrite Hb, Hl, <- app_assoc.
  - by rewrite flat_map_app, app_nil_r.
Qed.

(** The start bit of the next byte. *)
Lemma streamed_byte vs acc came p sent b q : line p = [] -> queued p = b :: q ->
  streamed vs acc came p sent ->
  streamed (vs ++ [S_line [0]]) acc came (Pipe q (tail (frame b)) (arrived p) (users p))
    (sent ++ [(b, [0])]).
Proof.
  intros Hl Hq []. pose proof (opens_first_snoc 0 vs (S_line [0])) as Hof.
  rewrite Nat.add_0_r in Hof. destruct st_users0 as [Hus Hup].
  assert (opens_first 0 vs <> 0%nat) as Hne by (intros Hz; apply st_unused0 in Hz as (_ & _ & ?); congruence).
  constructor; cbn [users line queued arrived].
  - by rewrite foldl_app.
  - rewrite Hof. done.
  - rewrite st_sent0, Hq, map_app, <- app_assoc. done.
  - by rewrite flat_map_app, st_levels0, !map_app, concat_app.
  - apply Forall_app. split; [done|]. apply Forall_singleton. split; [done|].
    by exists (tail (frame b)).
  - rewrite Hof, cuts_app. destruct (decide (line p = [])); [|done].
    assert (cuts [(b, [0])] = 1%nat) as -> by done.
    destruct (decide _) as [Hx|]; [done|lia].
  - intros _. by exists sent, b, [0].
  - by rewrite flat_map_app, app_nil_r.
Qed.

Lemma streamed_step vs acc came p sent v a c p' :
  streamed vs acc came p sent -> allows v p a c p' ->
  exists sent', streamed (vs ++ [v]) (acc ++ a) (came ++ c) p' sent'.
Proof.
  intros Hst Hal. pose proof Hst as [[_ Hup] _ _ _ _ _ _ _].
  destruct Hal; try (exists sent; destruct p; cbn in *;
    eapply streamed_ends; [exact Hst|done|done|cbn; lia|by (right + left)|done || (cbn; lia)
      |by rewrite ?app_nil_r|cbn; rewrite ?app_nil_r, ?take_drop; try done; try reflexivity]; fail).
  - exists sent. eapply streamed_ends; [exact Hst|done|done|cbn; lia|by left|done|by rewrite app_nil_r|].
    cbn. rewrite app_nil_r. destruct (_ =? 0); [apply sublist_nil_l|done].
  - exists sent. eapply streamed_ends; [exact Hst|done|done|cbn; lia|by right|done|by rewrite app_nil_r|].
    cbn. rewrite app_nil_r. destruct (_ =? 1); [apply sublist_nil_l|done].
  - exists sent. eapply streamed_ends; [exact Hst|done|done|cbn; lia|by right|done|by rewrite app_nil_r|].
    cbn. rewrite app_nil_r. match goal with H : arrived p = _ |- _ => by rewrite H end.
  - rewrite !app_nil_r. by eapply streamed_level.
  - rewrite !app_nil_r. eexists. by eapply streamed_byte.
  - exists sent. eapply streamed_ends; [exact Hst|done|done|cbn; lia|by right|done|by rewrite app_nil_r|].
    apply lastn_sublist.
Qed.

Lemma pipe_streams vs acc came p : pipe_run vs acc came p ->
  exists sent accs, streamed vs acc came p sent /\ Forall2 accepts vs accs /\ acc = concat accs /\
    came = flat_map arrivals vs.
Proof.
  induction 1 as [|vs acc came p v a c p' _ (sent & accs & Hst & Hac & -> & ->) Hal].
  - exists [], []. by split_and!; [apply pipe_start_streamed|..].
  - destruct (streamed_step _ _ _ _ _ _ _ _ _ Hst Hal) as [sent' Hst'].
    exists sent', (accs ++ [a]). split_and!; [done| | |].
    + apply Forall2_app; [done|]. constructor; [by eapply allows_accepts|constructor].
    + by rewrite concat_app; cbn; rewrite app_nil_r.
    + rewrite flat_map_app; cbn. rewrite app_nil_r. by apply allows_arrivals in Hal as ->.
Qed.
End pipe.

(** ** The system, with what is seen of its steps *)
Section refinement.
Context {F : Type} `{HF : KfifoSpec F}.
Abbreviation priv := (bitbang_priv F).
Implicit Types (y : system F) (s : priv) (t : trace).

(** The receiver wakes the readers exactly when it has queued the byte it holds. *)
Definition wakes (c : call) : bool :=
  match c with wake_up_interruptible q => String.eqb q "rx_wq" | _ => false end.
Definition taken y t : list Z :=
  if existsb (fun ev => wakes (ev_call ev)) t then [data (rx_chr (uart (drv y)))] else [].

Inductive vstep : system F -> seen -> system F -> Prop :=
  | v_open y e r s t : open_count (uart (drv y)) < INT_MAX ->
      bitbang_open e (drv y) [] = (r, s, t) -> vstep y S_open (settle y s t)
  | v_release y e r s t : opened y ->
      bitbang_release e (drv y) [] = (r, s, t) -> vstep y S_close (settle y s t)
  | v_write y e from r s t : opened y -> serves y e ->
      Forall (fun b => 0 <= b < 256) from ->
      bitbang_write true 2 from e (drv y) [] = (Some r, s, t) ->
      vstep y (S_write from r) (settle y s t)
  | v_read y e count r out s t : opened y -> serves y e -> 0 <= count ->
      bitbang_read true 2 count e (drv y) [] = (Some (r, out), s, t) ->
      vstep y (S_read count r out) (settle y s t)
  | v_irq y e r s t : irq_on y = true ->
      rx_irq_handler e (drv y) [] = (r, s, t) -> vstep y (S_receiver []) (settle y s t)
  | v_tx_timer y e r s t : tx_armed y = true ->
      tx_timer_cb e (drv y) [] = (r, s, t) ->
      vstep y (S_line (driven (tx_gpio (uart (drv y))) t)) (set_tx_armed (restarts r) (settle y s t))
  | v_rx_timer y e r s t : rx_armed y = true ->
      rx_timer_cb e (drv y) [] = (r, s, t) ->
      vstep y (S_receiver (taken y t)) (set_rx_armed (restarts r) (settle y s t))
  | v_period y e kstrtouint buf count r s t :
      period_store kstrtouint buf count e (drv y) [] = (r, s, t) -> vstep y S_period (settle y s t).

Lemma vstep_step y v y' : vstep y v y' -> step y y'.
Proof. destruct 1; by econstructor. Qed.

Inductive vsteps : system F -> list seen -> system F -> Prop :=
  | vsteps_nil y : vsteps y [] y
  | vsteps_snoc y vs y1 v y2 : vsteps y vs y1 -> vstep y1 v y2 -> vsteps y (vs ++ [v]) y2.

(** The levels left of the frame that is being sent. *)
Definition line_of y : list Z :=
  let c := tx_chr (uart (drv y)) in
  if tx_armed y && negb (idx c =? -1) then drop (Z.to_nat (idx c + 1)) (frame (data c)) else [].

Definition abs y : pipe :=
  Pipe (tx_items (drv y)) (line_of y) (rx_items (drv y)) (open_count (uart (drv y))).

(** [run Q]: the outcome of a run has what the weakest precondition promises. *)
Ltac seen_run H Q := apply (run_wp _ _ _ _ _ _ _ Q H); clear H.

(** The pipe [p] may show [v] and become the view of [y]. *)
Definition shows v (p : pipe) y : Prop :=
  exists a c, allows capacity v p a c (abs y).

Lemma opened_busy y : inv y -> opened y -> busy_armed y.
Proof.
  intros [] Ho. unfold opened in Ho.
  destruct inv_armed as [(_ & _ & _ & _ & _ & Hz)|]; [lia|done].
Qed.

Lemma armed_busy y : inv y -> tx_armed y = true \/ rx_armed y = true -> busy_armed y.
Proof. intros [] Ha. destruct inv_armed as [(_ & _ & Ht & Hr & _)|]; [|done]. destruct Ha; congruence. Qed.

Lemma abs_open y e r s t : inv y -> open_count (uart (drv y)) < INT_MAX ->
  bitbang_open e (drv y) [] = (r, s, t) -> shows S_open (abs y) (settle y s t).
Proof.
  intros [] Hc Hrun. seen_run Hrun (fun (_ : Z) s t => shows S_open (abs y) (settle y s t)).
  unfold bitbang_open, bitbang_uart_open, atomic_fetch_add_unless, reset_rx_fifo.
  assert ((open_count (uart (drv y)) =? INT_MAX) = false) as Hne by (apply Z.eqb_neq; lia).
  assert (i32 (open_count (uart (drv y)) + 1) = open_count (uart (drv y)) + 1) as Hi
    by (apply wraps_small; lia).
  pose proof (allows_open capacity (abs y) Hc) as Ha. cbn [queued users line arrived abs] in Ha.
  repeat (uart_step; cbn beta zeta); rewrite Hne, Hi;
    exists [], []; unfold abs, line_of, tx_items, rx_items in *; cbn in *.
  - by rewrite kfifo_reset_spec, andb_false_r.
  - exact Ha.
Qed.

Lemma abs_release y e r s t : inv y -> opened y ->
  bitbang_release e (drv y) [] = (r, s, t) -> shows S_close (abs y) (settle y s t).
Proof.
  intros [] Hc Hrun. unfold opened in Hc.
  seen_run Hrun (fun (_ : Z) s t => shows S_close (abs y) (settle y s t)).
  unfold bitbang_release, bitbang_uart_close, atomic_dec_return, reset_rx_fifo.
  assert (i32 (open_count (uart (drv y)) - 1) = open_count (uart (drv y)) - 1) as Hi
    by (apply wraps_small; lia).
  pose proof (allows_close capacity (abs y) Hc) as Ha. cbn [queued users line arrived abs] in Ha.
  repeat (uart_step; cbn beta zeta); rewrite Hi in *;
    match goal with H : (_ =? 0) = _ |- _ => rename H into H0 end;
    exists [], []; unfold abs, line_of, tx_items, rx_items in *; cbn in *.
  - apply Z.eqb_eq in H0. rewrite (proj2 (Z.eqb_eq (open_count (uart (drv y))) 1)) in Ha by lia. by rewrite kfifo_reset_spec.
  - apply Z.eqb_neq in H0. by rewrite (proj2 (Z.eqb_neq (open_count (uart (drv y))) 1)) in Ha by lia.
Qed.

Lemma abs_irq y e r s t : inv y -> irq_on y = true ->
  rx_irq_handler e (drv y) [] = (r, s, t) -> shows (S_receiver []) (abs y) (settle y s t).
Proof.
  intros _ _ Hrun. seen_run Hrun (fun (_ : unit) s t => shows (S_receiver []) (abs y) (settle y s t)).
  pose proof (allows_sample capacity (abs y)).
  unfold rx_irq_handler. wp_run; by exists [], [].
Qed.

Lemma abs_period y e kst buf count r s t : inv y ->
  period_store kst buf count e (drv y) [] = (r, s, t) -> shows S_period (abs y) (settle y s t).
Proof.
  intros _ Hrun. seen_run Hrun (fun (_ : Z) s t => shows S_period (abs y) (settle y s t)).
  pose proof (allows_period capacity (abs y)).
  unfold period_store, bitbang_uart_set_period. destruct (kst buf) as [|v]; wp_run; by exists [], [].
Qed.

Lemma abs_read y e count r out s t : inv y -> opened y -> serves y e -> 0 <= count ->
  bitbang_read true 2 count e (drv y) [] = (Some (r, out), s, t) ->
  shows (S_read count r out) (abs y) (settle y s t).
Proof.
  intros _ Ho [Hu _] Hc Hrun. revert Hrun. intros Hrun.
  enough (wp e (bitbang_read true 2 count) (fun o s t =>
    forall r out, o = Some (r, out) -> shows (S_read count r out) (abs y) (settle y s t)) (drv y) [])
    as Hwp by (by apply (run_wp _ _ _ _ _ _ _ _ Hrun Hwp)).
  clear Hrun r out s t. unfold bitbang_read, bitbang_uart_rx_buffer_empty. apply wp_bind, wp_gets.
  destruct (kfifo_is_empty _) eqn:He; cbn [andb].
  - wp_run. intros r out [= <- <-]. exists [], []. apply (allows_read_empty _ (abs y)).
    by apply rx_empty.
  - assert (rx_items (drv y) <> []) as Hne by (intros Hn%rx_empty; congruence).
    unfold bitbang_rx. cbn [bitbang_rx_wait]. apply wp_bind, wp_bind, wp_gets. rewrite He.
    apply wp_ret. cbn [c_true]. apply wp_bind, wp_do; intros r1.
    apply wp_bind, wp_ask; intros u Hueq. apply wp_bind, wp_on_rx_fifo.
    destruct (kfifo_to_user _ _ _) as [f [rr out']] eqn:Hk. cbn [fst snd].
    apply kfifo_to_user_spec in Hk as (Hit & Hlen & Hz & Hnz); [|subst u; apply Hu|done].
    apply wp_bind, wp_do; intros r2. apply wp_ret. intros r out [= <- <-]. exists [], [].
    destruct (Z.eq_dec u 0) as [Hu0|Hu0].
    + destruct (Hz Hu0) as [-> ->]. fold (rx_items (drv y)) in *.
      assert (items f = drop (Z.to_nat count) (rx_items (drv y))) as Hf.
      { apply (app_inv_head (take (Z.to_nat count) (rx_items (drv y)))).
        by rewrite <- Hit, take_drop. }
      pose proof (allows_read capacity (abs y) count Ho Hne) as Ha.
      unfold abs, line_of, tx_items, rx_items in *. cbn in *. by rewrite Hf.
    + rewrite (Hnz Hu0). pose proof (allows_read_fault capacity (abs y) count _ _ Hit Hlen) as Ha.
      unfold abs, line_of, tx_items, rx_items in *. cbn in *. exact Ha.
Qed.

Lemma abs_write y e from r s t : inv y -> opened y -> serves y e ->
  bitbang_write true 2 from e (drv y) [] = (Some r, s, t) ->
  shows (S_write from r) (abs y) (settle y s t).
Proof.
  intros Hinv Ho [Hu Hact] Hrun.
  destruct (opened_busy y Hinv Ho) as (_ & Hbusy & _).
  enough (wp e (bitbang_write true 2 from) (fun o s t =>
    forall r, o = Some r -> shows (S_write from r) (abs y) (settle y s t)) (drv y) [])
    as Hwp by (by apply (run_wp _ _ _ _ _ _ _ _ Hrun Hwp)).
  clear Hrun r s t. unfold bitbang_write, bitbang_uart_tx_buffer_full. apply wp_bind, wp_gets.
  destruct (kfifo_is_full _) eqn:He; cbn [andb].
  - wp_run. intros r [= <-]. rewrite kfifo_is_full_spec in He. apply Nat.eqb_eq in He.
    eexists _, _. by apply (allows_write_full _ (abs y)).
  - unfold bitbang_tx. cbn [bitbang_tx_wait]. apply wp_bind, wp_bind, wp_gets. rewrite He.
    apply wp_ret. cbn [c_true]. apply wp_bind, wp_do; intros r1.
    apply wp_bind, wp_ask; intros u Hueq. apply wp_bind, wp_on_tx_fifo.
    destruct (kfifo_from_user _ _ _) as [f [rr n]] eqn:Hk. cbn [fst snd].
    apply kfifo_from_user_spec in Hk as (Hn & Hit & Hz & Hnz); [|subst u; apply Hu].
    assert (forall armed, (tx_armed y = true -> armed = true) ->
      shows (S_write from (if c_true rr then rr else n)) (abs y)
        (Sys (upd_uart (set_tx_fifo f) (drv y)) armed (rx_armed y) (irq_on y))) as Hsh.
    { intros armed Harm. exists (take (Z.to_nat n) from), [].
      assert (line_of (Sys (upd_uart (set_tx_fifo f) (drv y)) armed (rx_armed y) (irq_on y)) =
              line_of y) as Hline.
      { unfold line_of; cbn. destruct (Z.eqb_spec (idx (tx_chr (uart (drv y)))) (-1)) as [|Hne].
        - by rewrite !andb_false_r.
        - by rewrite (Hbusy Hne), Harm by (by apply Hbusy). }
      destruct (Z.eq_dec u 0) as [Hu0|Hu0].
      - destruct (Hz Hu0) as [-> Hnm]. cbn [c_true]. rewrite <- (Z2Nat.id n) at 1 by lia.
        assert (length (tx_items (drv y)) < capacity)%nat as Hlt.
        { rewrite kfifo_is_full_spec in He. apply Nat.eqb_neq in He.
          pose proof (items_bound (tx_fifo (uart (drv y)))). unfold tx_items. lia. }
        pose proof (allows_write capacity (abs y) from (Z.to_nat n) Ho Hlt) as Ha.
        unfold abs in *. rewrite Hline. cbn in *. unfold tx_items, rx_items in *. cbn.
        rewrite Hit. apply Ha. lia.
      - rewrite (Hnz Hu0). pose proof (allows_write_fault capacity (abs y) from (Z.to_nat n) Ho) as Ha.
        unfold abs in *. rewrite Hline. cbn in *. unfold tx_items, rx_items in *. cbn.
        rewrite Hit. apply Ha. lia. }
    apply wp_bind, wp_do; intros r2. apply wp_bind. destruct (c_true n).
    + apply wp_bind, wp_ask. intros a ->. rewrite Hact, c_true_b2z.
      destruct (tx_armed y) eqn:Hta; cbn [negb]; wp_run; try done;
        intros ret [= <-]; unfold settle; cbn -[shows abs]; rewrite ?Hta; by apply (Hsh true).
    + wp_run. intros ret [= <-]. by apply (Hsh (tx_armed y)).
Qed.

Lemma frame_split b i : (i < 12)%nat ->
  drop i (frame b) = nth i (frame b) 1 :: drop (S i) (frame b).
Proof. intros Hi. do 12 (destruct i as [|i]; [done|]). lia. Qed.

Lemma abs_tx_timer y e r s t : inv y -> tx_armed y = true ->
  tx_timer_cb e (drv y) [] = (r, s, t) ->
  shows (S_line (driven (tx_gpio (uart (drv y))) t)) (abs y) (set_tx_armed (restarts r) (settle y s t)).
Proof.
  intros [] Hta Hrun.
  enough (wp e tx_timer_cb (fun r s t =>
    exists p, allows capacity (S_line (driven (tx_gpio (uart (drv y))) t)) (abs y) [] [] p /\
      queued p = tx_items s /\ (if restarts r then
        line p = if idx (tx_chr (uart s)) =? -1 then []
                 else drop (Z.to_nat (idx (tx_chr (uart s)) + 1)) (frame (data (tx_chr (uart s))))
        else line p = []) /\ tx_rest s = tx_rest (drv y) /\ users p = users (abs y) /\
        arrived p = arrived (abs y)) (drv y) []) as Hwp.
  { apply (run_wp _ _ _ _ _ _ _ _ Hrun) in Hwp as (p & Ha & Hq & Hl & Hrest & Hu & Hr).
    exists [], []. enough (abs (set_tx_armed (restarts r) (settle y s t)) = p) as -> by done.
    unfold abs, line_of. cbn. apply rest_fields in Hrest as (_ & Hc & _ & Hi). rewrite Hi, Hc.
    destruct p as [q l ar us]. cbn in *. subst. f_equal. destruct (restarts r); [|by subst].
    by destruct (_ =? -1). }
  clear Hrun r s t.
  set (c := tx_chr (uart (drv y))) in *. destruct inv_tx_chr as [Hd Hp].
  assert (line (abs y) = if idx c =? -1 then [] else drop (Z.to_nat (idx c + 1)) (frame (data c)))
    as Hline by (cbn; unfold line_of; rewrite Hta; fold c; by destruct (idx c =? -1)).
  assert (idx c = -1 \/ 0 <= idx c <= 9 \/ idx c = 10) as [Hi|[Hi|Hi]] by lia.
  - rewrite Hi in Hline. destruct (tx_items (drv y)) as [|b q] eqn:Hq.
    + eapply wp_mono; [apply (tx_empty_step e (drv y) (stats (drv y)) (drv y)); by constructor|].
      intros r s' t' (-> & [Hx1 Hx2 _ Hx4] & Hdr & _). exists (abs y).
      unfold pin_of in Hdr. rewrite Hdr. split_and!; try done.
      * by apply allows_rest.
      * by rewrite <- Hx2 in Hq.
    + apply Forall_cons in inv_tx_bytes as [Hb Hbs].
      eapply wp_mono; [apply (tx_start_step e (drv y) b q (stats (drv y)) (drv y)); [done|by constructor]|].
      intros r s' t' (-> & [Hx1 Hx2 Hx3 Hx4 _ Hx6] & Hdr).
      exists (Pipe q (tail (frame b)) (arrived (abs y)) (users (abs y))).
      unfold pin_of in Hdr. rewrite Hdr, Hx1, Hx2. split_and!; try done. by apply allows_byte.
  - eapply wp_mono; [apply (tx_bit_step e (drv y) (idx c) (data c) (tx_items (drv y))
      (stats (drv y)) (drv y)); [done|by constructor]|].
    intros r s' t' (-> & [Hx1 Hx2 Hx3 Hx4 _ Hx6] & Hdr).
    rewrite (proj2 (Z.eqb_neq (idx c) (-1))) in Hline by lia.
    exists (Pipe (tx_items (drv y)) (drop (Z.to_nat (idx c + 2)) (frame (data c)))
              (arrived (abs y)) (users (abs y))).
    unfold pin_of in Hdr. rewrite Hdr, Hx1, Hx2. split_and!; try done.
    + apply (allows_level capacity (abs y)). rewrite Hline.
      replace (Z.to_nat (idx c + 2)) with (S (Z.to_nat (idx c + 1))) by lia.
      apply frame_split. lia.
    + cbn. rewrite (proj2 (Z.eqb_neq (idx c + 1) (-1))) by lia. do 2 f_equal. lia.
  - eapply wp_mono; [apply (tx_end_step e (drv y) (data c) (tx_items (drv y))
      (stats (drv y)) (drv y)); by constructor|].
    intros r s' t' (-> & [Hx1 Hx2 _ Hx4] & Hdr & _).
    rewrite Hi in Hline.
    exists (Pipe (tx_items (drv y)) [] (arrived (abs y)) (users (abs y))).
    unfold pin_of in Hdr. rewrite Hdr, Hx1. split_and!; try done.
    apply (allows_level capacity (abs y)). by rewrite Hline.
Qed.

Lemma abs_rx_timer y e r s t : inv y -> rx_armed y = true ->
  rx_timer_cb e (drv y) [] = (r, s, t) ->
  shows (S_receiver (taken y t)) (abs y) (set_rx_armed (restarts r) (settle y s t)).
Proof.
  intros [] _ Hrun.
  seen_run Hrun (fun r s t => 
    shows (S_receiver (taken y t)) (abs y) (set_rx_armed (restarts r) (settle y s t))).
  pose proof (allows_sample capacity (abs y)) as Hs.
  pose proof (allows_arrival capacity (abs y) (data (rx_chr (uart (drv y)))) inv_rx_chr) as Ha.
  unfold rx_timer_cb, rx_stop, RXBIT. uart_run; try (by exists [], []).
  exists [], [data (rx_chr (uart (drv y)))].
  unfold abs, line_of, tx_items, rx_items in *. cbn in *. by rewrite push_overwrite_items.
Qed.

Lemma vstep_shows y v y' : inv y -> vstep y v y' -> shows v (abs y) y'.
Proof.
  intros Hinv Hstep. destruct Hstep.
  - by eapply abs_open.
  - by eapply abs_release.
  - by eapply abs_write.
  - by eapply abs_read.
  - by eapply abs_irq.
  - by eapply abs_tx_timer.
  - by eapply abs_rx_timer.
  - by eapply abs_period.
Qed.

Lemma initial_abs y : initial y -> abs y = Pipe [] [] [] 0.
Proof.
  intros (s & -> & Hc & Ht & _ & Hti & Hri & _)%initial_at_rest.
  unfold abs, line_of. cbn. by rewrite Hti, Hri, Hc.
Qed.

Lemma vsteps_inv y0 vs y : inv y0 -> vsteps y0 vs y -> inv y.
Proof.
  intros H0 Hs. induction Hs as [|? ? ? ? ? _ IH Hv]; [done|].
  apply (step_inv _ _ (IH H0)). by eapply vstep_step.
Qed.

Lemma vsteps_pipe y0 vs y : initial y0 -> vsteps y0 vs y ->
  exists acc came, pipe_run capacity vs acc came (abs y).
Proof.
  intros Hi Hs. pose proof (initial_inv y0 Hi) as H0.
  induction Hs as [y|y vs y1 v y2 Hs IH Hv].
  - rewrite (initial_abs y Hi). exists [], []. constructor.
  - destruct (IH Hi H0) as (acc & came & Hrun).
    destruct (vstep_shows _ _ _ (vsteps_inv _ _ _ H0 Hs) Hv) as (a & c & Ha).
    eexists _, _. by eapply pipe_more.
Qed.

(** Calls with [O_NONBLOCK] return, so every step of the system is seen. *)
Lemma write_returns e from s t :
  wp e (bitbang_write true 2 from) (fun r _ _ => r <> None) s t.
Proof.
  unfold bitbang_write, bitbang_uart_tx_buffer_full. apply wp_bind, wp_gets.
  destruct (kfifo_is_full _) eqn:He; cbn [andb]; [by wp_run|].
  unfold bitbang_tx. cbn [bitbang_tx_wait]. apply wp_bind, wp_bind, wp_gets. rewrite He.
  apply wp_ret. cbn [c_true]. apply wp_bind, wp_do; intros r1.
  apply wp_bind, wp_ask; intros u _. apply wp_bind, wp_on_tx_fifo.
  destruct (kfifo_from_user _ _ _) as [f [rr n]]. cbn [fst snd]. by wp_run.
Qed.

Lemma read_returns e count s t :
  wp e (bitbang_read true 2 count) (fun r _ _ => r <> None) s t.
Proof.
  unfold bitbang_read, bitbang_uart_rx_buffer_empty. apply wp_bind, wp_gets.
  destruct (kfifo_is_empty _) eqn:He; cbn [andb]; [by wp_run|].
  unfold bitbang_rx. cbn [bitbang_rx_wait]. apply wp_bind, wp_bind, wp_gets. rewrite He.
  apply wp_ret. cbn [c_true]. apply wp_bind, wp_do; intros r1.
  apply wp_bind, wp_ask; intros u _. apply wp_bind, wp_on_rx_fifo.
  destruct (kfifo_to_user _ _ _) as [f [rr n]]. cbn [fst snd]. by wp_run.
Qed.

Lemma step_vstep y y' : step y y' -> exists v, vstep y v y'.
Proof.
  destruct 1 as [| |y e from r s t ? ? ? Hrun|y e count r s t ? ? ? Hrun| | | |].
  3: { pose proof (run_wp _ _ _ _ _ _ _ _ Hrun (write_returns e from (drv y) [])) as Hr.
       destruct r as [r|]; [|by destruct Hr]. eexists. by eapply v_write. }
  3: { pose proof (run_wp _ _ _ _ _ _ _ _ Hrun (read_returns e count (drv y) [])) as Hr.
       destruct r as [[r out]|]; [|by destruct Hr]. eexists. by eapply v_read. }
  all: eexists; by econstructor.
Qed.

Lemma vsteps_rtc y0 vs y : vsteps y0 vs y -> rtc step y0 y.
Proof. induction 1; [done|]. eapply rtc_r; [done|]. by eapply vstep_step. Qed.

Lemma steps_vsteps y0 y : rtc step y0 y -> exists vs, vsteps y0 vs y.
Proof.
  revert y. apply rtc_ind_r.
  - exists []. constructor.
  - intros y1 y2 _ Hstep [vs IH]. apply step_vstep in Hstep as [v Hv]. exists (vs ++ [v]). by eapply vsteps_snoc.
Qed.


End refinement.

(** ** Concrete runs *)
(** Opened, two bytes written, the timer expired once. *)
Definition sending : system list_fifo :=
  let '(r, s, t) := tx_timer_cb calm (drv written) [] in
  set_tx_armed (restarts r) (settle written s t).

Lemma seen_write y from r : opened y -> serves y calm -> Forall (fun b => 0 <= b < 256) from ->
  fst (fst (bitbang_write true 2 from calm (drv y) [])) = Some r ->
  vstep y (S_write from r) (after (bitbang_write true 2 from) y).
Proof.
  unfold after. intros Ho Hs Hb Hr.
  destruct (bitbang_write true 2 from calm (drv y) []) as [[r' s] t] eqn:E.
  cbn in Hr. subst. by eapply v_write.
Qed.

Lemma sending_vsteps : vsteps booted [S_open; S_write [72; 105] 2; S_line [0]] sending.
Proof.
  apply (vsteps_snoc booted [S_open; S_write [72; 105] 2] written).
  - apply (vsteps_snoc booted [S_open] (after bitbang_open booted)).
    + apply (vsteps_snoc booted [] booted); [constructor|].
      unfold after. destruct (bitbang_open calm (drv booted) []) as [[r s] t] eqn:E.
      eapply v_open; [|exact E]. vm_compute. reflexivity.
    + apply seen_write; [vm_compute; reflexivity| |repeat constructor; lia|vm_compute; reflexivity].
      split; [intros t' n; cbn; lia|]. intros t'. vm_compute. reflexivity.
  - unfold sending. destruct (tx_timer_cb calm (drv written) []) as [[r s] t] eqn:E.
    replace [0] with (driven (tx_gpio (uart (drv written))) t)
      by (apply (f_equal snd) in E; vm_compute in E; rewrite <- E; vm_compute; reflexivity).
    eapply v_tx_timer; [vm_compute; reflexivity|exact E].
Qed.


