(* ===== verification/GpioUartTty.v ===== *)
(** * The GPIO UART with a terminal interface

    [soft_uart/gpt/gpio_uart_tty.c].  The driver's record is what the global
    [GU] points to.  Transmission drives the pin and busy-waits, reception is the
    callback of a timer that is always armed.  The flags [parenb], [parodd] and
    [cstopb] of [gu_set_termios] are the tests of [c_cflag]; what [kstrtoul]
    makes of a string belongs to the kernel.  A store that divides by zero gives
    [None]. *)
From S2P Require Import Prelude.
From S2P Require Import Kernel.
From stdpp Require Import options.

Record gu_cfg := GuCfg {
  baud : Z;
  parity_mode : Z;
  stopbits : Z;
  invert : bool;
  tx_enable : bool;
  rx_enable : bool;
}.

Record gu_stats := GuStats {
  tx_bytes : Z;
  rx_bytes : Z;
  framing_errors : Z;
  rx_errors : Z;
  overrun_errors : Z;
}.

Record gpio_uart := GpioUart {
  tx : Z;
  rx : Z;
  rx_irq : Z;
  cfg : gu_cfg;
  st : gu_stats;
  bit_period : Z;
  rx_busy : bool;
  rx_byte : Z;
  rx_bitpos : Z;
  tty_drv : Z;
  proc : Z;
  kobj : Z;
}.

(** ** Field updates *)
Definition upd_cfg (f : gu_cfg -> gu_cfg) (g : gpio_uart) : gpio_uart :=
  GpioUart (tx g) (rx g) (rx_irq g) (f (cfg g)) (st g) (bit_period g) (rx_busy g) (rx_byte g)
    (rx_bitpos g) (tty_drv g) (proc g) (kobj g).
Definition upd_st (f : gu_stats -> gu_stats) (g : gpio_uart) : gpio_uart :=
  GpioUart (tx g) (rx g) (rx_irq g) (cfg g) (f (st g)) (bit_period g) (rx_busy g) (rx_byte g)
    (rx_bitpos g) (tty_drv g) (proc g) (kobj g).
Definition set_bit_period (p : Z) (g : gpio_uart) : gpio_uart :=
  GpioUart (tx g) (rx g) (rx_irq g) (cfg g) (st g) p (rx_busy g) (rx_byte g)
    (rx_bitpos g) (tty_drv g) (proc g) (kobj g).
(** The three variables of the receiver. *)
Definition set_rx (busy : bool) (byte pos : Z) (g : gpio_uart) : gpio_uart :=
  GpioUart (tx g) (rx g) (rx_irq g) (cfg g) (st g) (bit_period g) busy byte pos
    (tty_drv g) (proc g) (kobj g).
Definition set_pins (t r : Z) (g : gpio_uart) : gpio_uart :=
  GpioUart t r (rx_irq g) (cfg g) (st g) (bit_period g) (rx_busy g) (rx_byte g)
    (rx_bitpos g) (tty_drv g) (proc g) (kobj g).
Definition set_handles (d p k : Z) (g : gpio_uart) : gpio_uart :=
  GpioUart (tx g) (rx g) (rx_irq g) (cfg g) (st g) (bit_period g) (rx_busy g) (rx_byte g)
    (rx_bitpos g) d p k.

Definition set_baud (v : Z) (c : gu_cfg) : gu_cfg :=
  GuCfg v (parity_mode c) (stopbits c) (invert c) (tx_enable c) (rx_enable c).
Definition set_parity (v : Z) (c : gu_cfg) : gu_cfg :=
  GuCfg (baud c) v (stopbits c) (invert c) (tx_enable c) (rx_enable c).
Definition set_stopbits (v : Z) (c : gu_cfg) : gu_cfg :=
  GuCfg (baud c) (parity_mode c) v (invert c) (tx_enable c) (rx_enable c).
Definition set_tx_enable (v : bool) (c : gu_cfg) : gu_cfg :=
  GuCfg (baud c) (parity_mode c) (stopbits c) (invert c) v (rx_enable c).
Definition set_rx_enable (v : bool) (c : gu_cfg) : gu_cfg :=
  GuCfg (baud c) (parity_mode c) (stopbits c) (invert c) (tx_enable c) v.

Definition count_tx (s : gu_stats) : gu_stats :=
  GuStats (u64 (tx_bytes s + 1)) (rx_bytes s) (framing_errors s) (rx_errors s) (overrun_errors s).
Definition count_rx (s : gu_stats) : gu_stats :=
  GuStats (tx_bytes s) (u64 (rx_bytes s + 1)) (framing_errors s) (rx_errors s) (overrun_errors s).
Definition count_framing (s : gu_stats) : gu_stats :=
  GuStats (tx_bytes s) (rx_bytes s) (u64 (framing_errors s + 1)) (rx_errors s) (overrun_errors s).

(** ** The code *)
Abbreviation prog := (M gpio_uart).

Definition get_rx_level : prog Z :=
  d ← gets rx;
  v ← ask (gpiod_get_value d);
  inv ← gets (fun g => invert (cfg g));
  mret (if (inv : bool) then b2z (v =? 0) else v).

Definition set_tx_level (v : Z) : prog unit :=
  inv ← gets (fun g => invert (cfg g));
  let v := if (inv : bool) then b2z (v =? 0) else v in
  d ← gets tx;
  do_ (gpiod_set_value d v).

(** [__builtin_popcount] of a 32-bit value. *)
Definition popcount (x : Z) : Z :=
  foldr Z.add 0 (map (fun i => bit (Z.of_nat i) x) (seq 0 32)).

Definition parity_bit_out (b mode : Z) : Z :=
  let pop := Z.land (popcount b) 1 in
  if mode =? 1 then (if c_true pop then 0 else 1)
  else if mode =? 2 then (if c_true pop then 1 else 0)
  else 0.

Definition uart_tx_byte (b : Z) : prog unit :=
  c ← gets cfg;
  if negb (tx_enable c) then mret tt
  else if baud c =? 0 then mret tt
  else
    let bit_us := 1000000 / baud c in
    set_tx_level 0;;
    do_ (udelay bit_us);;
    for_each (fun i => set_tx_level (Z.land (Z.shiftr b (Z.of_nat i)) 1);; do_ (udelay bit_us))
      (seq 0 8);;
    when (c_true (parity_mode c))
      (let pop := Z.land (popcount b) 1 in
       let pbit := if parity_mode c =? 2 then (if c_true pop then 1 else 0)
                   else (if c_true pop then 0 else 1) in
       set_tx_level pbit;;
       do_ (udelay bit_us));;
    for_each (fun _ => set_tx_level 1;; do_ (udelay bit_us)) (seq 0 (Z.to_nat (stopbits c)));;
    modify (upd_st count_tx).

(** [ktime_divns (t, 2)]. *)
Definition half (period : Z) : Z := Z.quot period 2.

Definition rx_timer_cb : prog hrtimer_restart :=
  do_ (spin_lock_irqsave "rx_lock");;
  g ← gets (fun g => g);
  if negb (rx_enable (cfg g)) then
    do_ (spin_unlock_irqrestore "rx_lock");;
    mret HRTIMER_NORESTART
  else if negb (rx_busy g) then
    v ← get_rx_level;
    if v =? 0 then
      modify (set_rx true 0 (-1));;
      do_ (hrtimer_forward_now "rx_timer" (half (bit_period g)));;
      do_ (spin_unlock_irqrestore "rx_lock");;
      mret HRTIMER_RESTART
    else
      do_ (spin_unlock_irqrestore "rx_lock");;
      mret HRTIMER_RESTART
  else
    let pos := i32 (rx_bitpos g + 1) in
    modify (set_rx true (rx_byte g) pos);;
    if (0 <=? pos) && (pos <? 8) then
      v ← get_rx_level;
      modify (set_rx true (u8 (Z.lor (rx_byte g) (Z.shiftl v pos))) pos);;
      do_ (hrtimer_forward_now "rx_timer" (bit_period g));;
      do_ (spin_unlock_irqrestore "rx_lock");;
      mret HRTIMER_RESTART
    else if c_true (parity_mode (cfg g)) && (pos =? 8) then
      do_ (hrtimer_forward_now "rx_timer" (bit_period g));;
      do_ (spin_unlock_irqrestore "rx_lock");;
      mret HRTIMER_RESTART
    else if 8 + (if c_true (parity_mode (cfg g)) then 1 else 0) <=? pos then
      v ← get_rx_level;
      (if negb (v =? 1) then modify (upd_st count_framing)
       else
         i ← ask tty_port_initialized;
         when (c_true i)
           (do_ (tty_insert_flip_char (rx_byte g));;
            do_ tty_flip_buffer_push);;
         modify (upd_st count_rx));;
      modify (set_rx false (rx_byte g) pos);;
      do_ (spin_unlock_irqrestore "rx_lock");;
      mret HRTIMER_RESTART
    else
      modify (set_rx false (rx_byte g) pos);;
      do_ (spin_unlock_irqrestore "rx_lock");;
      mret HRTIMER_RESTART.

Definition gu_tty_open : prog Z :=
  ret ← ask tty_port_open;
  if c_true ret then mret ret else mret 0.

Definition gu_tty_close : prog unit := do_ tty_port_close.

Definition gu_tty_write (buf : list Z) : prog Z :=
  c ← gets cfg;
  if negb (tx_enable c) then mret (- EIO)
  else
    for_each uart_tx_byte buf;;
    mret (Z.of_nat (length buf)).

Definition gu_tty_write_room : Z := 4096.

Definition gu_set_termios (parenb parodd cstopb : bool) : prog unit :=
  baud_new ← ask tty_get_baud_rate;
  old ← gets (fun g => baud (cfg g));
  let baud_new := if baud_new =? 0 then old else baud_new in
  modify (upd_cfg (set_baud baud_new));;
  modify (upd_cfg (set_parity (if parenb then (if parodd then 1 else 2) else 0)));;
  modify (upd_cfg (set_stopbits (if cstopb then 2 else 1)));;
  when (c_true baud_new) (modify (set_bit_period (NSEC_PER_SEC / baud_new))).

Definition proc_show : prog (list Z) :=
  g ← gets (fun g => g);
  mret [tx_bytes (st g); rx_bytes (st g); framing_errors (st g); rx_errors (st g);
        overrun_errors (st g); baud (cfg g); parity_mode (cfg g); stopbits (cfg g)].

Section stores.
(** [kstrtoul (buf, 0, &v)]: the value, when the string is one. *)
Context (kstrtoul : string -> option Z).

Definition baud_show : prog Z := gets (fun g => baud (cfg g)).
Definition parity_show : prog Z := gets (fun g => parity_mode (cfg g)).
Definition stop_show : prog Z := gets (fun g => stopbits (cfg g)).
Definition txen_show : prog Z := gets (fun g => b2z (tx_enable (cfg g))).
Definition rxen_show : prog Z := gets (fun g => b2z (rx_enable (cfg g))).

Definition baud_store (buf : string) (count : Z) : prog (option Z) :=
  match kstrtoul buf with
  | None => mret (Some (- EINVAL))
  | Some v =>
      old ← gets (fun g => baud (cfg g));
      let b := if c_true v then u32 v else old in
      modify (upd_cfg (set_baud b));;
      if b =? 0 then mret None
      else
        modify (set_bit_period (NSEC_PER_SEC / b));;
        mret (Some count)
  end.

Definition parity_store (buf : string) (count : Z) : prog Z :=
  match kstrtoul buf with
  | None => mret (- EINVAL)
  | Some v => modify (upd_cfg (set_parity (u8 v)));; mret count
  end.

Definition stop_store (buf : string) (count : Z) : prog Z :=
  match kstrtoul buf with
  | None => mret (- EINVAL)
  | Some v =>
      if (v <? 1) || (2 <? v) then mret (- EINVAL)
      else modify (upd_cfg (set_stopbits (u8 v)));; mret count
  end.

Definition txen_store (buf : string) (count : Z) : prog Z :=
  match kstrtoul buf with
  | None => mret (- EINVAL)
  | Some v => modify (upd_cfg (set_tx_enable (c_true v)));; mret count
  end.

Definition rxen_store (buf : string) (count : Z) : prog Z :=
  match kstrtoul buf with
  | None => mret (- EINVAL)
  | Some v => modify (upd_cfg (set_rx_enable (c_true v)));; mret count
  end.
End stores.

(** What [kzalloc] gives. *)
Definition zero_gu : gpio_uart :=
  GpioUart 0 0 0 (GuCfg 0 0 0 false false false) (GuStats 0 0 0 0 0) 0 false 0 0 0 0 0.

Definition gpio_uart_init (tx_gpio rx_gpio default_baud : Z) : prog Z :=
  p ← ask (kzalloc "gpio_uart");
  if p =? 0 then mret (- ENOMEM)
  else
    let err_free ret := do_ (kfree p);; mret ret in
    let err_timer ret := do_ (hrtimer_cancel "rx_timer");; err_free ret in
    let err_put_drv drv ret := do_ (put_tty_driver drv);; err_timer ret in
    let err_unregister drv ret := do_ (tty_unregister_driver drv);; err_put_drv drv ret in
    let baud0 := if default_baud =? 0 then 9600 else default_baud in
    modify (fun _ => zero_gu);;
    modify (upd_cfg (fun _ => GuCfg baud0 0 1 false true true));;
    modify (set_bit_period (NSEC_PER_SEC / baud0));;
    if (tx_gpio <? 0) || (rx_gpio <? 0) then err_free (- EINVAL)
    else
      t ← ask (gpio_to_desc tx_gpio);
      r ← ask (gpio_to_desc rx_gpio);
      modify (set_pins t r);;
      if negb (c_true t) || negb (c_true r) then err_free (- EINVAL)
      else
        ret ← ask (gpiod_direction_output t 1);
        if c_true ret then err_free ret
        else
          ret ← ask (gpiod_direction_input r);
          if c_true ret then err_free ret
          else
            do_ (hrtimer_init "rx_timer");;
            do_ (hrtimer_start "rx_timer" (NSEC_PER_SEC / baud0));;
            drv ← ask alloc_tty_driver;
            modify (set_handles drv 0 0);;
            if drv =? 0 then err_timer (- ENOMEM)
            else
              ret ← ask (tty_register_driver drv);
              if c_true ret then err_put_drv drv ret
              else
                do_ tty_port_init;;
                dev ← ask (tty_register_device drv);
                if IS_ERR dev then err_unregister drv (PTR_ERR dev)
                else
                  pr ← ask (proc_create "gpio_uart");
                  k ← ask (kobject_create_and_add "gpio_uart");
                  modify (set_handles drv pr k);;
                  when (c_true k) (do_ (sysfs_create_group k));;
                  mret 0.

(** [p] is the address of the record, which [GU] holds. *)
Definition gpio_uart_exit (p : Z) : prog unit :=
  g ← gets (fun g => g);
  when (c_true (kobj g))
    (do_ (sysfs_remove_group (kobj g));;
     do_ (kobject_put (kobj g)));;
  when (c_true (proc g)) (do_ (proc_remove (proc g)));;
  do_ (hrtimer_cancel "rx_timer");;
  do_ (tty_unregister_device (tty_drv g));;
  do_ (tty_unregister_driver (tty_drv g));;
  do_ (put_tty_driver (tty_drv g));;
  do_ tty_port_destroy;;
  set_tx_level 0;;
  do_ (kfree p).
