(* ===== verification/GpioUartFrames.v ===== *)
(** * Frames and settings of the GPIO UART terminal

    What [uart_tx_byte] drives and how long, what a receiver at the nominal rate
    sees of it, what [rx_timer_cb] makes of the levels it samples, and at which
    instants it samples them. *)
From S2P Require Import Prelude.
From S2P Require Import Kernel.
From S2P Require Import Wire.
From S2P Require Import GpioUartTty.
From stdpp Require Import options.

(** ** The frame *)
Definition parity_bits (mode b : Z) : list Z :=
  if mode =? 0 then [] else [if mode =? 2 then parity b else 1 - parity b].

(** Start bit, eight data bits, the parity bit if any, the stop bits. *)
Definition tty_frame (c : gu_cfg) (b : Z) : list Z :=
  0 :: data_bits b ++ parity_bits (parity_mode c) b ++
  replicate (Z.to_nat (stopbits c)) 1.

(** The level of the pin for a level of the line. *)
Definition pin_level (c : gu_cfg) (v : Z) : Z := if invert c then b2z (v =? 0) else v.

(** The calls that hold a level for [us]. *)
Definition hold (g : gpio_uart) (us v : Z) : list call :=
  [gpiod_set_value (tx g) (pin_level (cfg g) v); udelay us].

Lemma popcount_parity b : 0 <= b < 256 -> Z.land (popcount b) 1 = parity b.
Proof.
  intros Hb.
  apply Z.eqb_eq, (byte_cases (fun b => Z.land (popcount b) 1 =? parity b)); [|done].
  by vm_compute.
Qed.

Section tx.
Context (e : env gpio_uart).

(** One level held: the calls of [hold], the state unchanged. *)
Lemma wp_hold us v (Q : unit -> gpio_uart -> trace -> Prop) g t :
  (forall t', map ev_call t' = rev (hold g us v) ++ map ev_call t -> Q tt g t') ->
  wp e (set_tx_level v ≫= fun _ => do_ (udelay us)) Q g t.
Proof. intros HQ. unfold set_tx_level. wp_run; by apply HQ. Qed.

(** Levels held one after the other. *)
Lemma wp_hold_all {A} us (f : A -> Z) l (Q : unit -> gpio_uart -> trace -> Prop) g t :
  (forall t', map ev_call t' = rev (flat_map (hold g us) (map f l)) ++ map ev_call t ->
     Q tt g t') ->
  wp e (for_each (fun x => set_tx_level (f x);; do_ (udelay us)) l) Q g t.
Proof.
  intros HQ. revert t HQ. induction l as [|x l IH]; intros t HQ; cbn [for_each].
  - by apply wp_ret, HQ.
  - apply wp_bind, wp_hold. intros t' Ht'. apply IH. intros t'' Ht''. apply HQ.
    cbn [map flat_map]. by rewrite rev_app_distr, <- app_assoc, <- Ht'.
Qed.

Lemma tx_byte_calls b g t (Q : unit -> gpio_uart -> trace -> Prop) : 0 <= b < 256 ->
  tx_enable (cfg g) = true -> baud (cfg g) <> 0 ->
  (forall t', map ev_call t' =
      rev (flat_map (hold g (1000000 / baud (cfg g))) (tty_frame (cfg g) b)) ++ map ev_call t ->
    Q tt (upd_st count_tx g) t') ->
  wp e (uart_tx_byte b) Q g t.
Proof.
  intros Hb Hen Hbd HQ. unfold uart_tx_byte. apply wp_bind, wp_gets. rewrite Hen. cbn [negb].
  destruct (Z.eqb_spec (baud (cfg g)) 0); [done|]. set (us := 1000000 / baud (cfg g)) in *.
  assert (forall m (Q : unit -> gpio_uart -> trace -> Prop) v g t,
    wp e ((set_tx_level v ≫= fun _ => do_ (udelay us)) ≫= fun _ => m) Q g t ->
    wp e (set_tx_level v ≫= fun _ => do_ (udelay us) ≫= fun _ => m) Q g t) as Hassoc.
  { intros m Q0 v g0 t0. unfold wp, mbind, M_bind.
    by destruct (set_tx_level v e g0 t0) as [[? ?] ?]. }
  apply Hassoc, wp_bind, wp_hold. intros t1 Ht1.
  apply wp_bind, (wp_hold_all us (fun i => Z.land (Z.shiftr b (Z.of_nat i)) 1)).
  intros t2 Ht2. rewrite Ht1 in Ht2. apply wp_bind.
  assert (forall t3, map ev_call t3 =
      rev (flat_map (hold g us) (parity_bits (parity_mode (cfg g)) b)) ++ map ev_call t2 ->
    wp e (for_each (fun _ => set_tx_level 1;; do_ (udelay us))
            (seq 0 (Z.to_nat (stopbits (cfg g)))) ≫= fun _ => modify (upd_st count_tx)) Q g t3)
    as Hstop.
  { intros t3 Ht3. rewrite Ht2 in Ht3.
    apply wp_bind, (wp_hold_all us (fun _ => 1)). intros t4 Ht4. apply wp_modify, HQ.
    rewrite Ht4, Ht3. unfold tty_frame. cbn [flat_map].
    rewrite !flat_map_app, !rev_app_distr, <- !app_assoc.
    by rewrite map_const_seq. }
  unfold parity_bits in Hstop. unfold when, c_true. destruct (Z.eqb_spec (parity_mode (cfg g)) 0); cbn [negb].
  - by apply wp_ret, Hstop.
  - apply wp_hold. intros t3 Ht3. apply Hstop. rewrite Ht3. cbn [flat_map].
    rewrite popcount_parity by done. destruct (parity_01 b) as [-> | ->];
      by destruct (parity_mode (cfg g) =? 2).
Qed.
End tx.

(** ** Transmission *)

(** C20: a byte is sent as start bit, eight data bits from the least significant,
    the parity bit of the mode set and the stop bits set, each level, inverted when
    the line is inverted, held for 1000000 / baud microseconds; nothing else is
    called and only the counter of sent bytes changes.  With the transmitter
    disabled or the rate 0 nothing happens. *)
Theorem uart_tx_byte_frame (e : env gpio_uart) b g t : 0 <= b < 256 ->
  wp e (uart_tx_byte b) (fun _ g' t' =>
    if tx_enable (cfg g) && negb (baud (cfg g) =? 0) then
      g' = upd_st count_tx g /\
      calls t' = calls t ++
        flat_map (hold g (1000000 / baud (cfg g))) (tty_frame (cfg g) b)
    else g' = g /\ t' = t) g t.
Proof.
  intros Hb.
  destruct (tx_enable (cfg g)) eqn:Hen; [destruct (Z.eqb_spec (baud (cfg g)) 0) as [H0|H0]|].
  - unfold uart_tx_byte. apply wp_bind, wp_gets. by rewrite Hen, H0.
  - apply tx_byte_calls; [done..|]. intros t' Ht'. cbn [andb negb]. split; [done|].
    unfold calls. rewrite Ht', rev_app_distr. by rewrite rev_involutive.
  - unfold uart_tx_byte. apply wp_bind, wp_gets. by rewrite Hen.
Qed.

Lemma wave_hold g us l level :
  wave level (flat_map (hold g us) l) = map (fun v => (v, us)) (map (pin_level (cfg g)) l).
Proof.
  revert level. induction l as [|v l IH]; intros level; [done|]. cbn. by rewrite IH.
Qed.

(** The level on the pin at an instant given in units of 1 / (2 * baud)
    microseconds, when the byte is sent from the instant 0. *)
Definition seen_at (g : gpio_uart) (t : trace) (time : Z) : Z :=
  level_at (2 * baud (cfg g)) (pin_level (cfg g) 1) (wave (pin_level (cfg g) 1) (calls t)) time.

(** The instant at which a receiver of the nominal rate samples bit [k]. *)
Definition nominal (k : nat) : Z := (2 * Z.of_nat k + 1) * 1000000.

Lemma seen_slot (e : env gpio_uart) b g k j : 0 <= b < 256 ->
  tx_enable (cfg g) = true -> 0 < baud (cfg g) <= 1000000 ->
  (j < length (tty_frame (cfg g) b))%nat ->
  let w := 2 * baud (cfg g) * (1000000 / baud (cfg g)) in
  Z.of_nat j * w <= nominal k < (Z.of_nat j + 1) * w ->
  wp e (uart_tx_byte b) (fun _ _ t' =>
    seen_at g t' (nominal k) = nth j (map (pin_level (cfg g)) (tty_frame (cfg g) b)) 1) g [].
Proof.
  intros Hb Hen Hbd Hj w Hk. apply tx_byte_calls; [done|done|lia|].
  intros t' Ht'. unfold seen_at, calls. rewrite Ht', app_nil_r, rev_involutive, wave_hold.
  apply level_at_steps; [|by rewrite length_map|done].
  assert (0 < 1000000 / baud (cfg g)) by (apply Z.div_str_pos; lia). nia.
Qed.

(** C40: a receiver of the nominal rate that samples in the middle of its bits reads
    every bit of the frame for which the error of the truncated bit time, summed
    up to there, stays below half a bit. *)
Theorem uart_tx_nominal_receiver (e : env gpio_uart) b g k : 0 <= b < 256 ->
  tx_enable (cfg g) = true -> 0 < baud (cfg g) <= 1000000 ->
  (k < length (tty_frame (cfg g) b))%nat ->
  (2 * Z.of_nat k + 1) * (1000000 mod baud (cfg g)) < baud (cfg g) * (1000000 / baud (cfg g)) ->
  wp e (uart_tx_byte b) (fun _ _ t' =>
    seen_at g t' (nominal k) = nth k (map (pin_level (cfg g)) (tty_frame (cfg g) b)) 1) g [].
Proof.
  intros Hb Hen Hbd Hk Herr. apply seen_slot; [done..|].
  unfold nominal. pose proof (Z.div_mod 1000000 (baud (cfg g)) ltac:(lia)) as Hdm.
  pose proof (Z.mod_pos_bound 1000000 (baud (cfg g)) ltac:(lia)). nia.
Qed.

(** At 115200 baud the truncated bit time is 8 microseconds instead of 8.68,
    and the receiver reads the last three data bits one bit too late: the most
    significant one is taken from the parity or stop bit. *)
Theorem uart_tx_115200_slips (e : env gpio_uart) b g k : 0 <= b < 256 ->
  tx_enable (cfg g) = true -> baud (cfg g) = 115200 -> 1 <= stopbits (cfg g) ->
  (6 <= k <= 8)%nat ->
  wp e (uart_tx_byte b) (fun _ _ t' =>
    seen_at g t' (nominal k) =
      nth (S k) (map (pin_level (cfg g)) (tty_frame (cfg g) b)) 1) g [].
Proof.
  intros Hb Hen Hbd Hs Hk. apply seen_slot; [done|done|lia| |].
  - unfold tty_frame. cbn [length]. rewrite !length_app, length_replicate, data_bits_length. lia.
  - unfold nominal. rewrite Hbd. change (1000000 / 115200) with 8. lia.
Qed.

(** ** Reception *)
Section rx.
#[local] Set Default Proof Using "Type*".
Context (e : env gpio_uart) (g : gpio_uart).
Hypothesis Henabled : rx_enable (cfg g) = true.

(** The level the callback sees when the pin is at [v]. *)
Abbreviation seen := (pin_level (cfg g)).

(** The receiver is at bit [pos] of a byte of which it has collected [byte]. *)
Abbreviation busy_at byte pos := (set_rx true byte pos g).

Lemma wp_rx_level v (Q : Z -> gpio_uart -> trace -> Prop) busy byte pos t :
  (forall r, Q (seen v) (set_rx busy byte pos g) (Ev (gpiod_get_value (rx g)) r :: t)) ->
  wp (with_level v e) get_rx_level Q (set_rx busy byte pos g) t.
Proof.
  intros HQ. unfold get_rx_level, wp, mbind, M_bind, gets, ask, mret, M_ret. cbn.
  unfold pin_level. apply HQ.
Qed.

Ltac rx_enter :=
  apply wp_at_level; unfold rx_timer_cb; apply wp_bind, wp_do; intros ?;
  apply wp_bind, wp_gets; cbn [cfg set_rx rx_busy rx_byte rx_bitpos bit_period];
  rewrite Henabled; cbn [negb].

Lemma rx_tty_start_step v busy byte pos t : busy = false -> seen v = 0 ->
  wp e (at_level v rx_timer_cb) (fun r g' t' =>
    r = HRTIMER_RESTART /\ g' = busy_at 0 (-1) /\ inserted t' = inserted t)
    (set_rx busy byte pos g) t.
Proof.
  intros -> Hv. rx_enter. apply wp_bind, wp_rx_level. intros ?. rewrite Hv.
  change (0 =? 0) with true. cbn beta iota. wp_run. done.
Qed.

Lemma lor_bit x v i : (i < 8)%nat -> 0 <= x < 2 ^ Z.of_nat i -> v = 0 \/ v = 1 ->
  u8 (Z.lor x (Z.shiftl v (Z.of_nat i))) = x + v * 2 ^ Z.of_nat i.
Proof.
  intros Hi Hx Hv.
  assert (0 <= x < 256) as Hb.
  { split; [lia|]. apply (Z.lt_le_trans _ (2 ^ Z.of_nat i)); [lia|].
    change 256 with (2 ^ 8). apply Z.pow_le_mono_r; lia. }
  destruct Hv as [-> | ->].
  - rewrite Z.shiftl_0_l, Z.lor_0_r, Z.mul_0_l, Z.add_0_r. by apply wrapu_small.
  - apply Z.eqb_eq. assert (forallb (fun i => (2 ^ Z.of_nat i <=? x) ||
      (u8 (Z.lor x (Z.shiftl 1 (Z.of_nat i))) =? x + 1 * 2 ^ Z.of_nat i)) (seq 0 8) = true) as H.
    { apply (byte_cases (fun x => forallb (fun i => (2 ^ Z.of_nat i <=? x) ||
        (u8 (Z.lor x (Z.shiftl 1 (Z.of_nat i))) =? x + 1 * 2 ^ Z.of_nat i)) (seq 0 8))); [|done].
      by vm_compute. }
    eapply forallb_forall in H; [|apply in_seq; split; [apply Nat.le_0_l|exact Hi]].
    apply orb_true_iff in H as [H%Z.leb_le|H]; [lia|exact H].
Qed.

Lemma rx_tty_bit_step v byte i t : (i < 8)%nat -> 0 <= byte < 2 ^ Z.of_nat i ->
  seen v = 0 \/ seen v = 1 ->
  wp e (at_level v rx_timer_cb) (fun r g' t' =>
    r = HRTIMER_RESTART /\ g' = busy_at (byte + seen v * 2 ^ Z.of_nat i) (Z.of_nat i) /\
    inserted t' = inserted t) (busy_at byte (Z.of_nat i - 1)) t.
Proof.
  intros Hi Hbyte Hv. rx_enter. apply wp_bind, wp_modify.
  assert (i32 (Z.of_nat i - 1 + 1) = Z.of_nat i) as ->
    by (unfold wraps; rewrite Z.mod_small; cbn; lia).
  destruct (Z.leb_spec 0 (Z.of_nat i)), (Z.ltb_spec (Z.of_nat i) 8); try lia. cbn [andb].
  apply wp_bind. apply (wp_rx_level v _ true byte (Z.of_nat i)). intros ?.
  rewrite lor_bit by done. wp_run. done.
Qed.

Lemma rx_tty_parity_step v byte t : c_true (parity_mode (cfg g)) = true ->
  wp e (at_level v rx_timer_cb) (fun r g' t' =>
    r = HRTIMER_RESTART /\ g' = busy_at byte 8 /\ inserted t' = inserted t)
    (busy_at byte 7) t.
Proof.
  intros Hp. rx_enter. rewrite Hp. apply wp_bind, wp_modify.
  change (i32 (7 + 1)) with 8. change ((0 <=? 8) && (8 <? 8)) with false.
  change (true && (8 =? 8)) with true. cbn beta iota. wp_run. done.
Qed.

(** Where the stop bit is looked for. *)
Definition stop_pos : Z := 8 + (if c_true (parity_mode (cfg g)) then 1 else 0).

Lemma rx_tty_stop_step v byte t :
  (forall t, answer e t tty_port_initialized = 1) ->
  wp e (at_level v rx_timer_cb) (fun r g' t' =>
    let ok := seen v =? 1 in
    r = HRTIMER_RESTART /\
    g' = set_rx false byte stop_pos
           (upd_st (if ok then count_rx else count_framing) g) /\
    inserted t' = inserted t ++ if ok then [byte] else [])
    (busy_at byte (stop_pos - 1)) t.
Proof.
  intros Hinit. rx_enter. apply wp_bind, wp_modify.
  assert (i32 (stop_pos - 1 + 1) = stop_pos) as ->
    by (unfold stop_pos; by destruct (c_true (parity_mode (cfg g)))).
  assert ((0 <=? stop_pos) && (stop_pos <? 8) = false) as ->
    by (unfold stop_pos; by destruct (c_true (parity_mode (cfg g)))).
  assert (c_true (parity_mode (cfg g)) && (stop_pos =? 8) = false) as ->
    by (unfold stop_pos; by destruct (c_true (parity_mode (cfg g)))).
  fold stop_pos. rewrite Z.leb_refl. apply wp_bind.
  apply (wp_rx_level v _ true byte stop_pos). intros ?.
  destruct (seen v =? 1); cbn [negb].
  - apply wp_bind, wp_bind, wp_ask. intros i ->. cbn. rewrite Hinit. cbn [c_true]. wp_run. done.
  - wp_run. by rewrite app_nil_r.
Qed.

Lemma rx_data ls : forall byte i t,
  (i + length ls <= 8)%nat -> 0 <= byte < 2 ^ Z.of_nat i ->
  Forall (fun v => seen v = 0 \/ seen v = 1) ls ->
  wp e (run_levels rx_timer_cb ls) (fun rs g' t' =>
    Forall (eq HRTIMER_RESTART) rs /\
    g' = busy_at (byte + 2 ^ Z.of_nat i * of_bits (map seen ls)) (Z.of_nat (i + length ls) - 1) /\
    inserted t' = inserted t) (busy_at byte (Z.of_nat i - 1)) t.
Proof.
  induction ls as [|v ls IH]; intros byte i t Hl Hb Hv; cbn [run_levels length map of_bits] in *.
  - apply wp_ret. rewrite Nat.add_0_r, Z.mul_0_r, Z.add_0_r. done.
  - apply Forall_cons in Hv as [Hv Hvs]. apply wp_bind.
    eapply wp_mono; [apply rx_tty_bit_step; [lia|done|done]|]. intros r g1 t1 (-> & -> & Ht1).
    apply wp_bind. replace (busy_at (byte + seen v * 2 ^ Z.of_nat i) (Z.of_nat i))
      with (busy_at (byte + seen v * 2 ^ Z.of_nat i) (Z.of_nat (S i) - 1)) by (f_equal; lia).
    assert (2 ^ Z.of_nat (S i) = 2 * 2 ^ Z.of_nat i) as Hpow
      by (rewrite Nat2Z.inj_succ, Z.pow_succ_r by lia; lia).
    eapply wp_mono; [apply (IH _ (S i)); [lia|rewrite Hpow; nia|done]|].
    intros rs g2 t2 (Hrs & -> & Ht2). apply wp_ret.
    split; [by constructor|]. split; [|by rewrite Ht2, Ht1].
    f_equal; [rewrite Hpow; lia|lia].
Qed.

(** Start, data, parity and stop levels, from an idle receiver. *)
Lemma rx_frame l0 ls lp lz busy byte pos t : busy = false ->
  seen l0 = 0 -> length ls = 8%nat -> Forall (fun v => seen v = 0 \/ seen v = 1) ls ->
  length lp = (if c_true (parity_mode (cfg g)) then 1 else 0)%nat ->
  (forall t, answer e t tty_port_initialized = 1) ->
  wp e (run_levels rx_timer_cb (l0 :: ls ++ lp ++ [lz])) (fun rs g' t' =>
    let ok := seen lz =? 1 in
    Forall (eq HRTIMER_RESTART) rs /\
    g' = set_rx false (of_bits (map seen ls)) stop_pos
           (upd_st (if ok then count_rx else count_framing) g) /\
    inserted t' = inserted t ++ if ok then [of_bits (map seen ls)] else [])
    (set_rx busy byte pos g) t.
Proof.
  intros Hbusy H0 Hl Hls Hlp Hinit. cbn [run_levels]. apply wp_bind.
  eapply wp_mono; [by apply rx_tty_start_step|]. intros r g1 t1 (-> & -> & Ht1).
  apply wp_bind, run_levels_app.
  eapply wp_mono; [apply (rx_data ls 0 0); [lia|done|done]|].
  intros rs g2 t2 (Hrs & -> & Ht2). rewrite Hl. cbn [Nat.add Z.of_nat Z.sub].
  rewrite Z.add_0_l, Z.pow_0_r, Z.mul_1_l. change (8 - 1) with 7.
  apply run_levels_app.
  assert (wp e (run_levels rx_timer_cb lp) (fun rs' g' t' =>
    Forall (eq HRTIMER_RESTART) rs' /\ g' = busy_at (of_bits (map seen ls)) (stop_pos - 1) /\
    inserted t' = inserted t2) (busy_at (of_bits (map seen ls)) 7) t2) as Hpar.
  { unfold stop_pos. destruct (c_true (parity_mode (cfg g))) eqn:Hp.
    - destruct lp as [|v [|]]; try done. cbn [run_levels]. apply wp_bind.
      eapply wp_mono; [by apply rx_tty_parity_step|]. intros r g3 t3 (-> & -> & Ht3).
      wp_run. split; [by repeat constructor|]. by rewrite Ht3.
    - destruct lp; [|done]. cbn [run_levels]. apply wp_ret. done. }
  eapply wp_mono; [exact Hpar|]. intros rs2 g3 t3 (Hrs2 & -> & Ht3).
  cbn [run_levels]. apply wp_bind. eapply wp_mono; [by apply rx_tty_stop_step|].
  cbv zeta. intros r g4 t4 (-> & -> & Ht4). wp_run.
  split; [constructor; [done|]; rewrite !Forall_app; by repeat constructor|].
  split; [done|]. by rewrite Ht4, Ht3, Ht2, Ht1.
Qed.
End rx.

Lemma set_rx_eta g : set_rx (rx_busy g) (rx_byte g) (rx_bitpos g) g = g.
Proof. by destruct g. Qed.

(** C21: from an idle receiver, a low level followed by eight data levels, a parity
    level when parity is set and a stop level gives the byte of the eight data
    levels, whatever the parity level is: it goes to the terminal and is counted
    exactly when the stop level is high, and is counted as a framing error
    otherwise; the receiver is idle again and the timer is always restarted. *)
Theorem rx_tty_frame (e : env gpio_uart) g t l0 ls lp lz :
  rx_enable (cfg g) = true -> rx_busy g = false ->
  pin_level (cfg g) l0 = 0 -> length ls = 8%nat ->
  Forall (fun v => pin_level (cfg g) v = 0 \/ pin_level (cfg g) v = 1) ls ->
  length lp = (if c_true (parity_mode (cfg g)) then 1 else 0)%nat ->
  (forall t, answer e t tty_port_initialized = 1) ->
  wp e (run_levels rx_timer_cb (l0 :: ls ++ lp ++ [lz])) (fun rs g' t' =>
    let ok := pin_level (cfg g) lz =? 1 in
    let byte := of_bits (map (pin_level (cfg g)) ls) in
    Forall (eq HRTIMER_RESTART) rs /\ rx_busy g' = false /\ cfg g' = cfg g /\
    st g' = (if ok then count_rx else count_framing) (st g) /\
    inserted t' = inserted t ++ if ok then [byte] else []) g t.
Proof.
  intros Hen Hbusy H0 Hl Hls Hlp Hinit.
  pose proof (rx_frame e g Hen l0 ls lp lz _ (rx_byte g) (rx_bitpos g) t
                Hbusy H0 Hl Hls Hlp Hinit) as H. rewrite set_rx_eta in H.
  eapply wp_mono; [exact H|]. cbv zeta. intros rs g' t' (Hrs & -> & Ht').
  by destruct (pin_level (cfg g) lz =? 1).
Qed.

(** The levels the callback finds when it first runs [phase] after the falling
    edge of a start bit: then half a bit later, then once per bit. *)
Definition tty_samples (p phase : Z) (levels : list Z) : list Z :=
  line_level p levels phase ::
  map (fun k => line_level p levels (phase + half p + Z.of_nat k * p)) (seq 0 9).

Lemma half_range p : 1 < p -> 0 < half p < p.
Proof.
  intros Hp. unfold half. rewrite Z.quot_div_nonneg by lia.
  split; [apply Z.div_str_pos; lia|apply Z.div_lt; lia].
Qed.

Lemma of_shifted_bits b : 0 <= b < 256 ->
  of_bits (0 :: take 7 (data_bits b)) = u8 (2 * b).
Proof.
  intros Hb. apply Z.eqb_eq,
    (byte_cases (fun b => of_bits (0 :: take 7 (data_bits b)) =? u8 (2 * b))); [|done].
  by vm_compute.
Qed.

(** Sample [k] after the start bit falls into bit time [k] or [k + 1]. *)
Lemma sampled_early levels p phase k : 1 < p -> 0 <= phase < p ->
  (phase + half p <? p) = true ->
  line_level p levels (phase + half p + Z.of_nat k * p) = nth k levels 1.
Proof.
  intros Hp Hph He%Z.ltb_lt. pose proof (half_range p Hp).
  rewrite (line_level_slot _ _ _ (Z.of_nat k)) by nia. by rewrite Nat2Z.id.
Qed.

Lemma sampled_late levels p phase k : 1 < p -> 0 <= phase < p ->
  (phase + half p <? p) = false ->
  line_level p levels (phase + half p + Z.of_nat k * p) = nth (S k) levels 1.
Proof.
  intros Hp Hph He%Z.ltb_ge. pose proof (half_range p Hp).
  rewrite (line_level_slot _ _ _ (Z.of_nat (S k))) by nia. by rewrite Nat2Z.id.
Qed.

(** What the receiver makes of a frame without parity depends on when it
    notices the start bit.  In the second half of the start bit it reads the byte
    that was sent.  In the first half, where its first sample still lies inside the
    start bit, it takes the start bit for the first data bit: it delivers twice the
    byte modulo 256 when the most significant bit is set, and counts a framing
    error when it is not. *)
Theorem rx_tty_phase (e : env gpio_uart) g t b phase :
  rx_enable (cfg g) = true -> rx_busy g = false -> invert (cfg g) = false ->
  parity_mode (cfg g) = 0 -> 1 <= stopbits (cfg g) ->
  (forall t, answer e t tty_port_initialized = 1) -> 0 <= b < 256 ->
  let p := bit_period g in
  1 < p -> 0 <= phase < p ->
  wp e (run_levels rx_timer_cb (tty_samples p phase (tty_frame (cfg g) b))) (fun _ g' t' =>
    let early := phase + half p <? p in
    let ok := negb early || (bit 7 b =? 1) in
    st g' = (if ok then count_rx else count_framing) (st g) /\
    inserted t' = inserted t ++ if ok then [if early then u8 (2 * b) else b] else []) g t.
Proof.
  intros Hen Hbusy Hinv Hpar Hstop Hinit Hb p Hp Hph.
  assert (forall v, pin_level (cfg g) v = v) as Hpin by (intros v; unfold pin_level; by rewrite Hinv).
  assert (forall l, map (pin_level (cfg g)) l = l) as Hmap
    by (intros l; rewrite (map_ext _ (fun x => x)) by done; apply map_id).
  assert (exists n, Z.to_nat (stopbits (cfg g)) = S n) as [n Hn]
    by (exists (Z.to_nat (stopbits (cfg g)) - 1)%nat; lia).
  set (levels := tty_frame (cfg g) b).
  assert (levels = 0 :: data_bits b ++ 1 :: replicate n 1) as Hlev
    by (subst levels; unfold tty_frame, parity_bits; by rewrite Hpar, Hn).
  assert (line_level p levels phase = 0) as H0
    by (rewrite (line_level_slot _ _ _ 0) by lia; by rewrite Hlev).
  pose proof (data_bits_01 b) as Hbits.
  unfold tty_samples. rewrite H0. destruct (phase + half p <? p) eqn:He.
  - rewrite (map_ext _ (fun k => nth k levels 1)) by (intros; by apply sampled_early).
    rewrite Hlev. change (map _ (seq 0 9)) with
      ((0 :: take 7 (data_bits b)) ++ [] ++ [bit 7 b]).
    eapply wp_mono.
    + rewrite <- (set_rx_eta g) at 1.
      apply (rx_frame e g Hen 0 (0 :: take 7 (data_bits b)) [] (bit 7 b)); try done;
        [|by rewrite Hpar].
      apply (Forall_impl (fun v => v = 0 \/ v = 1)); [|intros v; by rewrite Hpin].
      constructor; [by left|]. by apply Forall_take.
    + cbv zeta. intros rs g' t' (_ & -> & ->). rewrite Hmap, Hpin, of_shifted_bits by done.
      cbn [negb orb]. by destruct (bit 7 b =? 1).
  - rewrite (map_ext _ (fun k => nth (S k) levels 1)) by (intros; by apply sampled_late).
    rewrite Hlev. change (map _ (seq 0 9)) with (data_bits b ++ [] ++ [1]).
    eapply wp_mono.
    + rewrite <- (set_rx_eta g) at 1.
      apply (rx_frame e g Hen 0 (data_bits b) [] 1); try done; [|by rewrite Hpar].
      apply (Forall_impl (fun v => v = 0 \/ v = 1)); [done|intros v; by rewrite Hpin].
    + cbv zeta. intros rs g' t' (_ & -> & ->). rewrite Hmap, Hpin, of_data_bits by done. done.
Qed.

(** ** Concrete runs *)
Definition demo_gu (rate mode : Z) (inv : bool) : gpio_uart :=
  GpioUart 5 6 0 (GuCfg rate mode 1 inv true true) (GuStats 0 0 0 0 0) (NSEC_PER_SEC / rate)
    false 0 0 7 8 9.

(** The terminal port is in use. *)
Definition port_env : env gpio_uart :=
  Env (fun _ c => match c with tty_port_initialized => 1 | _ => granted c end) (fun _ g => g).

Lemma uart_tx_byte_frame_witness :
  wp calm (uart_tx_byte 65) (fun _ g' t' =>
    g' = upd_st count_tx (demo_gu 9600 1 true) /\
    calls t' = flat_map (hold (demo_gu 9600 1 true) 104) [0; 1; 0; 0; 0; 0; 0; 1; 0; 1; 1])
    (demo_gu 9600 1 true) [].
Proof. apply (uart_tx_byte_frame calm 65 (demo_gu 9600 1 true) []). lia. Defined.

Lemma uart_tx_nominal_receiver_witness :
  wp calm (uart_tx_byte 65) (fun _ _ t' =>
    seen_at (demo_gu 9600 0 false) t' (nominal 7) = 1) (demo_gu 9600 0 false) [].
Proof.
  apply (uart_tx_nominal_receiver calm 65 (demo_gu 9600 0 false) 7); try reflexivity.
  all: cbn; lia.
Defined.

Lemma uart_tx_115200_slips_witness :
  wp calm (uart_tx_byte 0) (fun _ _ t' =>
    seen_at (demo_gu 115200 0 false) t' (nominal 8) = 1) (demo_gu 115200 0 false) [].
Proof.
  apply (uart_tx_115200_slips calm 0 (demo_gu 115200 0 false) 8); try reflexivity.
  all: cbn; lia.
Defined.

Lemma rx_tty_frame_witness :
  wp port_env (run_levels rx_timer_cb (0 :: data_bits 65 ++ [0] ++ [1])) (fun _ g' t' =>
    st g' = count_rx (GuStats 0 0 0 0 0) /\ inserted t' = [65]) (demo_gu 9600 2 false) [].
Proof.
  eapply wp_mono.
  - apply (rx_tty_frame port_env (demo_gu 9600 2 false) [] 0 (data_bits 65) [0] 1);
      try reflexivity.
    apply (data_bits_01 65).
  - intros rs g' t' (_ & _ & _ & Hst & Hin). split; [exact Hst|exact Hin].
Defined.

Lemma rx_tty_phase_witness :
  wp port_env
    (run_levels rx_timer_cb (tty_samples 104166 0 (tty_frame (GuCfg 9600 0 1 false true true) 200)))
    (fun _ g' t' => inserted t' = [144]) (demo_gu 9600 0 false) [].
Proof.
  eapply wp_mono.
  - apply (rx_tty_phase port_env (demo_gu 9600 0 false) [] 200 0); try reflexivity.
    + lia.
    + vm_compute. split; [discriminate|reflexivity].
  - intros rs g' t' (_ & Hin). exact Hin.
Defined.
