(* ===== verification/GpioUartConfig.v ===== *)
(** * Settings and lifetime of the GPIO UART terminal

    The settings that [gpio_uart_tty.c] accepts from termios and sysfs, the one
    store that divides by zero, and the resources that loading and unloading the
    module take and give back. *)
From S2P Require Import Prelude.
From S2P Require Import Kernel.
From S2P Require Import GpioUartTty.
From stdpp Require Import options.

(** ** Settings *)
Definition cfg_ok (g : gpio_uart) : Prop :=
  1 <= baud (cfg g) < 2 ^ 32 /\ 0 <= parity_mode (cfg g) < 256 /\
  (stopbits (cfg g) = 1 \/ stopbits (cfg g) = 2) /\
  bit_period g = NSEC_PER_SEC / baud (cfg g).

(** Everything that changes the settings. *)
Inductive setting : Type :=
  | Termios (parenb parodd cstopb : bool)
  | Baud (buf : string) (count : Z) | Parity (buf : string) (count : Z)
  | Stop (buf : string) (count : Z)
  | TxEnable (buf : string) (count : Z) | RxEnable (buf : string) (count : Z).

Section settings.
Context (kstrtoul : string -> option Z).

Definition some_result (m : M gpio_uart Z) : M gpio_uart (option Z) := r ← m; mret (Some r).

Definition apply_setting (x : setting) : M gpio_uart (option Z) :=
  match x with
  | Termios pb po cs => gu_set_termios pb po cs;; mret (Some 0)
  | Baud buf n => baud_store kstrtoul buf n
  | Parity buf n => some_result (parity_store kstrtoul buf n)
  | Stop buf n => some_result (stop_store kstrtoul buf n)
  | TxEnable buf n => some_result (txen_store kstrtoul buf n)
  | RxEnable buf n => some_result (rxen_store kstrtoul buf n)
  end.

(** The store that divides by zero: a multiple of 2^32, which is not 0 itself, is
    truncated to 0 when it is stored in [cfg.baud]. *)
Definition divides_by_zero (x : setting) : Prop :=
  exists buf n v, x = Baud buf n /\ kstrtoul buf = Some v /\ v <> 0 /\ u32 v = 0.

Ltac not_baud :=
  split; [split; [done|by intros (? & ? & ? & ? & _)]|].

(** What a change of the settings does: it fails to return exactly where the driver
    divides by zero, and otherwise leaves the settings consistent. *)
Abbreviation set_ok x :=
  (fun r g' (_ : trace) => (r = None <-> divides_by_zero x) /\ (r <> None -> cfg_ok g')).

Lemma termios_ok (e : env gpio_uart) g t pb po cs :
  (forall t, 0 <= answer e t tty_get_baud_rate < 2 ^ 32) -> cfg_ok g ->
  wp e (apply_setting (Termios pb po cs)) (set_ok (Termios pb po cs)) g t.
Proof.
  intros Hrate (Hb & Hp & Hs & Hper). unfold apply_setting, gu_set_termios.
  apply wp_bind, wp_bind, wp_ask. intros r Hr.
  specialize (Hrate t). rewrite <- Hr in Hrate. clear Hr.
  apply wp_bind, wp_gets. destruct (Z.eqb_spec r 0) as [->|Hr0]; wp_run;
    try (norm_tests; path_facts; lia); not_baud; intros _; unfold cfg_ok; cbn;
    destruct pb, po, cs; split_and!; done || lia || auto.
Qed.

Lemma baud_ok (e : env gpio_uart) g t buf n :
  cfg_ok g -> wp e (apply_setting (Baud buf n)) (set_ok (Baud buf n)) g t.
Proof.
  intros (Hb & Hp & Hs & Hper). unfold apply_setting, baud_store.
  destruct (kstrtoul buf) as [v|] eqn:Hv.
  - assert (forall b : Z, (Some b = None <-> divides_by_zero (Baud buf n)) <->
              (v = 0 \/ u32 v <> 0)) as Hdiv.
    { intros b. split.
      - intros [_ H]. destruct (decide (v = 0)), (decide (u32 v = 0)); auto.
        discriminate H. by exists buf, n, v.
      - intros Hor. split; [done|]. intros (? & ? & v' & [= <- <-] & Hv' & Hnz & Hz).
        rewrite Hv in Hv'. injection Hv' as <-. by destruct Hor. }
    unfold c_true. pose proof (wrapu_range 32 v).
    destruct (Z.eqb_spec v 0) as [Hv0|Hv0]; cbn [negb]; wp_run; path_facts; try lia.
    + split; [apply Hdiv; auto|]. unfold cfg_ok; cbn. intros _. by split_and!; try lia.
    + split; [|done]. split; [|done]. intros _. by exists buf, n, v.
    + split; [apply Hdiv; auto|]. unfold cfg_ok; cbn. intros _. by split_and!; try lia.
  - wp_run. split; [|done]. split; [done|].
    intros (? & ? & v' & [= <- <-] & Hv' & _). congruence.
Qed.

Definition is_flag (x : setting) : Prop :=
  match x with Termios _ _ _ | Baud _ _ => False | _ => True end.

Lemma flag_ok (e : env gpio_uart) g t x :
  is_flag x -> cfg_ok g -> wp e (apply_setting x) (set_ok x) g t.
Proof.
  intros Hx (Hb & Hp & Hs & Hper). unfold apply_setting, some_result.
  destruct x as [pb po cs|buf n|buf n|buf n|buf n|buf n]; try done.
  - unfold parity_store. destruct (kstrtoul buf); wp_run; not_baud; [|done].
    intros _. pose proof (wrapu_range 8 z). unfold cfg_ok; cbn. split_and!; done || lia.
  - unfold stop_store. destruct (kstrtoul buf) as [v|]; wp_run; not_baud; try done.
    intros _. norm_tests. path_facts. unfold cfg_ok; cbn.
    assert (v = 1 \/ v = 2) as [-> | ->] by lia; split_and!; done || lia || auto.
  - unfold txen_store. destruct (kstrtoul buf); wp_run; not_baud; done.
  - unfold rxen_store. destruct (kstrtoul buf); wp_run; not_baud; done.
Qed.

(** C22: every change of the settings, from the terminal or from sysfs, keeps them
    consistent: rate and bit time belong together, one or two stop bits, a parity
    mode of one byte; the only exception is the store of a rate that is a multiple
    of 2^32, and it is exactly there that the driver divides by zero. *)
Theorem settings_consistent (e : env gpio_uart) g t x :
  (forall t, 0 <= answer e t tty_get_baud_rate < 2 ^ 32) -> cfg_ok g ->
  wp e (apply_setting x) (fun r g' _ =>
    (r = None <-> divides_by_zero x) /\ (r <> None -> cfg_ok g')) g t.
Proof.
  intros Hrate Hok. destruct x as [pb po cs|buf n|buf n|buf n|buf n|buf n].
  - by apply termios_ok.
  - by apply baud_ok.
  - by apply flag_ok.
  - by apply flag_ok.
  - by apply flag_ok.
  - by apply flag_ok.
Qed.
End settings.

(** ** Loading and unloading *)

(** What the loaded module holds, newest first; [p] is the record and [group] tells
    whether the sysfs group could be created. *)
Definition loaded_resources (p : Z) (group : bool) (g : gpio_uart) : list resource :=
  (if group then [R_group (kobj g)] else []) ++
  (if c_true (kobj g) then [R_kobj (kobj g)] else []) ++
  (if c_true (proc g) then [R_proc (proc g)] else []) ++
  [R_tty_device (tty_drv g); R_tty_port; R_tty_registered (tty_drv g);
   R_tty_driver (tty_drv g); R_timer "rx_timer"; R_mem p].

Fixpoint port_initialised (t : trace) : bool :=
  match t with
  | [] => false
  | Ev tty_port_init _ :: _ => true
  | _ :: t' => port_initialised t'
  end.

(** Loading the module either ends with everything a loaded module holds, the
    receive timer armed, or fails and gives everything back in the opposite order,
    but for the terminal port when it had been set up; nothing is given back
    twice. *)
Theorem gpio_uart_init_resources (e : env gpio_uart) g tx_gpio rx_gpio default_baud :
  wp e (gpio_uart_init tx_gpio rx_gpio default_baud) (fun r g' t' =>
    exists L, ledger t' = Some L /\
    (r = 0 -> exists p group, p <> 0 /\ (group = true -> kobj g' <> 0) /\
                L = loaded_resources p group g') /\
    (r <> 0 -> L = if port_initialised t' then [R_tty_port] else [])) g [].
Proof.
  unfold gpio_uart_init. cbv zeta. wp_run.
  all: unfold loaded_resources; path_ledger; eexists; (split; [reflexivity|]); split; intros;
    try done; try path_contra.
  all: cbn; unfold c_true; rewrite_tests; path_facts.
  all: first [by exists r, true|by exists r, false].
Qed.

(** Unloading a loaded module gives back every resource, each one once, and
    leaves the transmit line at the level of a start bit. *)
Theorem gpio_uart_exit_resources (e : env gpio_uart) g t p group :
  p <> 0 -> (group = true -> kobj g <> 0) ->
  ledger t = Some (loaded_resources p group g) ->
  wp e (gpio_uart_exit p) (fun _ _ t' =>
    ledger t' = Some [] /\
    exists r r' t0, t' = Ev (kfree p) r :: Ev (gpiod_set_value (tx g) (b2z (invert (cfg g)))) r' :: t0)
    g t.
Proof.
  intros Hp Hgroup. unfold loaded_resources, gpio_uart_exit, set_tx_level. intros HL.
  apply Z.eqb_neq in Hp.
  destruct group; [assert (c_true (kobj g) = true) as Hk by
    (unfold c_true; by rewrite (proj2 (Z.eqb_neq _ _) (Hgroup eq_refl)))|clear Hgroup];
    wp_run; (split; [|by destruct (invert (cfg g)); eexists _, _, _]).
  all: norm_tests; revert HL; unfold c_true; rewrite_tests; cbn [negb app]; intros HL;
    ledger_eval; done.
Qed.

(** ** Concrete runs *)
Definition loaded_gu : gpio_uart :=
  GpioUart 5 6 0 (GuCfg 9600 0 1 false true true) (GuStats 0 0 0 0 0) 104166 false 0 0 7 8 9.

Lemma settings_consistent_witness :
  wp calm (apply_setting (fun _ => Some 4294967296) (Baud "4294967296" 10)) (fun r g' _ =>
    (r = None <-> divides_by_zero (fun _ => Some 4294967296) (Baud "4294967296" 10)) /\
    (r <> None -> cfg_ok g')) loaded_gu [].
Proof.
  apply settings_consistent.
  - intros t. cbn. lia.
  - unfold cfg_ok. cbn. repeat split; lia || auto.
Defined.

Lemma gpio_uart_init_resources_witness :
  wp calm (gpio_uart_init 17 27 0) (fun r g' t' =>
    r = 0 /\ baud (cfg g') = 9600 /\
    exists p group, ledger t' = Some (loaded_resources p group g')) zero_gu [].
Proof.
  assert (wp calm (gpio_uart_init 17 27 0) (fun r g' _ => r = 0 /\ baud (cfg g') = 9600) zero_gu [])
    as H0 by (vm_compute; done).
  eapply wp_mono;
    [apply (wp_conj _ _ _ _ _ _ H0 (gpio_uart_init_resources calm zero_gu 17 27 0))|].
  intros r g' t' ((-> & Hb) & L & HL & Hok & _). split; [done|]. split; [done|].
  destruct (Hok eq_refl) as (p & group & _ & _ & ->). by exists p, group.
Defined.

Lemma gpio_uart_exit_resources_witness :
  wp calm (gpio_uart_exit 4096) (fun _ _ t' =>
    ledger t' = Some [] /\
    exists r r' t0, t' = Ev (kfree 4096) r :: Ev (gpiod_set_value 5 0) r' :: t0)
    loaded_gu
    [ Ev (sysfs_create_group 9) 0; Ev (kobject_create_and_add "gpio_uart") 9;
      Ev (proc_create "gpio_uart") 8; Ev (tty_register_device 7) 1; Ev tty_port_init 0;
      Ev (tty_register_driver 7) 0; Ev alloc_tty_driver 7; Ev (hrtimer_start "rx_timer" 104166) 0;
      Ev (kzalloc "gpio_uart") 4096 ].
Proof.
  apply (gpio_uart_exit_resources calm loaded_gu _ 4096 true).
  - discriminate.
  - discriminate.
  - vm_compute. reflexivity.
Defined.
