(* ===== verification/GpioUartSystem.v ===== *)
(** * The GPIO UART terminal as a running system

    The operations of [gpio_uart_tty.c] interleaved in any order with the receive
    timer, in time.  A [system] is the driver's record with what the kernel keeps for
    it: the clock, whether the timer is armed and when it expires, and the characters
    that were given to the terminal.  A write takes one step: it shares no variable
    with the callback but the settings, which both only read; a change of the settings
    in the middle of a write is left out.  [hrtimer_forward_now] has its documented
    behaviour, and a callback that asks to be restarted is due when its timer says. *)
From S2P Require Import Prelude.
From S2P Require Import Kernel.
From S2P Require Import Wire.
From S2P Require Import GpioUartTty.
From S2P Require Import GpioUartFrames.
From S2P Require Import GpioUartConfig.
From stdpp Require Import relations.
From stdpp Require Import options.
#[local] Open Scope Z_scope.

(** ** The callback as a function of the level it samples

    What it returns, what it makes of the record, by how much it moves the timer, and
    the characters it delivers when the terminal's port is up. *)
Record sample := Sample {
  verdict : hrtimer_restart;
  after : gpio_uart;
  moves : option Z;
  chars : list Z;
}.

Definition sample_of (v : Z) (up : bool) (g : gpio_uart) : sample :=
  if negb (rx_enable (cfg g)) then Sample HRTIMER_NORESTART g None []
  else if negb (rx_busy g) then
    if v =? 0 then Sample HRTIMER_RESTART (set_rx true 0 (-1) g) (Some (GpioUartTty.half (bit_period g))) []
    else Sample HRTIMER_RESTART g None []
  else
    let pos := i32 (rx_bitpos g + 1) in
    if (0 <=? pos) && (pos <? 8) then
      Sample HRTIMER_RESTART (set_rx true (u8 (Z.lor (rx_byte g) (Z.shiftl v pos))) pos g)
        (Some (bit_period g)) []
    else if c_true (parity_mode (cfg g)) && (pos =? 8) then
      Sample HRTIMER_RESTART (set_rx true (rx_byte g) pos g) (Some (bit_period g)) []
    else if 8 + (if c_true (parity_mode (cfg g)) then 1 else 0) <=? pos then
      Sample HRTIMER_RESTART
        (set_rx false (rx_byte g) pos (upd_st (if v =? 1 then count_rx else count_framing) g)) None
        (if (v =? 1) && up then [rx_byte g] else [])
    else Sample HRTIMER_RESTART (set_rx false (rx_byte g) pos g) None [].

(** ** Time *)

(** [hrtimer_forward]: an expiry that has passed moves by multiples of the interval,
    which is at least the resolution, to the first that has not. *)
Definition forward (now interval expiry : Z) : Z :=
  if now <? expiry then expiry
  else let i := Z.max 1 interval in expiry + i * ((now - expiry) / i + 1).

Fixpoint moved (now expiry : Z) (t : trace) : Z :=
  match t with
  | [] => expiry
  | Ev (hrtimer_forward_now _ ns) _ :: t' => forward now ns (moved now expiry t')
  | _ :: t' => moved now expiry t'
  end.

Definition move (now : Z) (m : option Z) (expiry : Z) : Z :=
  match m with Some ns => forward now ns expiry | None => expiry end.

Lemma forward_future now i x : now < forward now i x.
Proof.
  unfold forward. destruct (Z.ltb_spec now x) as [|Hx]; [done|]. cbv zeta.
  assert (0 < Z.max 1 i) as Hi by lia.
  pose proof (Z.div_mod (now - x) (Z.max 1 i)). pose proof (Z.mod_pos_bound (now - x) (Z.max 1 i)).
  nia.
Qed.

Lemma wp_get_rx_level (e : env gpio_uart) (Q : Z -> gpio_uart -> trace -> Prop) g t :
  (forall a, a = answer e t (gpiod_get_value (rx g)) ->
     Q (pin_level (cfg g) a) g (Ev (gpiod_get_value (rx g)) a :: t)) ->
  wp e get_rx_level Q g t.
Proof.
  intros HQ. unfold get_rx_level. apply wp_bind, wp_gets, wp_bind, wp_ask. intros a Ha.
  apply wp_bind, wp_gets, wp_ret. by apply HQ.
Qed.

(** Ends a path on which the level was [v] and the port up or not. *)
#[local] Ltac sampled v up :=
  exists v, up; rewrite_tests; cbn; rewrite ?app_nil_r; split_and!; try done;
  match goal with
  | H : forall p, _ -> v = _ |- _ => exact H
  | H : ?a = answer _ _ _ |- _ =>
      let Hp := fresh in intros ? Hp; rewrite H, Hp; done
  end.

(** The callback is what [sample_of] says of the level of the pin. *)
Lemma callback_samples (e : env gpio_uart) now x g t :
  wp e rx_timer_cb (fun r g' t' =>
    exists v up, let s := sample_of v up g in
      (forall p, (forall t, answer e t (gpiod_get_value (rx g)) = p) -> v = pin_level (cfg g) p) /\
      r = verdict s /\ g' = after s /\
      inserted t' = inserted t ++ chars s /\
      moved now x t' = move now (moves s) (moved now x t)) g t.
Proof.
  unfold rx_timer_cb, sample_of. apply wp_bind, wp_do. intros lk. apply wp_bind, wp_gets.
  assert (exists unseen, forall p, (forall t, answer e t (gpiod_get_value (rx g)) = p) ->
    unseen = pin_level (cfg g) p) as [unseen Hunseen]
    by (exists (pin_level (cfg g) (answer e [] (gpiod_get_value (rx g)))); intros p Hp; by rewrite Hp).
  destruct (negb (rx_enable (cfg g))).
  { wp_run. sampled unseen false. }
  destruct (negb (rx_busy g)).
  { apply wp_bind, wp_get_rx_level. intros a Ha. cbn [cfg rx set_rx] in *.
    destruct (pin_level (cfg g) a =? 0) eqn:Hv; wp_run; sampled (pin_level (cfg g) a) false. }
  cbv zeta. apply wp_bind, wp_modify. set (pos := i32 (rx_bitpos g + 1)).
  destruct ((0 <=? pos) && (pos <? 8)).
  { apply wp_bind, wp_get_rx_level. intros a Ha. cbn [cfg rx set_rx] in *. wp_run. sampled (pin_level (cfg g) a) false. }
  destruct (c_true (parity_mode (cfg g)) && (pos =? 8)).
  { wp_run. sampled unseen false. }
  destruct (8 + _ <=? pos); [|wp_run; sampled unseen false].
  apply wp_bind, wp_get_rx_level. intros a Ha. cbn [cfg rx set_rx] in *.
  destruct (pin_level (cfg g) a =? 1) eqn:Hv; cbn [negb].
  - apply wp_bind, wp_bind, wp_ask. intros i _.
    destruct (c_true i) eqn:Hi; cbn [when]; wp_run; sampled (pin_level (cfg g) a) (c_true i).
  - wp_run. sampled (pin_level (cfg g) a) false.
Qed.

(** ** The system *)
Record system := Sys {
  drv : gpio_uart;
  armed : bool;
  expiry : Z;
  clock : Z;
  given : list Z;             (** to the terminal, oldest first *)
}.
Implicit Types (y : system).

Definition with_drv (g : gpio_uart) y : system :=
  Sys g (armed y) (expiry y) (clock y) (given y).

Inductive action :=
  | Passes (d : Z)            (** time *)
  | Expires                   (** the callback runs *)
  | Opens
  | Writes (buf : list Z)
  | Sets (x : setting).

Section system.
Context (kstrtoul : string -> option Z).

Definition due y : Prop := armed y = true /\ expiry y <= clock y.

(** Rates that the terminal layer asks for are [unsigned int]s. *)
Definition rates (e : env gpio_uart) : Prop :=
  forall t, 0 <= answer e t tty_get_baud_rate < 2 ^ 32.

Definition expired y (r : hrtimer_restart) g (t : trace) : system :=
  Sys g (restarts r) (moved (clock y) (expiry y) t) (clock y) (given y ++ inserted t).

(** A store that divides by zero ends the system, so it makes no step. *)
Inductive step : action -> system -> system -> Prop :=
  | step_time y d : 0 <= d ->
      step (Passes d) y (Sys (drv y) (armed y) (expiry y) (clock y + d) (given y))
  | step_expires y e r g t : due y ->
      rx_timer_cb e (drv y) [] = (r, g, t) -> step Expires y (expired y r g t)
  | step_opens y e r g t :
      gu_tty_open e (drv y) [] = (r, g, t) -> step Opens y (with_drv g y)
  | step_writes y e buf r g t : Forall (fun b => 0 <= b < 256) buf ->
      gu_tty_write buf e (drv y) [] = (r, g, t) -> step (Writes buf) y (with_drv g y)
  | step_sets y e x r g t : rates e ->
      apply_setting kstrtoul x e (drv y) [] = (Some r, g, t) -> step (Sets x) y (with_drv g y).

(** A module that was loaded. *)
Definition initial y : Prop :=
  exists e tx_gpio rx_gpio default_baud g0 g t, 0 <= default_baud < 2 ^ 32 /\
    gpio_uart_init tx_gpio rx_gpio default_baud e g0 [] = (0, g, t) /\
    y = Sys g true (clock y + NSEC_PER_SEC / baud (cfg g)) (clock y) [].

Inductive steps : list action -> system -> system -> Prop :=
  | steps_nil y : steps [] y y
  | steps_cons x l y y1 y2 : step x y y1 -> steps l y1 y2 -> steps (x :: l) y y2.

Definition reachable y : Prop := exists y0 l, initial y0 /\ steps l y0 y.

(** ** The invariant *)
Definition stats_ok (s : gu_stats) : Prop :=
  0 <= tx_bytes s < 2 ^ 64 /\ 0 <= rx_bytes s < 2 ^ 64 /\ 0 <= framing_errors s < 2 ^ 64 /\
  rx_errors s = 0 /\ overrun_errors s = 0.

Definition rx_ok g : Prop :=
  0 <= rx_byte g < 256 /\ -1 <= rx_bitpos g <= 9 /\ (rx_busy g = true -> rx_bitpos g <= 8).

Record inv y : Prop := {
  inv_cfg : cfg_ok (drv y);
  inv_stats : stats_ok (st (drv y));
  inv_rx : rx_ok (drv y);
}.

Lemma i32_next pos : -1 <= pos <= 8 -> i32 (pos + 1) = pos + 1.
Proof. intros H. apply wraps_small; [done|]. cbn. lia. Qed.

Lemma count_ok s : stats_ok s ->
  stats_ok (count_tx s) /\ stats_ok (count_rx s) /\ stats_ok (count_framing s).
Proof.
  intros (? & ? & ? & ? & ?). unfold stats_ok, count_tx, count_rx, count_framing; cbn.
  pose proof (wrapu_range 64 (tx_bytes s + 1)). pose proof (wrapu_range 64 (rx_bytes s + 1)).
  pose proof (wrapu_range 64 (framing_errors s + 1)). split_and!; done || lia.
Qed.

(** The next position of a receiver in the middle of a byte: never the last branch of
    the callback. *)
Lemma next_pos g : rx_ok g -> rx_busy g = true ->
  i32 (rx_bitpos g + 1) = rx_bitpos g + 1 /\ 0 <= rx_bitpos g + 1 <= 9.
Proof.
  intros (_ & Hp & Hb) Hbusy. specialize (Hb Hbusy). split; [apply i32_next|]; lia.
Qed.

Lemma sample_ok v up g : cfg_ok g -> stats_ok (st g) -> rx_ok g ->
  let g' := after (sample_of v up g) in
  cfg g' = cfg g /\ cfg_ok g' /\ stats_ok (st g') /\ rx_ok g'.
Proof.
  intros Hc Hs Hr. destruct (count_ok _ Hs) as (_ & Hs1 & Hs2).
  pose proof Hr as (Hb & Hp & Hbusy). unfold sample_of.
  destruct (rx_enable (cfg g)); cbn [negb]; [|done].
  destruct (rx_busy g) eqn:Hbz; cbn [negb].
  2:{ destruct (v =? 0); cbn; [|done]. split_and!; try done; unfold rx_ok; cbn; split_and!; lia. }
  destruct (next_pos g Hr Hbz) as [-> Hn]. cbv zeta.
  destruct (Z.leb_spec 0 (rx_bitpos g + 1)), (Z.ltb_spec (rx_bitpos g + 1) 8); try lia; cbn [andb].
  - pose proof (wrapu_range 8 (Z.lor (rx_byte g) (Z.shiftl v (rx_bitpos g + 1)))).
    cbn. split_and!; try done. unfold rx_ok; cbn. split_and!; lia.
  - destruct (c_true _ && _) eqn:Hpar.
    { apply andb_true_iff in Hpar as [_ ?%Z.eqb_eq]. cbn. split_and!; try done.
      unfold rx_ok; cbn. split_and!; lia. }
    destruct (_ <=? rx_bitpos g + 1), (v =? 1); cbn;
      (split_and!; try done; unfold rx_ok; cbn; split_and!; done || lia).
Qed.

(** A write sends the frames of its bytes one after the other. *)
Lemma write_sends (e : env gpio_uart) buf g t :
  Forall (fun b => 0 <= b < 256) buf -> baud (cfg g) <> 0 ->
  wp e (gu_tty_write buf) (fun r g' t' =>
    if tx_enable (cfg g) then
      r = Z.of_nat (length buf) /\ g' = Nat.iter (length buf) (upd_st count_tx) g /\
      calls t' = calls t ++ flat_map (fun b =>
        flat_map (hold g (1000000 / baud (cfg g))) (tty_frame (cfg g) b)) buf
    else r = - EIO /\ g' = g /\ t' = t) g t.
Proof.
  intros Hbuf Hbd. unfold gu_tty_write. apply wp_bind, wp_gets.
  destruct (tx_enable (cfg g)) eqn:Hen; cbn [negb]; [|by apply wp_ret].
  apply wp_bind.
  assert (forall n g0 t, g0 = Nat.iter n (upd_st count_tx) g ->
    wp e (for_each uart_tx_byte buf) (fun _ g' t' =>
      g' = Nat.iter (length buf + n) (upd_st count_tx) g /\
      calls t' = calls t ++ flat_map (fun b =>
        flat_map (hold g (1000000 / baud (cfg g))) (tty_frame (cfg g) b)) buf) g0 t) as Hall.
  { induction Hbuf as [|b buf Hb _ IH]; intros n g0 t0 Hg0; cbn [for_each flat_map length Nat.add].
    { apply wp_ret. by rewrite app_nil_r. }
    assert (cfg g0 = cfg g /\ tx g0 = tx g) as [Hcfg Htx]
      by (subst g0; clear; induction n; cbn; [done|by destruct IHn]).
    apply wp_bind, tx_byte_calls; rewrite ?Hcfg; [done..|]. intros t1 Ht1.
    eapply wp_mono; [apply (IH (S n)); by subst g0|]. cbn. intros _ g2 t2 [-> Hc]. split.
    - by rewrite Nat.add_succ_r.
    - rewrite Hc. unfold calls at 1. rewrite Ht1, rev_app_distr, rev_involutive, <- app_assoc.
      unfold hold. by rewrite Hcfg, Htx. }
  eapply wp_mono; [by apply (Hall 0%nat)|]. intros _ g' t' [-> Hc]. rewrite Nat.add_0_r.
  by apply wp_ret.
Qed.

(** What the receiver has: no other operation touches it. *)
Definition same_rx g g' : Prop :=
  rx_busy g' = rx_busy g /\ rx_byte g' = rx_byte g /\ rx_bitpos g' = rx_bitpos g /\
  rx_bytes (st g') = rx_bytes (st g) /\ framing_errors (st g') = framing_errors (st g).

Lemma counted_keeps n g : cfg_ok g -> stats_ok (st g) -> rx_ok g ->
  let g' := Nat.iter n (upd_st count_tx) g in
  cfg_ok g' /\ stats_ok (st g') /\ rx_ok g' /\ same_rx g g'.
Proof.
  intros Hc Hs Hr. induction n as [|n (IHc & IHs & IHr & IHx)]; cbn; [done|].
  apply count_ok in IHs as (IHs & _ & _). done.
Qed.

Lemma setting_keeps (e : env gpio_uart) x g t :
  wp e (apply_setting kstrtoul x) (fun _ g' _ => st g' = st g /\ same_rx g g') g t.
Proof.
  unfold apply_setting, some_result, gu_set_termios, baud_store, parity_store, stop_store,
    txen_store, rxen_store.
  destruct x as [? ? ?|buf n|buf n|buf n|buf n|buf n];
    [|destruct (kstrtoul buf)..]; wp_run; done.
Qed.

Lemma setting_cfg (e : env gpio_uart) x g t : rates e -> cfg_ok g ->
  wp e (apply_setting kstrtoul x) (fun r g' _ => r <> None -> cfg_ok g') g t.
Proof.
  intros Hrate Hc.
  assert (wp e (apply_setting kstrtoul x) 
    (fun r g' _ => (r = None <-> divides_by_zero kstrtoul x) /\ (r <> None -> cfg_ok g')) g t) as H.
  { destruct x; [by apply termios_ok|by apply baud_ok|by apply flag_ok..]. }
  eapply wp_mono; [exact H|]. by intros r g' t' [_ ?].
Qed.

(** ** What every interleaving keeps *)

Lemma expires_outcome y e r g t : rx_timer_cb e (drv y) [] = (r, g, t) ->
  exists v up, let s := sample_of v up (drv y) in
    (forall p, (forall t, answer e t (gpiod_get_value (rx (drv y))) = p) ->
       v = pin_level (cfg (drv y)) p) /\
    expired y r g t =
      Sys (after s) (restarts (verdict s)) (move (clock y) (moves s) (expiry y)) (clock y)
        (given y ++ chars s).
Proof.
  intros Hrun. destruct (run_wp _ _ _ _ _ _ _ _ Hrun
    (callback_samples e (clock y) (expiry y) (drv y) []))
    as (v & up & Hv & -> & -> & Hin & Hmv).
  exists v, up. split; [done|]. unfold expired. by rewrite Hin, Hmv.
Qed.

(** Each step keeps the invariant, and what it does to the receiver: nothing, unless
    the timer has expired. *)
Lemma step_spec x y y' : inv y -> step x y y' ->
  inv y' /\
  (x <> Expires -> armed y' = armed y /\ expiry y' = expiry y /\ given y' = given y /\
     same_rx (drv y) (drv y')).
Proof.
  intros [Hc Hs Hr]. destruct 1 as [y d Hd|y e r g t Hdue Hrun|y e r g t Hrun
    |y e buf r g t Hbuf Hrun|y e x r g t He Hrun].
  - by split.
  - split; [|done]. destruct (expires_outcome _ _ _ _ _ Hrun) as (v & up & _ & ->).
    destruct (sample_ok v up _ Hc Hs Hr) as (_ & ? & ? & ?). by split.
  - assert (g = drv y) as ->.
    { apply (run_wp _ _ _ _ _ _ _ (fun _ g _ => g = drv y) Hrun). unfold gu_tty_open. by wp_run. }
    by split.
  - assert (exists n, g = Nat.iter n (upd_st count_tx) (drv y)) as [n ->].
    { assert (baud (cfg (drv y)) <> 0) as Hbd by (destruct Hc; lia).
      pose proof (run_wp _ _ _ _ _ _ _ _ Hrun (write_sends e buf (drv y) [] Hbuf Hbd)) as Hw.
      destruct (tx_enable _); [destruct Hw as (_ & Hw & _); by eexists|].
      exists 0%nat. by destruct Hw as (_ & Hw & _). }
    destruct (counted_keeps n _ Hc Hs Hr) as (? & ? & ? & ?). by split.
  - destruct (run_wp _ _ _ _ _ _ _ _ Hrun (setting_keeps e x (drv y) [])) as [Hst Hsame].
    pose proof (run_wp _ _ _ _ _ _ _ _ Hrun (setting_cfg e x (drv y) [] He Hc)) as Hcfg.
    split; [|done]. destruct Hsame as (Hb & Hby & Hp & _). split; cbn; [by apply Hcfg|by rewrite Hst|].
    unfold rx_ok. by rewrite Hb, Hby, Hp.
Qed.

Lemma gu_initial_inv y : initial y -> inv y /\ armed y = true.
Proof.
  intros (e & txp & rxp & db & g0 & g & t & Hdb & Hrun & ->). split; [|done].
  assert (wp e (gpio_uart_init txp rxp db) (fun r g' _ => r = 0 ->
    cfg_ok g' /\ stats_ok (st g') /\ rx_ok g') g0 []) as Hwp.
  { assert (1 <= (if db =? 0 then 9600 else db) < 2 ^ 32) by (destruct (Z.eqb_spec db 0); lia).
    unfold gpio_uart_init. cbv zeta. wp_run; try done; intros; path_facts; try lia.
    all: unfold cfg_ok, stats_ok, rx_ok; cbn; split_and!; done || lia || auto. }
  destruct (run_wp _ _ _ _ _ _ _ _ Hrun Hwp eq_refl) as (? & ? & ?). by split.
Qed.

Lemma steps_inv l y y' : inv y -> steps l y y' -> inv y'.
Proof.
  intros Hi Hl. induction Hl as [|x l y y1 y2 Hx _ IH]; [done|].
  by apply IH, (step_spec x y).
Qed.

Lemma gu_reachable_states_inv y : reachable y -> inv y.
Proof. intros (y0 & l & Hy0 & Hl). eapply steps_inv; [by apply gu_initial_inv|done]. Qed.


(** ** The receiver that stops for good *)

Lemma disarmed_stays l y y' : inv y -> armed y = false -> steps l y y' ->
  armed y' = false /\ given y' = given y /\ same_rx (drv y) (drv y').
Proof.
  intros Hi Ha Hl. induction Hl as [y|x l y y1 y2 Hx _ IH]; [done|].
  destruct (step_spec _ _ _ Hi Hx) as [Hi1 Hn].
  assert (x <> Expires) as Hne by (intros ->; inversion Hx as [|? ? ? ? ? [? ?]| | |]; congruence).
  destruct (Hn Hne) as (Ha1 & _ & Hg & Hs1). rewrite <- Hg.
  destruct IH as (? & ? & Hs2); [done|by rewrite Ha1|]. split_and!; try done.
  unfold same_rx in *. destruct Hs1 as (-> & -> & -> & -> & ->) in Hs2. done.
Qed.

(** C37: When the timer expires while reception is disabled it is not restarted, and nothing
    that can happen later starts it again: after [rx_enable] is set back no byte is
    received any more. *)
Theorem rx_disable_is_final l y y1 y2 :
  reachable y -> rx_enable (cfg (drv y)) = false -> step Expires y y1 -> steps l y1 y2 ->
  armed y2 = false /\ given y2 = given y /\ same_rx (drv y) (drv y2).
Proof.
  intros Hy Hen Hx Hl. apply gu_reachable_states_inv in Hy.
  pose proof (proj1 (step_spec _ _ _ Hy Hx)) as Hi1.
  inversion Hx as [|y' e r g t Hdue Hrun| | |]; subst.
  destruct (expires_outcome _ _ _ _ _ Hrun) as (v & up & _ & Hout).
  unfold sample_of in Hout. rewrite Hen in Hout. cbn in Hout. rewrite app_nil_r in Hout.
  rewrite Hout in Hi1, Hl. by apply (disarmed_stays l _ _ Hi1) in Hl.
Qed.

(** ** The idle line *)

(** While the line is idle the callback neither changes anything nor moves its timer,
    which stays due: it runs again at once, for ever. *)
Theorem idle_callback_stays_due e p y n :
  due y -> rx_enable (cfg (drv y)) = true -> rx_busy (drv y) = false ->
  (forall t, answer e t (gpiod_get_value (rx (drv y))) = p) -> pin_level (cfg (drv y)) p <> 0 ->
  (forall r g t, rx_timer_cb e (drv y) [] = (r, g, t) -> expired y r g t = y) /\
  steps (replicate n Expires) y y.
Proof.
  intros Hdue Hen Hb Hp Hl.
  assert (forall r g t, rx_timer_cb e (drv y) [] = (r, g, t) -> expired y r g t = y) as Hidle.
  { intros r g t Hrun. destruct (expires_outcome _ _ _ _ _ Hrun) as (v & up & Hv & ->).
    rewrite (Hv p Hp). unfold sample_of. rewrite Hen, Hb. cbn [negb].
    destruct (Z.eqb_spec (pin_level (cfg (drv y)) p) 0); [done|]. cbn. rewrite app_nil_r.
    destruct Hdue as [<- _]. by destruct y. }
  split; [done|]. induction n as [|n IH]; cbn; [by constructor|].
  econstructor; [|exact IH].
  assert (exists r g t, rx_timer_cb e (drv y) [] = (r, g, t)) as (r & g & t & Hrun)
    by (destruct (rx_timer_cb e (drv y) []) as [[r g] t]; eauto).
  rewrite <- (Hidle r g t Hrun) at 2. by eapply step_expires.
Qed.

(** ** The end of a byte *)
Definition is_expiry (x : action) : bool := match x with Expires => true | _ => false end.
Definition callbacks (l : list action) : Z :=
  foldr (fun x n => b2z (is_expiry x) + n) 0 l.

(** How much of a byte has been seen: 1 after its start bit. *)
Definition progress g : Z := if rx_busy g then rx_bitpos g + 2 else 0.

(** A callback in the middle of a byte goes one further, or ends the byte after ten
    callbacks or more; only then is a character delivered. *)
Lemma sample_progress v up g : rx_ok g ->
  let s := sample_of v up g in
  10 * Z.of_nat (length (chars s)) + progress (after s) <= progress g + 1 /\
  (rx_busy g = true -> restarts (verdict s) = false \/ rx_busy (after s) = false \/
     rx_busy (after s) = true /\ rx_bitpos (after s) = rx_bitpos g + 1).
Proof.
  intros Hr. unfold sample_of, progress.
  destruct (rx_enable (cfg g)); cbn [negb]; [|by cbn; split; [lia|left]].
  destruct (rx_busy g) eqn:Hb; cbn [negb].
  2:{ destruct (v =? 0); cbn; rewrite ?Hb; split; done || lia. }
  destruct (next_pos g Hr Hb) as [-> Hn]. cbv zeta.
  destruct (Z.leb_spec 0 (rx_bitpos g + 1)), (Z.ltb_spec (rx_bitpos g + 1) 8); try lia; cbn [andb].
  { cbn. split; [lia|by right; right]. }
  destruct (c_true _ && _); [cbn; split; [lia|by right; right]|].
  destruct (_ <=? rx_bitpos g + 1); [|cbn; split; [lia|auto]].
  split; [|by right; left]. cbn. destruct ((v =? 1) && up); cbn; lia.
Qed.

Lemma same_progress g g' : same_rx g g' -> progress g' = progress g.
Proof. intros (Hb & _ & Hp & _). unfold progress. by rewrite Hb, Hp. Qed.

Lemma step_progress x y y' : inv y -> step x y y' ->
  10 * Z.of_nat (length (given y')) + progress (drv y') <=
    10 * Z.of_nat (length (given y)) + progress (drv y) + b2z (is_expiry x).
Proof.
  intros Hi Hx. destruct (step_spec _ _ _ Hi Hx) as [_ Hn].
  destruct (is_expiry x) eqn:He.
  - destruct x; try done. inversion Hx as [|? e r g t Hdue Hrun| | |]; subst.
    destruct (expires_outcome _ _ _ _ _ Hrun) as (v & up & _ & ->). cbn.
    destruct (sample_progress v up _ (inv_rx _ Hi)) as [? _]. rewrite length_app. lia.
  - destruct Hn as (_ & _ & -> & Hs); [by intros ->|]. rewrite (same_progress _ _ Hs). cbn. lia.
Qed.

(** Bytes do not come faster than every tenth callback, whatever is changed meanwhile. *)
Theorem ten_callbacks_a_byte l y y' :
  reachable y -> steps l y y' ->
  10 * (Z.of_nat (length (given y')) - Z.of_nat (length (given y))) + progress (drv y') <=
    progress (drv y) + callbacks l.
Proof.
  intros Hy Hl. apply gu_reachable_states_inv in Hy.
  induction Hl as [y|x l y y1 y2 Hx _ IH]; cbn [callbacks foldr]; [unfold callbacks; cbn; lia|].
  pose proof (step_progress _ _ _ Hy Hx). specialize (IH (proj1 (step_spec _ _ _ Hy Hx))).
  unfold callbacks in *. cbn [foldr]. lia.
Qed.

Definition receiving y : Prop := rx_busy (drv y) = true /\ armed y = true.

Lemma step_receiving x y y' : inv y -> receiving y -> step x y y' ->
  (is_expiry x = true /\ (rx_busy (drv y') = false \/ armed y' = false)) \/
  (receiving y' /\ rx_bitpos (drv y') = rx_bitpos (drv y) + b2z (is_expiry x)).
Proof.
  intros Hi [Hb Ha] Hx. destruct (step_spec _ _ _ Hi Hx) as [_ Hn].
  destruct (is_expiry x) eqn:He.
  - destruct x; try done. inversion Hx as [|? e r g t Hdue Hrun| | |]; subst.
    destruct (expires_outcome _ _ _ _ _ Hrun) as (v & up & _ & ->).
    destruct (sample_progress v up _ (inv_rx _ Hi)) as [_ Hs]. unfold receiving. cbn in *.
    destruct (restarts (verdict _)) eqn:Hr; [|left; by auto].
    destruct (Hs Hb) as [?|[?|[? ?]]]; [done|left; by auto|by right].
  - right. destruct Hn as (Ha' & _ & _ & Hb' & _ & Hp & _); [by intros ->|].
    unfold receiving. rewrite Hb', Ha', Hp, Z.add_0_r. done.
Qed.

(** C33: A receiver in the middle of a byte is done with it after at most ten callbacks: at
    the end, or when it is found to be disabled. *)
Theorem byte_ends l y y' :
  reachable y -> receiving y -> steps l y y' -> 9 - rx_bitpos (drv y) <= callbacks l ->
  exists l1 l2 y1, l = l1 ++ l2 /\ steps l1 y y1 /\ steps l2 y1 y' /\
    callbacks l1 <= 9 - rx_bitpos (drv y) <= 10 /\
    (rx_busy (drv y1) = false \/ armed y1 = false).
Proof.
  intros Hy Hrec Hl. apply gu_reachable_states_inv in Hy.
  induction Hl as [y|x l y y1 y2 Hx Hl IH]; intros Hn;
    (destruct (inv_rx _ Hy) as (_ & Hrange & Hp); specialize (Hp (proj1 Hrec)));
    unfold callbacks in *; cbn [foldr] in Hn; [lia|].
  destruct (step_receiving _ _ _ Hy Hrec Hx) as [[He Hend]|[Hrec1 Hpos]].
  - exists [x], l, y1. cbn [foldr].
    split_and!; first [done|lia|by repeat econstructor|rewrite He; cbn; lia].
  - destruct IH as (l1 & l2 & y3 & -> & H1 & H2 & Hc & Hend);
      [by apply (step_spec _ _ _ Hy Hx)|done|lia|].
    exists (x :: l1), l2, y3. cbn [foldr app].
    split_and!; first [done|lia|by econstructor].
Qed.
End system.

(** ** Witnesses *)

(** A module loaded with the default rate, on a line at [level]; numbers are read as
    one digit. *)
Definition line_at (level : Z) : env gpio_uart :=
  Env (fun _ c => match c with gpiod_get_value _ => level | _ => granted c end) (fun _ s => s).
Definition one_digit (s : string) : option Z :=
  match s with "0" => Some 0 | "1" => Some 1 | "2" => Some 2 | _ => None end.

Definition loaded : system :=
  let '(_, g, _) := gpio_uart_init 17 27 9600 calm zero_gu [] in
  Sys g true (NSEC_PER_SEC / 9600) 0 [].

Lemma loaded_initial : initial loaded.
Proof.
  exists calm, 17, 27, 9600, zero_gu.
  eexists _, _. split; [lia|]. split; [vm_compute; reflexivity|vm_compute; reflexivity].
Qed.

(** What a list of actions makes of a system, on a line at a level each. *)
Definition act (x : action) (level : Z) (y : system) : system :=
  match x with
  | Passes d => Sys (drv y) (armed y) (expiry y) (clock y + d) (given y)
  | Expires => let '(r, g, t) := rx_timer_cb (line_at level) (drv y) [] in expired y r g t
  | Opens => let '(_, g, _) := gu_tty_open (line_at level) (drv y) [] in with_drv g y
  | Writes buf => let '(_, g, _) := gu_tty_write buf (line_at level) (drv y) [] in with_drv g y
  | Sets x => let '(_, g, _) := apply_setting one_digit x (line_at level) (drv y) [] in with_drv g y
  end.

(** An action that can happen. *)
Definition can (x : action) (y : system) : bool :=
  match x with
  | Passes d => 0 <=? d
  | Expires => armed y && (expiry y <=? clock y)
  | Opens => true
  | Writes buf => forallb (fun b => (0 <=? b) && (b <? 256)) buf
  | Sets x => match fst (fst (apply_setting one_digit x (line_at 0) (drv y) [])) with
              | Some _ => true | None => false end
  end.

Lemma act_step x level y :
  can x y = true -> (match x with Sets _ => level = 0 | _ => True end) ->
  step one_digit x y (act x level y).
Proof.
  intros Hc Hl. destruct x as [d| | |buf|x]; cbn in Hc |- *.
  - apply step_time. lia.
  - destruct (rx_timer_cb _ _ _) as [[r g] t] eqn:Hrun. eapply step_expires; [|exact Hrun].
    apply andb_true_iff in Hc as [? ?%Z.leb_le]. done.
  - destruct (gu_tty_open _ _ _) as [[r g] t] eqn:Hrun. by eapply step_opens.
  - destruct (gu_tty_write _ _ _ _) as [[r g] t] eqn:Hrun. eapply step_writes; [|exact Hrun].
    apply Forall_forall. intros b Hb. rewrite forallb_forall in Hc.
    apply list_elem_of_In, Hc, andb_true_iff in Hb as [?%Z.leb_le ?%Z.ltb_lt]. done.
  - subst level. destruct (apply_setting _ _ _ _ _) as [[[r|] g] t] eqn:Hrun; [|done].
    eapply step_sets; [|exact Hrun]. by intros t0.
Qed.

Fixpoint acts (l : list (action * Z)) (y : system) : system :=
  match l with [] => y | (x, level) :: l' => acts l' (act x level y) end.
Fixpoint can_all (l : list (action * Z)) (y : system) : bool :=
  match l with
  | [] => true
  | (x, level) :: l' =>
      can x y && (match x with Sets _ => level =? 0 | _ => true end) && can_all l' (act x level y)
  end.

Lemma acts_steps l y : can_all l y = true -> steps one_digit (map fst l) y (acts l y).
Proof.
  revert y. induction l as [|[x level] l IH]; intros y Hc; cbn in *; [by constructor|].
  apply andb_true_iff in Hc as [[Hx Hl]%andb_true_iff Hc]. econstructor; [|by apply IH].
  apply act_step; [done|]. destruct x; try done. by apply Z.eqb_eq.
Qed.

Lemma loaded_reachable l : can_all l loaded = true -> reachable one_digit (acts l loaded).
Proof. intros Hc. exists loaded, (map fst l). split; [apply loaded_initial|by apply acts_steps]. Qed.

(** A start bit has been seen. *)
Definition started : list (action * Z) := [(Passes 104166, 1); (Expires, 0)].


(** Disabled, found out by the timer, enabled again. *)
Definition off_on : list (action * Z) := [(Sets (RxEnable "0" 1), 0); (Passes 104166, 1)].
Definition later : list (action * Z) := [(Sets (RxEnable "1" 1), 0); (Passes 1000000, 1)].

Lemma rx_disable_is_final_witness :
  let y := acts off_on loaded in let y2 := acts later (act Expires 1 y) in
  rx_enable (cfg (drv y2)) = true /\
  (armed y2 = false /\ given y2 = given y /\ same_rx (drv y) (drv y2)).
Proof.
  intros y y2. split; [vm_compute; reflexivity|].
  apply (rx_disable_is_final one_digit (map fst later) y (act Expires 1 y) y2).
  - apply loaded_reachable. vm_compute. reflexivity.
  - vm_compute. reflexivity.
  - apply act_step; [vm_compute; reflexivity|done].
  - apply acts_steps. vm_compute. reflexivity.
Defined.

Lemma idle_callback_stays_due_witness :
  let y := acts [(Passes 104166, 1)] loaded in
  (forall r g t, rx_timer_cb (line_at 1) (drv y) [] = (r, g, t) -> expired y r g t = y) /\
  steps one_digit (replicate 1000 Expires) y y.
Proof.
  intros y. apply (idle_callback_stays_due one_digit (line_at 1) 1);
    [by split; vm_compute|vm_compute; reflexivity|vm_compute; reflexivity|done|].
  vm_compute. discriminate.
Defined.

(** The data bits of a byte and its stop bit, sampled in time. *)
Definition rest_of_byte (levels : list Z) : list (action * Z) :=
  flat_map (fun v => [(Passes 104166, v); (Expires, v)]) levels.

Lemma ten_callbacks_a_byte_witness :
  let l := rest_of_byte [1; 0; 1; 0; 0; 1; 1; 0; 1] in
  let y := acts started loaded in let y' := acts l y in
  progress (drv y) = 1 /\
  10 * (Z.of_nat (length (given y')) - Z.of_nat (length (given y))) + progress (drv y') <=
    progress (drv y) + callbacks (map fst l).
Proof.
  intros l y y'. split; [vm_compute; reflexivity|].
  apply (ten_callbacks_a_byte one_digit (map fst l) y y').
  - apply loaded_reachable. vm_compute. reflexivity.
  - apply acts_steps. vm_compute. reflexivity.
Defined.

Lemma byte_ends_witness :
  let l := rest_of_byte [1; 0; 1; 0; 0; 1; 1; 0; 1; 1] in
  let y := acts started loaded in
  exists l1 l2 y1, map fst l = l1 ++ l2 /\ steps one_digit l1 y y1 /\
    steps one_digit l2 y1 (acts l y) /\
    callbacks l1 <= 9 - rx_bitpos (drv y) <= 10 /\
    (rx_busy (drv y1) = false \/ armed y1 = false).
Proof.
  intros l y. apply (byte_ends one_digit (map fst l) y).
  - apply loaded_reachable. vm_compute. reflexivity.
  - split; vm_compute; reflexivity.
  - apply acts_steps. vm_compute. reflexivity.
  - vm_compute. discriminate.
Defined.
