(* ===== verification/GpioUartTtyGpiod.v ===== *)
(** * The descriptor based GPIO UART terminal

    [soft_uart/gpt/gpio_uart_tty_gpiod.c]: a variant of [gpio_uart_tty.c] that
    embeds the transmit ring of [tx_ring.c] in its record.  The ring operations are
    those of [TxRing], run on that field.  A function in which the code would
    dereference a null pointer or divide by zero gives [None] there. *)
From S2P Require Import Prelude.
From S2P Require Import Kernel.
From S2P Require Import Wire.
From S2P Require Import TxRing.
From S2P Require Import GpioUartTty.
From stdpp Require Import options.

Record gu_cfg := GuCfg {
  baud : Z;
  parity_mode : Z;
  stopbits : Z;
  tx_enable : bool;
  rx_enable : bool;
}.

Record gu_stats := GuStats {
  tx_bytes : Z;
  rx_bytes : Z;
  framing_errors : Z;
  rx_errors : Z;
}.

Record gpio_uart := GpioUart {
  tx : Z;
  rx : Z;
  rx_irq : Z;
  cfg : gu_cfg;
  st : gu_stats;
  bit_period : Z;
  rx_busy : bool;
  rx_byte : Z;
  rx_bitpos : Z;
  tty_drv : Z;
  proc : Z;
  kobj : Z;
  ring : TxRing.tx_ring;
}.

Definition upd_cfg (f : gu_cfg -> gu_cfg) (g : gpio_uart) : gpio_uart :=
  GpioUart (tx g) (rx g) (rx_irq g) (f (cfg g)) (st g) (bit_period g) (rx_busy g) (rx_byte g)
    (rx_bitpos g) (tty_drv g) (proc g) (kobj g) (ring g).
Definition upd_st (f : gu_stats -> gu_stats) (g : gpio_uart) : gpio_uart :=
  GpioUart (tx g) (rx g) (rx_irq g) (cfg g) (f (st g)) (bit_period g) (rx_busy g) (rx_byte g)
    (rx_bitpos g) (tty_drv g) (proc g) (kobj g) (ring g).
Definition set_bit_period (p : Z) (g : gpio_uart) : gpio_uart :=
  GpioUart (tx g) (rx g) (rx_irq g) (cfg g) (st g) p (rx_busy g) (rx_byte g)
    (rx_bitpos g) (tty_drv g) (proc g) (kobj g) (ring g).
Definition set_rx (busy : bool) (byte pos : Z) (g : gpio_uart) : gpio_uart :=
  GpioUart (tx g) (rx g) (rx_irq g) (cfg g) (st g) (bit_period g) busy byte pos
    (tty_drv g) (proc g) (kobj g) (ring g).
Definition set_handles (d p k : Z) (g : gpio_uart) : gpio_uart :=
  GpioUart (tx g) (rx g) (rx_irq g) (cfg g) (st g) (bit_period g) (rx_busy g) (rx_byte g)
    (rx_bitpos g) d p k (ring g).
Definition set_ring (r : TxRing.tx_ring) (g : gpio_uart) : gpio_uart :=
  GpioUart (tx g) (rx g) (rx_irq g) (cfg g) (st g) (bit_period g) (rx_busy g) (rx_byte g)
    (rx_bitpos g) (tty_drv g) (proc g) (kobj g) r.

Definition set_baud (v : Z) (c : gu_cfg) : gu_cfg :=
  GuCfg v (parity_mode c) (stopbits c) (tx_enable c) (rx_enable c).
Definition set_line (parity stop : Z) (c : gu_cfg) : gu_cfg :=
  GuCfg (baud c) parity stop (tx_enable c) (rx_enable c).

Definition count_tx (s : gu_stats) : gu_stats :=
  GuStats (u64 (tx_bytes s + 1)) (rx_bytes s) (framing_errors s) (rx_errors s).
Definition count_rx (s : gu_stats) : gu_stats :=
  GuStats (tx_bytes s) (u64 (rx_bytes s + 1)) (framing_errors s) (rx_errors s).
Definition count_framing (s : gu_stats) : gu_stats :=
  GuStats (tx_bytes s) (rx_bytes s) (u64 (framing_errors s + 1)) (rx_errors s).

(** ** The code *)
Abbreviation prog := (M gpio_uart).

Definition get_rx_level : prog Z :=
  d ← gets rx;
  ask (gpiod_get_value d).

Definition set_tx_level (v : Z) : prog unit :=
  d ← gets tx;
  do_ (gpiod_set_value_cansleep d v).

Definition tx_ring_init : prog unit := zoom ring set_ring TxRing.tx_ring_init.
Definition tx_ring_put (byte : Z) : prog bool := zoom ring set_ring (TxRing.tx_ring_put byte).
Definition tx_ring_get : prog (bool * option Z) := zoom ring set_ring TxRing.tx_ring_get.

Definition uart_tx_byte (b : Z) : prog unit :=
  c ← gets cfg;
  if negb (tx_enable c) || (baud c =? 0) then mret tt
  else
    let bit_us := 1000000 / baud c in
    set_tx_level 0;;
    do_ (udelay bit_us);;
    for_each (fun i => set_tx_level (Z.land (Z.shiftr b (Z.of_nat i)) 1);; do_ (udelay bit_us))
      (seq 0 8);;
    when (c_true (parity_mode c))
      (let pop := Z.land (popcount b) 1 in
       let pbit := if parity_mode c =? 2 then (if c_true pop then 1 else 0)
                   else (if c_true pop then 0 else 1) in
       set_tx_level pbit;;
       do_ (udelay bit_us));;
    for_each (fun _ => set_tx_level 1;; do_ (udelay bit_us)) (seq 0 (Z.to_nat (stopbits c)));;
    modify (upd_st count_tx).

Definition rx_timer_cb : prog hrtimer_restart :=
  do_ (spin_lock_irqsave "rx_lock");;
  g ← gets (fun g => g);
  if negb (rx_enable (cfg g)) then
    do_ (spin_unlock_irqrestore "rx_lock");;
    mret HRTIMER_RESTART
  else if negb (rx_busy g) then
    v ← get_rx_level;
    if v =? 0 then
      modify (set_rx true 0 (-1));;
      do_ (hrtimer_forward_now "rx_timer" (half (bit_period g)));;
      do_ (spin_unlock_irqrestore "rx_lock");;
      mret HRTIMER_RESTART
    else
      do_ (spin_unlock_irqrestore "rx_lock");;
      do_ (hrtimer_forward_now "rx_timer" (bit_period g));;
      mret HRTIMER_RESTART
  else
    let pos := i32 (rx_bitpos g + 1) in
    modify (set_rx true (rx_byte g) pos);;
    if (0 <=? pos) && (pos <? 8) then
      v ← get_rx_level;
      modify (set_rx true (u8 (Z.lor (rx_byte g) (Z.shiftl v pos))) pos);;
      do_ (hrtimer_forward_now "rx_timer" (bit_period g));;
      do_ (spin_unlock_irqrestore "rx_lock");;
      mret HRTIMER_RESTART
    else if 8 + (if c_true (parity_mode (cfg g)) then 1 else 0) <=? pos then
      v ← get_rx_level;
      (if negb (v =? 1) then modify (upd_st count_framing)
       else
         i ← ask tty_port_initialized;
         when (c_true i)
           (do_ (tty_insert_flip_char (rx_byte g));;
            do_ tty_flip_buffer_push;;
            modify (upd_st count_rx)));;
      modify (set_rx false (rx_byte g) pos);;
      do_ (spin_unlock_irqrestore "rx_lock");;
      mret HRTIMER_RESTART
    else
      modify (set_rx false (rx_byte g) pos);;
      do_ (spin_unlock_irqrestore "rx_lock");;
      mret HRTIMER_RESTART.

Definition gu_tty_open : prog Z :=
  ret ← ask tty_port_open;
  if c_true ret then mret ret else mret 0.

Definition gu_tty_close : prog unit := do_ tty_port_close.

Definition gu_tty_write (buf : list Z) : prog Z :=
  for_each (fun b => _ ← tx_ring_put b; mret tt) buf;;
  mret (Z.of_nat (length buf)).

Definition gu_tty_write_room : Z := 4096.

Definition gu_set_termios (parenb parodd cstopb : bool) : prog unit :=
  baud_new ← ask tty_get_baud_rate;
  old ← gets (fun g => baud (cfg g));
  let baud_new := if baud_new =? 0 then old else baud_new in
  modify (upd_cfg (set_baud baud_new));;
  modify (upd_cfg (set_line (if parenb then (if parodd then 1 else 2) else 0)
                            (if cstopb then 2 else 1)));;
  when (c_true baud_new) (modify (set_bit_period (NSEC_PER_SEC / baud_new))).

Definition proc_show : prog (list Z) :=
  g ← gets (fun g => g);
  mret [tx_bytes (st g); rx_bytes (st g); framing_errors (st g);
        baud (cfg g); parity_mode (cfg g); stopbits (cfg g)].

Definition baud_show : prog Z := gets (fun g => baud (cfg g)).

Definition baud_store (kstrtoul : string -> option Z) (buf : string) (count : Z) :
    prog (option Z) :=
  match kstrtoul buf with
  | None => mret (Some (- EINVAL))
  | Some v =>
      old ← gets (fun g => baud (cfg g));
      let b := if c_true v then u32 v else old in
      modify (upd_cfg (set_baud b));;
      if b =? 0 then mret None
      else
        modify (set_bit_period (NSEC_PER_SEC / b));;
        mret (Some count)
  end.

Definition zero_gu : gpio_uart :=
  GpioUart 0 0 0 (GuCfg 0 0 0 false false) (GuStats 0 0 0 0) 0 false 0 0 0 0 0
    (TxRing.TxRing (replicate 512 0) 0 0).

Definition gpio_uart_init (default_baud : Z) : prog (option Z) :=
  p ← ask (kzalloc "gpio_uart");
  if p =? 0 then mret (Some (- ENOMEM))
  else
    modify (fun _ => zero_gu);;
    modify (upd_cfg (fun _ => GuCfg default_baud 0 1 true true));;
    if default_baud =? 0 then mret None
    else
      modify (set_bit_period (NSEC_PER_SEC / default_baud));;
      tx_ring_init;;
      do_ (hrtimer_init "rx_timer");;
      do_ (hrtimer_start "rx_timer" (NSEC_PER_SEC / default_baud));;
      drv ← ask alloc_tty_driver;
      modify (set_handles drv 0 0);;
      if drv =? 0 then mret None
      else
        ret ← ask (tty_register_driver drv);
        if c_true ret then mret (Some ret)
        else
          do_ tty_port_init;;
          dev ← ask (tty_register_device drv);
          if IS_ERR dev then mret (Some (PTR_ERR dev))
          else
            pr ← ask (proc_create "gpio_uart");
            k ← ask (kobject_create_and_add "gpio_uart");
            modify (set_handles drv pr k);;
            when (c_true k) (do_ (sysfs_create_group k));;
            mret (Some 0).

Definition gpio_uart_exit (p : Z) : prog unit :=
  g ← gets (fun g => g);
  when (c_true (kobj g))
    (do_ (sysfs_remove_group (kobj g));;
     do_ (kobject_put (kobj g)));;
  when (c_true (proc g)) (do_ (proc_remove (proc g)));;
  do_ (hrtimer_cancel "rx_timer");;
  do_ (tty_unregister_device (tty_drv g));;
  do_ (tty_unregister_driver (tty_drv g));;
  do_ (put_tty_driver (tty_drv g));;
  do_ tty_port_destroy;;
  do_ (kfree p).

(** ** Properties *)

(** The queue of the bytes written. *)
Definition queued (g : gpio_uart) : list Z := contents (ring g).

Lemma wp_tx_ring_put (e : env gpio_uart) b (Q : bool -> gpio_uart -> trace -> Prop) g t :
  wf (ring g) ->
  (forall r t', wf r -> contents r = snd (queue_put b (queued g)) -> locked t t' ->
     Q (fst (queue_put b (queued g))) (set_ring r g) t') ->
  wp e (tx_ring_put b) Q g t.
Proof.
  intros Hwf HQ. apply wp_zoom. intros e'. eapply wp_mono; [by apply TxRing.put_refines|].
  intros ok r t' (Hr & Hq & Hl). unfold queued in HQ. rewrite <- Hq in HQ. by apply HQ.
Qed.

(** A write reports all its bytes as written, but only as many as the ring has
    room for are queued; the others are dropped, nothing is sent, no counter
    changes and no pin is driven. *)
Theorem gu_tty_write_queues (e : env gpio_uart) buf g t :
  wf (ring g) ->
  wp e (gu_tty_write buf) (fun r g' t' =>
    r = Z.of_nat (length buf) /\ wf (ring g') /\
    queued g' = queued g ++ take (queue_capacity - length (queued g)) buf /\
    g' = set_ring (ring g') g /\ driven (tx g) t' = driven (tx g) t) g t.
Proof.
  intros Hwf. unfold gu_tty_write. apply wp_bind.
  assert (wp e (for_each (fun b => tx_ring_put b ≫= fun _ => mret tt) buf) (fun _ g' t' =>
    wf (ring g') /\
    queued g' = queued g ++ take (queue_capacity - length (queued g)) buf /\
    g' = set_ring (ring g') g /\ driven (tx g) t' = driven (tx g) t) g t) as H.
  { revert g t Hwf. induction buf as [|b buf IH]; intros g t Hwf; cbn [for_each].
    - apply wp_ret. rewrite take_nil, app_nil_r. by destruct g.
    - apply wp_bind, wp_bind, wp_tx_ring_put; [done|]. intros r t' Hr Hc (r1 & r2 & ->).
      apply wp_ret. eapply wp_mono; [by apply IH|].
      intros _ g' t'' (Hwf' & Hq & Hg & Hd). split; [done|].
      split; [|split; [exact Hg|exact Hd]].
      rewrite Hq. change (queued (set_ring r g)) with (contents r). rewrite Hc.
      unfold queue_put. destruct (Nat.ltb_spec (length (queued g)) queue_capacity) as [Hlt|Hge]; simpl.
      + rewrite length_app. cbn [length].
        replace (queue_capacity - length (queued g))%nat
          with (S (queue_capacity - (length (queued g) + 1)))%nat by lia.
        cbn [take]. by rewrite <- app_assoc.
      + by replace (queue_capacity - length (queued g))%nat with 0%nat by lia. }
  eapply wp_mono; [exact H|]. intros [] g' t' Hg. by apply wp_ret.
Qed.

(** The receiver is between two frames, or in one before its ninth bit. *)
Definition before_parity (g : gpio_uart) : Prop :=
  rx_busy g = true -> -1 <= rx_bitpos g <= 7.

Lemma rx_with_parity (e : env gpio_uart) g t :
  c_true (parity_mode (cfg g)) = true -> before_parity g ->
  wp e rx_timer_cb (fun _ g' t' =>
    cfg g' = cfg g /\ st g' = st g /\ before_parity g' /\ inserted t' = inserted t) g t.
Proof.
  intros Hp Hb. unfold rx_timer_cb, get_rx_level.
  assert (rx_busy g = true -> i32 (rx_bitpos g + 1) = rx_bitpos g + 1) as Hi
    by (intros H; specialize (Hb H); apply wraps_small; lia).
  apply wp_bind, wp_do; intros ?. apply wp_bind, wp_gets. rewrite Hp. unfold before_parity in *.
  destruct (rx_busy g) eqn:Hbusy; [rewrite Hi by done; specialize (Hb eq_refl)|];
    wp_run; norm_tests; path_facts; cbn; rewrite ?Hbusy; split_and!; try done; lia.
Qed.

(** With parity enabled this receiver never delivers a byte and never counts
    one, whatever is on the line: it expects the stop bit at the tenth sample but
    gives up at the ninth. *)
Theorem rx_parity_never_delivers (e : env gpio_uart) levels g t :
  c_true (parity_mode (cfg g)) = true -> before_parity g ->
  wp e (run_levels rx_timer_cb levels) (fun _ g' t' =>
    inserted t' = inserted t /\ st g' = st g) g t.
Proof.
  intros Hp Hb. revert g t Hp Hb. induction levels as [|v levels IH]; intros g t Hp Hb;
    cbn [run_levels]; [by apply wp_ret|].
  apply wp_bind, wp_at_level. eapply wp_mono; [by apply rx_with_parity|].
  intros r g1 t1 (Hc & Hst & Hb1 & Hin). apply wp_bind.
  eapply wp_mono; [apply IH; [by rewrite Hc|done]|]. intros rs g2 t2 (Hin2 & Hst2).
  apply wp_ret. by rewrite Hin2, Hst2.
Qed.

(** ** Loading *)
Definition loaded_resources (p : Z) (group : bool) (g : gpio_uart) : list resource :=
  (if group then [R_group (kobj g)] else []) ++
  (if c_true (kobj g) then [R_kobj (kobj g)] else []) ++
  (if c_true (proc g) then [R_proc (proc g)] else []) ++
  [R_tty_device (tty_drv g); R_tty_port; R_tty_registered (tty_drv g);
   R_tty_driver (tty_drv g); R_timer "rx_timer"; R_mem p].

(** Loading divides by zero exactly when the memory is there and the rate is 0,
    and dereferences a null pointer exactly when the driver cannot be allocated;
    when it succeeds everything a loaded module needs is held, and when the
    terminal layer refuses the driver or the device, nothing is given back: the
    timer stays armed on a record that is still allocated. *)
Theorem gpio_uart_init_outcome (e : env gpio_uart) g default_baud :
  wp e (gpio_uart_init default_baud) (fun r g' t' =>
    match r with
    | None => default_baud = 0 \/ tty_drv g' = 0
    | Some ret =>
        (ret = 0 -> default_baud <> 0 /\
           exists p group, ledger t' = Some (loaded_resources p group g')) /\
        (ret <> 0 -> ledger t' = Some [] /\ ret = - ENOMEM \/
           exists p K, (K = [] \/ K = [R_tty_port; R_tty_registered (tty_drv g')]) /\
             ledger t' = Some (K ++ [R_tty_driver (tty_drv g'); R_timer "rx_timer"; R_mem p]))
    end) g [].
Proof.
  unfold gpio_uart_init, tx_ring_init, TxRing.tx_ring_init.
  repeat (first [apply wp_zoom; intros ? | wp_step]; cbn beta zeta).
  all: norm_tests; unfold loaded_resources, c_true; cbn [tty_drv kobj proc set_handles].
  all: try (path_facts; auto; fail).
  all: split; intros; try path_contra.
  all: try (split; [by path_facts|]); ledger_eval; split_results; try (by left);
    try lazymatch goal with |- _ \/ _ => right end.
  all: repeat match goal with |- exists _ : Z, _ => eexists end.
  all: first [by exists true|by exists false|exists []; by split; [left|]
             |eexists [_; _]; by split; [right|]].
Qed.

(** ** Concrete runs *)
Definition parity_gu : gpio_uart :=
  GpioUart 5 6 0 (GuCfg 9600 2 1 true true) (GuStats 0 0 0 0) 104166 false 0 0 7 8 9
    (TxRing.TxRing (replicate 512 0) 0 0).

Lemma gu_tty_write_queues_witness :
  wp calm (gu_tty_write [72; 105]) (fun r g' t' =>
    r = 2 /\ queued g' = [72; 105] /\ driven 5 t' = []) parity_gu [].
Proof.
  assert (wf (ring parity_gu)) as Hwf by (unfold wf, TX_BUF_SIZE; cbn; repeat split; lia).
  eapply wp_mono; [apply (gu_tty_write_queues calm [72; 105] parity_gu [] Hwf)|].
  intros r g' t' (-> & _ & Hq & _ & Hd). split; [reflexivity|]. split; [exact Hq|exact Hd].
Defined.

Lemma rx_parity_never_delivers_witness :
  wp calm (run_levels rx_timer_cb [0; 1; 0; 0; 0; 0; 0; 1; 0; 0; 1; 1]) (fun _ g' t' =>
    inserted t' = [] /\ st g' = GuStats 0 0 0 0) parity_gu [].
Proof.
  apply (rx_parity_never_delivers calm _ parity_gu []); [reflexivity|].
  intros H. discriminate H.
Defined.

Lemma gpio_uart_init_outcome_witness :
  wp calm (gpio_uart_init 9600) (fun r g' t' =>
    r = Some 0 /\ exists p group, ledger t' = Some (loaded_resources p group g')) zero_gu [].
Proof.
  assert (wp calm (gpio_uart_init 9600) (fun r _ _ => r = Some 0) zero_gu []) as H0
    by (vm_compute; reflexivity).
  eapply wp_mono; [apply (wp_conj _ _ _ _ _ _ H0 (gpio_uart_init_outcome calm zero_gu 9600))|].
  intros r g' t' (-> & Hok & _). split; [reflexivity|]. apply Hok. reflexivity.
Defined.
