(* ===== verification/SpiRing.v ===== *)
(** * The packet ring of the SPI slave

    The ring macros and [rxring_get_free_idx] of [slave-spi-driver/spi-slave-main.c],
    and [paketizer], which cuts the received dwords into packets.  The ring does
    not hold packets but the numbers of packet buffers; the array behind it has a
    second half with one flag per buffer that is in the ring.  An access outside
    of the array gives [None].

    [CIRC_CNT] and [CIRC_SPACE] belong to the kernel ([linux/circ_buf.h]). *)
From S2P Require Import Prelude.
From S2P Require Import Circ.
From stdpp Require Import options.

Class CircMacros := {
  CIRC_CNT : Z -> Z -> Z -> Z;
  CIRC_SPACE : Z -> Z -> Z -> Z;
}.
Class CircMacrosSpec `{CircMacros} := {
  CIRC_CNT_spec h t k : 0 <= k -> 0 <= h < 2 ^ k -> 0 <= t < 2 ^ k ->
    CIRC_CNT h t (2 ^ k) = circ_count (2 ^ k) h t;
  CIRC_SPACE_spec h t k : 0 <= k -> 0 <= h < 2 ^ k -> 0 <= t < 2 ^ k ->
    CIRC_SPACE h t (2 ^ k) = 2 ^ k - 1 - circ_count (2 ^ k) h t;
}.

Definition RX_RING_PACKETS : Z := 16384.

Record circ_buf := CircBuf { buf : list Z; head : Z; tail : Z }.

(** ** The macros *)
Section macros.
Context `{CircMacros}.

Definition RXRING_USED (c : circ_buf) : Z := CIRC_CNT (head c) (tail c) RX_RING_PACKETS.
Definition RXRING_VACANT (c : circ_buf) : Z := CIRC_SPACE (head c) (tail c) RX_RING_PACKETS.
End macros.

Definition RXRING_ADVANCE (i : Z) : Z := Z.land (i + 1) (RX_RING_PACKETS - 1).
Definition RXRING_IDX (c : circ_buf) (i : Z) : option Z := zget (buf c) i.
Definition RXRING_FLAG (c : circ_buf) (i : Z) : option Z := zget (buf c) (i + RX_RING_PACKETS).

Definition RXRING_REMOVE (c : circ_buf) : option circ_buf :=
  i ← RXRING_IDX c (tail c);
  b ← zset (i + RX_RING_PACKETS) 0 (buf c);
  b ← zset (tail c) (-1) b;
  Some (CircBuf b (head c) (RXRING_ADVANCE (tail c))).

Definition RXRING_INSERT (c : circ_buf) (idx : Z) : option circ_buf :=
  b ← zset (head c) idx (buf c);
  i ← zget b (head c);
  b ← zset (i + RX_RING_PACKETS) 1 b;
  Some (CircBuf b (RXRING_ADVANCE (head c)) (tail c)).

Definition RXRING_CLEAR (c : circ_buf) : circ_buf :=
  CircBuf (replicate (Z.to_nat (2 * RX_RING_PACKETS)) 0) 0 0.

(** The loop of [rxring_get_free_idx] from the index [i]. *)
Fixpoint free_from (fuel : nat) (c : circ_buf) (i : Z) : Z :=
  match fuel with
  | O => i
  | S fuel' =>
      if (i <? RX_RING_PACKETS) && c_true (default 0 (RXRING_FLAG c i))
      then free_from fuel' c (i + 1) else i
  end.
Definition rxring_get_free_idx (c : circ_buf) : Z :=
  let i := free_from (Z.to_nat RX_RING_PACKETS) c 0 in
  if i <? RX_RING_PACKETS then i else -1.

(** ** Cutting the stream into packets *)
Definition PACKET_SIZE : Z := 188.
Definition PACKET_SIZE_DWORD : Z := PACKET_SIZE / 4.

(** The packet buffer is the function from the number of a dword to the dword; the
    results are the return value, the buffer and the new [*pcnt]. *)
Definition paketizer (val : Z) (packet : Z -> Z) (pcnt : Z) : Z * (Z -> Z) * Z :=
  let cnt := pcnt in
  let packet := fun i => if i =? cnt then val else packet i in
  let cnt := u32 (cnt + 1) in
  if cnt =? 1 then
    if negb (Z.land (Z.shiftr val 24) 255 =? 71) then (-3, packet, 0)
    else (0, packet, cnt)
  else if cnt =? PACKET_SIZE_DWORD then (1, packet, 0)
  else (0, packet, cnt).

(** ** The invariant of the ring *)
Definition ring_queue (c : circ_buf) : list Z :=
  circ_contents RX_RING_PACKETS (buf c) (head c) (tail c).

Record ring_inv (c : circ_buf) : Prop := {
  ri_len : Z.of_nat (length (buf c)) = 2 * RX_RING_PACKETS;
  ri_head : 0 <= head c < RX_RING_PACKETS;
  ri_tail : 0 <= tail c < RX_RING_PACKETS;
  ri_range : Forall (fun i => 0 <= i < RX_RING_PACKETS) (ring_queue c);
  ri_nodup : NoDup (ring_queue c);
  ri_flags : forall i, 0 <= i < RX_RING_PACKETS ->
    RXRING_FLAG c i = Some (if bool_decide (i ∈ ring_queue c) then 1 else 0);
}.

Lemma ring_size : RX_RING_PACKETS = 2 ^ 14. Proof. done. Qed.
Lemma ring_size_gt1 : 1 < RX_RING_PACKETS. Proof. done. Qed.
#[local] Hint Resolve ring_size_gt1 : core.

Lemma advance_spec i : RXRING_ADVANCE i = (i + 1) mod RX_RING_PACKETS.
Proof. unfold RXRING_ADVANCE. rewrite ring_size. apply (Z.land_ones (i + 1) 14). lia. Qed.

Lemma ring_queue_length c : Z.of_nat (length (ring_queue c)) =
  circ_count RX_RING_PACKETS (head c) (tail c).
Proof. by apply circ_contents_length. Qed.

Lemma ring_used `{CircMacrosSpec} c : ring_inv c ->
  RXRING_USED c = Z.of_nat (length (ring_queue c)) /\
  RXRING_VACANT c = RX_RING_PACKETS - 1 - Z.of_nat (length (ring_queue c)).
Proof.
  intros []. rewrite ring_queue_length. unfold RXRING_USED, RXRING_VACANT. rewrite ring_size in *.
  by rewrite CIRC_CNT_spec, CIRC_SPACE_spec.
Qed.

(** Writing a flag does not change the queue. *)
Lemma queue_set_flag c i x : ring_inv c -> 0 <= i ->
  circ_contents RX_RING_PACKETS (<[Z.to_nat (i + RX_RING_PACKETS) := x]> (buf c))
    (head c) (tail c) = ring_queue c.
Proof.
  intros [] Hi. apply circ_contents_insert_other; auto; try lia.
  intros [Hj _]%circ_slots_elem; auto; lia.
Qed.

Lemma zget_insert_eq {A} (l : list A) i x : 0 <= i < Z.of_nat (length l) ->
  zget (<[Z.to_nat i := x]> l) i = Some x.
Proof. intros. rewrite zget_lookup by lia. apply list_lookup_insert_eq. lia. Qed.

Lemma zget_insert_ne {A} (l : list A) i j x : 0 <= i -> i <> j ->
  zget (<[Z.to_nat i := x]> l) j = zget l j.
Proof.
  intros. unfold zget. destruct (Z.leb_spec 0 j); [|done].
  apply list_lookup_insert_ne. lia.
Qed.

(** The oldest buffer is the one at the tail. *)
Lemma remove_idx c x q : ring_inv c -> ring_queue c = x :: q ->
  RXRING_IDX c (tail c) = Some x /\ 0 <= x < RX_RING_PACKETS.
Proof.
  intros Hinv Hq. pose proof Hinv as [].
  assert (0 < circ_count RX_RING_PACKETS (head c) (tail c)) as Hcnt
    by (rewrite <- ring_queue_length, Hq; cbn [length]; lia).
  pose proof Hq as Hpop. unfold ring_queue in Hpop.
  rewrite circ_contents_pop in Hpop by auto. injection Hpop as Hx Hrest. split.
  - unfold RXRING_IDX. rewrite zget_lookup by lia.
    destruct (lookup_lt_is_Some_2 (buf c) (Z.to_nat (tail c))) as [y Hy]; [lia|].
    rewrite nth_lookup, Hy in Hx. simpl in Hx. by subst.
  - rewrite Hq in ri_range0. by apply Forall_cons in ri_range0 as [? _].
Qed.

Lemma remove_spec c x q : ring_inv c -> ring_queue c = x :: q ->
  exists c', RXRING_REMOVE c = Some c' /\ ring_inv c' /\ ring_queue c' = q.
Proof.
  intros Hinv Hq. pose proof Hinv as [].
  assert (0 < circ_count RX_RING_PACKETS (head c) (tail c)) as Hcnt
    by (rewrite <- ring_queue_length, Hq; cbn [length]; lia).
  pose proof Hq as Hpop. unfold ring_queue in Hpop.
  rewrite circ_contents_pop in Hpop by auto. injection Hpop as Hx Hrest.
  destruct (remove_idx c x q Hinv Hq) as [Hidx Hxr].
  unfold RXRING_REMOVE. rewrite Hidx. cbn [mbind option_bind].
  rewrite zset_Some by lia. cbn. rewrite zset_Some by (rewrite length_insert; lia). cbn.
  eexists. split; [done|].
  set (b := <[Z.to_nat (tail c) := -1]> (<[Z.to_nat (x + RX_RING_PACKETS) := 0]> (buf c))).
  assert (0 <= RXRING_ADVANCE (tail c) < RX_RING_PACKETS) as Hadv
    by (rewrite advance_spec; by apply circ_succ_range).
  assert (circ_contents RX_RING_PACKETS b (head c) (RXRING_ADVANCE (tail c)) = q) as Hqueue.
  { subst b. rewrite circ_contents_insert_other; auto; [|lia|].
    - rewrite <- Hrest, advance_spec. apply circ_contents_insert_other; auto; try lia;
        [|by apply circ_succ_range].
      intros [Hj _]%circ_slots_elem; auto; [lia|by apply circ_succ_range].
    - pose proof (circ_slots_NoDup RX_RING_PACKETS ring_size_gt1 (head c) (tail c)) as Hnd.
      rewrite circ_slots_pop, <- advance_spec in Hnd by auto.
      apply NoDup_cons in Hnd as [Hnd _]. by rewrite <- list_elem_of_In. }
  rewrite Hq in *. apply NoDup_cons in ri_nodup0 as [Hxq Hnd].
  apply Forall_cons in ri_range0 as [_ Hrange].
  split; [|exact Hqueue].
  constructor; cbn [head tail buf]; auto; try (unfold ring_queue; cbn; by rewrite Hqueue).
  - subst b. by rewrite !length_insert.
  - intros i Hi. unfold ring_queue, RXRING_FLAG; cbn [head tail buf]. rewrite Hqueue. subst b.
    rewrite zget_insert_ne by lia. destruct (decide (i = x)) as [->|Hne].
    + rewrite zget_insert_eq by lia. by rewrite bool_decide_eq_false_2.
    + rewrite zget_insert_ne by lia. fold (RXRING_FLAG c i). rewrite ri_flags0 by lia.
      rewrite (bool_decide_ext (i ∈ x :: q) (i ∈ q)) by (rewrite elem_of_cons; naive_solver).
      done.
Qed.

Lemma insert_spec c idx : ring_inv c ->
  Z.of_nat (length (ring_queue c)) < RX_RING_PACKETS - 1 ->
  0 <= idx < RX_RING_PACKETS -> idx ∉ ring_queue c ->
  exists c', RXRING_INSERT c idx = Some c' /\ ring_inv c' /\ ring_queue c' = ring_queue c ++ [idx].
Proof.
  intros Hinv Hlen Hidx Hni. pose proof Hinv as [].
  unfold RXRING_INSERT. rewrite zset_Some by lia. cbn [mbind option_bind].
  rewrite zget_insert_eq by lia. cbn. rewrite zset_Some by (rewrite length_insert; lia). cbn.
  eexists. split; [done|].
  set (b := <[Z.to_nat (idx + RX_RING_PACKETS) := 1]> (<[Z.to_nat (head c) := idx]> (buf c))).
  assert (0 <= RXRING_ADVANCE (head c) < RX_RING_PACKETS) as Hadv
    by (rewrite advance_spec; by apply circ_succ_range).
  assert (circ_contents RX_RING_PACKETS b (RXRING_ADVANCE (head c)) (tail c) =
          ring_queue c ++ [idx]) as Hqueue.
  { rewrite ring_queue_length in Hlen. subst b. rewrite circ_contents_insert_other; auto; [|lia|].
    - rewrite advance_spec. apply circ_contents_push; auto; lia.
    - intros [Hj _]%circ_slots_elem; auto; lia. }
  split; [|exact Hqueue].
  constructor; cbn [head tail buf]; auto.
  - subst b. by rewrite !length_insert.
  - unfold ring_queue; cbn. rewrite Hqueue. apply Forall_app. by split; [|constructor].
  - unfold ring_queue; cbn. rewrite Hqueue. apply NoDup_app. split; [done|]. split.
    + intros x Hx ->%list_elem_of_singleton. done.
    + apply NoDup_singleton.
  - intros i Hi. unfold ring_queue, RXRING_FLAG; cbn [head tail buf]. rewrite Hqueue. subst b.
    destruct (decide (i = idx)) as [->|Hne].
    + rewrite zget_insert_eq by (rewrite length_insert; lia).
      rewrite bool_decide_eq_true_2; [done|]. apply elem_of_app. right. by apply list_elem_of_singleton.
    + rewrite !zget_insert_ne by lia. fold (RXRING_FLAG c i). rewrite ri_flags0 by lia.
      rewrite (bool_decide_ext (i ∈ ring_queue c ++ [idx]) (i ∈ ring_queue c)); [done|].
      rewrite elem_of_app, list_elem_of_singleton. naive_solver.
Qed.

Lemma clear_spec c : ring_inv (RXRING_CLEAR c) /\ ring_queue (RXRING_CLEAR c) = [].
Proof.
  assert (ring_queue (RXRING_CLEAR c) = []) as Hq.
  { apply length_zero_iff_nil. pose proof (ring_queue_length (RXRING_CLEAR c)) as H.
    change (circ_count _ _ _) with 0 in H. lia. }
  split; [|done]. constructor; rewrite ?Hq; [|done|done|constructor|constructor|].
  - unfold RXRING_CLEAR; cbn [buf]. rewrite length_replicate. apply Z2Nat.id. done.
  - intros i Hi. unfold RXRING_FLAG, RXRING_CLEAR; cbn [buf]. rewrite zget_lookup by lia.
    apply lookup_replicate_2. lia.
Qed.

(** The search ends at a buffer that is not in the ring. *)
Lemma free_from_spec fuel c i j : 0 <= i <= j -> j < RX_RING_PACKETS ->
  j - i < Z.of_nat fuel -> RXRING_FLAG c j = Some 0 ->
  let r := free_from fuel c i in i <= r <= j /\ default 0 (RXRING_FLAG c r) = 0.
Proof.
  revert i. induction fuel as [|fuel IH]; intros i Hi Hj Hf Hz; [lia|]. cbv zeta. cbn [free_from].
  destruct (Z.ltb_spec i RX_RING_PACKETS); [|lia]. cbn [andb]. unfold c_true.
  destruct (Z.eqb_spec (default 0 (RXRING_FLAG c i)) 0) as [H0|H0]; cbn [negb].
  - split; [lia|done].
  - assert (i <> j) by (intros ->; by rewrite Hz in H0).
    destruct (IH (i + 1) ltac:(lia) Hj ltac:(lia) Hz) as [Hr Hd]. split; [lia|done].
Qed.

(** As at most [RX_RING_PACKETS - 1] buffers are in the ring, one is free. *)
Lemma free_exists c : ring_inv c ->
  exists j, 0 <= j < RX_RING_PACKETS /\ j ∉ ring_queue c.
Proof.
  intros [].
  destruct (decide (Forall (fun j => j ∈ ring_queue c) (seqZ 0 RX_RING_PACKETS))) as [Hall|Hex].
  - exfalso. assert (seqZ 0 RX_RING_PACKETS ⊆+ ring_queue c) as Hsub.
    { apply NoDup_submseteq; [apply NoDup_seqZ|]. intros j Hj. rewrite Forall_forall in Hall. by apply Hall. }
    apply submseteq_length in Hsub. rewrite length_seqZ in Hsub.
    pose proof (ring_queue_length c).
    pose proof (circ_count_range RX_RING_PACKETS ring_size_gt1 (head c) (tail c)). lia.
  - apply not_Forall_Exists in Hex; [|intros ?; apply _].
    apply Exists_exists in Hex as (j & Hj%elem_of_seqZ & Hni). exists j. split; [lia|done].
Qed.

Lemma free_idx_spec c : ring_inv c ->
  0 <= rxring_get_free_idx c < RX_RING_PACKETS /\ rxring_get_free_idx c ∉ ring_queue c.
Proof.
  intros Hinv. destruct (free_exists c Hinv) as (j & Hj & Hni). pose proof Hinv as [].
  assert (RXRING_FLAG c j = Some 0) as Hz
    by (rewrite ri_flags0 by done; by rewrite bool_decide_eq_false_2).
  destruct (free_from_spec (Z.to_nat RX_RING_PACKETS) c 0 j) as [Hr H0]; try lia; [done|].
  unfold rxring_get_free_idx. set (r := free_from _ c 0) in *.
  destruct (Z.ltb_spec r RX_RING_PACKETS); [|lia]. split; [lia|].
  rewrite ri_flags0 in H0 by lia. intros Hin. by rewrite bool_decide_eq_true_2 in H0.
Qed.
