(* ===== verification/SpiHw.v ===== *)
(** * The registers of the SPI controller

    [slave-spi-driver/spi-slave-hw.c] over the register numbers of
    [mx51_ecspi_regs.h]: set-up as a slave, the status and data registers.  A
    register is a 32-bit word; the base address is left out of the offsets. *)
From S2P Require Import Prelude.
From S2P Require Import Kernel.
From S2P Require Import SpiRing.
From stdpp Require Import options.

(** ** Register numbers and fields *)
Definition MXC_CSPIRXDATA : Z := 0.
Definition MX51_ECSPI_CTRL : Z := 8.
Definition MX51_ECSPI_CTRL_ENABLE : Z := Z.shiftl 1 0.
Definition MX51_ECSPI_CTRL_SMC : Z := Z.shiftl 1 3.
Definition MX51_ECSPI_CTRL_MODE_MASK : Z := Z.shiftl 15 4.
Definition MX51_ECSPI_CTRL_POSTDIV_OFFSET : Z := 8.
Definition MX51_ECSPI_CTRL_PREDIV_OFFSET : Z := 12.
Definition MX51_ECSPI_CTRL_CS (cs : Z) : Z := Z.shiftl cs 18.
Definition MX51_ECSPI_CTRL_BL_OFFSET : Z := 20.
Definition MX51_ECSPI_CTRL_BL_MASK : Z := Z.shiftl 4095 20.
Definition MX51_ECSPI_CONFIG : Z := 12.
Definition MX51_ECSPI_CONFIG_SCLKPHA (cs : Z) : Z := Z.shiftl 1 (cs + 0).
Definition MX51_ECSPI_CONFIG_SCLKPOL (cs : Z) : Z := Z.shiftl 1 (cs + 4).
Definition MX51_ECSPI_CONFIG_SBBCTRL (cs : Z) : Z := Z.shiftl 1 (cs + 8).
Definition MX51_ECSPI_CONFIG_SSBPOL (cs : Z) : Z := Z.shiftl 1 (cs + 12).
Definition MX51_ECSPI_CONFIG_SCLKCTL (cs : Z) : Z := Z.shiftl 1 (cs + 20).
Definition MX51_ECSPI_STAT : Z := 24.
Definition MX51_ECSPI_STAT_RR : Z := Z.shiftl 1 3.
Definition MX51_ECSPI_TESTREG : Z := 32.
Definition MX51_ECSPI_TESTREG_LBC : Z := Z.shiftl 1 31.
Definition CHIP_SELECT : Z := 0.

(** [x &= ~m] and [x |= m] on a [u32]. *)
Definition clear_bits (x m : Z) : Z := Z.land x (u32 (Z.lnot m)).
Definition set_bits (x m : Z) : Z := u32 (Z.lor x m).

Section code.
Context {S : Type}.
Notation prog := (M S).

(** The value written by [mx51_ecspi_init_ctrl]. *)
Definition ctrl_value : Z :=
  let ctrl := MX51_ECSPI_CTRL_ENABLE in
  let ctrl := clear_bits ctrl MX51_ECSPI_CTRL_MODE_MASK in
  let ctrl := clear_bits ctrl MX51_ECSPI_CTRL_BL_MASK in
  let ctrl := set_bits ctrl (Z.shiftl (PACKET_SIZE * 8 - 1) MX51_ECSPI_CTRL_BL_OFFSET) in
  let ctrl := clear_bits ctrl (Z.lor (Z.shiftl 15 MX51_ECSPI_CTRL_POSTDIV_OFFSET)
                                     (Z.shiftl 15 MX51_ECSPI_CTRL_PREDIV_OFFSET)) in
  let ctrl := clear_bits ctrl MX51_ECSPI_CTRL_SMC in
  set_bits ctrl (MX51_ECSPI_CTRL_CS CHIP_SELECT).

Definition mx51_ecspi_init_ctrl : prog unit := do_ (writel ctrl_value MX51_ECSPI_CTRL).

Definition mx51_ecspi_init_testreg : prog unit :=
  testreg ← ask (readl MX51_ECSPI_TESTREG);
  do_ (writel (clear_bits testreg MX51_ECSPI_TESTREG_LBC) MX51_ECSPI_TESTREG).

Definition config_value (cfg : Z) : Z :=
  let cfg := clear_bits cfg (MX51_ECSPI_CONFIG_SBBCTRL CHIP_SELECT) in
  let cfg := set_bits cfg (MX51_ECSPI_CONFIG_SCLKPHA CHIP_SELECT) in
  let cfg := set_bits cfg (MX51_ECSPI_CONFIG_SCLKPOL CHIP_SELECT) in
  let cfg := set_bits cfg (MX51_ECSPI_CONFIG_SCLKCTL CHIP_SELECT) in
  clear_bits cfg (MX51_ECSPI_CONFIG_SSBPOL CHIP_SELECT).

Definition mx51_ecspi_init_config : prog unit :=
  cfg ← ask (readl MX51_ECSPI_CONFIG);
  do_ (writel (config_value cfg) MX51_ECSPI_CONFIG).

Definition mx51_ecspi_init : prog unit :=
  mx51_ecspi_init_ctrl;;
  mx51_ecspi_init_testreg;;
  mx51_ecspi_init_config.

Definition mx51_ecspi_disable : prog unit :=
  ctrl ← ask (readl MX51_ECSPI_CTRL);
  do_ (writel (clear_bits ctrl MX51_ECSPI_CTRL_ENABLE) MX51_ECSPI_CTRL).

Definition mx51_ecspi_rxcnt : prog Z :=
  v ← ask (readl MX51_ECSPI_TESTREG);
  mret (Z.land (Z.shiftr v 8) 127).

Definition mx51_ecspi_stat : prog Z := ask (readl MX51_ECSPI_STAT).
Definition mx51_ecspi_stat_clr : prog unit := do_ (writel 192 MX51_ECSPI_STAT).
Definition mx51_ecspi_data : prog Z := ask (readl MXC_CSPIRXDATA).

Definition mx51_ecspi_rx_available : prog Z :=
  v ← ask (readl MX51_ECSPI_STAT);
  mret (Z.land v MX51_ECSPI_STAT_RR).

(** [None] when the fuel runs out with the receive buffer still not empty. *)
Fixpoint mx51_ecspi_reset (fuel : nat) : prog (option unit) :=
  match fuel with
  | O => mret None
  | Datatypes.S fuel' =>
      a ← mx51_ecspi_rx_available;
      if c_true a then
        do_ (readl MXC_CSPIRXDATA);;
        mx51_ecspi_reset fuel'
      else mret (Some tt)
  end.
End code.

(** ** Fields *)
Lemma u32_testbit x i : 0 <= i -> Z.testbit (u32 x) i = (i <? 32) && Z.testbit x i.
Proof.
  intros Hi. unfold wrapu. destruct (Z.ltb_spec i 32).
  - by rewrite Z.mod_pow2_bits_low by lia.
  - by rewrite Z.mod_pow2_bits_high by lia.
Qed.

Lemma clear_bits_spec x m i : 0 <= i < 32 ->
  Z.testbit (clear_bits x m) i = Z.testbit x i && negb (Z.testbit m i).
Proof.
  intros Hi. unfold clear_bits. rewrite Z.land_spec, u32_testbit, Z.lnot_spec by lia.
  by destruct (Z.ltb_spec i 32); [|lia].
Qed.

Lemma set_bits_spec x m i : 0 <= i < 32 ->
  Z.testbit (set_bits x m) i = Z.testbit x i || Z.testbit m i.
Proof.
  intros Hi. unfold set_bits. rewrite u32_testbit, Z.lor_spec by lia.
  by destruct (Z.ltb_spec i 32); [|lia].
Qed.

Lemma one_bit k i : 0 <= k -> 0 <= i -> Z.testbit (Z.shiftl 1 k) i = (i =? k).
Proof.
  intros Hk Hi. rewrite Z.shiftl_1_l, Z.pow2_bits_eqb by done. apply Z.eqb_sym.
Qed.

(** The controller is set up by five register accesses in a fixed order, the
    control register first.  It is enabled as a slave on chip select 0 with a
    burst of 188 bytes and both dividers 0; of the test register only the
    loop-back bit is cleared; of the configuration register exactly the clock
    phase, polarity and idle-level bits are set and the burst-control and
    select-polarity bits cleared, and every other bit is kept. *)
Theorem mx51_ecspi_init_registers {S} (e : env S) s t :
  wp e mx51_ecspi_init (fun _ s' t' =>
    s' = s /\ exists testreg cfg testreg' cfg',
      calls t' = calls t ++
        [ writel (1 + Z.shiftl 1503 20) MX51_ECSPI_CTRL;
          readl MX51_ECSPI_TESTREG; writel testreg' MX51_ECSPI_TESTREG;
          readl MX51_ECSPI_CONFIG; writel cfg' MX51_ECSPI_CONFIG ] /\
      Ev (readl MX51_ECSPI_TESTREG) testreg ∈ t' /\ Ev (readl MX51_ECSPI_CONFIG) cfg ∈ t' /\
      (forall i, 0 <= i < 32 -> Z.testbit testreg' i = Z.testbit testreg i && negb (i =? 31)) /\
      (forall i, 0 <= i < 32 -> Z.testbit cfg' i =
         (Z.testbit cfg i || (i =? 0) || (i =? 4) || (i =? 20)) && negb (i =? 8) && negb (i =? 12)))
    s t.
Proof.
  unfold mx51_ecspi_init, mx51_ecspi_init_ctrl, mx51_ecspi_init_testreg, mx51_ecspi_init_config.
  wp_run. split; [done|].
  eexists _, _, (clear_bits _ MX51_ECSPI_TESTREG_LBC), (config_value _).
  split; [unfold calls; cbn [map rev]; rewrite <- !app_assoc; by cbn|].
  split; [do 3 right; left|]. split; [right; left|]. split; intros i Hi.
  - rewrite clear_bits_spec by done. unfold MX51_ECSPI_TESTREG_LBC. by rewrite one_bit by lia.
  - unfold config_value. rewrite clear_bits_spec, !set_bits_spec, clear_bits_spec by done.
    unfold MX51_ECSPI_CONFIG_SBBCTRL, MX51_ECSPI_CONFIG_SCLKPHA, MX51_ECSPI_CONFIG_SCLKPOL,
      MX51_ECSPI_CONFIG_SCLKCTL, MX51_ECSPI_CONFIG_SSBPOL, CHIP_SELECT.
    rewrite !one_bit, !Z.add_0_l by lia.
    destruct (Z.eqb_spec i 8) as [->|]; [by destruct (Z.testbit _ _)|].
    by destruct (Z.testbit _ _), (i =? 0), (i =? 4), (i =? 20), (i =? 12).
Qed.
