(* ===== verification/SpiSlave.v ===== *)
(** * The SPI slave driver

    [slave-spi-driver/spi-slave-main.c]: the thread that receives packets into the
    ring, the transfers that take them out, probe and remove.  The memory behind
    [packets] is the function from the number of a buffer and the number of a
    dword to the dword.  [schedule] is where other tasks run.  [swab32], [HZ] and
    the ring macros belong to the kernel; the loops carry fuel. *)
From S2P Require Import Prelude.
From S2P Require Import Kernel.
From S2P Require Import SpiRing.
From S2P Require Import SpiHw.
From stdpp Require Import options.

Record spi_imx_statistic := Stat {
  pkt_ok : Z;
  pkt_lost : Z;
  pkt_err : Z;
  stream_err : Z;
  overruns : Z;
  max_ring_used : Z;
  dwords : Z;
  skip : Z;
  last_message_jiffies : Z;
}.

Record spi_imx_data := SpiData {
  rx_thrd : Z;
  spi_clk : Z;
  rx_ring : circ_buf;
  ring_mem : Z;
  packets : Z -> Z -> Z;
  packets_mem : Z;
  stats : spi_imx_statistic;
}.

(** ** Field updates *)
Definition set_thrd (p : Z) (s : spi_imx_data) : spi_imx_data :=
  SpiData p (spi_clk s) (rx_ring s) (ring_mem s) (packets s) (packets_mem s) (stats s).
Definition set_clk (v : Z) (s : spi_imx_data) : spi_imx_data :=
  SpiData (rx_thrd s) v (rx_ring s) (ring_mem s) (packets s) (packets_mem s) (stats s).
Definition upd_ring (f : circ_buf -> circ_buf) (s : spi_imx_data) : spi_imx_data :=
  SpiData (rx_thrd s) (spi_clk s) (f (rx_ring s)) (ring_mem s) (packets s) (packets_mem s) (stats s).
Definition set_packet (i : Z) (p : Z -> Z) (s : spi_imx_data) : spi_imx_data :=
  SpiData (rx_thrd s) (spi_clk s) (rx_ring s) (ring_mem s)
    (fun j => if j =? i then p else packets s j) (packets_mem s) (stats s).
Definition set_mem (p r : Z) (s : spi_imx_data) : spi_imx_data :=
  SpiData (rx_thrd s) (spi_clk s) (rx_ring s) r (packets s) p (stats s).
Definition upd_stats (f : spi_imx_statistic -> spi_imx_statistic) (s : spi_imx_data) : spi_imx_data :=
  SpiData (rx_thrd s) (spi_clk s) (rx_ring s) (ring_mem s) (packets s) (packets_mem s) (f (stats s)).

Definition zero_stats : spi_imx_statistic := Stat 0 0 0 0 0 0 0 0 0.
Definition count_ok (x : spi_imx_statistic) : spi_imx_statistic :=
  Stat (u64 (pkt_ok x + 1)) (pkt_lost x) (pkt_err x) (stream_err x) (overruns x)
    (max_ring_used x) (dwords x) (skip x) (last_message_jiffies x).
Definition count_lost (x : spi_imx_statistic) : spi_imx_statistic :=
  Stat (pkt_ok x) (u64 (pkt_lost x + 1)) (pkt_err x) (stream_err x) (overruns x)
    (max_ring_used x) (dwords x) (skip x) (last_message_jiffies x).
Definition count_pkt_err (x : spi_imx_statistic) : spi_imx_statistic :=
  Stat (pkt_ok x) (pkt_lost x) (u32 (pkt_err x + 1)) (stream_err x) (overruns x)
    (max_ring_used x) (dwords x) (skip x) (last_message_jiffies x).
Definition count_stream_err (x : spi_imx_statistic) : spi_imx_statistic :=
  Stat (pkt_ok x) (pkt_lost x) (pkt_err x) (u32 (stream_err x + 1)) (overruns x)
    (max_ring_used x) (dwords x) (skip x) (last_message_jiffies x).
Definition count_overrun (x : spi_imx_statistic) : spi_imx_statistic :=
  Stat (pkt_ok x) (pkt_lost x) (pkt_err x) (stream_err x) (u32 (overruns x + 1))
    (max_ring_used x) (dwords x) (skip x) (last_message_jiffies x).
Definition note_used (used : Z) (x : spi_imx_statistic) : spi_imx_statistic :=
  Stat (pkt_ok x) (pkt_lost x) (pkt_err x) (stream_err x) (overruns x)
    used (dwords x) (skip x) (last_message_jiffies x).
Definition count_dword (x : spi_imx_statistic) : spi_imx_statistic :=
  Stat (pkt_ok x) (pkt_lost x) (pkt_err x) (stream_err x) (overruns x)
    (max_ring_used x) (u64 (dwords x + 1)) (skip x) (last_message_jiffies x).
Definition count_skip (x : spi_imx_statistic) : spi_imx_statistic :=
  Stat (pkt_ok x) (pkt_lost x) (pkt_err x) (stream_err x) (overruns x)
    (max_ring_used x) (dwords x) (u64 (skip x + 1)) (last_message_jiffies x).
Definition set_last (j : Z) (x : spi_imx_statistic) : spi_imx_statistic :=
  Stat (pkt_ok x) (pkt_lost x) (pkt_err x) (stream_err x) (overruns x)
    (max_ring_used x) (dwords x) (skip x) j.

(** ** The code *)
Section code.
Context `{CircMacros}.
Notation prog := (M spi_imx_data).

(** The ring macros on the ring of the driver. *)
Definition ring_remove : prog unit :=
  modify (upd_ring (fun c => default c (RXRING_REMOVE c))).
Definition ring_insert (idx : Z) : prog unit :=
  modify (upd_ring (fun c => default c (RXRING_INSERT c idx))).

(** One dword from the controller into the buffer [idx]: the new count and the
    result of [paketizer]. *)
Definition take_dword (idx cnt : Z) : prog (Z * Z) :=
  val ← mx51_ecspi_data;
  s ← gets (fun s => s);
  let '(rv, packet, cnt) := paketizer val (packets s idx) cnt in
  modify (set_packet idx packet);;
  modify (upd_stats count_dword);;
  (if 0 <? rv then modify (upd_stats count_ok)
   else if rv =? -1 then modify (upd_stats count_pkt_err)
   else if rv =? -2 then modify (upd_stats count_stream_err)
   else if rv =? -3 then modify (upd_stats count_skip)
   else mret tt);;
  mret (cnt, rv).

(** The inner loop of [receive_packet]: until the controller has no more data or
    the packet is complete. *)
Fixpoint drain (fuel : nat) (idx cnt rv : Z) : prog (option (Z * Z)) :=
  match fuel with
  | O => mret None
  | S fuel' =>
      a ← mx51_ecspi_rx_available;
      if c_true a then
        '(cnt, rv) ← take_dword idx cnt;
        if 0 <? rv then mret (Some (cnt, rv)) else drain fuel' idx cnt rv
      else mret (Some (cnt, rv))
  end.

(** The outer loop. *)
Fixpoint receive_loop (fuel : nat) (idx cnt rv : Z) : prog (option Z) :=
  match fuel with
  | O => mret None
  | S fuel' =>
      stop ← ask kthread_should_stop;
      if negb (c_true stop) && (rv <=? 0) then
        _ ← mx51_ecspi_rxcnt;
        stat ← mx51_ecspi_stat;
        when (c_true (Z.land stat (Z.shiftl 1 6)))
          (mx51_ecspi_stat_clr;; modify (upd_stats count_overrun));;
        d ← drain fuel' idx cnt rv;
        match d with
        | None => mret None
        | Some (cnt, rv) =>
            _ ← sleep schedule;
            receive_loop fuel' idx cnt rv
        end
      else mret (Some rv)
  end.

Definition receive_packet (fuel : nat) : prog (option Z) :=
  do_ (spin_lock "rx_lock");;
  vacant ← gets (fun s => RXRING_VACANT (rx_ring s));
  when (negb (c_true vacant))
    (modify (upd_stats count_lost);;
     ring_remove);;
  idx ← gets (fun s => rxring_get_free_idx (rx_ring s));
  do_ (spin_unlock "rx_lock");;
  if idx <? 0 then mret (Some (- EFAULT))
  else
    lost ← gets (fun s => pkt_lost (stats s));
    if 1024 <? lost then mret (Some (-1))
    else
      r ← receive_loop fuel idx 0 (-1);
      match r with
      | None => mret None
      | Some rv =>
          do_ (spin_lock "rx_lock");;
          ring_insert idx;;
          used ← gets (fun s => RXRING_USED (rx_ring s));
          max ← gets (fun s => max_ring_used (stats s));
          when (max <? used) (modify (upd_stats (note_used used)));;
          do_ (spin_unlock "rx_lock");;
          do_ (wake_up "rx_wq");;
          mret (Some rv)
      end.

(** The loop of the receive thread. *)
Fixpoint receive_packets (fuel : nat) : prog (option unit) :=
  match fuel with
  | O => mret None
  | S fuel' =>
      r ← receive_packet fuel';
      match r with
      | None => mret None
      | Some rv => if 0 <? rv then receive_packets fuel' else mret (Some tt)
      end
  end.

Definition rx_thrd_fn (fuel : nat) : prog (option Z) :=
  modify (upd_stats (fun _ => zero_stats));;
  do_ (spin_lock "rx_lock");;
  modify (upd_ring RXRING_CLEAR);;
  do_ (spin_unlock "rx_lock");;
  r ← receive_packets fuel;
  match r with
  | None => mret None
  | Some _ => modify (set_thrd 0);; mret (Some 0)
  end.

Definition init_rx_thread : prog Z :=
  thrd ← ask kthread_create;
  if IS_ERR thrd then
    modify (set_thrd 0);;
    mret (PTR_ERR thrd)
  else
    do_ sched_set_normal;;
    do_ (wake_up_process thrd);;
    modify (set_thrd thrd);;
    mret 0.

Definition spi_imx_prepare_message (HZ : Z) : prog Z :=
  now ← ask jiffies;
  last ← gets (fun s => last_message_jiffies (stats s));
  let delta := u32 (now - last) in
  when (4 * HZ <? delta)
    (modify (upd_stats (fun _ => zero_stats));;
     do_ (spin_lock "rx_lock");;
     modify (upd_ring RXRING_CLEAR);;
     do_ (spin_unlock "rx_lock"));;
  modify (upd_stats (set_last now));;
  thrd ← gets rx_thrd;
  if negb (c_true thrd) then init_rx_thread else mret 0.

Context (swab32 : Z -> Z).

Definition memcpy_bswap_packet (src : Z -> Z) : list Z :=
  map (fun i => swab32 (src i)) (seqZ 0 PACKET_SIZE_DWORD).

(** The loop at the head of [spi_imx_transfer], entered with the lock held: an
    error, or the number of packets that are ready. *)
Fixpoint wait_ready (fuel : nat) (n_ready : Z) : prog (option (Z + Z)) :=
  match fuel with
  | O => mret None
  | S fuel' =>
      if n_ready =? 0 then
        do_ (spin_unlock "rx_lock");;
        do_ (prepare_to_wait "rx_wq");;
        _ ← sleep schedule;
        do_ (finish_wait "rx_wq");;
        sp ← ask signal_pending;
        if c_true sp then mret (Some (inl (- ERESTARTSYS)))
        else
          do_ (spin_lock "rx_lock");;
          n ← gets (fun s => RXRING_USED (rx_ring s));
          wait_ready fuel' n
      else mret (Some (inr n_ready))
  end.

(** The result and what was written to [transfer->rx_buf]. *)
Definition spi_imx_transfer (fuel : nat) (len : Z) : prog (option (Z * list Z)) :=
  do_ (spin_lock "rx_lock");;
  n ← gets (fun s => RXRING_USED (rx_ring s));
  w ← wait_ready fuel n;
  match w with
  | None => mret None
  | Some (inl err) => mret (Some (err, []))
  | Some (inr _) =>
      idx ← gets (fun s => default (-1) (RXRING_IDX (rx_ring s) (tail (rx_ring s))));
      if 0 <=? idx then
        out ← gets (fun s => memcpy_bswap_packet (packets s idx));
        ring_remove;;
        do_ (spin_unlock "rx_lock");;
        mret (Some (len, out))
      else mret (Some (- EFAULT, []))
  end.

Definition proc_status_show : prog (list Z) :=
  x ← gets stats;
  thrd ← gets rx_thrd;
  modify (upd_stats (note_used 0));;
  mret [pkt_ok x; pkt_lost x; overruns x; pkt_err x; stream_err x; skip x; max_ring_used x;
        b2z (c_true thrd)].

Definition spi_imx_probe (fuel : nat) : prog (option Z) :=
  master ← ask spi_alloc_slave;
  if master =? 0 then mret (Some (- ENOMEM))
  else
    let out_master_put ret := do_ spi_master_put;; mret (Some ret) in
    let out_put_per ret := do_ (clk_disable_unprepare "per");; out_master_put ret in
    let out_bitbang_start ret := do_ (clk_disable_unprepare "ipg");; out_put_per ret in
    do_ platform_set_drvdata;;
    base ← ask devm_ioremap_resource;
    if IS_ERR base then out_master_put (PTR_ERR base)
    else
      irq ← ask platform_get_irq;
      if irq <? 0 then out_master_put irq
      else
        clk_ipg ← ask (devm_clk_get "ipg");
        if IS_ERR clk_ipg then out_master_put (PTR_ERR clk_ipg)
        else
          clk_per ← ask (devm_clk_get "per");
          if IS_ERR clk_per then out_master_put (PTR_ERR clk_per)
          else
            ret ← ask (clk_prepare_enable "per");
            if c_true ret then out_master_put ret
            else
              ret ← ask (clk_prepare_enable "ipg");
              if c_true ret then out_put_per ret
              else
                rate ← ask (clk_get_rate "per");
                modify (set_clk rate);;
                r ← mx51_ecspi_reset fuel;
                match r with
                | None => mret None
                | Some _ =>
                    mx51_ecspi_init;;
                    _ ← mx51_ecspi_stat;
                    _ ← mx51_ecspi_rxcnt;
                    mx51_ecspi_stat_clr;;
                    ret ← ask spi_bitbang_start;
                    if c_true ret then out_bitbang_start ret
                    else
                      p ← ask (kzalloc "packets");
                      r ← ask (kzalloc "rx_ring");
                      modify (set_mem p r);;
                      e ← ask (proc_create_single "spi-slave");
                      if e =? 0 then
                        do_ (kfree p);;
                        do_ (kfree r);;
                        out_bitbang_start (- ENOMEM)
                      else mret (Some ret)
                end.

Definition spi_imx_remove : prog Z :=
  do_ (remove_proc_entry "spi-slave");;
  thrd ← gets rx_thrd;
  when (c_true thrd) (do_ (kthread_stop thrd));;
  do_ spi_bitbang_stop;;
  mx51_ecspi_disable;;
  do_ spi_master_put;;
  s ← gets (fun s => s);
  do_ (kfree (ring_mem s));;
  do_ (kfree (packets_mem s));;
  mret 0.
End code.
