(* ===== verification/SpiReceive.v ===== *)
(** * Reception and transfer of packets

    [receive_packet] against the stream of dwords that the controller delivers,
    and [spi_imx_transfer] against the queue of packets, while other tasks run
    whenever the code calls [schedule].  What those tasks may do to the ring is the
    rely condition of each theorem: a reader and a reset only take packets out,
    the receiver keeps the invariant. *)
From S2P Require Import Prelude.
From S2P Require Import Circ.
From S2P Require Import Kernel.
From S2P Require Import SpiRing.
From S2P Require Import SpiHw.
From S2P Require Import SpiSlave.
From stdpp Require Import options.

(** ** The stream *)

(** The dwords read from the data register, oldest first. *)
Fixpoint data_words (t : trace) : list Z :=
  match t with
  | [] => []
  | Ev (readl off) v :: t' => if off =? MXC_CSPIRXDATA then data_words t' ++ [v] else data_words t'
  | _ :: t' => data_words t'
  end.

(** A packet starts with a dword whose first byte is 0x47. *)
Definition sync (w : Z) : bool := Z.land (Z.shiftr w 24) 255 =? 71.
Fixpoint from_sync (ws : list Z) : list Z :=
  match ws with
  | [] => []
  | w :: ws' => if sync w then ws else from_sync ws'
  end.

Lemma from_sync_snoc ws w : from_sync (ws ++ [w]) =
  match from_sync ws with
  | [] => if sync w then [w] else []
  | p => p ++ [w]
  end.
Proof.
  induction ws as [|v ws IH]; [done|]. cbn [app from_sync]. by destruct (sync v).
Qed.

(** The buffer holds the packet collected so far. *)
Definition holds (packet : Z -> Z) (p : list Z) : Prop :=
  forall k, (k < length p)%nat -> packet (Z.of_nat k) = nth k p 0.

Lemma holds_snoc packet p w : holds packet p ->
  holds (fun i => if i =? Z.of_nat (length p) then w else packet i) (p ++ [w]).
Proof.
  intros Hp k Hk. rewrite length_app in Hk. cbn [length] in Hk.
  destruct (Z.eqb_spec (Z.of_nat k) (Z.of_nat (length p))) as [He|He].
  - rewrite app_nth2 by lia. by replace (k - length p)%nat with 0%nat by lia.
  - rewrite app_nth1 by lia. apply Hp. lia.
Qed.

Lemma dword_count : PACKET_SIZE_DWORD = 47. Proof. done. Qed.

(** One step of [paketizer]. *)
Lemma paketizer_spec w packet ws :
  let p := from_sync ws in
  let p' := from_sync (ws ++ [w]) in
  (length p < 47)%nat -> holds packet p ->
  let '(rv, packet', cnt') := paketizer w packet (Z.of_nat (length p)) in
  holds packet' p' /\
  (rv <= 0 /\ cnt' = Z.of_nat (length p') /\ (length p' < 47)%nat \/
   rv = 1 /\ length p' = 47%nat).
Proof.
  cbv zeta. intros Hl Hp. unfold paketizer. rewrite from_sync_snoc, dword_count.
  rewrite (wrapu_small 32) by lia.
  pose proof (holds_snoc packet (from_sync ws) w Hp) as Hs.
  destruct (from_sync ws) as [|v p] eqn:Hws.
  - cbn [length Z.of_nat Z.add]. change (1 =? 1) with true. cbn iota. fold (sync w).
    destruct (sync w); cbn [negb]; (split; [|left; cbn; lia]); [done|].
    intros k Hk. cbn in Hk. lia.
  - destruct (Z.eqb_spec (Z.of_nat (length (v :: p)) + 1) 1); [cbn [length] in *; lia|].
    destruct (Z.eqb_spec (Z.of_nat (length (v :: p)) + 1) 47); (split; [exact Hs|]);
      rewrite length_app; cbn [length] in *; [right|left]; lia.
Qed.

Section receive.
Context `{HC : CircMacrosSpec}.
Context (e : env spi_imx_data) (N : nat).

(** After [N] calls the controller has no more data and the thread is stopped. *)
Hypothesis Hquiet : forall t, (N <= length t)%nat ->
  Z.land (answer e t (readl MX51_ECSPI_STAT)) MX51_ECSPI_STAT_RR = 0.
Hypothesis Hstopped : forall t, (N <= length t)%nat -> answer e t kthread_should_stop <> 0.

(** The other tasks only take packets out of the ring. *)
Hypothesis Hrely : forall t s, ring_inv (rx_ring s) ->
  ring_inv (rx_ring (interfere e t s)) /\
  (exists k, ring_queue (rx_ring (interfere e t s)) = drop k (ring_queue (rx_ring s))) /\
  packets (interfere e t s) = packets s.

#[local] Set Default Proof Using "Type*".

(** The buffer [idx] is being filled; [q] was in the ring and [w0] had been read
    before. *)
Record receiving (idx : Z) (q w0 : list Z) (L : list resource) (cnt rv : Z)
    (s : spi_imx_data) (t : trace) (ws : list Z) : Prop := {
  rcv_ring : ring_inv (rx_ring s);
  rcv_queue : exists k, ring_queue (rx_ring s) = drop k q;
  rcv_words : data_words t = w0 ++ ws;
  rcv_ledger : ledger t = Some L;
  rcv_holds : holds (packets s idx) (from_sync ws);
  rcv_state : rv <= 0 /\ cnt = Z.of_nat (length (from_sync ws)) /\ (length (from_sync ws) < 47)%nat \/
              rv = 1 /\ length (from_sync ws) = 47%nat;
}.

Lemma set_packet_eq idx p s : packets (set_packet idx p s) idx = p.
Proof. unfold set_packet; cbn. by rewrite Z.eqb_refl. Qed.

Lemma take_dword_spec idx q w0 L cnt rv s t ws : rv <= 0 ->
  receiving idx q w0 L cnt rv s t ws ->
  wp e (take_dword idx cnt) (fun r s' t' =>
    length t' = S (length t) /\
    exists w, receiving idx q w0 L (fst r) (snd r) s' t' (ws ++ [w])) s t.
Proof.
  intros Hrv [Hring Hq Hw HL Hh [(_ & -> & Hlt)|[? _]]]; [|lia].
  unfold take_dword, mx51_ecspi_data. apply wp_bind, wp_ask. intros w _.
  apply wp_bind, wp_gets.
  pose proof (paketizer_spec w (packets s idx) ws Hlt Hh) as Hp.
  destruct (paketizer w (packets s idx) _) as [[rv' packet'] cnt'] eqn:Hpk.
  destruct Hp as [Hh' Hst]. apply wp_bind, wp_modify, wp_bind, wp_modify.
  assert (forall x, receiving idx q w0 L cnt' rv' (upd_stats x (set_packet idx packet' s))
            (Ev (readl MXC_CSPIRXDATA) w :: t) (ws ++ [w])) as Hdone.
  { intros x. constructor; try done.
    - cbn. by rewrite Hw, app_assoc.
    - rewrite ledger_from_cons, HL. done.
    - change (packets (upd_stats x (set_packet idx packet' s)) idx)
        with (packets (set_packet idx packet' s) idx). by rewrite set_packet_eq. }
  wp_run; (split; [done|]); exists w;
    first [exact (Hdone (fun x => count_ok (count_dword x)))
          |exact (Hdone (fun x => count_pkt_err (count_dword x)))
          |exact (Hdone (fun x => count_stream_err (count_dword x)))
          |exact (Hdone (fun x => count_skip (count_dword x)))
          |exact (Hdone count_dword)].
Qed.

(** Events that are neither data nor resources. *)
Lemma receiving_event idx q w0 L cnt rv s t ws c r :
  effect_of (Ev c r) = Neutral -> data_words (Ev c r :: t) = data_words t ->
  receiving idx q w0 L cnt rv s t ws -> receiving idx q w0 L cnt rv s (Ev c r :: t) ws.
Proof.
  intros He Hd []. constructor; try done; [by rewrite Hd|].
  by rewrite ledger_from_cons, rcv_ledger0; cbn -[effect_of]; rewrite He.
Qed.

Lemma drain_spec idx q w0 L fuel : forall cnt rv s t ws,
  (1 <= fuel)%nat -> (N < length t + fuel)%nat -> rv <= 0 ->
  receiving idx q w0 L cnt rv s t ws ->
  wp e (drain fuel idx cnt rv) (fun d s' t' =>
    (length t < length t')%nat /\
    exists cnt' rv' ws', d = Some (cnt', rv') /\
      receiving idx q w0 L cnt' rv' s' t' (ws ++ ws')) s t.
Proof.
  induction fuel as [|fuel IH]; intros cnt rv s t ws Hf HN Hrv Hrcv; [lia|]. cbn [drain].
  unfold mx51_ecspi_rx_available. apply wp_bind, wp_bind, wp_ask. intros a Ha. apply wp_ret.
  assert (receiving idx q w0 L cnt rv s (Ev (readl MX51_ECSPI_STAT) a :: t) ws) as Hrcv1
    by by apply receiving_event.
  unfold c_true. destruct (Z.eqb_spec (Z.land a MX51_ECSPI_STAT_RR) 0) as [H0|H0]; cbn [negb].
  - apply wp_ret. split; [cbn; lia|]. exists cnt, rv, []. by rewrite app_nil_r.
  - assert (length t < N)%nat as Hlt.
    { destruct (le_lt_dec N (length t)) as [Hle|]; [|done]. by rewrite Ha, Hquiet in H0. }
    apply wp_bind. eapply wp_mono; [exact (take_dword_spec idx q w0 L cnt rv s _ ws Hrv Hrcv1)|].
    intros [cnt1 rv1] s1 t1 (Hlen & w & Hrcv2). cbn [fst snd length] in *.
    destruct (Z.ltb_spec 0 rv1).
    + apply wp_ret. split; [lia|]. by exists cnt1, rv1, [w].
    + eapply wp_mono; [apply (IH cnt1 rv1 s1 t1 (ws ++ [w])); [lia|lia|lia|done]|].
      intros d s2 t2 (Hlen2 & cnt2 & rv2 & ws2 & -> & Hrcv3). split; [lia|].
      exists cnt2, rv2, (w :: ws2). by rewrite <- app_assoc in Hrcv3.
Qed.

(** Letting other tasks run. *)
Lemma receiving_schedule idx q w0 L cnt rv s t ws :
  receiving idx q w0 L cnt rv s t ws ->
  receiving idx q w0 L cnt rv (interfere e t s) (Ev schedule (answer e t schedule) :: t) ws.
Proof.
  intros []. destruct (Hrely t s rcv_ring0) as (Hinv & (k' & Hk') & Hp).
  constructor; try done.
  - destruct rcv_queue0 as [k Hk]. exists (k + k')%nat. by rewrite Hk', Hk, drop_drop.
  - by rewrite ledger_from_cons, rcv_ledger0.
  - by rewrite Hp.
Qed.

Lemma receive_loop_spec idx q w0 L fuel : forall cnt rv s t ws,
  (1 <= fuel)%nat -> (N < length t + fuel)%nat ->
  receiving idx q w0 L cnt rv s t ws ->
  wp e (receive_loop fuel idx cnt rv) (fun r s' t' =>
    exists cnt' rv' ws', r = Some rv' /\
      receiving idx q w0 L cnt' rv' s' t' (ws ++ ws')) s t.
Proof.
  induction fuel as [|fuel IH]; intros cnt rv s t ws Hf HN Hrcv; [lia|]. cbn [receive_loop].
  apply wp_bind, wp_ask. intros stop Hstop.
  apply (receiving_event _ _ _ _ _ _ _ _ _ kthread_should_stop stop) in Hrcv; [|done..].
  destruct (negb (c_true stop) && (rv <=? 0)) eqn:Hgo.
  2: { apply wp_ret. exists cnt, rv, []. by rewrite app_nil_r. }
  apply andb_true_iff in Hgo as [Hns Hrv%Z.leb_le].
  assert (length t < N)%nat as Hlt.
  { destruct (le_lt_dec N (length t)) as [Hle%Hstopped|]; [|done].
    rewrite <- Hstop in Hle. unfold c_true in Hns. by destruct (Z.eqb_spec stop 0). }
  unfold mx51_ecspi_rxcnt, mx51_ecspi_stat, mx51_ecspi_stat_clr.
  apply wp_bind, wp_bind, wp_ask. intros x1 _. apply wp_ret.
  apply (receiving_event _ _ _ _ _ _ _ _ _ (readl MX51_ECSPI_TESTREG) x1) in Hrcv; [|done..].
  apply wp_bind, wp_ask. intros stat _.
  apply (receiving_event _ _ _ _ _ _ _ _ _ (readl MX51_ECSPI_STAT) stat) in Hrcv; [|done..].
  apply wp_bind. set (t3 := Ev (readl MX51_ECSPI_STAT) stat :: _) in *.
  assert (wp e (when (c_true (Z.land stat (Z.shiftl 1 6)))
      (do_ (writel 192 MX51_ECSPI_STAT) ≫= fun _ => modify (upd_stats count_overrun)))
    (fun _ s' t' => (length t3 <= length t')%nat /\ receiving idx q w0 L cnt rv s' t' ws) s t3)
    as Hover.
  { wp_run; [|done]. split; [cbn; lia|].
    apply (receiving_event idx q w0 L cnt rv _ t3 ws (writel 192 MX51_ECSPI_STAT)); [done|done|].
    by destruct Hrcv. }
  eapply wp_mono; [exact Hover|]. intros [] s4 t4 (Hlen4 & Hrcv4). cbn in Hlen4.
  apply wp_bind. eapply wp_mono; [apply (drain_spec idx q w0 L fuel cnt rv s4 t4 ws);
                                    [lia|lia|done|done]|].
  intros d s5 t5 (Hlen5 & cnt5 & rv5 & ws5 & -> & Hrcv5).
  apply wp_bind, wp_sleep. intros x ->. apply receiving_schedule in Hrcv5.
  eapply wp_mono; [apply (IH cnt5 rv5 _ _ (ws ++ ws5)); [lia|cbn; lia|done]|].
  intros r s6 t6 (cnt6 & rv6 & ws6 & -> & Hrcv6). exists cnt6, rv6, (ws5 ++ ws6).
  by rewrite <- app_assoc in Hrcv6.
Qed.

(** The first critical section: room in the ring and a free buffer. *)
Definition make_room (q : list Z) : list Z :=
  if Z.of_nat (length q) =? RX_RING_PACKETS - 1 then drop 1 q else q.

Lemma make_room_spec c : ring_inv c ->
  let c' := if RXRING_VACANT c =? 0 then default c (RXRING_REMOVE c) else c in
  ring_inv c' /\ ring_queue c' = make_room (ring_queue c) /\
  Z.of_nat (length (ring_queue c')) < RX_RING_PACKETS - 1.
Proof.
  intros Hinv. cbv zeta. pose proof (ring_used c Hinv) as [_ ->].
  pose proof (ring_queue_length c) as Hl.
  pose proof (circ_count_range RX_RING_PACKETS ring_size_gt1 (head c) (tail c)) as Hr.
  unfold make_room.
  destruct (Z.eqb_spec (RX_RING_PACKETS - 1 - Z.of_nat (length (ring_queue c))) 0) as [Hz|Hz].
  - assert ((Z.of_nat (length (ring_queue c)) =? RX_RING_PACKETS - 1) = true) as ->
      by (apply Z.eqb_eq; lia).
    destruct (ring_queue c) as [|x q] eqn:Hq; [cbn [length] in *; pose proof ring_size_gt1; lia|].
    destruct (remove_spec c x q Hinv Hq) as (c' & -> & Hinv' & Hq'). cbn [from_option id].
    rewrite Hq'.
    split; [done|]. split; [done|]. cbn [length] in *. lia.
  - assert ((Z.of_nat (length (ring_queue c)) =? RX_RING_PACKETS - 1) = false) as ->
      by (apply Z.eqb_neq; lia). split; [done|]. split; [done|]. lia.
Qed.

Lemma not_in_drop (x : Z) k q : x ∉ q -> x ∉ drop k q.
Proof.
  intros Hx Hin. apply Hx. rewrite <- (take_drop k q). apply elem_of_app. by right.
Qed.

(** The second critical section. *)
Lemma insert_packet idx q w0 L cnt rv s t ws :
  0 <= idx < RX_RING_PACKETS -> idx ∉ q -> Z.of_nat (length q) < RX_RING_PACKETS - 1 ->
  mem (R_lock "rx_lock") L = false ->
  receiving idx q w0 L cnt rv s t ws ->
  wp e (do_ (spin_lock "rx_lock");;
        ring_insert idx;;
        used ← gets (fun s => RXRING_USED (rx_ring s));
        max ← gets (fun s => max_ring_used (stats s));
        when (max <? used) (modify (upd_stats (note_used used)));;
        do_ (spin_unlock "rx_lock");;
        do_ (wake_up "rx_wq");;
        mret (Some rv)) (fun r s' t' =>
    r = Some rv /\ ledger t' = Some L /\ ring_inv (rx_ring s') /\
    (exists k, ring_queue (rx_ring s') = drop k q ++ [idx]) /\
    data_words t' = w0 ++ ws /\ packets s' = packets s) s t.
Proof.
  intros Hidx Hni Hlen Hm [Hinv [k Hk] Hw HL _ _].
  destruct (insert_spec (rx_ring s) idx Hinv) as (c' & Hins & Hinv' & Hq').
  { rewrite Hk, length_drop. lia. }
  { done. }
  { rewrite Hk. by apply not_in_drop. }
  unfold ring_insert. wp_run.
  all: cbn [upd_ring upd_stats rx_ring packets]; rewrite Hins; cbn [from_option id].
  all: split; [done|]; split; [|split; [done|split; [exists k; by rewrite Hq', Hk|]]];
    [|by split; [exact Hw|]].
  all: rewrite !ledger_from_cons, HL; cbn -[mem remove1]; rewrite Hm; cbn -[mem remove1];
    by rewrite mem_cons_eq, remove1_cons_eq.
Qed.

(** What a call of [receive_packet] did: [q] is what is left of the ring after room
    was made. *)
Inductive received (q : list Z) (t : trace) (rv : Z) (s' : spi_imx_data) (t' : trace) : Prop :=
  | received_nothing : rv = -1 -> ring_queue (rx_ring s') = q -> data_words t' = data_words t ->
      received q t rv s' t'
  | received_into idx ws k :
      idx ∉ drop k q -> ring_queue (rx_ring s') = drop k q ++ [idx] ->
      data_words t' = data_words t ++ ws ->
      holds (packets s' idx) (from_sync ws) ->
      (rv = 1 /\ length (from_sync ws) = 47%nat \/ rv <= 0 /\ (length (from_sync ws) < 47)%nat) ->
      received q t rv s' t'.

End receive.

(** ** Transfers *)
Section transfer.
Context `{HC : CircMacrosSpec}.
Context (e : env spi_imx_data).

(** The other tasks keep the ring consistent, and the task is woken for a packet or
    a signal. *)
Hypothesis Hrely : forall t s, ring_inv (rx_ring s) -> ring_inv (rx_ring (interfere e t s)).
Hypothesis Hwake : forall t s, ring_queue (rx_ring (interfere e t s)) <> [] \/
  forall t', answer e t' signal_pending <> 0.

#[local] Set Default Proof Using "Type*".

(** The state in which the packet is taken: the one found, or the one left by the
    others at the end of the sleep. *)
Definition awake_at (slept : bool) (s : spi_imx_data) (t : trace) : spi_imx_data :=
  if slept then interfere e t s else s.

Inductive transferred (swab32 : Z -> Z) (len : Z) (s s' : spi_imx_data) (t : trace) :
    Z -> list Z -> Prop :=
  | transfer_signal : ring_queue (rx_ring s) = [] -> s' = interfere e t s ->
      transferred swab32 len s s' t (- ERESTARTSYS) []
  | transfer_packet slept t1 i q :
      ring_queue (rx_ring (awake_at slept s t1)) = i :: q ->
      ring_inv (rx_ring s') -> ring_queue (rx_ring s') = q ->
      packets s' = packets (awake_at slept s t1) ->
      transferred swab32 len s s' t len
        (map (fun k => swab32 (packets (awake_at slept s t1) i k)) (seqZ 0 47)).

(** The packet at the tail of the ring. *)
Lemma take_packet swab32 len s t L L0 i q : ring_inv (rx_ring s) ->
  ring_queue (rx_ring s) = i :: q -> ledger t = Some (R_lock "rx_lock" :: L0) -> L = L0 ->
  wp e (idx ← gets (fun s => default (-1) (RXRING_IDX (rx_ring s) (tail (rx_ring s))));
        if 0 <=? idx then
          out ← gets (fun s => memcpy_bswap_packet swab32 (packets s idx));
          ring_remove;;
          do_ (spin_unlock "rx_lock");;
          mret (Some (len, out))
        else mret (Some (- EFAULT, []))) (fun r s' t' =>
    ledger t' = Some L /\
    r = Some (len, map (fun k => swab32 (packets s i k)) (seqZ 0 47)) /\
    ring_inv (rx_ring s') /\ ring_queue (rx_ring s') = q /\ packets s' = packets s) s t.
Proof.
  intros Hinv Hq HL ->. destruct (remove_spec _ _ _ Hinv Hq) as (c' & Hrem & Hinv' & Hq').
  destruct (remove_idx _ _ _ Hinv Hq) as [Hidx Hi].
  apply wp_bind, wp_gets. rewrite Hidx. cbn [from_option id].
  destruct (Z.leb_spec 0 i); [|lia]. unfold ring_remove, memcpy_bswap_packet. wp_run.
  cbn [upd_ring rx_ring packets]. rewrite Hrem. cbn [from_option id].
  split; [|done]. rewrite ledger_from_cons, HL. cbn -[mem remove1].
  by rewrite mem_cons_eq, remove1_cons_eq.
Qed.

End transfer.

(** ** Concrete runs *)
#[export] Instance circ_macros : CircMacros := {
  CIRC_CNT h t n := Z.land (h - t) (n - 1);
  CIRC_SPACE h t n := Z.land (t - (h + 1)) (n - 1);
}.

#[export] Instance circ_macros_spec : CircMacrosSpec.
Proof.
  assert (forall x k, 0 <= k -> Z.land x (2 ^ k - 1) = x mod 2 ^ k) as Hland.
  { intros x k Hk. rewrite <- Z.land_ones by done. f_equal. rewrite Z.ones_equiv. lia. }
  split; intros h t k Hk Hh Ht; cbn [CIRC_CNT CIRC_SPACE circ_macros]; rewrite Hland by done;
    [done|].
  unfold circ_count. pose proof (Z.mod_pos_bound (h - t) (2 ^ k) ltac:(lia)).
  symmetry. apply (Z.mod_unique_pos _ _ (- ((h - t) / 2 ^ k) - 1)); [lia|].
  pose proof (Z.div_mod (h - t) (2 ^ k) ltac:(lia)). lia.
Qed.

(** A controller that has data for the first 200 calls, then a thread that is told
    to stop. *)
Definition spi_env : env spi_imx_data :=
  Env (fun t c => match c with
                  | readl off => if (length t <? 200)%nat
                                 then (if off =? MXC_CSPIRXDATA then 1191182336 else 8) else 0
                  | kthread_should_stop => if (length t <? 200)%nat then 0 else 1
                  | _ => 0
                  end) (fun _ s => s).

Definition idle_spi : spi_imx_data :=
  SpiData 0 0 (RXRING_CLEAR (CircBuf [] 0 0)) 1 (fun _ _ => 0) 2 zero_stats.


(** While the task sleeps, the receiver inserts buffer 0. *)
Definition filled_spi : spi_imx_data :=
  upd_ring (fun c => default c (RXRING_INSERT c 0)) idle_spi.

Definition wake_env : env spi_imx_data :=
  Env (fun _ _ => 0) (fun _ _ => filled_spi).

Lemma filled_ring : ring_inv (rx_ring filled_spi) /\ ring_queue (rx_ring filled_spi) = [0].
Proof.
  destruct (clear_spec (CircBuf [] 0 0)) as [Hinv Hq].
  destruct (insert_spec _ 0 Hinv) as (c' & Hc & Hinv' & Hq').
  - by rewrite Hq.
  - done.
  - rewrite Hq. by intros ?%not_elem_of_nil.
  - unfold filled_spi. cbn [upd_ring rx_ring idle_spi]. rewrite Hc. cbn [from_option id].
    by rewrite Hq', Hq.
Qed.

