(* ===== verification/SpiLifetime.v ===== *)
(** * Probe and remove of the SPI slave driver

    The resources that [spi_imx_probe] holds when it succeeds, what its error paths
    give back, and what [spi_imx_remove] leaves behind. *)
From S2P Require Import Prelude.
From S2P Require Import Kernel.
From S2P Require Import SpiRing.
From S2P Require Import SpiHw.
From S2P Require Import SpiSlave.
From S2P Require Import SpiReceive.
From stdpp Require Import options.

(** What a probed device holds, newest first. *)
Definition mem_resource (p : Z) : list resource := if c_true p then [R_mem p] else [].
Definition probed_resources (s : spi_imx_data) : list resource :=
  [R_procname "spi-slave"] ++ mem_resource (ring_mem s) ++ mem_resource (packets_mem s) ++
  [R_spi_bitbang; R_clk "ipg"; R_clk "per"; R_spi_master].

(** The core was started successfully. *)
Fixpoint bitbang_started (t : trace) : bool :=
  match t with
  | [] => false
  | Ev spi_bitbang_start r :: t' => (r =? 0) || bitbang_started t'
  | _ :: t' => bitbang_started t'
  end.

Section lifetime.
Context `{CircMacros}.
Context (e : env spi_imx_data) (N : nat).
Hypothesis Hquiet : forall t, (N <= length t)%nat ->
  Z.land (answer e t (readl MX51_ECSPI_STAT)) MX51_ECSPI_STAT_RR = 0.

#[local] Set Default Proof Using "Type*".

(** Draining the controller takes and gives back nothing. *)
Lemma wp_reset fuel (Q : option unit -> spi_imx_data -> trace -> Prop) s : forall t,
  (1 <= fuel)%nat -> (N < length t + fuel)%nat ->
  (forall t', ledger t' = ledger t -> bitbang_started t' = bitbang_started t -> Q (Some tt) s t') ->
  wp e (mx51_ecspi_reset fuel) Q s t.
Proof.
  induction fuel as [|fuel IH]; intros t Hf HN HQ; [lia|].
  cbn [mx51_ecspi_reset]. unfold mx51_ecspi_rx_available.
  apply wp_bind, wp_bind, wp_ask. intros a Ha. apply wp_ret.
  assert (forall c r t0, effect_of (Ev c r) = Neutral -> ledger (Ev c r :: t0) = ledger t0) as Hn.
  { intros c r t0 He. rewrite ledger_from_cons. unfold mbind, option_bind. rewrite He.
    by destruct (ledger t0). }
  unfold c_true. destruct (Z.eqb_spec (Z.land a MX51_ECSPI_STAT_RR) 0) as [H0|H0]; cbn [negb].
  - apply wp_ret, HQ; [by apply Hn|done].
  - assert (length t < N)%nat as Hlt.
    { destruct (le_lt_dec N (length t)) as [Hle|]; [|done]. by rewrite Ha, Hquiet in H0. }
    apply wp_bind, wp_do. intros r. apply IH; [lia|cbn; lia|].
    intros t' HL Hb. apply HQ; [by rewrite HL, !Hn|by rewrite Hb].
Qed.

(** Probe always returns.  When it succeeds it holds the device, both clocks,
    the started core, the buffers and the proc entry; when it fails it has given
    everything back exactly once, except that the core stays started when only the
    proc entry could not be made. *)
Theorem spi_imx_probe_resources fuel s :
  (N < fuel)%nat ->
  wp e (spi_imx_probe fuel) (fun r s' t' =>
    exists ret, r = Some ret /\ exists L, ledger t' = Some L /\
      (ret = 0 -> L = probed_resources s') /\
      (ret <> 0 -> L = if bitbang_started t' then [R_spi_bitbang] else [])) s [].
Proof.
  intros Hf. unfold spi_imx_probe, mx51_ecspi_init, mx51_ecspi_init_ctrl,
    mx51_ecspi_init_testreg, mx51_ecspi_init_config, mx51_ecspi_stat, mx51_ecspi_rxcnt,
    mx51_ecspi_stat_clr. cbv zeta.
  repeat (lazymatch goal with
          | |- wp _ (mx51_ecspi_reset _) _ _ _ => apply wp_reset; [lia|cbn; lia|intros ? ? ?]
          | _ => wp_step
          end; cbn beta zeta iota).
  all: unfold probed_resources, mem_resource; eexists; (split; [reflexivity|]).
  all: repeat match goal with H : ledger _ = ledger ?t |- _ =>
         revert H; path_ledger; intros H end.
  all: path_ledger; eexists; (split; [reflexivity|]); split; intros; try done; try path_contra.
  all: cbn; repeat match goal with H : bitbang_started _ = _ |- _ => rewrite H end;
    cbn; unfold c_true; rewrite_tests; done.
Qed.
End lifetime.

(** The calls of a removal, in order; the device's own memory is freed by
    [spi_master_put] before its fields are used for the last time. *)
Definition remove_calls (s : spi_imx_data) (ctrl : Z) : list call :=
  [remove_proc_entry "spi-slave"] ++
  (if c_true (rx_thrd s) then [kthread_stop (rx_thrd s)] else []) ++
  [spi_bitbang_stop; readl MX51_ECSPI_CTRL;
   writel (clear_bits ctrl MX51_ECSPI_CTRL_ENABLE) MX51_ECSPI_CTRL;
   spi_master_put; kfree (ring_mem s); kfree (packets_mem s)].

(** Removing a device that was probed gives back the proc entry, the core, the
    device and both buffers exactly once, stopping the receiver thread first if
    there is one; both clocks stay enabled, and the buffers are taken from the
    device after its last reference was given up. *)
Theorem spi_imx_remove_resources `{CircMacros} (e : env spi_imx_data) s t :
  ledger t = Some (probed_resources s) ->
  wp e spi_imx_remove (fun r s' t' =>
    r = 0 /\ ledger t' = Some [R_clk "ipg"; R_clk "per"] /\
    exists ctrl, calls t' = calls t ++ remove_calls s ctrl) s t.
Proof.
  intros HL. unfold spi_imx_remove, mx51_ecspi_disable, probed_resources, mem_resource in *.
  wp_run; (split; [done|]); unfold remove_calls; rewrite_tests; norm_tests.
  all: split; [|eexists; unfold calls; cbn [map rev ev_call]; by rewrite <- !app_assoc].
  all: unfold c_true in HL;
    destruct (ring_mem s =? 0) eqn:?, (packets_mem s =? 0) eqn:?; cbn [negb app] in HL.
  all: ledger_eval; done.
Qed.

(** ** Concrete runs *)
Definition probe_env : env spi_imx_data :=
  Env (fun t c => match c with
                  | readl _ => if (length t <? 20)%nat then 8 else 0
                  | _ => granted c
                  end) (fun _ s => s).

Lemma spi_imx_probe_resources_witness :
  wp probe_env (spi_imx_probe 21) (fun r s' t' =>
    r = Some 0 /\ ledger t' = Some (probed_resources s')) idle_spi [].
Proof.
  assert (wp probe_env (spi_imx_probe 21) (fun r _ _ => r = Some 0) idle_spi []) as H0
    by (vm_compute; reflexivity).
  assert (forall t, (20 <= length t)%nat ->
    Z.land (answer probe_env t (readl MX51_ECSPI_STAT)) MX51_ECSPI_STAT_RR = 0) as Hq.
  { intros t Ht. unfold answer, probe_env. by rewrite (proj2 (Nat.ltb_ge _ _) Ht). }
  eapply wp_mono;
    [apply (wp_conj _ _ _ _ _ _ H0 (spi_imx_probe_resources probe_env 20 Hq 21 idle_spi
       ltac:(lia)))|].
  intros r s' t' (-> & ret & [= <-] & L & HL & Hok & _). split; [reflexivity|].
  rewrite HL. f_equal. apply Hok. reflexivity.
Defined.

Definition probed_trace : trace :=
  [ Ev (proc_create_single "spi-slave") 4096; Ev (kzalloc "rx_ring") 2; Ev (kzalloc "packets") 1;
    Ev spi_bitbang_start 0; Ev (clk_prepare_enable "ipg") 0; Ev (clk_prepare_enable "per") 0;
    Ev spi_alloc_slave 4096 ].

Definition probed_spi : spi_imx_data := upd_ring (fun c => c) (set_mem 1 2 idle_spi).

Lemma spi_imx_remove_resources_witness :
  wp calm spi_imx_remove (fun r s' t' =>
    r = 0 /\ ledger t' = Some [R_clk "ipg"; R_clk "per"] /\
    exists ctrl, calls t' = calls probed_trace ++ remove_calls probed_spi ctrl)
    probed_spi probed_trace.
Proof. apply (spi_imx_remove_resources calm). vm_compute. reflexivity. Defined.
