(* ===== verification/SpiWakeup.v ===== *)
(** * Sleeping and waking in the SPI slave

    [slave-spi-driver/spi-slave-main.c] at the grain of its calls: [spi_imx_transfer]
    and the end and the beginning of [receive_packet], interleaved in any order.
    [SpiSlave] has both as programs, where all that happens during a sleep is a
    change of the ring; here the lock, the wait queue [rx_wq] and the state of the
    sleeping task are explicit, with the behaviour the kernel documents:
    [prepare_to_wait] puts the task on the queue and makes it interruptible,
    [wake_up] takes it off and makes it runnable, a signal makes it runnable, and
    [schedule] returns when it is.  The transfers are made by one thread of the SPI
    core, one after the other. *)
From S2P Require Import Prelude.
From S2P Require Import Kernel.
From S2P Require Import Circ.
From S2P Require Import SpiRing.
From S2P Require Import SpiReceive.
From stdpp Require Import options.
#[local] Open Scope Z_scope.

(** What [spi_imx_transfer] does next. *)
Inductive reader_pc :=
  | RLock
  | RTest                     (** [n_ready = RXRING_USED] and the tests of it *)
  | RUnlock
  | RPrepare
  | RSchedule
  | RFinish
  | RSignal
  | RTake                     (** copy and [RXRING_REMOVE] *)
  | RUnlockOk (idx : Z)
  | RReturn (r : Z + Z).      (** an error, or the buffer that was delivered *)

(** What [receive_packet] does next. *)
Inductive writer_pc :=
  | WLock
  | WRoom                     (** room in the ring, and the buffer *)
  | WUnlock (idx : Z)
  | WReceive (idx : Z)        (** the loop over the controller's data *)
  | WLock2 (idx : Z)
  | WInsert (idx : Z)
  | WUnlock2
  | WWake.

Inductive owner := Reader | Writer.

Record sys := Sys {
  ring : circ_buf;
  rx_lock : option owner;
  queued : bool;              (** the task is on [rx_wq] *)
  running : bool;             (** its state is [TASK_RUNNING] *)
  pending : bool;             (** [signal_pending (current)] *)
  reader : reader_pc;
  writer : writer_pc;
}.
Definition set_ring (c : circ_buf) (y : sys) : sys :=
  Sys c (rx_lock y) (queued y) (running y) (pending y) (reader y) (writer y).
Definition set_lock (o : option owner) (y : sys) : sys :=
  Sys (ring y) o (queued y) (running y) (pending y) (reader y) (writer y).
Definition set_task (q r : bool) (y : sys) : sys :=
  Sys (ring y) (rx_lock y) q r (pending y) (reader y) (writer y).
Definition set_pending (b : bool) (y : sys) : sys :=
  Sys (ring y) (rx_lock y) (queued y) (running y) b (reader y) (writer y).
Definition set_reader (pc : reader_pc) (y : sys) : sys :=
  Sys (ring y) (rx_lock y) (queued y) (running y) (pending y) pc (writer y).
Definition set_writer (pc : writer_pc) (y : sys) : sys :=
  Sys (ring y) (rx_lock y) (queued y) (running y) (pending y) (reader y) pc.

Section code.
Context `{CircMacros}.

(** One call of the transfer.  Where the lock is taken or the task not runnable, it
    does not move. *)
Definition reader_step (y : sys) : sys :=
  match reader y with
  | RLock =>
      match rx_lock y with
      | None => set_reader RTest (set_lock (Some Reader) y)
      | Some _ => y
      end
  | RTest => set_reader (if RXRING_USED (ring y) =? 0 then RUnlock else RTake) y
  | RUnlock => set_reader RPrepare (set_lock None y)
  | RPrepare => set_reader RSchedule (set_task true false y)
  | RSchedule => if running y || pending y then set_reader RFinish y else y
  | RFinish => set_reader RSignal (set_task false true y)
  | RSignal => set_reader (if pending y then RReturn (inl (- ERESTARTSYS)) else RLock) y
  | RTake =>
      let idx := default (-1) (RXRING_IDX (ring y) (tail (ring y))) in
      if 0 <=? idx then
        set_reader (RUnlockOk idx) (set_ring (default (ring y) (RXRING_REMOVE (ring y))) y)
      else set_reader (RReturn (inl (- EFAULT))) y
  | RUnlockOk idx => set_reader (RReturn (inr idx)) (set_lock None y)
  | RReturn _ => set_reader RLock (set_pending false y)
  end.

(** One call of the receiver; [data] says whether the controller has given the rest
    of the packet. *)
Definition writer_step (data : bool) (y : sys) : sys :=
  match writer y with
  | WLock =>
      match rx_lock y with
      | None => set_writer WRoom (set_lock (Some Writer) y)
      | Some _ => y
      end
  | WRoom =>
      let c := if c_true (RXRING_VACANT (ring y)) then ring y
               else default (ring y) (RXRING_REMOVE (ring y)) in
      set_writer (WUnlock (rxring_get_free_idx c)) (set_ring c y)
  | WUnlock idx => set_writer (WReceive idx) (set_lock None y)
  | WReceive idx => if data then set_writer (WLock2 idx) y else y
  | WLock2 idx =>
      match rx_lock y with
      | None => set_writer (WInsert idx) (set_lock (Some Writer) y)
      | Some _ => y
      end
  | WInsert idx =>
      set_writer WUnlock2 (set_ring (default (ring y) (RXRING_INSERT (ring y) idx)) y)
  | WUnlock2 => set_writer WWake (set_lock None y)
  | WWake => set_writer WLock (if queued y then set_task false true y else y)
  end.

Inductive action := Transfers | Receives (data : bool) | Signals.

Definition act (x : action) (y : sys) : sys :=
  match x with
  | Transfers => reader_step y
  | Receives data => writer_step data y
  | Signals => set_pending true (set_task (queued y) true y)
  end.

Fixpoint run (sched : list action) (y : sys) : sys :=
  match sched with
  | [] => y
  | x :: sched' => run sched' (act x y)
  end.
End code.

Definition idle (c : circ_buf) : sys := Sys c None false true false RLock WLock.

(** ** The invariant *)
Definition reader_inside (pc : reader_pc) : bool :=
  match pc with RTest | RUnlock | RTake | RUnlockOk _ => true | _ => false end.
Definition writer_inside (pc : writer_pc) : bool :=
  match pc with WRoom | WUnlock _ | WInsert _ | WUnlock2 => true | _ => false end.

(** The buffer that the receiver has taken, and its state. *)
Definition taken (pc : writer_pc) : option Z :=
  match pc with WUnlock i | WReceive i | WLock2 i | WInsert i => Some i | _ => None end.

Definition len (y : sys) : Z := Z.of_nat (length (ring_queue (ring y))).

Record inv (y : sys) : Prop := {
  i_ring : ring_inv (ring y);
  i_reader : reader_inside (reader y) = match rx_lock y with Some Reader => true | _ => false end;
  i_writer : writer_inside (writer y) = match rx_lock y with Some Writer => true | _ => false end;
  i_taken : forall i, taken (writer y) = Some i ->
    0 <= i < RX_RING_PACKETS /\ (i ∉ ring_queue (ring y)) /\ len y < RX_RING_PACKETS - 1;
  i_task : match reader y with
           | RSchedule => running y = false -> queued y = true
           | RFinish => True
           | _ => queued y = false /\ running y = true
           end;
  i_found : match reader y with
            | RUnlock => ring_queue (ring y) = []
            | RTake => ring_queue (ring y) <> []
            | _ => True
            end;
}.

(** The transfer sleeps. *)
Definition asleep (y : sys) : bool :=
  match reader y with RSchedule => negb (running y || pending y) | _ => false end.
(** The receiver is on its way to wake it. *)
Definition waking (y : sys) : bool :=
  match writer y with WUnlock2 | WWake => true | _ => false end.

Section proofs.
Context `{CircMacrosSpec}.
#[local] Set Default Proof Using "All".

Lemma used_zero c : ring_inv c -> ((RXRING_USED c =? 0) = true) <-> (ring_queue c = []).
Proof.
  intros Hr. destruct (ring_used c Hr) as [-> _]. rewrite Z.eqb_eq.
  destruct (ring_queue c); cbn; split; done || lia.
Qed.

Lemma idle_inv c : ring_inv c -> inv (idle c).
Proof. constructor; cbn; done. Qed.

Ltac fields Hpc := constructor; cbn; try done; try (by rewrite ?Hpc in * |- *); auto.

Lemma take_spec y : inv y -> reader y = RTake ->
  exists i q c', ring_queue (ring y) = i :: q /\ ring_inv c' /\ ring_queue c' = q /\
    reader_step y = set_reader (RUnlockOk i) (set_ring c' y).
Proof.
  intros [] Hpc. rewrite Hpc in *. destruct (ring_queue (ring y)) as [|i q] eqn:Hq; [done|].
  destruct (remove_spec _ _ _ i_ring0 Hq) as (c' & Hrem & Hi' & Hq').
  destruct (remove_idx _ _ _ i_ring0 Hq) as [Hidx Hrange].
  exists i, q, c'. split_and!; try done. unfold reader_step. rewrite Hpc, Hidx, Hrem. cbn.
  by destruct (Z.leb_spec 0 i); [|lia].
Qed.

Lemma reader_inv y : inv y -> inv (reader_step y).
Proof.
  intros Hinv. pose proof Hinv as [].
  destruct (reader y) eqn:Hpc;
    lazymatch type of Hpc with _ = RTake => idtac | _ => unfold reader_step; rewrite Hpc end.
  - destruct (rx_lock y) eqn:Hl; [done|]. fields Hpc.
  - pose proof (used_zero _ i_ring0) as Hz. destruct (_ =? 0); fields Hpc.
    + by apply Hz.
    + intros He. by apply Hz in He.
  - fields Hpc. by destruct (rx_lock y) as [[]|].
  - fields Hpc.
  - destruct (running y || pending y); [|done]. fields Hpc.
  - fields Hpc.
  - destruct (pending y); fields Hpc.
  - destruct (take_spec y Hinv Hpc) as (i & q & c' & Hq & Hi' & Hq' & ->). fields Hpc.
    intros j Hj. destruct (i_taken0 j Hj) as (Hr & Hni & Hlen). unfold len in *. cbn.
    rewrite Hq', Hq in *. cbn [length] in Hlen. apply not_elem_of_cons in Hni as [_ Hni].
    split_and!; [lia..|done|lia].
  - fields Hpc. by destruct (rx_lock y) as [[]|].
  - fields Hpc.
Qed.

Lemma room_spec c : ring_inv c ->
  let c' := if c_true (RXRING_VACANT c) then c else default c (RXRING_REMOVE c) in
  ring_inv c' /\ Z.of_nat (length (ring_queue c')) < RX_RING_PACKETS - 1 /\
  (ring_queue c = [] -> ring_queue c' = []).
Proof.
  intros Hr. destruct (ring_used c Hr) as [_ Hv]. cbv zeta. rewrite Hv. unfold c_true.
  pose proof (ring_queue_length c).
  pose proof (circ_count_range RX_RING_PACKETS ring_size_gt1 (head c) (tail c)).
  destruct (Z.eqb_spec (RX_RING_PACKETS - 1 - Z.of_nat (length (ring_queue c))) 0) as [Hz|Hz]; cbn [negb].
  - destruct (ring_queue c) as [|i q] eqn:Hq; [cbn in Hz; done|].
    destruct (remove_spec _ _ _ Hr Hq) as (c' & -> & Hi' & Hq'). cbn [default from_option id].
    rewrite Hq'. cbn [length] in Hz. unfold RX_RING_PACKETS in *. split_and!; [done|lia|done].
  - split_and!; [done|lia|done].
Qed.

Lemma writer_inv d y : inv y -> inv (writer_step d y).
Proof.
  intros Hinv. pose proof Hinv as [].
  destruct (writer y) eqn:Hpc; unfold writer_step; rewrite Hpc.
  - destruct (rx_lock y) eqn:Hl; [done|]. fields Hpc.
  - destruct (room_spec _ i_ring0) as (Hi' & Hlen & Hemp).
    destruct (free_idx_spec _ Hi') as (Hr & Hni). fields Hpc.
    + intros i [= <-]. exact (conj Hr (conj Hni Hlen)).
    + cbn in i_writer0. by destruct (reader y), (rx_lock y) as [[]|].
  - fields Hpc. by destruct (rx_lock y) as [[]|].
  - destruct d; [|done]. fields Hpc.
  - destruct (rx_lock y) eqn:Hl; [done|]. fields Hpc.
  - destruct (i_taken0 idx eq_refl) as (Hr & Hni & Hlen).
    destruct (insert_spec _ _ i_ring0 Hlen Hr Hni) as (c' & Hins & Hi' & Hq').
    rewrite Hins. cbn [default from_option id]. fields Hpc.
    cbn in i_writer0. by destruct (reader y), (rx_lock y) as [[]|].
  - fields Hpc. by destruct (rx_lock y) as [[]|].
  - destruct (queued y) eqn:Hqd; fields Hpc; destruct (reader y); intuition congruence.
Qed.

Lemma wakeup_act_inv x y : inv y -> inv (act x y).
Proof.
  intros Hinv. destruct x as [|d|]; cbn; [by apply reader_inv|by apply writer_inv|].
  destruct Hinv. constructor; cbn; try done. destruct (reader y); intuition congruence.
Qed.

Lemma wakeup_run_inv sched y : inv y -> inv (run sched y).
Proof. revert y. induction sched as [|x sched IH]; intros y Hi; [done|]. by apply IH, wakeup_act_inv. Qed.

(** ** Wake-ups that are lost *)

(** The receiver wakes nobody although a packet is ready, because the transfer is
    between the test of the ring and [prepare_to_wait]. *)
Definition too_early (x : action) (y : sys) : bool :=
  match x, writer y, reader y with
  | Receives _, WWake, RPrepare => negb (RXRING_USED (ring y) =? 0)
  | _, _, _ => false
  end.
Fixpoint prompt (sched : list action) (y : sys) : bool :=
  match sched with
  | [] => true
  | x :: sched' => negb (too_early x y) && prompt sched' (act x y)
  end.

(** A packet is ready, and the transfer does not know of it. *)
Definition unaware (y : sys) : bool :=
  match reader y with RPrepare => true | _ => asleep y end.
Definition informed (y : sys) : Prop :=
  unaware y = true -> ring_queue (ring y) <> [] -> waking y = true.

Lemma informed_step x y : inv y -> informed y -> too_early x y = false -> informed (act x y).
Proof.
  intros Hinv Hinf Hte. pose proof Hinv as []. unfold informed, unaware, asleep, waking in *.
  destruct x as [|d|]; cbn [act].
  - destruct (reader y) eqn:Hpc;
      lazymatch type of Hpc with _ = RTake => idtac | _ => unfold reader_step; rewrite Hpc end;
      cbn; rewrite ?Hpc; try done.
    + destruct (rx_lock y); cbn; [by rewrite Hpc|done].
    + by destruct (_ =? 0).
    + intros _ Hne. by apply Hinf.
    + destruct (running y || pending y) eqn:Hrp; cbn; [done|]. by rewrite Hpc, Hrp.
    + by destruct (pending y).
    + by destruct (take_spec y Hinv Hpc) as (i & q & c' & _ & _ & _ & ->).
  - destruct (writer y) eqn:Hpc; unfold writer_step; rewrite Hpc; cbn; try done.
    + destruct (rx_lock y); cbn; by rewrite ?Hpc.
    + intros Hu Hne. destruct (room_spec _ i_ring0) as (_ & _ & Hemp).
      destruct (ring_queue (ring y)) eqn:Hq; [by rewrite Hemp in Hne|]. by apply Hinf.
    + destruct d; cbn; by rewrite ?Hpc.
    + destruct (rx_lock y); cbn; by rewrite ?Hpc.
    + unfold too_early in Hte. rewrite Hpc in Hte. intros Hu Hne. exfalso.
      destruct (reader y) eqn:Hr; try (by destruct (queued y); cbn in Hu; rewrite Hr in Hu).
      * apply negb_false_iff in Hte. apply (used_zero _ i_ring0) in Hte.
        by destruct (queued y).
      * destruct (running y) eqn:Hrun; [by destruct (queued y); cbn in Hu; rewrite Hr, ?Hrun in Hu|].
        rewrite i_task0 in Hu by done. cbn in Hu. by rewrite Hr in Hu.
  - cbn. by destruct (reader y).
Qed.

Lemma informed_run sched y : inv y -> informed y -> prompt sched y = true ->
  informed (run sched y).
Proof.
  revert y. induction sched as [|x sched IH]; intros y Hi Hinf; [done|]. cbn [prompt run].
  intros [Ht%negb_true_iff Hp]%andb_true_iff.
  apply IH; [by apply wakeup_act_inv|by apply informed_step|done].
Qed.

(** C10: a transfer sleeps beside a packet that is ready, with no wake-up under way,
    only if a wake-up came between its test of the ring and [prepare_to_wait]; and a
    wake-up that comes there is always lost: the transfer then sleeps beside the
    packet, and nothing it does by itself ends that. *)
Theorem wakeup_lost_exactly c sched d :
  ring_inv c ->
  let y := run sched (idle c) in
  (asleep y = true -> ring_queue (ring y) <> [] -> waking y = false -> prompt sched (idle c) = false) /\
  (too_early (Receives d) y = true -> pending y = false ->
   let y' := run [Receives d; Transfers] y in
   asleep y' = true /\ ring_queue (ring y') <> [] /\ waking y' = false /\
   forall n, run (replicate n Transfers) y' = y').
Proof.
  intros Hc y. pose proof (wakeup_run_inv sched _ (idle_inv c Hc)) as Hinv. fold y in Hinv. split.
  - intros Ha Hne Hw. destruct (prompt sched (idle c)) eqn:Hp; [exfalso|done].
    assert (informed y) as Hinf by (apply informed_run; [by apply idle_inv|done|done]).
    unfold informed, unaware in Hinf. rewrite Hinf in Hw; [done| |done].
    by destruct (reader y).
  - intros Hte Hpend. unfold too_early in Hte.
    destruct (writer y) eqn:Hw; try done. destruct (reader y) eqn:Hr; try done.
    apply negb_true_iff in Hte. pose proof Hinv as []. rewrite Hr in i_task0.
    destruct i_task0 as [Hq Hrun].
    assert (run [Receives d; Transfers] y =
            set_reader RSchedule (set_task true false (set_writer WLock y))) as ->.
    { cbn. unfold writer_step. rewrite Hw, Hq. unfold reader_step. cbn. by rewrite Hr. }
    cbv zeta. unfold asleep, waking. cbn. rewrite Hpend. split_and!; try done.
    + intros He. apply (used_zero _ i_ring0) in He. congruence.
    + intros n. induction n as [|n IH]; [done|]. cbn [replicate run act].
      unfold reader_step at 1. cbn. by rewrite Hpend.
Qed.

(** ** The next packet *)

(** The receiver has finished a packet and waits for the lock. *)
Definition finished (y y' : sys) : Prop :=
  inv y' /\ writer y' = WLock /\ reader y' = RSchedule /\ running y' = true /\
  pending y' = pending y /\ rx_lock y' = None /\ ring_queue (ring y') <> [].

Lemma lock_free y : inv y -> reader_inside (reader y) = false -> writer_inside (writer y) = false ->
  rx_lock y = None.
Proof. intros [] Hr Hw. rewrite Hr in *. rewrite Hw in *. by destruct (rx_lock y) as [[]|]. Qed.

Lemma finish_wake y : inv y -> writer y = WWake -> reader y = RSchedule ->
  ring_queue (ring y) <> [] -> finished y (writer_step true y).
Proof.
  intros Hinv Hw Hr Hne. pose proof (writer_inv true _ Hinv) as Hi.
  pose proof (lock_free y Hinv ltac:(by rewrite Hr) ltac:(by rewrite Hw)) as Hl.
  pose proof Hinv as []. rewrite Hr in i_task0. unfold finished.
  split; [done|]. unfold writer_step. rewrite Hw.
  destruct (queued y); cbn; split_and!; try done.
  destruct (running y); [done|]. by rewrite i_task0.
Qed.

Lemma writer_keeps d y : reader (writer_step d y) = reader y /\ pending (writer_step d y) = pending y.
Proof.
  unfold writer_step. destruct (writer y); try done; by repeat case_match.
Qed.

(** [k] calls of the receiver finish a packet. *)
Definition finishes (k : nat) (y : sys) : Prop := finished y (run (replicate k (Receives true)) y).

Lemma finishes_step k y : finishes k (writer_step true y) -> finishes (S k) y.
Proof.
  unfold finishes, finished. cbn. destruct (writer_keeps true y) as [_ <-]. done.
Qed.

Section asleep.
Context (y : sys) (Hinv : inv y) (Hr : reader y = RSchedule).

Lemma free_here : writer_inside (writer y) = false -> rx_lock y = None.
Proof. apply lock_free; [done|by rewrite Hr]. Qed.

Lemma from_wake : writer y = WWake -> ring_queue (ring y) <> [] -> finishes 1 y.
Proof. intros. by apply finish_wake. Qed.
End asleep.

Ltac next lem y :=
  apply finishes_step; eapply lem;
  [by apply writer_inv
  |by destruct (writer_keeps true y) as [-> _]
  |unfold writer_step..].

Lemma from_unlock2 y : inv y -> reader y = RSchedule -> writer y = WUnlock2 ->
  ring_queue (ring y) <> [] -> finishes 2 y.
Proof. intros Hinv Hr Hw Hne. next from_wake y; by rewrite Hw. Qed.

Lemma from_insert y i : inv y -> reader y = RSchedule -> writer y = WInsert i -> finishes 3 y.
Proof.
  intros Hinv Hr Hw. next from_unlock2 y; rewrite Hw; [done|].
  pose proof Hinv as []. destruct (i_taken0 i) as (Hrange & Hni & Hlen); [by rewrite Hw|].
  destruct (insert_spec _ _ i_ring0 Hlen Hrange Hni) as (c' & -> & _ & Hq). cbn. rewrite Hq.
  by destruct (ring_queue (ring y)).
Qed.

Lemma from_lock2 y i : inv y -> reader y = RSchedule -> writer y = WLock2 i -> finishes 4 y.
Proof.
  intros Hinv Hr Hw. next from_insert y.
  by rewrite Hw, (free_here y Hinv Hr) by (by rewrite Hw).
Qed.

Lemma from_receive y i : inv y -> reader y = RSchedule -> writer y = WReceive i -> finishes 5 y.
Proof. intros Hinv Hr Hw. next from_lock2 y. by rewrite Hw. Qed.

Lemma from_unlock y i : inv y -> reader y = RSchedule -> writer y = WUnlock i -> finishes 6 y.
Proof. intros Hinv Hr Hw. next from_receive y. by rewrite Hw. Qed.

Lemma from_room y : inv y -> reader y = RSchedule -> writer y = WRoom -> finishes 7 y.
Proof. intros Hinv Hr Hw. next from_unlock y. by rewrite Hw. Qed.

Lemma from_lock y : inv y -> reader y = RSchedule -> writer y = WLock -> finishes 8 y.
Proof.
  intros Hinv Hr Hw. next from_room y.
  by rewrite Hw, (free_here y Hinv Hr) by (by rewrite Hw).
Qed.

Lemma from_wake_again y : inv y -> reader y = RSchedule -> writer y = WWake -> finishes 9 y.
Proof. intros Hinv Hr Hw. next from_lock y. by rewrite Hw. Qed.

Lemma packet_finishes y : inv y -> reader y = RSchedule -> exists k, (k <= 10)%nat /\ finishes k y.
Proof.
  intros Hinv Hr. destruct (writer y) as [| |i|i|i|i| |] eqn:Hw.
  - exists 8%nat. split; [lia|by apply from_lock].
  - exists 7%nat. split; [lia|by apply from_room].
  - exists 6%nat. split; [lia|by eapply from_unlock].
  - exists 5%nat. split; [lia|by eapply from_receive].
  - exists 4%nat. split; [lia|by eapply from_lock2].
  - exists 3%nat. split; [lia|by eapply from_insert].
  - exists 10%nat. split; [lia|]. next from_wake_again y. by rewrite Hw.
  - exists 9%nat. split; [lia|by apply from_wake_again].
Qed.

Lemma wakeup_run_app s1 s2 y : run (s1 ++ s2) y = run s2 (run s1 y).
Proof. revert y. induction s1; intros y; cbn; auto. Qed.

Lemma five_calls y : reader y = RSchedule -> running y = true -> pending y = false ->
  rx_lock y = None -> (RXRING_USED (ring y) =? 0) = false ->
  run (replicate 5 Transfers) y =
    set_reader RTake (set_lock (Some Reader) (set_task false true y)).
Proof.
  intros Hr Hrun Hp Hl Hz. cbn [replicate run act].
  assert (reader_step y = set_reader RFinish y) as ->
    by (unfold reader_step; by rewrite Hr, Hrun).
  change (reader_step (set_reader RFinish y)) with (set_reader RSignal (set_task false true y)).
  assert (reader_step (set_reader RSignal (set_task false true y)) =
          set_reader RLock (set_task false true y)) as ->
    by (unfold reader_step; cbn; by rewrite Hp).
  assert (reader_step (set_reader RLock (set_task false true y)) =
          set_reader RTest (set_lock (Some Reader) (set_task false true y))) as ->
    by (unfold reader_step; cbn; by rewrite Hl).
  unfold reader_step; cbn -[Z.eqb]. by rewrite Hz.
Qed.

(** A transfer that is woken with a packet ready takes the oldest. *)
Lemma woken_takes y : inv y -> reader y = RSchedule -> running y = true -> pending y = false ->
  rx_lock y = None -> ring_queue (ring y) <> [] ->
  exists i q, ring_queue (ring y) = i :: q /\
    reader (run (replicate 7 Transfers) y) = RReturn (inr i).
Proof.
  intros Hinv Hr Hrun Hp Hl Hne.
  pose proof (wakeup_run_inv (replicate 5 Transfers) y Hinv) as Hi5.
  assert ((RXRING_USED (ring y) =? 0) = false) as Hz.
  { destruct (RXRING_USED (ring y) =? 0) eqn:Hz; [|done].
    by apply (used_zero _ (i_ring _ Hinv)) in Hz. }
  pose proof (five_calls y Hr Hrun Hp Hl Hz) as H5.
  rewrite H5 in Hi5. destruct (take_spec _ Hi5 eq_refl) as (i & q & c' & Hq & _ & _ & Hst).
  exists i, q. split; [exact Hq|].
  change (replicate 7 Transfers) with (replicate 5 Transfers ++ [Transfers; Transfers])%list.
  rewrite wakeup_run_app, H5. cbn [run act]. by rewrite Hst.
Qed.

(** C34: a transfer that sleeps, even beside a packet, is delayed by one packet at
    most: from any state of any schedule, at most ten calls of the receiver, which
    complete the next packet, make it runnable, and seven calls of its own then
    return the oldest packet of the ring. *)
Theorem next_packet_wakes c sched :
  ring_inv c ->
  let y := run sched (idle c) in
  asleep y = true ->
  exists k i q, (k <= 10)%nat /\
    let y1 := run (replicate k (Receives true)) y in
    ring_queue (ring y1) = i :: q /\
    reader (run (replicate 7 Transfers) y1) = RReturn (inr i).
Proof.
  intros Hc y Ha. pose proof (wakeup_run_inv sched _ (idle_inv c Hc)) as Hinv. fold y in Hinv.
  unfold asleep in Ha. destruct (reader y) eqn:Hr; try done.
  apply negb_true_iff, orb_false_iff in Ha as [_ Hp].
  destruct (packet_finishes y Hinv Hr) as (k & Hk & (Hi & _ & Hr1 & Hrun & Hp1 & Hl & Hne)).
  rewrite Hp in Hp1. destruct (woken_takes _ Hi Hr1 Hrun Hp1 Hl Hne) as (i & q & Hq & Ht).
  by exists k, i, q.
Qed.

End proofs.

(** ** Concrete runs *)
Definition empty_ring : circ_buf := RXRING_CLEAR (CircBuf [] 0 0).

(** The transfer finds the ring empty; before it joins the queue a packet comes. *)
Definition unlucky : list action := replicate 3 Transfers ++ replicate 7 (Receives true).

Lemma wakeup_lost_exactly_witness :
  let y := run unlucky (idle empty_ring) in
  let y' := run [Receives true; Transfers] y in
  asleep y' = true /\ ring_queue (ring y') <> [] /\ waking y' = false /\
  forall n, run (replicate n Transfers) y' = y'.
Proof.
  apply (wakeup_lost_exactly empty_ring unlucky true); [apply clear_spec|..];
    vm_compute; reflexivity.
Defined.

Lemma next_packet_wakes_witness :
  let y := run (unlucky ++ [Receives true; Transfers]) (idle empty_ring) in
  exists k i q, (k <= 10)%nat /\
    let y1 := run (replicate k (Receives true)) y in
    ring_queue (ring y1) = i :: q /\
    reader (run (replicate 7 Transfers) y1) = RReturn (inr i).
Proof.
  apply (next_packet_wakes empty_ring (unlucky ++ [Receives true; Transfers]));
    [apply clear_spec|vm_compute; reflexivity].
Defined.
