(* ===== verification/KfifoRxTx.v ===== *)
(** * The receive and transmit queues of a character device

    [openwrt/kernel/gpt/kfifo_rxtx.c]: an interrupt handler fills a receive queue
    that drops its oldest byte when full, readers wait for bytes, writers wait for
    room in a transmit queue that a work item drains.  The first opener requests
    the interrupt and the last closer frees it.  [mydev_hw_init] and
    [mydev_hw_deinit], placeholders that nothing calls, are left out.

    A task that waits for the lock spins while others run, and [request_irq] may
    sleep: both are [sleep]s of the model. *)
From S2P Require Import Prelude.
From S2P Require Import Kernel.
From S2P Require Import Kfifo.
From stdpp Require Import options.

Record mydev (F : Type) := Mydev {
  gpio_in : Z;
  irq : Z;
  rx_fifo : F;
  tx_fifo : F;
  open_count : Z;
  gdev : Z;  (** the pointer of the module to the device *)
}.
Arguments Mydev {F}. Arguments gpio_in {F}. Arguments irq {F}. Arguments rx_fifo {F}.
Arguments tx_fifo {F}. Arguments open_count {F}. Arguments gdev {F}.

Section code.
Context {F : Type} `{HF : Kfifo F}.
Notation prog := (M (mydev F)).
Implicit Types d : mydev F.

(** ** Field updates *)
Definition set_gpio_in (g : Z) d := Mydev g (irq d) (rx_fifo d) (tx_fifo d) (open_count d) (gdev d).
Definition set_irq (i : Z) d := Mydev (gpio_in d) i (rx_fifo d) (tx_fifo d) (open_count d) (gdev d).
Definition set_rx_fifo (f : F) d := Mydev (gpio_in d) (irq d) f (tx_fifo d) (open_count d) (gdev d).
Definition set_tx_fifo (f : F) d := Mydev (gpio_in d) (irq d) (rx_fifo d) f (open_count d) (gdev d).
Definition set_open_count (n : Z) d := Mydev (gpio_in d) (irq d) (rx_fifo d) (tx_fifo d) n (gdev d).
Definition set_gdev (p : Z) d := Mydev (gpio_in d) (irq d) (rx_fifo d) (tx_fifo d) (open_count d) p.

(** A queue operation on one of the two queues. *)
Definition on_rx_fifo {A} (op : F -> F * A) : prog A := fun e d t =>
  let '(f, a) := op (rx_fifo d) in (a, set_rx_fifo f d, t).
Definition on_tx_fifo {A} (op : F -> F * A) : prog A := fun e d t =>
  let '(f, a) := op (tx_fifo d) in (a, set_tx_fifo f d, t).

(** [atomic_fetch_add_unless (&open_count, 1, INT_MAX)], [atomic_dec_return]. *)
Definition fetch_add_open : prog Z :=
  old ← gets open_count;
  modify (set_open_count (if old =? INT_MAX then old else old + 1));;
  mret old.
Definition dec_return_open : prog Z :=
  modify (fun d => set_open_count (i32 (open_count d - 1)) d);;
  gets open_count.

(** ** Hardware *)
Definition hw_rx_read_level (g : Z) : prog Z :=
  v ← ask (gpiod_get_value g);
  mret (if c_true v then 1 else 0).

(** The body of the stub is empty; the model records the byte it is given. *)
Definition hw_tx_send_byte (b : Z) : prog unit := do_ (hw_send b).

(** Two stubs that nothing calls; the handlers they pass are null pointers. *)
Definition mydev_hw_init : prog Z :=
  i ← gets irq;
  do_ (request_irq i);;
  do_ (free_irq i);;
  do_ (request_irq i);;
  do_ (free_irq i);;
  do_ (request_irq i);;
  mret 0.
Definition mydev_hw_deinit : prog unit :=
  i ← gets irq;
  do_ (disable_irq i);;
  do_ (synchronize_irq i);;
  do_ (free_irq i).

(** ** Interrupt and work item *)
Definition mydev_irq_handler : prog unit :=
  g ← gets gpio_in;
  val ← hw_rx_read_level g;
  do_ (spin_lock "lock");;
  full ← gets (fun d => kfifo_is_full (rx_fifo d));
  when full (_ ← on_rx_fifo (kfifo_out 1); mret tt);;
  _ ← on_rx_fifo (kfifo_in [val]);
  do_ (spin_unlock "lock");;
  do_ (wake_up_interruptible "rx_wq").

(** The loop of the worker; the result is [got], or [None] out of fuel. *)
Fixpoint tx_work_loop (fuel : nat) (got : Z) : prog (option Z) :=
  match fuel with
  | O => mret None
  | S fuel' =>
      _ ← sleep (spin_lock_irqsave "lock");
      out ← on_tx_fifo (kfifo_out 1);
      match out with
      | [] => do_ (spin_unlock_irqrestore "lock");; mret (Some got)
      | byte :: _ =>
          do_ (spin_unlock_irqrestore "lock");;
          hw_tx_send_byte byte;;
          tx_work_loop fuel' (u32 (got + 1))
      end
  end.

Definition tx_work_fn (fuel : nat) : prog (option unit) :=
  got ← tx_work_loop fuel 0;
  match got with
  | None => mret None
  | Some got => when (c_true got) (do_ (wake_up_interruptible "tx_wq"));; mret (Some tt)
  end.

(** ** File operations *)
(** The section of a read under the lock: result and bytes copied. *)
Definition mydev_read_locked (count : Z) : prog (Z * list Z) :=
  _ ← sleep (spin_lock_irq "lock");
  u ← ask (user_access count);
  r ← on_rx_fifo (kfifo_to_user u count);
  do_ (spin_unlock_irq "lock");;
  mret r.

Definition mydev_read (nonblock : bool) (count : Z) : prog (Z * list Z) :=
  if count =? 0 then mret (0, [])
  else
    let copy :=
      '(ret, out) ← mydev_read_locked count;
      if c_true ret then mret (ret, out)
      else
        let copied := Z.of_nat (length out) in
        when (c_true copied) (do_ (wake_up_interruptible "tx_wq"));;
        mret (copied, out) in
    empty ← gets (fun d => kfifo_is_empty (rx_fifo d));
    if (empty : bool) then
      if nonblock then mret (- EAGAIN, [])
      else
        ret ← sleep (wait_event_interruptible "rx_wq");
        if c_true ret then mret (ret, []) else copy
    else copy.

(** The loop at the head of a write: [Some 0] once there is room. *)
Fixpoint mydev_write_wait (nonblock : bool) (fuel : nat) : prog (option Z) :=
  match fuel with
  | O => mret None
  | S fuel' =>
      full ← gets (fun d => kfifo_is_full (tx_fifo d));
      if (full : bool) then
        if nonblock then mret (Some (- EAGAIN))
        else
          ret ← sleep (wait_event_interruptible "tx_wq");
          if c_true ret then mret (Some ret) else mydev_write_wait nonblock fuel'
      else mret (Some 0)
  end.

Definition mydev_write (nonblock : bool) (fuel : nat) (from : list Z) : prog (option Z) :=
  if Z.of_nat (length from) =? 0 then mret (Some 0)
  else
    w ← mydev_write_wait nonblock fuel;
    match w with
    | None => mret None
    | Some ret =>
        if c_true ret then mret (Some ret)
        else
          _ ← sleep (spin_lock_irq "lock");
          u ← ask (user_access (Z.of_nat (length from)));
          '(ret, copied) ← on_tx_fifo (kfifo_from_user u from);
          do_ (spin_unlock_irq "lock");;
          if c_true ret then mret (Some ret)
          else
            do_ (schedule_work "tx_work");;
            mret (Some copied)
    end.

Abbreviation POLLIN := 1.
Abbreviation POLLOUT := 4.
Abbreviation POLLRDNORM := 64.
Abbreviation POLLWRNORM := 256.

Definition mydev_poll : prog Z :=
  do_ (poll_wait "rx_wq");;
  do_ (poll_wait "tx_wq");;
  empty ← gets (fun d => kfifo_is_empty (rx_fifo d));
  full ← gets (fun d => kfifo_is_full (tx_fifo d));
  let mask := 0 in
  let mask := if negb empty then Z.lor mask (Z.lor POLLIN POLLRDNORM) else mask in
  let mask := if negb full then Z.lor mask (Z.lor POLLOUT POLLWRNORM) else mask in
  mret mask.

Definition mydev_open : prog Z :=
  old ← fetch_add_open;
  if old =? 0 then
    i ← gets irq;
    ret ← sleep (request_irq i);
    if c_true ret then
      _ ← dec_return_open;
      mret ret
    else mret 0
  else mret 0.

(** The common part of the last close and of unloading an open device. *)
Definition quiesce : prog unit :=
  i ← gets irq;
  do_ (disable_irq i);;
  do_ (synchronize_irq i);;
  do_ (free_irq i);;
  do_ (cancel_work_sync "tx_work").

Definition mydev_release : prog Z :=
  n ← dec_return_open;
  when (n =? 0) quiesce;;
  mret 0.

(** ** Loading and unloading *)
Definition mydev_module_init : prog Z :=
  p ← ask (kzalloc "mydev");
  if p =? 0 then mret (- ENOMEM)
  else
    let err_free ret := do_ (kfree p);; mret ret in
    let err_free_rx ret := do_ (kfifo_free "rx_fifo");; err_free ret in
    let err_free_tx ret := do_ (kfifo_free "tx_fifo");; err_free_rx ret in
    modify (fun d => set_open_count 0 d);;
    ret ← ask (kfifo_alloc "rx_fifo");
    if c_true ret then err_free ret
    else
      modify (fun d => set_rx_fifo (kfifo_reset (rx_fifo d)) d);;
      ret ← ask (kfifo_alloc "tx_fifo");
      if c_true ret then err_free_rx ret
      else
        modify (fun d => set_tx_fifo (kfifo_reset (tx_fifo d)) d);;
        g ← ask (gpiod_get "data-in");
        modify (set_gpio_in g);;
        if IS_ERR g then err_free_tx (PTR_ERR g)
        else
          let err_put_gpio ret := do_ (gpiod_put g);; err_free_tx ret in
          i ← ask (gpiod_to_irq g);
          modify (set_irq i);;
          if i <? 0 then err_put_gpio i
          else
            ret ← ask alloc_chrdev_region;
            if c_true ret then err_put_gpio ret
            else
              do_ cdev_init;;
              ret ← ask cdev_add;
              if c_true ret then
                do_ unregister_chrdev_region;;
                err_put_gpio ret
              else
                modify (set_gdev p);;
                mret 0.

Definition IS_ERR_OR_NULL (p : Z) : bool := (p =? 0) || IS_ERR p.

Definition mydev_module_exit : prog unit :=
  d ← gets gdev;
  if d =? 0 then mret tt
  else
    n ← gets open_count;
    when (0 <? n) quiesce;;
    do_ cdev_del;;
    do_ unregister_chrdev_region;;
    g ← gets gpio_in;
    when (negb (IS_ERR_OR_NULL g)) (do_ (gpiod_put g));;
    do_ (kfifo_free "rx_fifo");;
    do_ (kfifo_free "tx_fifo");;
    do_ (kfree d);;
    modify (set_gdev 0).
End code.

(** ** Specification *)
Section spec.
Context {F : Type} `{HF : KfifoSpec F}.
Context (e : env (mydev F)).
Implicit Types (d : mydev F) (t : trace).

Definition rx_items d : list Z := items (rx_fifo d).
Definition tx_items d : list Z := items (tx_fifo d).

(** [wait_event_interruptible] returns 0 only with its condition true, and the
    user-space accessors report how much they could not copy. *)
Definition tx_wait_law : Prop := forall t d,
  answer e t (wait_event_interruptible "tx_wq") = 0 ->
  (length (tx_items (interfere e t d)) < capacity)%nat.
Definition user_law : Prop := forall t n, 0 <= answer e t (user_access n).

(** The device when the lock is obtained, after a wait on [wq] or without one:
    other tasks ran during the wait and again before the lock was free. *)
Definition at_lock (wq : string) (slept : bool) d t : mydev F :=
  if slept then
    let t1 := Ev (wait_event_interruptible wq) 0 :: t in interfere e t1 (interfere e t d)
  else interfere e t d.

(** What a write of [from] comes to: result, device, and whether the work item was
    scheduled. *)
Inductive write_outcome (nonblock : bool) (from : list Z) d t : Z -> mydev F -> bool -> Prop :=
  | write_nothing : from = [] -> write_outcome nonblock from d t 0 d false
  | write_again : nonblock = true -> length (tx_items d) = capacity ->
      write_outcome nonblock from d t (- EAGAIN) d false
  | write_interrupted r : nonblock = false -> length (tx_items d) = capacity -> r <> 0 ->
      write_outcome nonblock from d t r (interfere e t d) false
  | write_queued slept f n :
      (slept = true -> nonblock = false /\ length (tx_items d) = capacity) ->
      let d1 := at_lock "tx_wq" slept d t in
      n = min (length from) (capacity - length (tx_items d1)) ->
      items f = tx_items d1 ++ take n from ->
      write_outcome nonblock from d t (Z.of_nat n) (set_tx_fifo f d1) true
  | write_fault slept f n :
      (slept = true -> nonblock = false /\ length (tx_items d) = capacity) ->
      let d1 := at_lock "tx_wq" slept d t in
      items f = tx_items d1 ++ take n from ->
      write_outcome nonblock from d t (- EFAULT) (set_tx_fifo f d1) false.

Inductive read_outcome (nonblock : bool) (count : Z) d t : Z -> list Z -> mydev F -> Prop :=
  | read_nothing : count = 0 -> read_outcome nonblock count d t 0 [] d
  | read_again : nonblock = true -> rx_items d = [] ->
      read_outcome nonblock count d t (- EAGAIN) [] d
  | read_interrupted r : nonblock = false -> rx_items d = [] -> r <> 0 ->
      read_outcome nonblock count d t r [] (interfere e t d)
  | read_bytes slept f out :
      (slept = true -> nonblock = false /\ rx_items d = []) ->
      let d1 := at_lock "rx_wq" slept d t in
      rx_items d1 = out ++ items f -> out = take (Z.to_nat count) (rx_items d1) ->
      read_outcome nonblock count d t (Z.of_nat (length out)) out (set_rx_fifo f d1)
  | read_fault slept f out :
      (slept = true -> nonblock = false /\ rx_items d = []) ->
      let d1 := at_lock "rx_wq" slept d t in
      rx_items d1 = out ++ items f -> (length out <= Z.to_nat count)%nat ->
      read_outcome nonblock count d t (- EFAULT) out (set_rx_fifo f d1).

Lemma tx_full d : kfifo_is_full (tx_fifo d) = true <-> length (tx_items d) = capacity.
Proof. by rewrite kfifo_is_full_spec, Nat.eqb_eq. Qed.

(** The wait loop ends after at most one sleep. *)
Lemma wp_write_wait nonblock (Q : option Z -> mydev F -> trace -> Prop) d t :
  tx_wait_law ->
  (length (tx_items d) <> capacity -> Q (Some 0) d t) ->
  (length (tx_items d) = capacity -> nonblock = true -> Q (Some (- EAGAIN)) d t) ->
  (forall r, length (tx_items d) = capacity -> nonblock = false ->
     (r = 0 -> (length (tx_items (interfere e t d)) < capacity)%nat) ->
     Q (Some r) (interfere e t d) (Ev (wait_event_interruptible "tx_wq") r :: t)) ->
  wp e (mydev_write_wait nonblock 2) Q d t.
Proof.
  intros Hlaw Hnow Hagain Hslept. cbn [mydev_write_wait]. apply wp_bind, wp_gets.
  destruct (kfifo_is_full (tx_fifo d)) eqn:Hf.
  - apply tx_full in Hf. destruct nonblock; [by apply wp_ret, Hagain|].
    apply wp_bind, wp_sleep. intros r Hr. pose proof (Hlaw t d) as Hlt. rewrite <- Hr in Hlt.
    specialize (Hslept r Hf eq_refl Hlt). clear Hr.
    unfold c_true. destruct (Z.eqb_spec r 0) as [Hz|]; cbn [negb]; [|by apply wp_ret].
    apply wp_bind, wp_gets.
    destruct (kfifo_is_full (tx_fifo (interfere e t d))) eqn:Hf'.
    + apply tx_full in Hf'. specialize (Hlt Hz). lia.
    + apply wp_ret. by rewrite Hz in *.
  - apply wp_ret, Hnow. rewrite <- tx_full, Hf. done.
Qed.

Lemma lock_ledger l t r L : ledger t = Some L -> mem (R_lock l) L = false ->
  ledger (Ev (spin_lock_irq l) r :: t) = Some (R_lock l :: L).
Proof. intros HL Hm. rewrite ledger_from_cons, HL. cbn -[mem]. by rewrite Hm. Qed.

Lemma neutral_ledger c r t L : effect_of (Ev c r) = Neutral -> ledger t = Some L ->
  ledger (Ev c r :: t) = Some L.
Proof. intros He HL. by rewrite ledger_from_cons, HL; cbn; rewrite He. Qed.

Lemma unlock_ledger l t r L : ledger t = Some (R_lock l :: L) ->
  ledger (Ev (spin_unlock_irq l) r :: t) = Some L.
Proof.
  intros HL. rewrite ledger_from_cons, HL. cbn -[mem remove1].
  by rewrite mem_cons_eq, remove1_cons_eq.
Qed.

Lemma wp_on_tx {A} (op : F -> F * A) (Q : A -> mydev F -> trace -> Prop) d t :
  (forall f a, op (tx_fifo d) = (f, a) -> Q a (set_tx_fifo f d) t) -> wp e (on_tx_fifo op) Q d t.
Proof. intros HQ. unfold wp, on_tx_fifo. destruct (op (tx_fifo d)) eqn:Ho. by apply HQ. Qed.
Lemma wp_on_rx {A} (op : F -> F * A) (Q : A -> mydev F -> trace -> Prop) d t :
  (forall f a, op (rx_fifo d) = (f, a) -> Q a (set_rx_fifo f d) t) -> wp e (on_rx_fifo op) Q d t.
Proof. intros HQ. unfold wp, on_rx_fifo. destruct (op (rx_fifo d)) eqn:Ho. by apply HQ. Qed.

(** A queued write schedules the work item, once. *)
Definition scheduled (b : bool) (L : list resource) : list resource :=
  if b && negb (mem (R_work "tx_work") L) then R_work "tx_work" :: L else L.

(** The part of a write from the lock on, in the state [d0] found by the check. *)
Lemma write_copy nonblock from d t d0 t0 slept L :
  user_law -> at_lock "tx_wq" slept d t = interfere e t0 d0 ->
  (slept = true -> nonblock = false /\ length (tx_items d) = capacity) ->
  ledger t0 = Some L -> mem (R_lock "lock") L = false ->
  wp e (_ ← sleep (spin_lock_irq "lock");
        u ← ask (user_access (Z.of_nat (length from)));
        '(ret, copied) ← on_tx_fifo (kfifo_from_user u from);
        do_ (spin_unlock_irq "lock");;
        if c_true ret then mret (Some ret)
        else do_ (schedule_work "tx_work");; mret (Some copied))
    (fun r d' t' => exists ret b, r = Some ret /\ ledger t' = Some (scheduled b L) /\
       write_outcome nonblock from d t ret d' b) d0 t0.
Proof.
  intros Hu Hlock Hsl HL Hm. apply wp_bind, wp_sleep. intros r0 _.
  apply wp_bind, wp_ask. intros u Hua. assert (0 <= u) as Hu0 by (rewrite Hua; apply Hu).
  clear Hua. apply wp_bind, wp_on_tx. intros f [ret copied] Ho.
  apply kfifo_from_user_spec in Ho as (Hn & Hit & Hok & Hbad); [|done]. fold (tx_items (interfere e t0 d0)) in *.
  apply wp_bind, wp_do. intros r1.
  match goal with |- wp _ _ _ _ ?t' => assert (ledger t' = Some L) as HL1 end.
  { by apply unlock_ledger, neutral_ledger, lock_ledger. }
  unfold c_true. destruct (Z.eqb_spec u 0) as [Hz|Hz].
  - destruct (Hok Hz) as [-> ->]. cbn [negb Z.eqb]. apply wp_bind, wp_do; intros r2.
    apply wp_ret. eexists _, true. split; [done|]. split.
    + rewrite ledger_from_cons, HL1. unfold scheduled. cbn -[mem]. by case_match.
    + rewrite <- Hlock in *. apply (write_queued nonblock from d t slept); try done.
      by rewrite Nat2Z.id in Hit.
  - rewrite (Hbad Hz). apply wp_ret. eexists _, false. split; [done|]. split; [done|].
    rewrite <- Hlock in *. by apply (write_fault nonblock from d t slept _ (Z.to_nat copied)).
Qed.

Lemma write_outcomes nonblock from d t L :
  tx_wait_law -> user_law -> ledger t = Some L -> mem (R_lock "lock") L = false ->
  wp e (mydev_write nonblock 2 from) (fun r d' t' =>
    exists ret b, r = Some ret /\ ledger t' = Some (scheduled b L) /\
      write_outcome nonblock from d t ret d' b) d t.
Proof.
  intros Hw Hu HL Hm. unfold mydev_write.
  destruct (Z.eqb_spec (Z.of_nat (length from)) 0) as [H0|H0].
  { apply wp_ret. eexists _, false. split; [done|]. split; [done|]. constructor.
    apply length_zero_iff_nil. lia. }
  apply wp_bind, wp_write_wait; [done|..].
  - intros Hroom. by apply (write_copy nonblock from d t d t false).
  - intros Hf ->. apply wp_ret. eexists _, false. split; [done|]. split; [done|]. by constructor.
  - intros r Hf -> _. unfold c_true. destruct (Z.eqb_spec r 0) as [->|Hr]; cbn [negb].
    + apply (write_copy false from d t _ _ true); try done. by apply neutral_ledger.
    + apply wp_ret. eexists _, false. split; [done|].
      split; [by apply neutral_ledger|by constructor].
Qed.

(** C19: a write queues the longest prefix of the caller's bytes that fits when it
    gets the lock and schedules the work item; it fails without waiting when it may
    not block and there is no room, sleeps at most once before it gets to the lock,
    and returns 0 when another writer took the room in between.  At a faulting
    address what was copied stays queued and the work item is not scheduled.  The
    lock is released on every path. *)
Theorem mydev_write_spec nonblock from d t L :
  tx_wait_law -> user_law -> ledger t = Some L -> mem (R_lock "lock") L = false ->
  wp e (mydev_write nonblock 2 from) (fun r d' t' =>
    exists ret b, r = Some ret /\ ledger t' = Some (scheduled b L) /\
      write_outcome nonblock from d t ret d' b) d t.
Proof. apply write_outcomes. Qed.

Lemma read_copy nonblock count d t d0 t0 slept L :
  user_law -> 0 <= count -> at_lock "rx_wq" slept d t = interfere e t0 d0 ->
  (slept = true -> nonblock = false /\ rx_items d = []) ->
  ledger t0 = Some L -> mem (R_lock "lock") L = false ->
  wp e ('(ret, out) ← mydev_read_locked count;
        if c_true ret then mret (ret, out)
        else
          let copied := Z.of_nat (length out) in
          when (c_true copied) (do_ (wake_up_interruptible "tx_wq"));;
          mret (copied, out))
    (fun r d' t' => ledger t' = Some L /\ read_outcome nonblock count d t r.1 r.2 d') d0 t0.
Proof.
  intros Hu Hc Hlock Hsl HL Hm. unfold mydev_read_locked. apply wp_bind, wp_bind, wp_sleep.
  intros r0 _. apply wp_bind, wp_ask. intros u Hua.
  assert (0 <= u) as Hu0 by (rewrite Hua; apply Hu). clear Hua.
  apply wp_bind, wp_on_rx. intros f [ret out] Ho.
  apply kfifo_to_user_spec in Ho as (Hit & Hlen & Hok & Hbad); [|done..].
  fold (rx_items (interfere e t0 d0)) in *. apply wp_bind, wp_do. intros r1. apply wp_ret.
  match goal with |- wp _ _ _ _ ?t' => assert (ledger t' = Some L) as HL1 end.
  { by apply unlock_ledger, neutral_ledger, lock_ledger. }
  rewrite <- Hlock in *. unfold c_true. destruct (Z.eqb_spec u 0) as [Hz|Hz].
  - destruct (Hok Hz) as [-> Hout]. cbn [negb Z.eqb].
    assert (read_outcome nonblock count d t (Z.of_nat (length out)) out
              (set_rx_fifo f (at_lock "rx_wq" slept d t))) as HO
      by (by apply (read_bytes nonblock count d t slept)).
    apply wp_bind. destruct (negb _); cbn [when].
    + apply wp_do; intros r2. apply wp_ret. split; [by apply neutral_ledger|done].
    + apply wp_ret, wp_ret. done.
  - rewrite (Hbad Hz). apply wp_ret. split; [done|].
    by apply (read_fault nonblock count d t slept).
Qed.

(** A read delivers the oldest bytes, at most [count], of the receive queue as it
    is when the lock is obtained; it fails without waiting when it may not block
    and the queue is empty, and sleeps at most once before it gets to the lock.
    When another reader emptied the queue in between it returns 0; at a faulting
    address the bytes already removed are lost.  The lock is released on every
    path. *)
Theorem mydev_read_spec nonblock count d t L :
  user_law -> 0 <= count -> ledger t = Some L -> mem (R_lock "lock") L = false ->
  wp e (mydev_read nonblock count) (fun r d' t' =>
    ledger t' = Some L /\ read_outcome nonblock count d t r.1 r.2 d') d t.
Proof.
  intros Hu Hc HL Hm. unfold mydev_read.
  destruct (Z.eqb_spec count 0) as [H0|H0]; [apply wp_ret; split; [done|by constructor]|].
  cbv zeta. apply wp_bind, wp_gets. destruct (kfifo_is_empty (rx_fifo d)) eqn:Hf.
  - apply kfifo_empty_nil in Hf. destruct nonblock.
    { apply wp_ret. split; [done|by constructor]. }
    apply wp_bind, wp_sleep. intros r _. unfold c_true.
    destruct (Z.eqb_spec r 0) as [->|Hr]; cbn [negb].
    + apply (read_copy false count d t _ _ true L); try done. by apply neutral_ledger.
    + apply wp_ret. split; [by apply neutral_ledger|by constructor].
  - by apply (read_copy nonblock count d t d t false L).
Qed.

(** The bytes given to the hardware, oldest first. *)
Fixpoint sent (t : trace) : list Z :=
  match t with
  | [] => []
  | ev :: t' => sent t' ++ match ev_call ev with hw_send b => [b] | _ => [] end
  end.

(** Other tasks only append to the transmit queue while the worker runs, and have
    stopped by the time the trace is [N] long. *)
Definition appends (grow : trace -> mydev F -> list Z) (N : nat) : Prop :=
  (forall t d, tx_items (interfere e t d) = tx_items d ++ grow t d) /\
  (forall t d, (N <= length t)%nat -> grow t d = []).

(** Enough turns for a loop that starts after the trace [t] with [n] bytes queued. *)
Definition enough (N fuel n : nat) t : Prop :=
  (N - length t + capacity < fuel)%nat \/ (N <= length t /\ n < fuel)%nat.

Lemma enough_step grow N fuel d t t' x xs : appends grow N ->
  enough N (S fuel) (length (tx_items d)) t -> (length t < length t')%nat ->
  tx_items (interfere e t d) = x :: xs -> enough N fuel (length xs) t'.
Proof.
  intros [Hgrow Hquiet] Hen Ht Hx.
  assert (length (x :: xs) <= capacity)%nat as Hcap by (rewrite <- Hx; apply items_bound).
  assert (N <= length t -> length xs < length (tx_items d))%nat as Hdec.
  { intros HN. rewrite Hgrow, (Hquiet t d HN), app_nil_r in Hx. rewrite Hx. cbn. lia. }
  cbn in Hcap. unfold enough in *. lia.
Qed.

Lemma tx_loop_drains grow N : appends grow N -> forall fuel got d t L,
  enough N fuel (length (tx_items d)) t -> 0 <= got < 2 ^ 32 ->
  ledger t = Some L -> mem (R_lock "lock") L = false ->
  wp e (tx_work_loop fuel got) (fun r d' t' =>
    exists added, let out := tx_items d ++ added in
      r = Some (u32 (got + Z.of_nat (length out))) /\
      sent t' = sent t ++ out /\ tx_items d' = [] /\ ledger t' = Some L /\
      head (map ev_call t') = Some (spin_unlock_irqrestore "lock")) d t.
Proof.
  intros Hap fuel. induction fuel as [|fuel IH]; intros got d t L Hen Hg HL Hm.
  { unfold enough in Hen. lia. }
  cbn [tx_work_loop]. apply wp_bind, wp_sleep. intros r0 _.
  assert (ledger (Ev (spin_lock_irqsave "lock") r0 :: t) = Some (R_lock "lock" :: L)) as HL0.
  { rewrite ledger_from_cons, HL. cbn -[mem]. by rewrite Hm. }
  apply wp_bind, wp_on_tx. intros f out [Hf ->]%kfifo_out_spec; [|done].
  fold (tx_items (interfere e t d)) in *. pose proof (proj1 Hap t d) as Hgrow.
  destruct (tx_items (interfere e t d)) as [|x xs] eqn:Hi; cbn [take] in *.
  - apply wp_bind, wp_do. intros r1. apply wp_ret.
    symmetry in Hgrow. apply app_eq_nil in Hgrow as [Hd _]. exists []. cbv zeta. rewrite Hd.
    split_and!; [|by cbn; rewrite !app_nil_r|by rewrite drop_nil in Hf| |done].
    + cbn. by rewrite Z.add_0_r, wrapu_small.
    + rewrite ledger_from_cons, HL0. cbn -[mem remove1]. by rewrite mem_cons_eq, remove1_cons_eq.
  - change (take (Z.to_nat 1) (x :: xs)) with [x]. change (drop (Z.to_nat 1) (x :: xs)) with xs in Hf.
    cbn iota. apply wp_bind, wp_do; intros r1. apply wp_bind, wp_do; intros r2.
    eapply wp_mono.
    + apply (IH _ (set_tx_fifo f (interfere e t d)) _ L).
      * unfold tx_items. cbn [tx_fifo set_tx_fifo]. rewrite Hf.
        eapply (enough_step grow); [exact Hap|exact Hen|cbn; lia|exact Hi].
      * apply wrapu_range. lia.
      * apply neutral_ledger; [done|]. rewrite ledger_from_cons, HL0.
        cbn -[mem remove1]. by rewrite mem_cons_eq, remove1_cons_eq.
      * done.
    + intros r d' t' (added & -> & Hs & Hd' & HL' & Hlast).
      assert (tx_items (set_tx_fifo f (interfere e t d)) = xs) as Hxs by exact Hf.
      rewrite Hxs in Hs |- *.
      exists (drop (length (tx_items d)) (x :: xs) ++ added). cbv zeta.
      assert (tx_items d ++ drop (length (tx_items d)) (x :: xs) ++ added = x :: xs ++ added) as ->.
      { rewrite Hgrow, drop_app_length, app_assoc, <- Hgrow. done. }
      split_and!; [|by rewrite Hs; cbn [sent ev_call]; rewrite !app_nil_r, <- app_assoc|done|done|done].
      f_equal. cbn [length]. rewrite Nat2Z.inj_succ. unfold wrapu.
      rewrite Zplus_mod_idemp_l. f_equal. lia.
Qed.

(** C17: the work item gives the hardware every byte that was queued, in order,
    followed by what others queue meanwhile, and ends with the queue empty and the
    lock released as soon as the others stop; it wakes the writers exactly when it
    has sent a number of bytes that is not a multiple of 2^32. *)
Theorem tx_work_fn_drains grow N fuel d t L :
  appends grow N -> (N + capacity < fuel)%nat ->
  ledger t = Some L -> mem (R_lock "lock") L = false ->
  wp e (tx_work_fn fuel) (fun r d' t' =>
    r = Some tt /\ tx_items d' = [] /\ ledger t' = Some L /\
    exists added, let out := tx_items d ++ added in
      sent t' = sent t ++ out /\
      (head (map ev_call t') = Some (wake_up_interruptible "tx_wq") <->
       u32 (Z.of_nat (length out)) <> 0)) d t.
Proof.
  intros Hap Hf HL Hm. unfold tx_work_fn. apply wp_bind. eapply wp_mono.
  - apply (tx_loop_drains grow N Hap fuel 0 d t L); [left; lia|lia|done|done].
  - intros r d' t' (added & -> & Hs & Hd' & HL' & Hlast). rewrite Z.add_0_l.
    set (n := u32 (Z.of_nat (length (tx_items d ++ added)))) in *. apply wp_bind. unfold c_true.
    destruct (Z.eqb_spec n 0) as [Hz|Hz]; cbn [negb when].
    + apply wp_ret, wp_ret. split_and!; try done. exists added. split; [done|].
      by rewrite Hlast.
    + apply wp_do; intros r1. apply wp_ret. split_and!; try done; [by apply neutral_ledger|].
      exists added. split; [cbn; by rewrite app_nil_r|]. by split.
Qed.
End spec.

(** ** Loading, using and unloading the module *)
Inductive user_op :=
  | UOpen
  | UClose
  | UWrite (nonblock : bool) (from : list Z).

Section lifetime.
Context {F : Type} `{HF : KfifoSpec F}.
Context (e : env (mydev F)).
Implicit Types (d : mydev F) (t : trace).

(** Users that open, write and close one after the other; a close needs an open
    file.  The result is the number of files left open. *)
Fixpoint session (ops : list user_op) (n : nat) : M (mydev F) nat :=
  match ops with
  | [] => mret n
  | UOpen :: ops' => ret ← mydev_open; session ops' (if ret =? 0 then S n else n)
  | UClose :: ops' =>
      match n with O => session ops' n | S m => _ ← mydev_release; session ops' m end
  | UWrite nonblock from :: ops' =>
      match n with
      | O => session ops' n
      | S _ => _ ← mydev_write nonblock 2 from; session ops' n
      end
  end.

Definition module_life (ops : list user_op) : M (mydev F) unit :=
  ret ← mydev_module_init;
  when (ret =? 0) (_ ← session ops 0; mydev_module_exit).

(** What is held with [n] files open and the work item scheduled or not. *)
Definition loaded (p g : Z) : list resource :=
  [R_cdev; R_chrdev_region; R_gpiod g; R_fifo "tx_fifo"; R_fifo "rx_fifo"; R_mem p].
Definition in_use (i : Z) (n : nat) (w : bool) : list resource :=
  if (n =? 0)%nat then [] else (if w then [R_work "tx_work"] else []) ++ [R_irq i].

Record running (p g i : Z) (n : nat) d t : Prop := {
  run_count : open_count d = Z.of_nat n;
  run_gpio : gpio_in d = g;
  run_irq : irq d = i;
  run_gdev : gdev d = p;
  run_held : exists w, ledger t = Some (in_use i n w ++ loaded p g);
}.

(** The users do not overlap: nobody else changes the device during a call. *)
Hypothesis Halone : forall t d, interfere e t d = d.
Hypothesis Hwait : tx_wait_law e.
Hypothesis Huser : user_law e.

#[local] Set Default Proof Using "Type*".

Lemma open_running p g i n d t : running p g i n d t -> Z.of_nat n < INT_MAX ->
  wp e mydev_open (fun r d' t' => running p g i (if r =? 0 then S n else n) d' t') d t.
Proof.
  intros [Hc Hg Hi Hp (w & HL)] Hn. unfold mydev_open, fetch_add_open, dec_return_open.
  apply wp_bind, wp_bind, wp_gets, wp_bind, wp_modify, wp_ret.
  rewrite Hc. destruct (Z.eqb_spec (Z.of_nat n) INT_MAX); [lia|].
  destruct (Z.eqb_spec (Z.of_nat n) 0) as [H0|H0].
  - assert (n = 0%nat) as -> by lia. cbn [in_use Nat.eqb app] in HL.
    apply wp_bind, wp_gets, wp_bind, wp_sleep. intros r _. rewrite Halone. cbn [irq set_open_count].
    rewrite Hi. unfold c_true. destruct (r =? 0) eqn:Hr; cbn [negb].
    + apply wp_ret. cbn [Z.eqb]. split; try done. exists false.
      rewrite ledger_from_cons, HL. cbn -[loaded]. by rewrite Hr.
    + apply wp_bind, wp_bind, wp_modify, wp_gets, wp_ret. rewrite Hr.
      split; try done. exists false. rewrite ledger_from_cons, HL. cbn -[loaded]. by rewrite Hr.
  - apply wp_ret. cbn [Z.eqb]. split; try done; [cbn; lia|]. exists w.
    by destruct n.
Qed.

Lemma quiesce_held i (w : bool) L t d (Q : unit -> mydev F -> trace -> Prop) :
  irq d = i -> ledger t = Some ((if w then [R_work "tx_work"] else []) ++ R_irq i :: L) ->
  mem (R_work "tx_work") L = false ->
  (forall t', ledger t' = Some L -> Q tt d t') -> wp e quiesce Q d t.
Proof.
  intros Hi HL Hm HQ. unfold quiesce.
  assert (remove1 (R_work "tx_work") L = L) as Hrem.
  { clear -Hm. induction L as [|x L IH]; [done|]. cbn in *.
    apply orb_false_iff in Hm as [-> Hm]. by rewrite IH. }
  wp_run. apply HQ. rewrite !ledger_from_cons, HL, Hi.
  destruct w; ledger_eval; rewrite ?Hrem; done.
Qed.

Lemma close_running p g i n d t : running p g i (S n) d t -> Z.of_nat (S n) <= INT_MAX ->
  wp e mydev_release (fun _ d' t' => running p g i n d' t') d t.
Proof.
  intros [Hc Hg Hi Hp (w & HL)] Hn. unfold mydev_release, dec_return_open.
  apply wp_bind, wp_bind, wp_modify, wp_gets. cbn [open_count set_open_count].
  rewrite Hc, wraps_small by lia.
  destruct (Z.eqb_spec (Z.of_nat (S n) - 1) 0) as [H0|H0]; cbn [when]; apply wp_bind.
  - assert (n = 0%nat) as -> by lia.
    apply (quiesce_held i w (loaded p g)); [done| |done|].
    + rewrite HL. cbn -[loaded]. by rewrite <- app_assoc.
    + intros t' HL'. apply wp_ret. split; try done. by exists false.
  - apply wp_ret, wp_ret. split; try done; [cbn; lia|]. exists w. by destruct n.
Qed.

Lemma write_running p g i n d t nonblock from : running p g i (S n) d t ->
  wp e (mydev_write nonblock 2 from) (fun _ d' t' => running p g i (S n) d' t') d t.
Proof.
  intros [Hc Hg Hi Hp (w & HL)]. eapply wp_mono.
  - apply (write_outcomes e nonblock from d t _ Hwait Huser HL). by destruct w.
  - intros _ d' t' (ret & b & _ & HL' & Ho).
    assert (at_lock e "tx_wq" true d t = d /\ at_lock e "tx_wq" false d t = d) as [Ht Hf']
      by (unfold at_lock; cbv zeta; by rewrite !Halone).
    assert (exists f, d' = set_tx_fifo f d) as [f ->].
    { destruct Ho; rewrite ?Halone; try (exists (tx_fifo d); by destruct d).
      all: subst d1; exists f; destruct slept; by rewrite ?Ht, ?Hf'. }
    split; try done. exists (b || w). rewrite HL'. by destruct b, w.
Qed.

Lemma session_running p g i ops : forall n d t, running p g i n d t ->
  Z.of_nat (n + length ops) < INT_MAX ->
  wp e (session ops n) (fun n' d' t' => running p g i n' d' t') d t.
Proof.
  induction ops as [|[| |nonblock from] ops IH]; intros n d t Hr Hn; cbn [session].
  - by apply wp_ret.
  - cbn [length] in Hn. apply wp_bind. eapply wp_mono; [apply (open_running _ _ _ _ _ _ Hr); lia|].
    intros r d' t' Hr'. apply IH; [done|]. destruct (r =? 0); lia.
  - cbn [length] in Hn. destruct n as [|n]; [apply IH; [done|lia]|].
    apply wp_bind. eapply wp_mono; [apply (close_running _ _ _ _ _ _ Hr); lia|].
    intros r d' t' Hr'. apply IH; [done|lia].
  - cbn [length] in Hn. destruct n as [|n]; [apply IH; [done|lia]|].
    apply wp_bind. eapply wp_mono; [apply (write_running _ _ _ _ _ _ _ _ Hr)|].
    intros r d' t' Hr'. apply IH; [done|lia].
Qed.

Lemma exit_running p g i n d t : running p g i n d t -> p <> 0 -> IS_ERR_OR_NULL g = false ->
  wp e mydev_module_exit (fun _ d' t' => ledger t' = Some [] /\ gdev d' = 0) d t.
Proof.
  intros [Hc Hg Hi Hp (w & HL)] Hpn Hgn. unfold mydev_module_exit. apply wp_bind, wp_gets.
  rewrite Hp. destruct (Z.eqb_spec p 0); [done|]. apply wp_bind, wp_gets, wp_bind. rewrite Hc.
  assert (forall t', ledger t' = Some (loaded p g) ->
    wp e (do_ cdev_del;; do_ unregister_chrdev_region;; g ← gets gpio_in;
          when (negb (IS_ERR_OR_NULL g)) (do_ (gpiod_put g));;
          do_ (kfifo_free "rx_fifo");; do_ (kfifo_free "tx_fifo");; do_ (kfree p);;
          modify (set_gdev 0)) (fun _ d' t' => ledger t' = Some [] /\ gdev d' = 0) d t') as Hrest.
  { intros t' HL'. unfold loaded in HL'. do 2 (apply wp_bind, wp_do; intros ?).
    apply wp_bind, wp_gets. rewrite Hg, Hgn. cbn [negb when]. wp_run. split; [|done].
    assert ((p =? 0) = false) by (by apply Z.eqb_neq). by ledger_eval. }
  destruct (Z.ltb_spec 0 (Z.of_nat n)) as [Hn|Hn]; cbn [when].
  - apply (quiesce_held i w (loaded p g)); [done| |done|exact Hrest].
    rewrite HL. destruct n; [lia|]. cbn -[loaded]. by rewrite <- app_assoc.
  - assert (n = 0%nat) as -> by lia. by apply wp_ret, Hrest.
Qed.

(** C18: whatever fails while the module is loaded, and however its users open, write
    and close one after the other and leave files open, everything taken is given
    back exactly once when the module is unloaded, or at once when loading fails;
    in between the interrupt is held exactly while a file is open. *)
Theorem module_life_balanced ops d :
  Z.of_nat (length ops) < INT_MAX ->
  (forall t, answer e t (gpiod_get "data-in") <> 0) ->
  wp e (module_life ops) (fun _ _ t' => ledger t' = Some []) d [].
Proof.
  intros Hn Hg. unfold module_life. apply wp_bind.
  apply (wp_mono _ _ (fun r d' t' =>
    if r =? 0 then exists p g i, p <> 0 /\ IS_ERR_OR_NULL g = false /\ running p g i 0 d' t'
    else ledger t' = Some [])).
  - unfold mydev_module_init. cbv zeta.
    repeat (lazymatch goal with
            | |- wp _ (ask (gpiod_get _)) _ _ _ =>
                apply wp_ask; intros g Hga; assert (g <> 0) by (rewrite Hga; apply Hg); clear Hga
            | _ => wp_step
            end; cbn beta zeta).
    all: norm_tests;
      lazymatch goal with |- if ?b then _ else _ => destruct b eqn:? end; try path_contra.
    all: try (path_ledger; done).
    eexists _, _, _. split_and!; cycle 2.
    { split; try reflexivity. exists false. path_ledger. done. }
    + by apply Z.eqb_neq.
    + apply orb_false_iff. split; [by apply Z.eqb_neq|done].
  - intros r d' t' Hr. destruct (r =? 0); cbn [when]; [|by apply wp_ret].
    destruct Hr as (p & g & i & Hp & Hgn & Hrun). apply wp_bind. eapply wp_mono.
    + apply (session_running p g i ops 0 d' t' Hrun). lia.
    + intros n d1 t1 Hr1. eapply wp_mono; [by apply (exit_running p g i n)|]. by intros ? ? ? [? _].
Qed.
End lifetime.

(** The stub reports success whatever happens.  It ends with the interrupt requested
    when every request succeeded, which [mydev_hw_deinit] gives back; when the first one
    fails, as one without a handler does, it frees an interrupt that it does not have. *)
Theorem hw_init_stub {F} (e : env (mydev F)) d :
  wp e mydev_hw_init (fun r d' t =>
    r = 0 /\ d' = d /\
    (answer e [] (request_irq (irq d)) <> 0 -> ledger t = None) /\
    ((forall t, answer e t (request_irq (irq d)) = 0) -> ledger t = Some [R_irq (irq d)] /\
       wp e mydev_hw_deinit (fun _ d'' t' => ledger t' = Some [] /\ d'' = d) d' t)) d [].
Proof.
  unfold wp, mydev_hw_init, mydev_hw_deinit, do_, ask, gets, mbind, M_bind. cbn.
  split; [done|]. split; [done|]. split.
  - intros Hne. rewrite (proj2 (Z.eqb_neq _ _) Hne). done.
  - intros Hall. rewrite !Hall. cbn -[bool_decide]. by repeat (decide_step; cbn -[bool_decide]).
Qed.

(** ** Concrete runs *)
(** Every call succeeds at once; a wait is interrupted. *)
Definition lively {F} : env (mydev F) :=
  Env (fun _ c => match c with
                  | wait_event_interruptible _ => - ERESTARTSYS
                  | _ => granted c
                  end) (fun _ d => d).


(** A device that is open, and one that is loaded but not open. *)
Definition busy_dev : mydev list_fifo := Mydev 4096 7 [1; 0; 1] [10; 20] 1 4096.
Definition quiet_dev : mydev list_fifo := Mydev 4096 7 [] [] 0 4096.
Definition busy_trace : trace := [Ev (request_irq 7) 0].

Lemma mydev_write_spec_witness :
  wp lively (mydev_write false 2 [1; 2]) (fun r d' t' =>
    exists ret b, r = Some ret /\ ledger t' = Some (scheduled b [R_irq 7]) /\
      write_outcome lively false [1; 2] busy_dev busy_trace ret d' b) busy_dev busy_trace.
Proof. apply mydev_write_spec; [done|done|reflexivity|reflexivity]. Defined.

Lemma mydev_read_spec_witness :
  wp lively (mydev_read true 2) (fun r d' t' =>
    ledger t' = Some [R_irq 7] /\
    read_outcome lively true 2 busy_dev busy_trace r.1 r.2 d') busy_dev busy_trace.
Proof. apply mydev_read_spec; [done|lia|reflexivity|reflexivity]. Defined.

(** Another task queues the byte 30 while the worker waits for the lock for the
    first time. *)
Definition one_writer : env (mydev list_fifo) :=
  Env (fun _ _ => 0) (fun t d =>
    if (length t =? 1)%nat && (length (lf_items (tx_fifo d)) <? 1024)%nat
    then set_tx_fifo (lf_items (tx_fifo d) ++ [30]) d else d).
Definition one_byte (t : trace) (d : mydev list_fifo) : list Z :=
  if (length t =? 1)%nat && (length (lf_items (tx_fifo d)) <? 1024)%nat then [30] else [].

Lemma one_writer_appends : appends one_writer one_byte 2.
Proof.
  split; intros t d; unfold one_byte.
  - cbn [interfere one_writer]. destruct (_ =? _)%nat; cbn [andb]; [|by rewrite app_nil_r].
    destruct (Nat.ltb_spec (length (lf_items (tx_fifo d))) 1024); [|by rewrite app_nil_r].
    unfold tx_items. cbn [items list_kfifo_spec tx_fifo set_tx_fifo].
    apply lf_items_id. rewrite length_app. cbn [length]. unfold FIFO_CAP. lia.
  - intros Ht. by destruct (Nat.eqb_spec (length t) 1); [lia|].
Qed.

Definition some_fuel : nat := 2 + FIFO_CAP + 1.

Lemma tx_work_fn_drains_witness :
  wp one_writer (tx_work_fn some_fuel) (fun r d' t' =>
    r = Some tt /\ tx_items d' = [] /\ ledger t' = Some [R_irq 7] /\
    exists added, let out := tx_items busy_dev ++ added in
      sent t' = sent busy_trace ++ out /\
      (head (map ev_call t') = Some (wake_up_interruptible "tx_wq") <->
       u32 (Z.of_nat (length out)) <> 0)) busy_dev busy_trace.
Proof.
  assert (2 + FIFO_CAP < some_fuel)%nat as Hf by (unfold some_fuel; lia).
  exact (tx_work_fn_drains one_writer one_byte 2 some_fuel busy_dev busy_trace [R_irq 7]
    one_writer_appends Hf eq_refl eq_refl).
Defined.

Lemma module_life_balanced_witness :
  wp lively (module_life [UOpen; UWrite true [65]; UOpen; UClose; UWrite false [66]])
    (fun _ _ t' => ledger t' = Some []) quiet_dev [].
Proof. apply module_life_balanced; done. Defined.
