(* ===== verification/KfifoRxTxSystem.v ===== *)
(** * Interleavings of the queue device

    Two things the code of [KfifoRxTx] allows when its parts interleave: an opener
    that overtakes the first one is left with an interrupt nobody holds, and the
    last close can strand bytes that block every later writer. *)
From S2P Require Import Prelude.
From S2P Require Import Kernel.
From S2P Require Import Kfifo.
From S2P Require Import KfifoRxTx.
From stdpp Require Import relations.
From stdpp Require Import options.
#[local] Open Scope Z_scope.

Section system.
Context {F : Type} `{HF : KfifoSpec F}.
Implicit Types (d : mydev F) (t : trace).

(** ** Two openers at once *)
(** Nobody else runs, and [request_irq] answers [err]. *)
Definition refusing (err : Z) : env (mydev F) :=
  Env (fun _ c => match c with request_irq _ => err | _ => 0 end) (fun _ d => d).

(** The same, but while [request_irq] runs another task opens the device. *)
Definition second_opener (err : Z) : env (mydev F) :=
  Env (answer (refusing err)) (fun t d => (mydev_open (refusing err) d t).1.2).

(** A task that opens the device while the first open is still asking for the
    interrupt is told that it succeeded.  When the interrupt is then refused, the
    first open fails and takes back its count only, so the other task reads a
    device that never interrupts, and its close frees an interrupt that nobody
    holds. *)
Theorem racing_open_unbalanced err d :
  open_count d = 0 -> err <> 0 ->
  wp (second_opener err) mydev_open (fun r d1 t1 =>
    r = err /\ open_count d1 = 1 /\ ledger t1 = Some [] /\
    wp (refusing err) mydev_release (fun _ _ t2 => ledger t2 = None) d1 t1) d [] /\
  (forall t, wp (refusing err) mydev_open (fun r _ t' => r = 0 /\ t' = t) (set_open_count 1 d) t).
Proof.
  intros Hc He%Z.eqb_neq. split; [|done]. unfold mydev_open at 1, fetch_add_open, dec_return_open.
  apply wp_bind, wp_bind, wp_gets, wp_bind, wp_modify, wp_ret. rewrite Hc. cbn [Z.eqb].
  apply wp_bind, wp_gets, wp_bind, wp_sleep. intros r ->. unfold c_true.
  cbn [answer second_opener refusing]. rewrite He. cbn [negb].
  apply wp_bind, wp_bind, wp_modify, wp_gets, wp_ret. split; [done|]. split; [done|].
  assert (forall i, ledger [Ev (request_irq i) err] = Some []) as HL by (intros; cbn; by rewrite He).
  split; [apply HL|]. unfold mydev_release, dec_return_open, quiesce.
  apply wp_bind, wp_bind, wp_modify, wp_gets. cbn [open_count set_open_count].
  change (c_true _) with true. wp_run; [|done]. cbn -[bool_decide]. by rewrite He.
Qed.

(** ** Users, interrupt and work item *)
Record machine := Mach { dev : mydev F; work : bool }.

Definition schedules (c : call) : bool :=
  match c with schedule_work w => String.eqb w "tx_work" | _ => false end.
Definition cancels (c : call) : bool :=
  match c with cancel_work_sync w => String.eqb w "tx_work" | _ => false end.
Definition settle (w : bool) d t : machine := Mach d (flag schedules cancels w t).

Definition alone (e : env (mydev F)) : Prop :=
  (forall t d, interfere e t d = d) /\ tx_wait_law e.

(** One operation from its start to its end; the work item runs only when it is
    scheduled, and a writer that waits takes its step when it is woken. *)
Inductive mstep : machine -> machine -> Prop :=
  | step_irq e w d r d' t : alone e ->
      mydev_irq_handler e d [] = (r, d', t) -> mstep (Mach d w) (settle w d' t)
  | step_work e fuel d d' t : alone e ->
      tx_work_fn fuel e d [] = (Some tt, d', t) -> mstep (Mach d true) (settle false d' t)
  | step_read e nonblock count w d r d' t : alone e ->
      mydev_read nonblock count e d [] = (r, d', t) -> mstep (Mach d w) (settle w d' t)
  | step_write e nonblock from w d r d' t : alone e ->
      mydev_write nonblock 2 from e d [] = (r, d', t) -> mstep (Mach d w) (settle w d' t)
  | step_poll e w d r d' t : alone e ->
      mydev_poll e d [] = (r, d', t) -> mstep (Mach d w) (settle w d' t)
  | step_open e w d r d' t : alone e ->
      mydev_open e d [] = (r, d', t) -> mstep (Mach d w) (settle w d' t)
  | step_release e w d r d' t : alone e ->
      mydev_release e d [] = (r, d', t) -> mstep (Mach d w) (settle w d' t).

Definition stuck (q : list Z) (y : machine) : Prop :=
  tx_items (dev y) = q /\ length q = capacity /\ work y = false.

(** The transmit queue is untouched and the work item not scheduled. *)
Definition idle_end d d' t : Prop :=
  tx_items d' = tx_items d /\ flag schedules cancels false t = false.

Ltac idle_step :=
  lazymatch goal with
  | |- wp _ (on_rx_fifo _) _ _ _ => apply wp_on_rx; intros ? ? _
  | |- wp _ (sleep _) _ _ _ =>
      apply wp_sleep; intros ? _;
      match goal with H : forall t d, interfere _ t d = d |- _ => rewrite H end
  | |- wp _ (match ?x with (_, _) => _ end) _ _ _ => destruct x
  | _ => wp_step
  end.
Ltac idle_run := repeat (idle_step; cbn beta zeta iota); try done.

Lemma irq_idle e d : alone e -> wp e mydev_irq_handler (fun _ d' t' => idle_end d d' t') d [].
Proof. intros [Hal _]. unfold mydev_irq_handler, hw_rx_read_level. idle_run. Qed.

Lemma read_idle e nonblock count d : alone e ->
  wp e (mydev_read nonblock count) (fun _ d' t' => idle_end d d' t') d [].
Proof. intros [Hal _]. unfold mydev_read, mydev_read_locked. cbv zeta. idle_run. Qed.

Lemma poll_idle e d : alone e -> wp e mydev_poll (fun _ d' t' => idle_end d d' t') d [].
Proof. intros [Hal _]. unfold mydev_poll. idle_run. Qed.

Lemma open_idle e d : alone e -> wp e mydev_open (fun _ d' t' => idle_end d d' t') d [].
Proof. intros [Hal _]. unfold mydev_open, fetch_add_open, dec_return_open. idle_run. Qed.

Lemma release_idle e d : alone e -> wp e mydev_release (fun _ d' t' => idle_end d d' t') d [].
Proof. intros [Hal _]. unfold mydev_release, dec_return_open, quiesce. idle_run. Qed.

Lemma write_idle e nonblock from d : alone e -> length (tx_items d) = capacity ->
  wp e (mydev_write nonblock 2 from) (fun _ d' t' => idle_end d d' t') d [].
Proof.
  intros [Hal Hw] Hfull. unfold mydev_write. destruct (_ =? 0); [by apply wp_ret|].
  apply wp_bind, wp_write_wait; [done|done|..].
  - intros _ ->. by apply wp_ret.
  - intros r _ _ Hlt. rewrite Hal in *. unfold c_true.
    destruct (Z.eqb_spec r 0) as [Hr|]; cbn [negb]; [specialize (Hlt Hr); lia|by apply wp_ret].
Qed.


Lemma stuck_step q y y' : stuck q y -> mstep y y' -> stuck q y'.
Proof.
  intros (Hq & Hlen & Hw) Hs.
  assert (forall (A : Type) w d (r : A) d' t (p : M (mydev F) A) e,
    w = false -> tx_items d = q -> p e d [] = (r, d', t) ->
    wp e p (fun _ d' t' => idle_end d d' t') d [] -> stuck q (settle w d' t)) as Hend.
  { intros A w d r d' t p e -> Hd Hp Hwp. unfold wp in Hwp. rewrite Hp in Hwp.
    destruct Hwp as [Htx Hf]. unfold stuck. cbn. by rewrite Htx. }
  destruct Hs; cbn [dev work] in *; subst; try done;
    (eapply Hend; [reflexivity|reflexivity|eassumption|]).
  - by apply irq_idle.
  - by apply read_idle.
  - by apply write_idle.
  - by apply poll_idle.
  - by apply open_idle.
  - by apply release_idle.
Qed.

Lemma lively_alone : alone lively.
Proof. by split; [|intros t d]. Qed.

(** A user that opens the device, writes and closes it again before the work item
    has had a chance to run. *)
Lemma hasty_user from d : open_count d = 0 -> tx_items d = [] -> from <> [] ->
  exists d', rtc mstep (Mach d false) (Mach d' false) /\ tx_items d' = take capacity from.
Proof.
  intros Hc Hq Hne. pose proof capacity_pos as Hcap.
  assert (mydev_open lively d [] = (0, set_open_count 1 d, [Ev (request_irq (irq d)) 0])) as Ho.
  { unfold mydev_open, fetch_add_open, mbind, M_bind, gets, modify, mret, M_ret. by rewrite Hc. }
  set (d1 := set_open_count 1 d) in *.
  destruct (kfifo_from_user 0 from (tx_fifo d)) as [f [r n]] eqn:Hput.
  assert (exists t, mydev_write false 2 from lively d1 [] = (Some n, set_tx_fifo f d1, t) /\
    flag schedules cancels false t = true /\ items f = take capacity from) as (t2 & Hw & Hf2 & Hi).
  { destruct (kfifo_from_user_spec 0 from (tx_fifo d) f r n ltac:(lia) Hput)
      as (_ & Hi & Hok & _). fold (tx_items d) in *. destruct (Hok eq_refl) as [-> ->]. eexists. split.
    - unfold mydev_write. destruct (Z.eqb_spec (Z.of_nat (length from)) 0) as [H0|H0].
      { destruct Hne. apply length_zero_iff_nil. lia. }
      cbn [mydev_write_wait]. unfold mbind, M_bind, gets, mret, M_ret, sleep, ask, on_tx_fifo.
      rewrite kfifo_is_full_spec. change (items (tx_fifo d1)) with (tx_items d). rewrite Hq.
      destruct (Nat.eqb_spec (length (A:=Z) []) capacity) as [E|]; [cbn in E; lia|].
      cbn -[kfifo_from_user]. rewrite Hput, Hq. reflexivity.
    - split; [done|]. rewrite Hq in Hi.
      rewrite Hi. cbn [app length]. rewrite Nat2Z.id, Nat.sub_0_r.
      destruct (Nat.min_spec (length from) capacity) as [[? ->]|[? ->]]; [|done].
      by rewrite !take_ge by lia. }
  destruct (mydev_release lively (set_tx_fifo f d1) []) as [[r3 d3] t3] eqn:Hr.
  assert (flag schedules cancels true t3 = false /\ tx_items d3 = items f) as [Hf3 Hd3].
  { injection Hr as <- <- <-. done. }
  exists d3. split; [|by rewrite Hd3].
  apply (rtc_l _ _ (Mach d1 false)); [exact (step_open lively false d _ _ _ lively_alone Ho)|].
  apply (rtc_l _ _ (Mach (set_tx_fifo f d1) true)).
  { pose proof (step_write lively false from false d1 _ _ _ lively_alone Hw) as Hs.
    unfold settle in Hs. by rewrite Hf2 in Hs. }
  apply rtc_once. pose proof (step_release lively true _ _ _ _ lively_alone Hr) as Hs.
  unfold settle in Hs. by rewrite Hf3 in Hs.
Qed.

(** A writer that fills the transmit queue and closes the device before the work
    item has run cancels it, and the bytes stay in the queue.  From then on, whatever
    is opened, read, written, polled or closed and whatever interrupts come, the
    queue keeps exactly those bytes and the work item is never scheduled again: no
    byte reaches the hardware and every later writer blocks or is refused. *)
Theorem close_strands_bytes from d :
  open_count d = 0 -> tx_items d = [] -> (capacity <= length from)%nat ->
  exists y, rtc mstep (Mach d false) y /\ tx_items (dev y) = take capacity from /\
    forall y', rtc mstep y y' -> tx_items (dev y') = take capacity from /\ work y' = false.
Proof.
  intros Hc Hq Hlen. destruct (hasty_user from d Hc Hq) as (d' & Hs & Hd').
  { intros ->. pose proof capacity_pos. cbn in Hlen. lia. }
  exists (Mach d' false). split; [done|]. split; [done|]. intros y' Hy'.
  assert (stuck (take capacity from) (Mach d' false)) as Hst.
  { split_and!; [done| |done]. rewrite length_take. lia. }
  clear -Hst Hy'. induction Hy' as [|y0 y1 y2 H01 _ IH]; [by destruct Hst as (? & _ & ?)|].
  apply IH. by eapply stuck_step.
Qed.
End system.

(** ** Concrete runs *)
Lemma racing_open_unbalanced_witness :
  wp (second_opener (-16)) mydev_open (fun r d1 t1 =>
    r = -16 /\ open_count d1 = 1 /\ ledger t1 = Some [] /\
    wp (refusing (-16)) mydev_release (fun _ _ t2 => ledger t2 = None) d1 t1) quiet_dev [].
Proof. apply (racing_open_unbalanced (-16) quiet_dev); [reflexivity|lia]. Defined.

Lemma close_strands_bytes_witness :
  exists y, rtc mstep (Mach quiet_dev false) y /\
    tx_items (dev y) = take FIFO_CAP (replicate FIFO_CAP 85) /\
    forall y', rtc mstep y y' ->
      tx_items (dev y') = take FIFO_CAP (replicate FIFO_CAP 85) /\ work y' = false.
Proof.
  assert (FIFO_CAP <= length (replicate FIFO_CAP 85))%nat as Hlen
    by (by rewrite length_replicate).
  exact (close_strands_bytes (replicate FIFO_CAP 85) quiet_dev eq_refl eq_refl Hlen).
Defined.
