(* ===== verification/KfifoDev.v ===== *)
(** * A character device around one queue

    [openwrt/kernel/gpt/kfifo.c]: an interrupt handler appends the level of a pin to
    a queue and drops the oldest byte when it is full; [read] takes from the same
    queue that [write] appends to.  Both wait on a condition and then take the lock,
    and both the wait and the lock let other tasks run. *)
From S2P Require Import Prelude.
From S2P Require Import Kernel.
From S2P Require Import Kfifo.
From stdpp Require Import options.

Record mydev (F : Type) := Mydev {
  gpio_in : Z;
  irq : Z;
  fifo : F;
}.
Arguments Mydev {F}. Arguments gpio_in {F}. Arguments irq {F}. Arguments fifo {F}.

Section code.
Context {F : Type} `{HF : Kfifo F}.
Notation prog := (M (mydev F)).
Implicit Types d : mydev F.

Definition set_gpio_in (g : Z) d := Mydev g (irq d) (fifo d).
Definition set_irq (i : Z) d := Mydev (gpio_in d) i (fifo d).
Definition set_fifo (f : F) d := Mydev (gpio_in d) (irq d) f.
Definition on_fifo {A} (op : F -> F * A) : prog A := fun e d t =>
  let '(f, a) := op (fifo d) in (a, set_fifo f d, t).

(** The value read from the pin is stored in a [u8]. *)
Definition mydev_irq_handler : prog unit :=
  g ← gets gpio_in;
  val ← ask (gpiod_get_value g);
  do_ (spin_lock_irqsave "lock");;
  full ← gets (fun d => kfifo_is_full (fifo d));
  when full (_ ← on_fifo (kfifo_out 1); mret tt);;
  _ ← on_fifo (kfifo_in [u8 val]);
  do_ (spin_unlock_irqrestore "lock");;
  do_ (wake_up_interruptible "read_wq").

(** The result and the bytes that reached user space. *)
Definition mydev_read (nonblock : bool) (len : Z) : prog (Z * list Z) :=
  let copy :=
    _ ← sleep (spin_lock_irq "lock");
    u ← ask (user_access len);
    '(ret, out) ← on_fifo (kfifo_to_user u len);
    do_ (spin_unlock_irq "lock");;
    let copied := Z.of_nat (length out) in
    when (c_true copied) (do_ (wake_up_interruptible "write_wq"));;
    mret (if c_true ret then ret else copied, out) in
  empty ← gets (fun d => kfifo_is_empty (fifo d));
  if (empty : bool) then
    if nonblock then mret (- EAGAIN, [])
    else
      ret ← sleep (wait_event_interruptible "read_wq");
      if c_true ret then mret (ret, []) else copy
  else copy.

(** The result and the number of bytes queued. *)
Definition mydev_write (nonblock : bool) (from : list Z) : prog (Z * Z) :=
  let copy :=
    _ ← sleep (spin_lock_irq "lock");
    u ← ask (user_access (Z.of_nat (length from)));
    '(ret, copied) ← on_fifo (kfifo_from_user u from);
    do_ (spin_unlock_irq "lock");;
    when (c_true copied) (do_ (wake_up_interruptible "read_wq"));;
    mret (if c_true ret then ret else copied, copied) in
  full ← gets (fun d => kfifo_is_full (fifo d));
  if (full : bool) then
    if nonblock then mret (- EAGAIN, 0)
    else
      ret ← sleep (wait_event_interruptible "write_wq");
      if c_true ret then mret (ret, 0) else copy
  else copy.

Abbreviation POLLIN := 1.
Abbreviation POLLOUT := 4.
Abbreviation POLLRDNORM := 64.
Abbreviation POLLWRNORM := 256.

Definition mydev_poll : prog Z :=
  do_ (poll_wait "read_wq");;
  do_ (poll_wait "write_wq");;
  empty ← gets (fun d => kfifo_is_empty (fifo d));
  full ← gets (fun d => kfifo_is_full (fifo d));
  let mask := 0 in
  let mask := if negb empty then Z.lor mask (Z.lor POLLIN POLLRDNORM) else mask in
  let mask := if negb full then Z.lor mask (Z.lor POLLOUT POLLWRNORM) else mask in
  mret mask.

Definition mydev_init : prog Z :=
  gdev ← ask (kzalloc "mydev");
  if gdev =? 0 then mret (- ENOMEM)
  else
    let err_free ret := do_ (kfree gdev);; mret ret in
    modify (fun d => set_fifo (kfifo_reset (fifo d)) d);;
    g ← ask (gpiod_get "data-in");
    modify (set_gpio_in g);;
    if IS_ERR g then err_free (PTR_ERR g)
    else
      let err_gpio ret := do_ (gpiod_put g);; err_free ret in
      i ← ask (gpiod_to_irq g);
      modify (set_irq i);;
      if i <? 0 then err_gpio i
      else
        ret ← ask (request_irq i);
        if c_true ret then err_gpio ret
        else
          ret ← ask (register_chrdev 240);
          if ret <? 0 then
            do_ (free_irq i);;
            err_gpio ret
          else mret 0.

(** [gdev] is the pointer [mydev_init] obtained. *)
Definition mydev_exit (gdev : Z) : prog unit :=
  do_ (unregister_chrdev 240);;
  i ← gets irq;
  do_ (free_irq i);;
  g ← gets gpio_in;
  do_ (gpiod_put g);;
  do_ (kfree gdev).
End code.

(** ** Histories *)
Inductive fifo_op :=
  | Irq
  | Read (nonblock : bool) (len : Z)
  | Write (nonblock : bool) (from : list Z).

(** What went in, what came out, and whether an interrupt found the queue full. *)
Record history := Hist { ins : list Z; outs : list Z; lost : bool }.
Definition join (h k : history) : history :=
  Hist (ins h ++ ins k) (outs h ++ outs k) (lost h || lost k).

Section spec.
Context {F : Type} `{HF : KfifoSpec F}.
Context (e : env (mydev F)).
Implicit Types (d : mydev F) (t : trace).

Definition contents d : list Z := items (fifo d).

(** The level of the pin, as the interrupt that is to be handled will read it. *)
Definition run_op (op : fifo_op) : M (mydev F) history := fun e d t =>
  match op with
  | Irq =>
      let val := answer e t (gpiod_get_value (gpio_in d)) in
      let '(_, d', t') := mydev_irq_handler e d t in
      (Hist [u8 val] [] (kfifo_is_full (fifo d)), d', t')
  | Read nonblock len =>
      let '((_, out), d', t') := mydev_read nonblock len e d t in (Hist [] out false, d', t')
  | Write nonblock from =>
      let '((_, n), d', t') := mydev_write nonblock from e d t in
      (Hist (take (Z.to_nat n) from) [] false, d', t')
  end.

Fixpoint run_ops (ops : list fifo_op) : M (mydev F) history :=
  match ops with
  | [] => mret (Hist [] [] false)
  | op :: ops' => h ← run_op op; k ← run_ops ops'; mret (join h k)
  end.

(** [q] is what a history leaves in a queue that held [q0]. *)
Record accounts (q0 q : list Z) (h : history) : Prop := {
  acc_order : (outs h ++ q) `sublist_of` (q0 ++ ins h);
  acc_suffix : q `suffix_of` (q0 ++ ins h);
  acc_lossless : lost h = false -> outs h ++ q = q0 ++ ins h;
}.

Lemma accounts_nil q : accounts q q (Hist [] [] false).
Proof. split; cbn; rewrite ?app_nil_r; reflexivity. Qed.

Lemma accounts_join q0 q1 q2 h k :
  accounts q0 q1 h -> accounts q1 q2 k -> accounts q0 q2 (join h k).
Proof.
  intros [Ho1 Hs1 Hl1] [Ho2 Hs2 Hl2]. split; cbn [ins outs lost join].
  - rewrite <- app_assoc, (app_assoc q0). transitivity (outs h ++ q1 ++ ins k).
    + by apply sublist_app.
    + rewrite app_assoc. by apply sublist_app.
  - transitivity (q1 ++ ins k); [done|]. rewrite app_assoc. by apply suffix_app.
  - intros [Hh Hk]%orb_false_iff. rewrite <- app_assoc, (Hl2 Hk), app_assoc, (Hl1 Hh).
    by rewrite app_assoc.
Qed.
Lemma accounts_push x f : accounts (items f) (items (push_overwrite x f))
  (Hist [x] [] (kfifo_is_full f)).
Proof.
  pose proof (items_bound f) as Hb. rewrite push_overwrite_items.
  split; cbn [ins outs lost app].
  - apply sublist_drop.
  - apply suffix_drop.
  - rewrite kfifo_is_full_spec. intros Hne%Nat.eqb_neq. apply lastn_all.
    rewrite length_app. cbn. lia.
Qed.

Lemma accounts_take q out q' : q = out ++ q' -> accounts q q' (Hist [] out false).
Proof.
  intros ->. split; cbn; rewrite ?app_nil_r; try done. by exists out.
Qed.

Lemma accounts_put q n xs : accounts q (q ++ take n xs) (Hist (take n xs) [] false).
Proof. split; cbn; done. Qed.

Lemma wp_on_fifo {A} (op : F -> F * A) (Q : A -> mydev F -> trace -> Prop) d t :
  (forall f a, op (fifo d) = (f, a) -> Q a (set_fifo f d) t) -> wp e (on_fifo op) Q d t.
Proof. intros HQ. unfold wp, on_fifo. destruct (op (fifo d)) eqn:Ho. by apply HQ. Qed.

(** Operations take their turns: while one runs nobody else changes the device. *)
Hypothesis Halone : forall t d, interfere e t d = d.
Hypothesis Huser : forall t n, 0 <= answer e t (user_access n).

#[local] Set Default Proof Using "Type*".

Definition op_valid (op : fifo_op) : Prop :=
  match op with Read _ len => 0 <= len | _ => True end.

(** Evaluates the ledger of a section under the lock. *)
Ltac locked_section :=
  repeat match goal with H : ledger ?t = Some _ |- ledger _ = Some _ =>
    rewrite !ledger_from_cons, H end;
  cbn -[mem remove1]; rewrite_tests; cbn -[mem remove1]; by rewrite mem_cons_eq, remove1_cons_eq.

Lemma irq_push d t L :
  ledger t = Some L -> mem (R_lock "lock") L = false ->
  wp e mydev_irq_handler (fun _ d' t' =>
    fifo d' = push_overwrite (u8 (answer e t (gpiod_get_value (gpio_in d)))) (fifo d) /\
    ledger t' = Some L) d t.
Proof.
  intros HL Hm. unfold mydev_irq_handler, push_overwrite.
  apply wp_bind, wp_gets, wp_bind, wp_ask. intros v ->. apply wp_bind, wp_do; intros r1.
  apply wp_bind, wp_gets, wp_bind. destruct (kfifo_is_full (fifo d)); cbn [when].
  - apply wp_bind, wp_on_fifo. intros f a Ho. apply wp_ret, wp_bind, wp_on_fifo. intros f' n Hi.
    apply wp_bind, wp_do; intros r2. apply wp_do; intros r3. split; [|locked_section].
    cbn in Hi |- *. rewrite Ho. cbn [fst]. by rewrite Hi.
  - apply wp_ret, wp_bind, wp_on_fifo. intros f' n Hi. apply wp_bind, wp_do; intros r2.
    apply wp_do; intros r3. split; [|locked_section]. by rewrite Hi.
Qed.

Lemma read_takes nonblock len d t L :
  0 <= len -> ledger t = Some L -> mem (R_lock "lock") L = false ->
  wp e (mydev_read nonblock len) (fun r d' t' =>
    contents d = r.2 ++ contents d' /\ ledger t' = Some L) d t.
Proof.
  intros Hlen HL Hm. unfold mydev_read. cbv zeta.
  assert (forall t1 (Q := fun (r : Z * list Z) d' t' => contents d = r.2 ++ contents d' /\ ledger t' = Some L),
    ledger t1 = Some L ->
    wp e (_ ← sleep (spin_lock_irq "lock"); u ← ask (user_access len);
      '(ret, out) ← on_fifo (kfifo_to_user u len); do_ (spin_unlock_irq "lock");;
      when (c_true (Z.of_nat (length out))) (do_ (wake_up_interruptible "write_wq"));;
      mret (if c_true ret then ret else Z.of_nat (length out), out)) Q d t1) as Hcopy.
  { intros t1 Q HL1. apply wp_bind, wp_sleep. intros r0 _. rewrite Halone.
    apply wp_bind, wp_ask. intros u ->.
    apply wp_bind, wp_on_fifo. intros f [ret out] Ho.
    apply kfifo_to_user_spec in Ho as (Hit & _); [|apply Huser|done].
    apply wp_bind, wp_do; intros r1. apply wp_bind.
    destruct (c_true _); cbn [when]; [apply wp_do; intros r2|apply wp_ret].
    all: apply wp_ret; split; [exact Hit|locked_section]. }
  apply wp_bind, wp_gets. destruct (kfifo_is_empty (fifo d)); [|by apply Hcopy].
  destruct nonblock; [by apply wp_ret|]. apply wp_bind, wp_sleep. intros r _. rewrite Halone.
  assert (ledger (Ev (wait_event_interruptible "read_wq") r :: t) = Some L) as HL1
    by (by rewrite ledger_from_cons, HL).
  destruct (c_true r); [by apply wp_ret|by apply Hcopy].
Qed.

Lemma write_puts nonblock from d t L :
  ledger t = Some L -> mem (R_lock "lock") L = false ->
  wp e (mydev_write nonblock from) (fun r d' t' =>
    contents d' = contents d ++ take (Z.to_nat r.2) from /\ ledger t' = Some L) d t.
Proof.
  intros HL Hm. unfold mydev_write. cbv zeta.
  assert (forall t1 (Q := fun (r : Z * Z) d' t' =>
      contents d' = contents d ++ take (Z.to_nat r.2) from /\ ledger t' = Some L),
    ledger t1 = Some L ->
    wp e (_ ← sleep (spin_lock_irq "lock"); u ← ask (user_access (Z.of_nat (length from)));
      '(ret, copied) ← on_fifo (kfifo_from_user u from); do_ (spin_unlock_irq "lock");;
      when (c_true copied) (do_ (wake_up_interruptible "read_wq"));;
      mret (if c_true ret then ret else copied, copied)) Q d t1) as Hcopy.
  { intros t1 Q HL1. apply wp_bind, wp_sleep. intros r0 _. rewrite Halone.
    apply wp_bind, wp_ask. intros u ->.
    apply wp_bind, wp_on_fifo. intros f [ret n] Ho.
    apply kfifo_from_user_spec in Ho as (_ & Hit & _); [|apply Huser].
    apply wp_bind, wp_do; intros r1. apply wp_bind.
    destruct (c_true n); cbn [when]; [apply wp_do; intros r2|apply wp_ret].
    all: apply wp_ret; split; [exact Hit|locked_section]. }
  apply wp_bind, wp_gets. destruct (kfifo_is_full (fifo d)); [|by apply Hcopy].
  destruct nonblock; [by apply wp_ret; cbn; rewrite app_nil_r|].
  apply wp_bind, wp_sleep. intros r _. rewrite Halone.
  assert (ledger (Ev (wait_event_interruptible "write_wq") r :: t) = Some L) as HL1
    by (by rewrite ledger_from_cons, HL).
  destruct (c_true r); [by apply wp_ret; cbn; rewrite app_nil_r|by apply Hcopy].
Qed.

Lemma run_op_accounts op d t L : op_valid op ->
  ledger t = Some L -> mem (R_lock "lock") L = false ->
  wp e (run_op op) (fun h d' t' =>
    accounts (contents d) (contents d') h /\ ledger t' = Some L) d t.
Proof.
  intros Hv HL Hm. destruct op as [|nonblock len|nonblock from]; unfold wp, run_op.
  - pose proof (irq_push d t L HL Hm) as H1. unfold wp in H1.
    destruct (mydev_irq_handler e d t) as [[? d'] t']. destruct H1 as [Hf ?].
    split; [|done]. unfold contents. rewrite Hf. apply accounts_push.
  - pose proof (read_takes nonblock len d t L Hv HL Hm) as H1. unfold wp in H1.
    destruct (mydev_read nonblock len e d t) as [[[? out] d'] t']. destruct H1 as [Hf ?].
    split; [|done]. by apply accounts_take.
  - pose proof (write_puts nonblock from d t L HL Hm) as H1. unfold wp in H1.
    destruct (mydev_write nonblock from e d t) as [[[? n] d'] t']. destruct H1 as [Hf ?].
    split; [|done]. rewrite Hf. apply accounts_put.
Qed.

(** C26: whatever interrupts, reads and writes follow each other, with whatever
    results and faults, the bytes delivered to readers followed by the bytes still
    queued are the bytes that went in, in order, with some missing; the queue holds
    the newest of them; nothing is missing when no interrupt found the queue full.
    Every operation releases the lock. *)
Theorem fifo_history ops d t L :
  Forall op_valid ops -> contents d = [] ->
  ledger t = Some L -> mem (R_lock "lock") L = false ->
  wp e (run_ops ops) (fun h d' t' =>
    (outs h ++ contents d') `sublist_of` ins h /\ contents d' `suffix_of` ins h /\
    (lost h = false -> outs h ++ contents d' = ins h) /\ ledger t' = Some L) d t.
Proof.
  intros Hv Hd HL Hm. apply (wp_mono _ _ (fun h d' t' =>
    accounts (contents d) (contents d') h /\ ledger t' = Some L)).
  - clear Hd. revert d t HL. induction Hv as [|op ops Hop _ IH]; intros d t HL; cbn [run_ops].
    + apply wp_ret. split; [apply accounts_nil|done].
    + apply wp_bind. eapply wp_mono; [by apply run_op_accounts|].
      intros h d1 t1 [Hacc HL1]. apply wp_bind. eapply wp_mono; [by apply IH|].
      intros k d2 t2 [Hacc2 HL2]. apply wp_ret. split; [by eapply accounts_join|done].
  - rewrite Hd. by intros h d' t' [[Ho Hs Hl] HL'].
Qed.
End spec.

(** What a loaded module holds, newest first. *)
Definition loaded (gdev g i : Z) : list resource :=
  [R_chrdev 240; R_irq i; R_gpiod g; R_mem gdev].

(** Loading the module returns 0 and holds the memory, the descriptor, the
    interrupt and the device number, or returns an error and holds nothing; and
    unloading gives those four back. *)
Theorem kfifo_module_resources `{HF : KfifoSpec F} (e : env (mydev F)) d :
  wp e mydev_init (fun r d' t' =>
    if r =? 0 then exists gdev, gdev <> 0 /\
      ledger t' = Some (loaded gdev (gpio_in d') (irq d')) /\
      wp e (mydev_exit gdev) (fun _ _ t'' => ledger t'' = Some []) d' t'
    else ledger t' = Some []) d [].
Proof.
  unfold mydev_init. cbv zeta. wp_run; norm_tests.
  all: lazymatch goal with |- if ?b then _ else _ => destruct b eqn:? end; try path_contra.
  all: try (path_ledger; done).
  eexists. split; [by apply Z.eqb_neq|]. unfold mydev_exit, loaded.
  split; [|wp_run]; path_ledger; done.
Qed.

(** ** Concrete runs *)
Definition quiet_env : env (mydev list_fifo) :=
  Env (fun _ c => match c with gpiod_get_value _ => 1 | _ => 0 end) (fun _ d => d).

Lemma fifo_history_witness :
  wp quiet_env (run_ops [Irq; Write false [5; 6]; Read true 2; Irq]) (fun h d' t' =>
    (outs h ++ contents d') `sublist_of` ins h /\ contents d' `suffix_of` ins h /\
    (lost h = false -> outs h ++ contents d' = ins h) /\ ledger t' = Some [])
    (Mydev 4096 7 []) [].
Proof.
  apply (fifo_history quiet_env); try reflexivity. repeat constructor. cbn. lia.
Defined.
