(* ===== verification/Decimal.v ===== *)
(** * Numbers as text

    Characters, the decimal notation of a number and [atoi], which the proxy reads its
    ports with and the pin driver prints levels with. *)
From S2P Require Import Prelude.
From Stdlib Require Import Ascii String.
From stdpp Require Import options.
#[local] Open Scope Z_scope.

Definition code (c : ascii) : Z := Z.of_N (N_of_ascii c).
Definition is_digit (c : ascii) : bool := (48 <=? code c) && (code c <=? 57).
Definition is_space (c : ascii) : bool := (code c =? 32) || ((9 <=? code c) && (code c <=? 13)).

(** The characters of a string, without the 0 at its end. *)
Fixpoint bytes_of (s : string) : list Z :=
  match s with EmptyString => [] | String c s' => code c :: bytes_of s' end.

(** [atoi], undefined on a number that is not an [int]. *)
Fixpoint skip_spaces (s : string) : string :=
  match s with
  | String c s' => if is_space c then skip_spaces s' else s
  | EmptyString => s
  end.
Fixpoint digits (acc : Z) (s : string) : Z :=
  match s with
  | String c s' => if is_digit c then digits (10 * acc + (code c - 48)) s' else acc
  | EmptyString => acc
  end.
Definition atoi (s : string) : option Z :=
  let s := skip_spaces s in
  let n := match s with
           | String c s' => if code c =? 45 then - digits 0 s'
                            else if code c =? 43 then digits 0 s' else digits 0 s
           | EmptyString => 0
           end in
  if (- 2 ^ 31 <=? n) && (n <? 2 ^ 31) then Some n else None.

Definition digit (n : Z) : ascii := ascii_of_N (Z.to_N (48 + n)).
(** The decimal notation of a number of at most [fuel] digits. *)
Fixpoint decimal (fuel : nat) (n : Z) : string :=
  match fuel with
  | O => EmptyString
  | S fuel' =>
      if n <? 10 then String (digit n) EmptyString
      else String.append (decimal fuel' (n / 10)) (String (digit (n mod 10)) EmptyString)
  end.

Fixpoint all_chars (P : ascii -> bool) (s : string) : bool :=
  match s with EmptyString => true | String c s' => P c && all_chars P s' end.
Lemma code_digit n : 0 <= n < 10 -> code (digit n) = 48 + n.
Proof. intros Hn. unfold code, digit. rewrite N_ascii_embedding; lia. Qed.

Lemma digit_is_digit n : 0 <= n < 10 -> is_digit (digit n) = true.
Proof.
  intros Hn. unfold is_digit. rewrite code_digit by done. apply andb_true_iff; lia.
Qed.

Lemma append_nil s : String.append EmptyString s = s.
Proof. done. Qed.
Lemma append_cons c s s' : String.append (String c s) s' = String c (String.append s s').
Proof. done. Qed.

Lemma all_chars_app P s s' : all_chars P (String.append s s') = all_chars P s && all_chars P s'.
Proof.
  induction s as [|c s IH]; [done|]. rewrite append_cons. cbn [all_chars].
  by rewrite IH, andb_assoc.
Qed.

Lemma digits_app s s' : forall acc, all_chars is_digit s = true ->
  digits acc (String.append s s') = digits (digits acc s) s'.
Proof.
  induction s as [|c s IH]; intros acc; [done|]. rewrite append_cons.
  intros [Hc Hs]%andb_true_iff. cbn [digits]. rewrite Hc. by apply IH.
Qed.

Lemma digit_range n : 0 <= n -> 0 <= n mod 10 < 10.
Proof. intros. apply Z.mod_pos_bound. lia. Qed.

(** A number in decimal notation is made of digits and is read back. *)
Lemma decimal_spec fuel : forall n, 0 <= n < 10 ^ Z.of_nat (S fuel) ->
  exists c s, decimal (S fuel) n = String c s /\ all_chars is_digit (String c s) = true /\
    digits 0 (String c s) = n.
Proof.
  induction fuel as [|fuel IH]; intros n Hn.
  - cbn [decimal]. destruct (Z.ltb_spec n 10); [|lia]. exists (digit n), EmptyString.
    cbn [all_chars digits]. rewrite digit_is_digit, code_digit by lia. split_and!; [done|done|cbv iota; lia].
  - remember (S fuel) as f eqn:Hf. cbn [decimal]. destruct (Z.ltb_spec n 10) as [Hlt|Hge].
    + exists (digit n), EmptyString. cbn [all_chars digits].
      rewrite digit_is_digit, code_digit by lia. split_and!; [done|done|cbv iota; lia].
    + destruct (IH (n / 10)) as (c & s & Hd & Hall & Hval).
      { split; [apply Z.div_pos; lia|]. apply Z.div_lt_upper_bound; [lia|].
        rewrite (Nat2Z.inj_succ f), Z.pow_succ_r in Hn by lia. lia. }
      rewrite Hd. pose proof (digit_range n ltac:(lia)) as Hr.
      exists c, (String.append s (String (digit (n mod 10)) EmptyString)). split; [done|].
      change (String c (String.append s ?x)) with (String.append (String c s) x).
      split.
      * rewrite all_chars_app, Hall. cbn. by rewrite digit_is_digit.
      * rewrite digits_app, Hval by done. cbn [digits].
        rewrite digit_is_digit, code_digit by done. pose proof (Z.div_mod n 10). cbv iota. lia.
Qed.

Lemma digit_code c : is_digit c = true -> 48 <= code c <= 57.
Proof. unfold is_digit. intros [?%Z.leb_le ?%Z.leb_le]%andb_true_iff. lia. Qed.

Lemma atoi_decimal n : 0 <= n < 2 ^ 31 -> atoi (decimal 10 n) = Some n.
Proof.
  intros Hn. destruct (decimal_spec 9 n) as (c & s & -> & Hall & Hval); [lia|].
  pose proof Hall as [Hc _]%andb_true_iff. pose proof (digit_code c Hc) as Hcode.
  unfold atoi. assert (is_space c = false) as Hsp.
  { unfold is_space. apply orb_false_iff. split; [apply Z.eqb_neq; lia|].
    apply andb_false_iff. right. apply Z.leb_gt. lia. }
  cbn [skip_spaces]. rewrite Hsp. destruct (Z.eqb_spec (code c) 45); [lia|].
  destruct (Z.eqb_spec (code c) 43); [lia|]. rewrite Hval.
  destruct (Z.leb_spec (- 2 ^ 31) n), (Z.ltb_spec n (2 ^ 31)); cbn; done || lia.
Qed.
