(* ===== verification/UdpXorProxy.v ===== *)
(** * The UDP proxy with XOR obfuscation

    [python/udp_xor_proxy/udp_xor_proxy.c]: the cipher, the command line, the set-up of
    the sockets and the two forwarding threads.  What C leaves undefined (a read
    outside of the key, a division by 0, a write behind the 64 bytes of a host
    name, a null pointer, a number that does not fit an [int]) is [None] or
    [Undefined].  [inet_pton], [socket] and [bind] belong to the C library: their
    results are arguments. *)
From S2P Require Import Prelude.
From S2P Require Import Decimal.
From Stdlib Require Import Ascii String.
From stdpp Require Import options.
#[local] Open Scope Z_scope.

(** ** The cipher *)
Fixpoint xor_from (i : Z) (buf key : list Z) (key_len : Z) : option (list Z) :=
  match buf with
  | [] => Some []
  | b :: buf' =>
      if key_len =? 0 then None
      else
        k ← zget key (i mod key_len);
        r ← xor_from (i + 1) buf' key key_len;
        Some (Z.lxor b k :: r)
  end.
Definition xor_buffer (buf key : list Z) (key_len : Z) : option (list Z) :=
  xor_from 0 buf key key_len.

(** ** The command line *)
(** [strchr (s, ':')]: what is before and after the first colon. *)
Fixpoint split_colon (s : string) : option (string * string) :=
  match s with
  | EmptyString => None
  | String c s' =>
      if code c =? 58 then Some (EmptyString, s')
      else '(h, p) ← split_colon s'; Some (String c h, p)
  end.

Inductive parsed :=
  | Parsed (host : string) (port : Z)
  | Exit1
  | Undefined.

Definition HOST_SIZE : Z := 64.
Definition default_host (is_remote : bool) : string :=
  if is_remote then "127.0.0.1" else "0.0.0.0".

(** The default host that is copied for an empty name is overwritten by the
    terminating 0 at [host[len]]. *)
Definition parse_hostport (s : string) (is_remote : bool) : parsed :=
  match split_colon s with
  | Some (h, p) =>
      let len := Z.of_nat (String.length h) in
      if HOST_SIZE <=? len then Undefined
      else match atoi p with Some port => Parsed h port | None => Undefined end
  | None =>
      match s with
      | String c _ =>
          if is_digit c then
            match atoi s with
            | Some port => Parsed (default_host is_remote) port
            | None => Undefined
            end
          else Exit1
      | EmptyString => Exit1
      end
  end.

(** The arguments, [None] for a null pointer. *)
Record args := Args {
  listen_arg : option string;
  remote_arg : option string;
  key_arg : option string;
}.
Definition no_args : args := Args None None (Some EmptyString).

Definition is_opt (o : string) (short long : string) : bool := String.eqb o short || String.eqb o long.

(** The value after the last option is [argv[argc]], a null pointer.  [None]: an
    unknown argument. *)
Fixpoint parse_args (argv : list string) (a : args) : option args :=
  match argv with
  | [] => Some a
  | o :: rest =>
      let take (set : option string -> args) :=
        match rest with
        | [] => Some (set None)
        | v :: rest' => parse_args rest' (set (Some v))
        end in
      if is_opt o "-l" "--listen" then take (fun v => Args v (remote_arg a) (key_arg a))
      else if is_opt o "-r" "--remote" then take (fun v => Args (listen_arg a) v (key_arg a))
      else if is_opt o "-k" "--key" then take (fun v => Args (listen_arg a) (remote_arg a) v)
      else None
  end.

(** ** Addresses and state *)
Record sockaddr_in := Addr { sin_family : Z; sin_port : Z; s_addr : Z }.
#[export] Instance sockaddr_eq_dec : EqDecision sockaddr_in.
Proof. solve_decision. Defined.

Abbreviation AF_INET := 2.
Definition zero_addr : sockaddr_in := Addr 0 0 0.

Record proxy_state := State {
  local_fd : Z;
  remote_fd : Z;
  remote_addr : sockaddr_in;
  client_addr : sockaddr_in;
  client_addr_len : Z;
  key : list Z;
  key_len : Z;
}.

(** [strncpy (key, arg, 255)] into 256 bytes of zeros, and [strlen]. *)
Definition KEY_SIZE : nat := 256.
Definition copy_key (arg : string) : list Z :=
  let k := take (KEY_SIZE - 1) (bytes_of arg) in (k ++ replicate (KEY_SIZE - List.length k) 0)%list.
Fixpoint strlen (k : list Z) : Z :=
  match k with [] => 0 | c :: k' => if c =? 0 then 0 else 1 + strlen k' end.

(** What [inet_pton] stores; nothing when it does not understand the name. *)
Definition make_addr (inet_pton : string -> option Z) (host : string) (port : Z) : sockaddr_in :=
  Addr AF_INET (wrapu 16 port) (default 0 (inet_pton host)).

(** What the operating system answers to the set-up. *)
Record os := Os { socket_local : Z; socket_remote : Z; bind_ret : Z }.

Inductive started :=
  | Failed                        (** [return 1] or [exit (1)] *)
  | Crashed                       (** undefined behaviour *)
  | Running (local_addr : sockaddr_in) (st : proxy_state).

Definition main (inet_pton : string -> option Z) (o : os) (argv : list string) : started :=
  match parse_args argv no_args with
  | None => Failed
  | Some a =>
      match remote_arg a with
      | None => Failed
      | Some remote =>
          let listen := match listen_arg a with
                        | Some l => parse_hostport l false
                        | None => Parsed "0.0.0.0" 12345
                        end in
          match listen with
          | Exit1 => Failed
          | Undefined => Crashed
          | Parsed listen_host listen_port =>
              match parse_hostport remote true with
              | Exit1 => Failed
              | Undefined => Crashed
              | Parsed remote_host remote_port =>
                  if (socket_local o <? 0) || (socket_remote o <? 0) then Failed
                  else if bind_ret o <? 0 then Failed
                  else match key_arg a with
                       | None => Crashed
                       | Some k =>
                           Running (make_addr inet_pton listen_host listen_port)
                             (State (socket_local o) (socket_remote o)
                                (make_addr inet_pton remote_host remote_port)
                                zero_addr 0 (copy_key k) (strlen (copy_key k)))
                       end
              end
          end
      end
  end.

(** ** The threads

    One turn of each loop, on what [recvfrom] gave: [NoData] for an error or an empty
    datagram.  The result is the new state and the datagrams sent, [None] when the
    cipher is undefined. *)
Inductive recv :=
  | NoData
  | Datagram (data : list Z) (from : sockaddr_in) (len : Z).
Record sendto := SendTo { fd : Z; data : list Z; dest : sockaddr_in }.

Definition set_client (a : sockaddr_in) (len : Z) (st : proxy_state) : proxy_state :=
  State (local_fd st) (remote_fd st) (remote_addr st) a len (key st) (key_len st).

Definition local_to_remote_thread (r : recv) (st : proxy_state)
    : option (proxy_state * list sendto) :=
  match r with
  | NoData | Datagram [] _ _ => Some (st, [])
  | Datagram buf from len =>
      buf' ← xor_buffer buf (key st) (key_len st);
      let st := set_client from len st in
      Some (st, [SendTo (remote_fd st) buf' (remote_addr st)])
  end.

Definition remote_to_local_thread (r : recv) (st : proxy_state)
    : option (proxy_state * list sendto) :=
  match r with
  | NoData | Datagram [] _ _ => Some (st, [])
  | Datagram buf _ _ =>
      buf' ← xor_buffer buf (key st) (key_len st);
      Some (st, if 0 <? client_addr_len st
                then [SendTo (local_fd st) buf' (client_addr st)] else [])
  end.

(** ** The cipher undoes itself *)
Abbreviation len l := (Z.of_nat (List.length l)).

Lemma xor_from_involutive buf key n : forall i out,
  xor_from i buf key n = Some out -> xor_from i out key n = Some buf.
Proof.
  induction buf as [|b buf IH]; intros i out; cbn [xor_from]; [by intros [= <-]|].
  destruct (n =? 0) eqn:Hn; [done|]. destruct (zget key (i mod n)) as [k|] eqn:Hk; [|done].
  cbn [mbind option_bind]. destruct (xor_from (i + 1) buf key n) as [r|] eqn:Hr; [|done].
  intros [= <-]. cbn [xor_from]. rewrite Hn, Hk. cbn [mbind option_bind].
  rewrite (IH _ _ Hr). cbn [mbind option_bind].
  by rewrite Z.lxor_assoc, Z.lxor_nilpotent, Z.lxor_0_r.
Qed.

Lemma zget_Some {A} (l : list A) i : 0 <= i < len l -> exists x, zget l i = Some x.
Proof.
  intros Hi. rewrite zget_lookup by lia. apply lookup_lt_is_Some. lia.
Qed.

(** Defined while the indices stay inside the key. *)
Lemma xor_from_defined key n : 0 < n -> forall buf i, 0 <= i ->
  (forall j, i <= j < i + len buf -> j mod n < len key) ->
  exists out, xor_from i buf key n = Some out /\ List.length out = List.length buf /\
    (forall j b, buf !! j = Some b ->
       exists k, zget key ((i + Z.of_nat j) mod n) = Some k /\ out !! j = Some (Z.lxor b k)).
Proof.
  intros Hn buf. induction buf as [|b buf IH]; intros i Hi Hj; [by exists []|].
  cbn [List.length] in Hj. pose proof (Z.mod_pos_bound i n Hn).
  destruct (zget_Some key (i mod n)) as [k Hk].
  { split; [lia|]. apply Hj. lia. }
  destruct (IH (i + 1)) as (out & Ho & Hlen & Hat); [lia|intros; apply Hj; lia|].
  exists (Z.lxor b k :: out). cbn [xor_from List.length].
  destruct (Z.eqb_spec n 0); [lia|]. rewrite Hk. cbn [mbind option_bind]. rewrite Ho.
  split_and!; [done|by rewrite Hlen|]. intros [|j] b' Hb.
  - injection Hb as <-. exists k. by rewrite Z.add_0_r.
  - destruct (Hat j b' Hb) as (k' & Hk' & Hout). exists k'. split; [|done].
    by replace (i + Z.of_nat (S j)) with (i + 1 + Z.of_nat j) by lia.
Qed.

Lemma xor_from_undefined key n : forall buf i, 0 <= i -> 0 < n ->
  i <= len key < n -> len key < i + len buf -> xor_from i buf key n = None.
Proof.
  induction buf as [|b buf IH]; intros i Hi Hn Hk Hb; cbn in Hb; [lia|]. cbn [xor_from].
  destruct (n =? 0); [done|]. destruct (Z.eq_dec i (len key)) as [->|Hne].
  - rewrite Z.mod_small by lia. rewrite zget_lookup by lia. by rewrite lookup_ge_None_2 by lia.
  - rewrite (IH (i + 1)) by lia. by destruct (zget key (i mod n)).
Qed.

Lemma lxor_byte a b : 0 <= a < 256 -> 0 <= b < 256 -> 0 <= Z.lxor a b < 256.
Proof.
  intros Ha Hb. assert (0 <= Z.lxor a b) by (apply Z.lxor_nonneg; lia). split; [done|].
  destruct (Z.eq_dec (Z.lxor a b) 0) as [->|]; [lia|].
  change 256 with (2 ^ 8). apply Z.log2_lt_pow2; [lia|].
  eapply Z.le_lt_trans; [apply Z.log2_lxor; lia|].
  apply Z.max_lub_lt; (destruct (Z.eq_dec a 0) as [->|], (Z.eq_dec b 0) as [->|]; cbn;
    try apply Z.log2_lt_pow2; lia).
Qed.

Definition is_byte (x : Z) : Prop := 0 <= x < 256.

Lemma xor_buffer_cases buf key n :
  Forall is_byte buf -> Forall is_byte key -> 0 <= n ->
  (0 < n <= len key -> exists out, xor_buffer buf key n = Some out /\
     List.length out = List.length buf /\ Forall is_byte out /\
     xor_buffer out key n = Some buf /\
     forall i b, buf !! i = Some b ->
       exists k, key !! Z.to_nat (Z.of_nat i mod n) = Some k /\ out !! i = Some (Z.lxor b k)) /\
  (n = 0 -> buf <> [] -> xor_buffer buf key n = None) /\
  (len key < n -> (xor_buffer buf key n = None <-> len key < len buf)).
Proof.
  intros Hb Hk Hn0. unfold xor_buffer. split_and!.
  - intros [Hn Hlen]. destruct (xor_from_defined key n Hn buf 0) as (out & Ho & Hl & Hat); [lia| |].
    { intros j Hj. pose proof (Z.mod_pos_bound j n Hn). lia. }
    assert (forall i b, buf !! i = Some b ->
      exists k, key !! Z.to_nat (Z.of_nat i mod n) = Some k /\ out !! i = Some (Z.lxor b k)) as Hat'.
    { intros i b Hi. destruct (Hat i b Hi) as (k & Hkk & Hoo). exists k. split; [|done].
      rewrite zget_lookup in Hkk; [done|]. apply Z.mod_pos_bound. lia. }
    exists out. split_and!; [done|done| |by apply xor_from_involutive|done].
    apply Forall_lookup. intros i x Hx. pose proof (lookup_lt_Some _ _ _ Hx) as Hlt.
    rewrite Hl in Hlt. destruct (lookup_lt_is_Some_2 buf i Hlt) as [b Hi].
    destruct (Hat' i b Hi) as (k & Hkk & Hoo). rewrite Hoo in Hx. injection Hx as <-.
    apply lxor_byte; [exact (Forall_lookup_1 _ _ _ _ Hb Hi)|exact (Forall_lookup_1 _ _ _ _ Hk Hkk)].
  - intros -> Hne. destruct buf; [done|]. by cbn.
  - intros Hlt. assert (0 < n) as Hn by lia. split.
    + intros Hnone. destruct (Z_lt_le_dec (len key) (len buf)) as [|Hle]; [done|].
      destruct (xor_from_defined key n Hn buf 0) as (out & Ho & _); [lia| |by rewrite Ho in Hnone].
      intros j Hj. rewrite Z.mod_small; lia.
    + intros Hlt'. apply xor_from_undefined; lia.
Qed.

(** C25: with a key length inside the key, the cipher is defined for every datagram,
    combines byte [i] with byte [i mod key_len] of the key, keeps length and range
    and undoes itself.  With key length 0 it is undefined for every datagram that is
    not empty, and with a length greater than the key it is undefined exactly for
    the datagrams longer than the key. *)
Theorem xor_buffer_spec buf key n :
  Forall is_byte buf -> Forall is_byte key -> 0 <= n ->
  (0 < n <= len key -> exists out, xor_buffer buf key n = Some out /\
     List.length out = List.length buf /\ Forall is_byte out /\
     xor_buffer out key n = Some buf /\
     forall i b, buf !! i = Some b ->
       exists k, key !! Z.to_nat (Z.of_nat i mod n) = Some k /\ out !! i = Some (Z.lxor b k)) /\
  (n = 0 -> buf <> [] -> xor_buffer buf key n = None) /\
  (len key < n -> (xor_buffer buf key n = None <-> len key < len buf)).
Proof. apply xor_buffer_cases. Qed.

(** ** Starting the proxy *)
Lemma bytes_of_byte s : Forall is_byte (bytes_of s).
Proof.
  induction s as [|c s IH]; constructor; [|done]. unfold is_byte, code.
  pose proof (N_ascii_bounded c). lia.
Qed.

Lemma copy_key_length s : List.length (copy_key s) = KEY_SIZE.
Proof.
  unfold copy_key. rewrite length_app, length_replicate, length_take. unfold KEY_SIZE. lia.
Qed.

Lemma copy_key_byte s : Forall is_byte (copy_key s).
Proof.
  apply Forall_app_2; [apply Forall_take, bytes_of_byte|]. apply Forall_replicate.
  unfold is_byte. lia.
Qed.

Lemma strlen_range k : 0 <= strlen k <= len k.
Proof. induction k as [|c k IH]; cbn; [lia|]. destruct (c =? 0); lia. Qed.

Lemma strlen_app_zero k j : strlen (k ++ 0 :: j)%list <= len k.
Proof.
  induction k as [|c k IH]; [cbn; lia|]. cbn [strlen app List.length]. destruct (c =? 0); lia.
Qed.

Lemma copy_key_strlen s : 0 <= strlen (copy_key s) < 256.
Proof.
  pose proof (strlen_range (copy_key s)). split; [lia|]. unfold copy_key.
  set (k := take (KEY_SIZE - 1) (bytes_of s)).
  assert (List.length k <= KEY_SIZE - 1)%nat as Hk by (unfold k; rewrite length_take; lia).
  replace (KEY_SIZE - List.length k)%nat with (S (KEY_SIZE - 1 - List.length k))
    by (unfold KEY_SIZE in *; lia).
  cbn [replicate]. pose proof (strlen_app_zero k (replicate (KEY_SIZE - 1 - List.length k) 0)).
  unfold KEY_SIZE in *. lia.
Qed.

(** The key the command line gives. *)
Definition cmdline_key (argv : list string) : option string :=
  a ← parse_args argv no_args; key_arg a.

Lemma main_running inet_pton o argv local st :
  main inet_pton o argv = Running local st ->
  exists k, cmdline_key argv = Some k /\ key st = copy_key k /\ key_len st = strlen (key st) /\
    client_addr_len st = 0.
Proof.
  unfold main, cmdline_key. destruct (parse_args argv no_args) as [a|]; [|done].
  destruct (remote_arg a) as [remote|]; [|done].
  destruct (match listen_arg a with Some _ => _ | None => _ end); [|done..].
  destruct (parse_hostport remote true); [|done..].
  destruct ((socket_local o <? 0) || (socket_remote o <? 0)); [done|].
  destruct (bind_ret o <? 0); [done|]. cbn [mbind option_bind].
  destruct (key_arg a) as [k|]; [|done]. intros [= <- <-]. by exists k.
Qed.

(** The cipher of a key that came from the command line. *)
Lemma copy_key_cipher k buf : 0 < strlen (copy_key k) ->
  exists out, xor_buffer buf (copy_key k) (strlen (copy_key k)) = Some out /\
    List.length out = List.length buf.
Proof.
  intros Hn. pose proof (copy_key_strlen k).
  destruct (xor_from_defined (copy_key k) _ Hn buf 0) as (out & Ho & Hl & _); [lia| |by exists out].
  intros j Hj. pose proof (Z.mod_pos_bound j _ Hn). rewrite copy_key_length. unfold KEY_SIZE. lia.
Qed.

(** A proxy that starts has a key length below 256 whatever the key, so the
    cipher never leaves the key; but when the key option is missing, or its value
    empty, the key length is 0 and the first datagram that is not empty divides by
    0. *)
Theorem main_cipher inet_pton o argv local st :
  main inet_pton o argv = Running local st ->
  exists k, cmdline_key argv = Some k /\ key st = copy_key k /\ 0 <= key_len st < 256 /\
    (forall buf from l, 0 < key_len st -> local_to_remote_thread (Datagram buf from l) st <> None) /\
    (k = EmptyString -> key_len st = 0 /\
       forall buf from l, buf <> [] -> local_to_remote_thread (Datagram buf from l) st = None).
Proof.
  intros (k & Hk & Hkey & Hlen & _)%main_running. exists k. rewrite Hkey in Hlen.
  pose proof (copy_key_strlen k). split_and!; try done; try lia.
  - intros [|b buf] from l Hn; [done|]. unfold local_to_remote_thread. rewrite Hkey, Hlen in *.
    by destruct (copy_key_cipher k (b :: buf) Hn) as (out & -> & _).
  - intros ->. split; [done|]. intros [|b buf] from l Hne; [done|].
    unfold local_to_remote_thread. by rewrite Hkey, Hlen.
Qed.

(** ** Two proxies back to back

    A client talks to the near proxy, the near proxy to the far one, the far one to
    the server.  [relay] is the address the datagrams of the near proxy come from,
    [far_local] the one the far proxy listens on; the network delivers a datagram
    to the proxy it is addressed to. *)
Inductive traffic :=
  | FromClient (d : list Z) (from : sockaddr_in) (l : Z)
  | FromServer (d : list Z).
Inductive delivery := ToServer (d : list Z) | ToClient (d : list Z) (a : sockaddr_in).

Section pair.
Context (relay far_local : sockaddr_in).

Definition pair_step (ev : traffic) (near far : proxy_state)
    : option (proxy_state * proxy_state * list delivery) :=
  match ev with
  | FromClient d from l =>
      '(near', outs) ← local_to_remote_thread (Datagram d from l) near;
      match outs with
      | o :: _ =>
          if decide (dest o = far_local) then
            '(far', outs') ← local_to_remote_thread (Datagram (data o) relay 16) far;
            Some (near', far', map (fun o => ToServer (data o)) outs')
          else Some (near', far, [])
      | [] => Some (near', far, [])
      end
  | FromServer d =>
      '(far', outs) ← remote_to_local_thread (Datagram d (remote_addr far) 16) far;
      match outs with
      | o :: _ =>
          if decide (dest o = relay) then
            '(near', outs') ← remote_to_local_thread (Datagram (data o) far_local 16) near;
            Some (near', far', map (fun o => ToClient (data o) (dest o)) outs')
          else Some (near, far', [])
      | [] => Some (near, far', [])
      end
  end.

Fixpoint pair_run (evs : list traffic) (near far : proxy_state) : option (list delivery) :=
  match evs with
  | [] => Some []
  | ev :: evs' =>
      '(near', far', out) ← pair_step ev near far;
      outs ← pair_run evs' near' far';
      Some (out ++ outs)%list
  end.

(** The specification: a forwarder without proxies or cipher. *)
Fixpoint plain_run (last : option sockaddr_in) (evs : list traffic) : list delivery :=
  match evs with
  | [] => []
  | FromClient [] _ _ :: evs' | FromServer [] :: evs' => plain_run last evs'
  | FromClient d from _ :: evs' => ToServer d :: plain_run (Some from) evs'
  | FromServer d :: evs' =>
      match last with
      | Some a => ToClient d a :: plain_run last evs'
      | None => plain_run last evs'
      end
  end.

Record linked (k : string) (last : option sockaddr_in) (near far : proxy_state) : Prop := {
  linked_keys : key near = copy_key k /\ key far = copy_key k;
  linked_lens : key_len near = strlen (copy_key k) /\ key_len far = strlen (copy_key k);
  linked_remote : remote_addr near = far_local;
  linked_last : match last with
                | None => client_addr_len near = 0 /\ client_addr_len far = 0
                | Some a => client_addr near = a /\ 0 < client_addr_len near /\
                            client_addr far = relay /\ 0 < client_addr_len far
                end;
}.

(** The kernel gives the length of the address with every datagram. *)
Definition well_addressed (ev : traffic) : Prop :=
  match ev with FromClient _ _ l => 0 < l | FromServer _ => True end.

Lemma pair_step_linked k last near far ev : 0 < strlen (copy_key k) ->
  linked k last near far -> well_addressed ev ->
  exists near' far' out last', pair_step ev near far = Some (near', far', out) /\
    linked k last' near' far' /\
    forall evs, plain_run last (ev :: evs) = (out ++ plain_run last' evs)%list.
Proof.
  intros Hn [[Hk1 Hk2] [Hl1 Hl2] Hr Hlast] Hev. destruct ev as [[|b d] from l|[|b d]].
  - by exists near, far, [], last.
  - destruct (copy_key_cipher k (b :: d) Hn) as ([|b' d'] & Ho & Hlen); [done|].
    exists (set_client from l near), (set_client relay 16 far), [ToServer (b :: d)], (Some from).
    cbn [pair_step local_to_remote_thread]. rewrite Hk1, Hl1, Ho. cbn -[xor_buffer strlen copy_key].
    rewrite decide_True by done. rewrite Hk2, Hl2.
    rewrite (xor_from_involutive _ _ _ 0 _ Ho : xor_buffer _ _ _ = _). done.
  - by exists near, far, [], last.
  - destruct (copy_key_cipher k (b :: d) Hn) as ([|b' d'] & Ho & Hlen); [done|].
    exists near, far. cbn [pair_step remote_to_local_thread]. rewrite Hk2, Hl2, Ho.
    cbn -[xor_buffer strlen copy_key]. destruct last as [a|].
    + destruct Hlast as (Ha & Hln & Hrel & Hlf). exists [ToClient (b :: d) a], (Some a).
      rewrite (proj2 (Z.ltb_lt _ _) Hlf). cbn -[xor_buffer strlen copy_key].
      rewrite decide_True by done. rewrite Hk1, Hl1.
      rewrite (xor_from_involutive _ _ _ 0 _ Ho : xor_buffer _ _ _ = _).
      cbn -[xor_buffer strlen copy_key]. rewrite (proj2 (Z.ltb_lt _ _) Hln), Ha. done.
    + destruct Hlast as [Hln Hlf]. exists [], None. rewrite Hlf. done.
Qed.

(** C11: two proxies started with the same key that is not empty, the near one
    addressing the far one, are transparent: whatever the order of the traffic of
    the clients and the server, what is delivered is what a forwarder without
    cipher delivers, which sends each datagram of a client to the server and each
    answer to the client heard last. *)
Theorem proxy_pair_transparent inet_pton near_os far_os near_argv far_argv near_local near far k evs :
  main inet_pton near_os near_argv = Running near_local near ->
  main inet_pton far_os far_argv = Running far_local far ->
  cmdline_key near_argv = Some k -> cmdline_key far_argv = Some k ->
  0 < strlen (copy_key k) -> remote_addr near = far_local -> Forall well_addressed evs ->
  pair_run evs near far = Some (plain_run None evs).
Proof.
  intros (k1 & Hk1 & Hkey1 & Hlen1 & Hc1)%main_running (k2 & Hk2 & Hkey2 & Hlen2 & Hc2)%main_running.
  intros Hn1 Hn2 Hpos Hrem Hev. rewrite Hn1 in Hk1. rewrite Hn2 in Hk2.
  injection Hk1 as ->. injection Hk2 as <-.
  assert (linked k1 None near far) as Hlink by (by split; rewrite ?Hlen1, ?Hlen2, ?Hkey1, ?Hkey2).
  clear -Hlink Hev Hpos. remember None as last eqn:Hx. clear Hx.
  revert last near far Hlink. induction Hev as [|ev evs Hev _ IH]; intros last near far Hlink; [done|].
  destruct (pair_step_linked _ _ _ _ ev Hpos Hlink Hev) as (n' & f' & out & last' & Hs & Hl' & Hp).
  cbn [pair_run]. rewrite Hs. cbn [mbind option_bind]. rewrite (IH last' _ _ Hl').
  cbn [mbind option_bind]. by rewrite Hp.
Qed.
End pair.

(** ** Reading a host and a port *)
Definition not_colon (c : ascii) : bool := negb (code c =? 58).

Lemma split_colon_host h p : all_chars not_colon h = true ->
  split_colon (String.append h (String ":" p)) = Some (h, p).
Proof.
  induction h as [|c h IH]; [done|]. rewrite append_cons. intros [Hc Hh]%andb_true_iff.
  apply negb_true_iff in Hc. cbn [split_colon]. by rewrite Hc, IH.
Qed.

Lemma split_colon_none s : all_chars not_colon s = true -> split_colon s = None.
Proof.
  induction s as [|c s IH]; cbn; [done|]. intros [Hc Hs]%andb_true_iff.
  apply negb_true_iff in Hc. by rewrite Hc, IH.
Qed.

Lemma digits_not_colon s : all_chars is_digit s = true -> all_chars not_colon s = true.
Proof.
  induction s as [|c s IH]; cbn; [done|]. intros [Hc%digit_code Hs]%andb_true_iff.
  rewrite IH by done. rewrite andb_true_r. apply negb_true_iff, Z.eqb_neq. lia.
Qed.

(** A host of up to 63 characters without a colon, a colon and a port in decimal
    are read back as that host and port, an empty host included, for which the
    default is not used; a host of 64 characters or more is written behind its
    buffer.  A port alone is read back with the default host, and anything else
    without a colon is refused. *)
Theorem parse_hostport_roundtrip h n is_remote :
  all_chars not_colon h = true -> 0 <= n < 2 ^ 31 ->
  (String.length h < 64 -> parse_hostport (String.append h (String ":" (decimal 10 n))) is_remote
                           = Parsed h n)%nat /\
  (64 <= String.length h -> parse_hostport (String.append h (String ":" (decimal 10 n))) is_remote
                            = Undefined)%nat /\
  parse_hostport (decimal 10 n) is_remote = Parsed (default_host is_remote) n /\
  (match h with String c _ => is_digit c = false | EmptyString => True end ->
   parse_hostport h is_remote = Exit1).
Proof.
  intros Hh Hn. unfold parse_hostport. rewrite split_colon_host, (split_colon_none h) by done.
  rewrite (atoi_decimal n Hn). unfold HOST_SIZE. split_and!.
  - intros Hl. destruct (Z.leb_spec 64 (Z.of_nat (String.length h))); [lia|done].
  - intros Hl. destruct (Z.leb_spec 64 (Z.of_nat (String.length h))); [done|lia].
  -
    destruct (decimal_spec 9 n) as (c & s & Hd & Hall & _); [lia|]. rewrite Hd in *.
    rewrite split_colon_none by (by apply digits_not_colon).
    pose proof Hall as [Hc _]%andb_true_iff. by rewrite Hc.
  - destruct h as [|c h]; [done|]. by intros ->.
Qed.

(** ** Concrete runs *)
Definition no_names (host : string) : option Z := None.
Definition near_argv : list string := ["-l"; "4000"; "-r"; "10.0.0.1:5000"; "-k"; "secret"].
Definition far_argv : list string := ["-l"; "5000"; "-r"; ":6000"; "-k"; "secret"].

Lemma xor_buffer_spec_witness :
  exists out, xor_buffer [1; 2; 3] [7; 9] 2 = Some out /\ List.length out = 3%nat /\
    Forall is_byte out /\ xor_buffer out [7; 9] 2 = Some [1; 2; 3] /\
    forall i b, [1; 2; 3] !! i = Some b ->
      exists k, [7; 9] !! Z.to_nat (Z.of_nat i mod 2) = Some k /\ out !! i = Some (Z.lxor b k).
Proof.
  assert (Forall is_byte [1; 2; 3] /\ Forall is_byte [7; 9]) as [Hb Hk]
    by (split; repeat constructor; lia).
  assert (0 <= 2 /\ 0 < 2 <= len [7; 9]) as [H0 Hn] by (cbn; lia).
  exact (proj1 (xor_buffer_spec [1; 2; 3] [7; 9] 2 Hb Hk H0) Hn).
Defined.

Lemma main_cipher_witness :
  exists st, main no_names (Os 3 4 0) ["-r"; "5000"] = Running (Addr 2 12345 0) st /\
    local_to_remote_thread (Datagram [65] zero_addr 16) st = None.
Proof.
  eexists. split; [vm_compute; reflexivity|].
  match goal with |- local_to_remote_thread _ ?st = _ =>
    destruct (main_cipher no_names (Os 3 4 0) ["-r"; "5000"] (Addr 2 12345 0) st eq_refl)
      as (k & Hk & _ & _ & _ & Hempty) end.
  injection Hk as <-. by apply Hempty.
Defined.

Definition started_state (argv : list string) (o : os) : proxy_state :=
  match main no_names o argv with
  | Running _ st => st
  | _ => State 0 0 zero_addr zero_addr 0 [] 0
  end.
Definition some_traffic : list traffic :=
  [FromServer [1]; FromClient [72; 105] (Addr 2 999 1) 16; FromServer [111; 107]].

Lemma proxy_pair_transparent_witness :
  pair_run (Addr 2 777 1) (Addr 2 5000 0) some_traffic
    (started_state near_argv (Os 3 4 0)) (started_state far_argv (Os 5 6 0)) =
  Some [ToServer [72; 105]; ToClient [111; 107] (Addr 2 999 1)].
Proof.
  assert (0 < strlen (copy_key "secret")) as Hpos by (vm_compute; reflexivity).
  assert (Forall well_addressed some_traffic) as Hev by (repeat constructor).
  exact (proxy_pair_transparent (Addr 2 777 1) (Addr 2 5000 0) no_names (Os 3 4 0) (Os 5 6 0)
    near_argv far_argv (Addr 2 4000 0) _ _ "secret" some_traffic
    eq_refl eq_refl eq_refl eq_refl Hpos eq_refl Hev).
Defined.

Lemma parse_hostport_roundtrip_witness :
  parse_hostport "localhost:5000" true = Parsed "localhost" 5000 /\
  parse_hostport ":4000" true = Parsed EmptyString 4000.
Proof.
  split.
  - exact (proj1 (parse_hostport_roundtrip "localhost" 5000 true eq_refl ltac:(lia))
      ltac:(cbn; lia)).
  - exact (proj1 (parse_hostport_roundtrip EmptyString 4000 true eq_refl ltac:(lia))
      ltac:(cbn; lia)).
Defined.
