(* ===== verification/UdpXorMulti.v ===== *)
(** * The UDP proxy for several clients

    [python/udp_xor_proxy/udp_xor_proxy_multi_cleanup.c], and
    [udp_xor_proxy_multi.c], which is the same program without the clean-up
    thread: the list of clients with one upstream socket each, its lookup and its
    sweep, and one turn of the main loop.  The cipher and the command line are
    those of [UdpXorProxy].  The allocator, [socket], [time] and what waits in a
    socket are arguments. *)
From S2P Require Import Prelude.
From S2P Require Import Decimal.
From S2P Require Import UdpXorProxy.
From stdpp Require Import gmap.
From stdpp Require Import options.
#[local] Open Scope Z_scope.

#[export] Instance sockaddr_countable : Countable sockaddr_in.
Proof.
  refine (inj_countable' (fun a => (sin_family a, sin_port a, s_addr a))
    (fun '(f, p, s) => Addr f p s) _). by intros [].
Defined.

Definition CLIENT_TIMEOUT : Z := 60.

Record client := Client {
  addr : sockaddr_in;
  up_fd : Z;        (** [remote_fd] *)
  last_seen : Z;
}.
Record proxy := Proxy {
  listen_fd : Z;    (** [local_fd] *)
  upstream : sockaddr_in;  (** [remote_addr] *)
  pkey : list Z;
  pkey_len : Z;
  clients : list client;
}.
Definition set_clients (l : list client) (p : proxy) : proxy :=
  Proxy (listen_fd p) (upstream p) (pkey p) (pkey_len p) l.

Definition addr_equal (a b : sockaddr_in) : bool :=
  (sin_family a =? sin_family b) && (sin_port a =? sin_port b) && (s_addr a =? s_addr b).

(** The search for a client; the one found is marked as seen. *)
Fixpoint find_client (a : sockaddr_in) (now : Z) (l : list client) : option (client * list client) :=
  match l with
  | [] => None
  | c :: l' =>
      if addr_equal (addr c) a then
        let c' := Client (addr c) (up_fd c) now in Some (c', c' :: l')
      else '(found, l'') ← find_client a now l'; Some (found, c :: l'')
  end.

(** [calloc] succeeds or not, and [socket] gives [sock]. *)
Definition get_client (calloc : bool) (sock now : Z) (a : sockaddr_in) (p : proxy)
    : proxy * option client :=
  match find_client a now (clients p) with
  | Some (c, l) => (set_clients l p, Some c)
  | None =>
      if negb calloc then (p, None)
      else if sock <? 0 then (p, None)
      else let c := Client a sock now in (set_clients (c :: clients p) p, Some c)
  end.

(** One sweep of the clean-up thread; the sockets it closes. *)
Fixpoint sweep (now : Z) (l : list client) : list client * list Z :=
  match l with
  | [] => ([], [])
  | c :: l' =>
      let '(kept, closed) := sweep now l' in
      if CLIENT_TIMEOUT <? now - last_seen c then (kept, up_fd c :: closed)
      else (c :: kept, closed)
  end.
Definition cleanup_thread (now : Z) (p : proxy) : proxy * list Z :=
  let '(kept, closed) := sweep now (clients p) in (set_clients kept p, closed).

(** One turn of the main loop; [waiting fd] is what the non-blocking [recvfrom] on
    the client's socket gives.  The result: the proxy, the datagrams sent, and the
    socket an answer was taken from. *)
Definition main_turn (calloc : bool) (sock now : Z) (r : recv) (waiting : Z -> option (list Z))
    (p : proxy) : option (proxy * list sendto * option Z) :=
  match r with
  | NoData | Datagram [] _ _ => Some (p, [], None)
  | Datagram buf from _ =>
      buf' ← xor_buffer buf (pkey p) (pkey_len p);
      let '(p', oc) := get_client calloc sock now from p in
      match oc with
      | None => Some (p', [], None)
      | Some c =>
          let up := SendTo (up_fd c) buf' (upstream p') in
          match waiting (up_fd c) with
          | Some (b :: ans) =>
              ans' ← xor_buffer (b :: ans) (pkey p') (pkey_len p');
              Some (p', [up; SendTo (listen_fd p') ans' (addr c)], Some (up_fd c))
          | _ => Some (p', [up], None)
          end
      end
  end.

(** [strncpy (p.key, key_arg, 255)], but [strlen (key_arg)]. *)
Definition make_proxy (fd : Z) (remote : sockaddr_in) (arg : string) : proxy :=
  Proxy fd remote (copy_key arg) (len (bytes_of arg)) [].

(** ** The clients as a map *)
Definition entry (c : client) : sockaddr_in * (Z * Z) := (addr c, (up_fd c, last_seen c)).
Definition as_map (l : list client) : gmap sockaddr_in (Z * Z) := list_to_map (map entry l).

Definition fresh (now : Z) (v : Z * Z) : Prop := now - v.2 <= CLIENT_TIMEOUT.

#[export] Instance fresh_dec now v : Decision (fresh now v).
Proof. unfold fresh. apply _. Defined.

(** The reference: a table from addresses to a socket and the time it was used. *)
Abbreviation table := (gmap sockaddr_in (Z * Z)).
Definition table_get (calloc : bool) (sock now : Z) (a : sockaddr_in) (m : table)
    : table * option Z :=
  match m !! a with
  | Some (fd, _) => (<[a := (fd, now)]> m, Some fd)
  | None => if calloc && (0 <=? sock) then (<[a := (sock, now)]> m, Some sock) else (m, None)
  end.
Definition table_sweep (now : Z) (m : table) : table := filter (fun kv => fresh now kv.2) m.

Inductive table_op :=
  | Get (calloc : bool) (sock now : Z) (a : sockaddr_in)
  | Sweep (now : Z).

Fixpoint run_proxy (ops : list table_op) (p : proxy) : proxy * list (option Z) :=
  match ops with
  | [] => (p, [])
  | Get calloc sock now a :: ops' =>
      let '(p1, oc) := get_client calloc sock now a p in
      let '(p2, rs) := run_proxy ops' p1 in (p2, (up_fd <$> oc) :: rs)
  | Sweep now :: ops' => run_proxy ops' (cleanup_thread now p).1
  end.
Fixpoint run_table (ops : list table_op) (m : table) : table * list (option Z) :=
  match ops with
  | [] => (m, [])
  | Get calloc sock now a :: ops' =>
      let '(m1, r) := table_get calloc sock now a m in
      let '(m2, rs) := run_table ops' m1 in (m2, r :: rs)
  | Sweep now :: ops' => run_table ops' (table_sweep now m)
  end.

Definition distinct (l : list client) : Prop := NoDup (map addr l).

Lemma addr_equal_spec a b : addr_equal a b = true <-> a = b.
Proof.
  unfold addr_equal. rewrite !andb_true_iff, !Z.eqb_eq. destruct a, b; cbn. split.
  - by intros [[-> ->] ->].
  - by intros [= -> -> ->].
Qed.

Lemma as_map_cons c l : as_map (c :: l) = <[addr c := (up_fd c, last_seen c)]> (as_map l).
Proof. done. Qed.

Lemma as_map_None l a : as_map l !! a = None <-> a ∉ map addr l.
Proof.
  unfold as_map. rewrite <- not_elem_of_list_to_map.
  replace ((map entry l).*1) with (map addr l); [done|].
  change (fmap fst) with (map (A:=sockaddr_in * (Z * Z)) fst). by rewrite map_map.
Qed.

Lemma find_client_map a now l : distinct l ->
  match find_client a now l with
  | Some (c, l') =>
      exists old, as_map l !! a = Some (up_fd c, old) /\ addr c = a /\ last_seen c = now /\
        as_map l' = <[a := (up_fd c, now)]> (as_map l) /\ map addr l' = map addr l
  | None => as_map l !! a = None
  end.
Proof.
  induction l as [|c l IH]; intros Hd; cbn [find_client]; [done|].
  apply NoDup_cons in Hd as [Hni Hd]. destruct (addr_equal (addr c) a) eqn:He.
  - apply addr_equal_spec in He. subst a. exists (last_seen c). rewrite !as_map_cons.
    cbn [addr up_fd last_seen]. rewrite lookup_insert_eq, insert_insert_eq. done.
  - assert (addr c <> a) as Hne by (intros ?%addr_equal_spec; congruence).
    specialize (IH Hd). destruct (find_client a now l) as [[c' l']|]; cbn [mbind option_bind].
    + destruct IH as (old & Hl & Ha & Hs & Hm & Hmap). exists old. rewrite !as_map_cons.
      rewrite lookup_insert_ne by done. split_and!; try done.
      * by rewrite Hm, insert_insert_ne.
      * cbn [map]. by rewrite Hmap.
    + rewrite as_map_cons. by rewrite lookup_insert_ne.
Qed.

Lemma get_client_map calloc sock now a p : distinct (clients p) ->
  let '(p', oc) := get_client calloc sock now a p in
  let '(m', r) := table_get calloc sock now a (as_map (clients p)) in
  distinct (clients p') /\ as_map (clients p') = m' /\ up_fd <$> oc = r /\
  (forall c, oc = Some c -> addr c = a).
Proof.
  intros Hd. unfold get_client, table_get. pose proof (find_client_map a now _ Hd) as Hf.
  destruct (find_client a now (clients p)) as [[c l]|].
  - destruct Hf as (old & -> & Ha & Hs & Hm & Hmap). cbn [clients set_clients].
    split_and!; [unfold distinct; by rewrite Hmap|done|done|by intros ? [= <-]].
  - rewrite Hf. destruct calloc; cbn [negb andb]; [|done].
    destruct (Z.ltb_spec sock 0), (Z.leb_spec 0 sock); try lia; [done|].
    cbn [clients set_clients]. split_and!; [|done|done|by intros ? [= <-]].
    apply NoDup_cons. split; [by apply as_map_None|done].
Qed.

Lemma sweep_map now l : distinct l ->
  distinct (sweep now l).1 /\ as_map (sweep now l).1 = table_sweep now (as_map l) /\
  (forall a, a ∈ map addr (sweep now l).1 -> a ∈ map addr l).
Proof.
  induction l as [|c l IH]; intros Hd; [done|]. apply NoDup_cons in Hd as [Hni Hd].
  destruct (IH Hd) as (Hd' & Hm & Hin). cbn [sweep]. destruct (sweep now l) as [kept closed].
  cbn [fst] in *. assert (as_map l !! addr c = None) as Hnone by (by apply as_map_None).
  rewrite as_map_cons. unfold table_sweep in *. destruct (Z.ltb_spec CLIENT_TIMEOUT (now - last_seen c)).
  - cbn [fst]. rewrite map_filter_insert_False, delete_id; [|done|unfold fresh; cbn; lia].
    split_and!; [done|done|]. intros a Ha. right. by apply Hin.
  - cbn [fst]. rewrite as_map_cons, map_filter_insert_True, Hm by (unfold fresh; cbn; lia).
    split_and!; [|done|].
    + apply NoDup_cons. split; [|done]. by intros ?%Hin.
    + intros a. cbn [map]. rewrite !elem_of_cons. naive_solver.
Qed.

(** C12: under any sequence of lookups and sweeps, whatever fails, the list of clients
    is a table with one entry per address: every lookup gives the socket the table
    has for the address, or a new one, or nothing, and a sweep removes exactly the
    entries that were idle for more than 60 seconds. *)
Theorem clients_implement_table ops p :
  distinct (clients p) ->
  let '(p', rs) := run_proxy ops p in
  let '(m', rs') := run_table ops (as_map (clients p)) in
  rs = rs' /\ as_map (clients p') = m' /\ distinct (clients p').
Proof.
  revert p. induction ops as [|[calloc sock now a|now] ops IH]; intros p Hd; cbn [run_proxy run_table].
  - done.
  - pose proof (get_client_map calloc sock now a p Hd) as Hg.
    destruct (get_client calloc sock now a p) as [p1 oc].
    destruct (table_get calloc sock now a (as_map (clients p))) as [m1 r].
    destruct Hg as (Hd1 & <- & <- & _). specialize (IH p1 Hd1).
    destruct (run_proxy ops p1) as [p2 rs], (run_table ops (as_map (clients p1))) as [m2 rs'].
    destruct IH as (-> & -> & ?). done.
  - destruct (sweep_map now (clients p) Hd) as (Hd1 & Hm & _). unfold cleanup_thread.
    destruct (sweep now (clients p)) as [kept closed]. cbn [fst] in *.
    specialize (IH (set_clients kept p) Hd1). cbn [clients set_clients] in IH. by rewrite Hm in IH.
Qed.

(** ** Sockets *)
Definition fds (l : list client) : list Z := map up_fd l.

Lemma find_client_fds a now l : forall c l', find_client a now l = Some (c, l') -> fds l' = fds l.
Proof.
  induction l as [|c0 l IH]; intros c l'; cbn [find_client]; [done|].
  destruct (addr_equal (addr c0) a); [by intros [= <- <-]|].
  destruct (find_client a now l) as [[c1 l1]|]; [|done]. cbn [mbind option_bind].
  intros [= <- <-]. unfold fds in *. cbn [map]. by rewrite (IH c1 l1).
Qed.

Lemma sweep_fds now l : fds l ≡ₚ (sweep now l).2 ++ fds (sweep now l).1.
Proof.
  induction l as [|c l IH]; [done|]. cbn [sweep]. destruct (sweep now l) as [kept closed].
  cbn [fst snd] in IH. destruct (_ <? _); cbn [fst snd fds map app].
  - by rewrite <- IH.
  - fold (fds l) (fds kept). by rewrite <- Permutation_middle, <- IH.
Qed.

(** The sockets a run opens and closes. *)
Fixpoint run_sockets (ops : list table_op) (p : proxy) : proxy * (list Z * list Z) :=
  match ops with
  | [] => (p, ([], []))
  | Get calloc sock now a :: ops' =>
      let '(p1, oc) := get_client calloc sock now a p in
      let '(p2, (opened, closed)) := run_sockets ops' p1 in
      let new := match find_client a now (clients p), oc with
                 | None, Some c => [up_fd c]
                 | _, _ => []
                 end in
      (p2, (new ++ opened, closed))%list
  | Sweep now :: ops' =>
      let '(p1, gone) := cleanup_thread now p in
      let '(p2, (opened, closed)) := run_sockets ops' p1 in
      (p2, (opened, gone ++ closed))%list
  end.

(** No socket is lost or closed twice: at any time the sockets opened are those
    closed by the sweeps and those of the clients in the list. *)
Theorem sockets_balanced ops p :
  let '(p', (opened, closed)) := run_sockets ops p in
  fds (clients p) ++ opened ≡ₚ closed ++ fds (clients p').
Proof.
  revert p. induction ops as [|[calloc sock now a|now] ops IH]; intros p; cbn [run_sockets].
  - by rewrite app_nil_r.
  - unfold get_client. destruct (find_client a now (clients p)) as [[c l]|] eqn:Hf.
    + specialize (IH (set_clients l p)).
      destruct (run_sockets ops (set_clients l p)) as [p2 [opened closed]].
      cbn [clients set_clients app] in *. by rewrite <- (find_client_fds _ _ _ _ _ Hf).
    + destruct (negb calloc); [by specialize (IH p); destruct (run_sockets ops p) as [? [? ?]]|].
      destruct (sock <? 0); [by specialize (IH p); destruct (run_sockets ops p) as [? [? ?]]|].
      specialize (IH (set_clients (Client a sock now :: clients p) p)).
      destruct (run_sockets ops _) as [p2 [opened closed]].
      cbn [clients set_clients fds map up_fd app] in *. fold (fds (clients p)) in *.
      by rewrite <- Permutation_middle.
  - pose proof (sweep_fds now (clients p)) as Hs. unfold cleanup_thread.
    destruct (sweep now (clients p)) as [kept gone]. cbn [fst snd] in Hs.
    specialize (IH (set_clients kept p)).
    destruct (run_sockets ops (set_clients kept p)) as [p2 [opened closed]].
    cbn [clients set_clients] in *. by rewrite Hs, <- !app_assoc, IH.
Qed.

(** ** Answers *)
(** What happens to a running proxy: a datagram from a client, an answer that arrives
    at an upstream socket, a sweep. *)
Inductive event :=
  | Request (calloc : bool) (sock now : Z) (d : list Z) (from : sockaddr_in)
  | Answer (fd : Z) (d : list Z)
  | Tick (now : Z).

(** The answers that wait in each socket, oldest first. *)
Abbreviation inbox := (gmap Z (list (list Z))).

Definition take_answer (fd : Z) (w : inbox) : inbox := <[fd := tail (default [] (w !! fd))]> w.

Fixpoint serve (evs : list event) (w : inbox) (p : proxy) : option (proxy * inbox * list sendto) :=
  match evs with
  | [] => Some (p, w, [])
  | Request calloc sock now d from :: evs' =>
      '(p1, out, taken) ← main_turn calloc sock now (Datagram d from 16)
                            (fun fd => head (default [] (w !! fd))) p;
      let w1 := match taken with Some fd => take_answer fd w | None => w end in
      '(p2, w2, outs) ← serve evs' w1 p1;
      Some (p2, w2, out ++ outs)%list
  | Answer fd d :: evs' => serve evs' (<[fd := default [] (w !! fd) ++ [d]]> w)%list p
  | Tick now :: evs' => serve evs' w (cleanup_thread now p).1
  end.

(** The datagrams sent to [a], and those [a] sent. *)
Definition sent_to (a : sockaddr_in) (l : list sendto) : nat :=
  length (filter (fun s => dest s = a) l).
Fixpoint requests (a : sockaddr_in) (evs : list event) : nat :=
  match evs with
  | [] => 0
  | Request _ _ _ _ from :: evs' => (if decide (from = a) then 1 else 0) + requests a evs'
  | _ :: evs' => requests a evs'
  end.

Lemma find_client_addr a now l : forall c l', find_client a now l = Some (c, l') -> addr c = a.
Proof.
  induction l as [|c0 l IH]; intros c l'; cbn [find_client]; [done|].
  destruct (addr_equal (addr c0) a) eqn:He.
  - intros [= <- <-]. by apply addr_equal_spec.
  - destruct (find_client a now l) as [[c1 l1]|]; [|done]. intros [= <- <-]. by apply (IH c1 l1).
Qed.

Lemma get_client_addr calloc sock now a p :
  let '(p', oc) := get_client calloc sock now a p in
  upstream p' = upstream p /\ forall c, oc = Some c -> addr c = a.
Proof.
  unfold get_client. destruct (find_client a now (clients p)) as [[c l]|] eqn:Hf.
  - split; [done|]. intros ? [= <-]. by eapply find_client_addr.
  - destruct (negb calloc); [done|]. destruct (sock <? 0); [done|].
    split; [done|]. by intros ? [= <-].
Qed.

Lemma sent_to_app a l k : sent_to a (l ++ k)%list = (sent_to a l + sent_to a k)%nat.
Proof. unfold sent_to. by rewrite filter_app, length_app. Qed.

(** A turn sends at most one datagram to a client, to the one it heard. *)
Lemma turn_sent calloc sock now d from l waiting p p' out taken a :
  main_turn calloc sock now (Datagram d from l) waiting p = Some (p', out, taken) ->
  upstream p <> a ->
  upstream p' = upstream p /\ (sent_to a out <= if decide (from = a) then 1 else 0)%nat.
Proof.
  intros Ht Hup. assert (forall fd x, sent_to a [SendTo fd x (upstream p)] = 0%nat) as H0
    by (intros; unfold sent_to; by rewrite filter_cons_False).
  unfold main_turn in Ht. destruct d as [|b d]; [injection Ht as <- <- _; cbn; split; [done|lia]|].
  destruct (xor_buffer _ _ _) as [buf'|]; [|done]. cbn [mbind option_bind] in Ht.
  pose proof (get_client_addr calloc sock now from p) as Hg.
  destruct (get_client calloc sock now from p) as [p1 [c|]]; destruct Hg as [Hu Hc].
  - specialize (Hc c eq_refl). destruct (waiting (up_fd c)) as [[|x ans]|].
    + injection Ht as <- <- _. rewrite Hu, H0. split; [done|lia].
    + destruct (xor_buffer (x :: ans) _ _) as [ans'|]; [|done]. injection Ht as <- <- _.
      split; [done|]. rewrite Hu, Hc.
      change [?u; ?v] with ([u] ++ [v])%list. rewrite sent_to_app, H0. unfold sent_to.
      destruct (decide (from = a)) as [->|Hne]; [by rewrite filter_cons_True|].
      by rewrite filter_cons_False.
    + injection Ht as <- <- _. rewrite Hu, H0. split; [done|lia].
  - injection Ht as <- <- _. split; [done|]. cbn. lia.
Qed.

(** Whatever answers arrive and however many, a client is sent at most one
    datagram for each one it sends itself: an answer that arrives after the proxy
    looked, which it does at once after forwarding, waits until the client sends
    again. *)
Theorem answers_need_requests a evs w p p' w' outs :
  upstream p <> a -> serve evs w p = Some (p', w', outs) -> (sent_to a outs <= requests a evs)%nat.
Proof.
  revert w p p' w' outs. induction evs as [|[calloc sock now d from|fd d|now] evs IH];
    intros w p p' w' outs Hup; cbn [serve requests].
  - intros [= _ _ <-]. cbn. lia.
  - destruct (main_turn _ _ _ _ _ p) as [[[p1 out] taken]|] eqn:Ht; [|done].
    cbn [mbind option_bind]. destruct (turn_sent _ _ _ _ _ _ _ _ _ _ _ a Ht Hup) as [Hu1 Hs1].
    destruct (serve evs _ p1) as [[[p2 w2] outs2]|] eqn:Hs; [|done]. cbn [mbind option_bind].
    intros [= <- <- <-]. rewrite sent_to_app.
    assert (upstream p1 <> a) as Hup1 by congruence.
    pose proof (IH _ _ _ _ _ Hup1 Hs). lia.
  - by apply IH.
  - apply IH. unfold cleanup_thread. by destruct (sweep now (clients p)).
Qed.

(** The key of the proxy and the length it goes with, for a key of the command line
    without a 0 in it. *)
Lemma copy_key_prefix s : Forall (fun c => c <> 0) (bytes_of s) ->
  (List.length (bytes_of s) < 256)%nat -> strlen (copy_key s) = len (bytes_of s).
Proof.
  intros Hnz Hlen. unfold copy_key. rewrite take_ge by (unfold KEY_SIZE; lia).
  replace (KEY_SIZE - List.length (bytes_of s))%nat
    with (S (KEY_SIZE - 1 - List.length (bytes_of s))) by (unfold KEY_SIZE; lia).
  cbn [replicate]. generalize (replicate (KEY_SIZE - 1 - List.length (bytes_of s)) 0).
  intros rest. clear Hlen. induction Hnz as [|c k Hc _ IH]; [done|].
  cbn [strlen app List.length]. destruct (Z.eqb_spec c 0); [done|]. rewrite IH. lia.
Qed.

(** The key length of this program is the length of the argument, not of the copy.
    Up to 255 characters both agree, and the cipher is the one of the single-client
    proxy; above 256 every datagram longer than 256 bytes reads behind the key. *)
Theorem long_key_overruns fd remote s buf :
  Forall (fun c => c <> 0) (bytes_of s) -> Forall is_byte buf ->
  let p := make_proxy fd remote s in
  ((len (bytes_of s) < 256) ->
     xor_buffer buf (pkey p) (pkey_len p) = xor_buffer buf (copy_key s) (strlen (copy_key s))) /\
  (256 < len (bytes_of s) ->
     (xor_buffer buf (pkey p) (pkey_len p) = None <-> 256 < len buf)).
Proof.
  intros Hnz Hb. cbv zeta. unfold make_proxy; cbn [pkey pkey_len]. split.
  - intros Hl. by rewrite copy_key_prefix by (done || lia).
  - intros Hl. assert (len (copy_key s) = 256) as Hk by (by rewrite copy_key_length).
    destruct (xor_buffer_cases buf (copy_key s) (len (bytes_of s))) as (_ & _ & Hlong);
      [done|apply copy_key_byte|lia|].
    rewrite Hk in Hlong. by apply Hlong.
Qed.

(** ** Concrete runs *)
Definition alice : sockaddr_in := Addr 2 1000 1.
Definition bob : sockaddr_in := Addr 2 2000 1.
Definition some_proxy : proxy := make_proxy 3 (Addr 2 6000 9) "k".

Definition some_ops : list table_op :=
  [Get true 4 0 alice; Get true 5 30 bob; Get false (-1) 50 alice; Sweep 100; Get true 6 110 bob].

Lemma clients_implement_table_witness :
  let '(p', rs) := run_proxy some_ops some_proxy in
  let '(m', rs') := run_table some_ops ∅ in
  rs = rs' /\ as_map (clients p') = m' /\ distinct (clients p').
Proof. apply (clients_implement_table some_ops some_proxy). apply NoDup_nil_2. Defined.

Definition some_events : list event :=
  [Request true 4 0 [65] alice; Answer 4 [66]; Answer 4 [67]; Request true 5 1 [68] alice].

Lemma answers_need_requests_witness :
  exists p' w' outs, serve some_events ∅ some_proxy = Some (p', w', outs) /\
    sent_to alice outs = 1%nat /\ (sent_to alice outs <= requests alice some_events)%nat.
Proof.
  eexists _, _, _. split; [vm_compute; reflexivity|]. split; [vm_compute; reflexivity|].
  eapply (answers_need_requests alice some_events ∅ some_proxy); [discriminate|].
  vm_compute. reflexivity.
Defined.

Lemma long_key_overruns_witness :
  let s := "secret"%string in let p := make_proxy 3 alice s in
  xor_buffer [1; 2] (pkey p) (pkey_len p) = xor_buffer [1; 2] (copy_key s) (strlen (copy_key s)).
Proof.
  assert (Forall (fun c => c <> 0) (bytes_of "secret")) as Hnz by (repeat constructor; discriminate).
  assert (Forall is_byte [1; 2]) as Hb by (repeat constructor; lia).
  exact (proj1 (long_key_overruns 3 alice "secret" [1; 2] Hnz Hb) ltac:(cbn; lia)).
Defined.
