(* ===== verification/UdpXorThreads.v ===== *)
(** * The two threads of the UDP proxy for several clients

    [python/udp_xor_proxy/udp_xor_proxy_multi_cleanup.c] at the grain of its
    accesses to shared memory.  The main thread walks and extends the linked list of
    [struct client] in [get_client]; the clean-up thread unlinks and frees idle
    clients; [clients_lock] excludes them.  A schedule says which thread runs next
    and how time passes; what [recvfrom], [calloc] and [socket] give comes with the
    schedule.  An access to a client that has been freed is undefined: [None].
    [UdpXorMulti] has the same operations on lists; here they are shown to be what
    the threads do, whatever the schedule, and when the main thread, which goes on
    using a client after it gave the lock back, may find it freed. *)
From S2P Require Import Prelude.
From S2P Require Import UdpXorProxy.
From S2P Require Import UdpXorMulti.
From stdpp Require Import gmap.
From stdpp Require Import options.
#[local] Open Scope Z_scope.

(** A [struct client] in memory; addresses are positive, 0 is [NULL]. *)
Record node := Node { n_client : client; n_next : Z }.
Abbreviation memory := (gmap Z node).

(** The statements of [main] and [get_client] that come next. *)
Inductive main_pc :=
  | Recv                                  (** [recvfrom (local_fd)] *)
  | Lock (a : sockaddr_in)
  | Walk (a : sockaddr_in) (c : Z)        (** [while (c)] *)
  | Seen (a : sockaddr_in) (c : Z)        (** [c->last_seen = time (NULL)] *)
  | Alloc (a : sockaddr_in)               (** [calloc], [memcpy] and [socket] *)
  | Link (a : sockaddr_in) (c : Z)        (** the new client becomes the first *)
  | Unlock (oc : option Z)
  | Send (c : Z)                          (** [sendto (c->remote_fd)] *)
  | Reply (c : Z)                         (** [recvfrom (c->remote_fd)] *)
  | Deliver (c : Z).                      (** [sendto (local_fd)] to [c->addr] *)

(** The statements of [cleanup_thread]; [prev] is the client whose [next] is [*ptr],
    0 for [p->clients]. *)
Inductive sweep_pc :=
  | Asleep
  | SLock (now : Z)
  | SWalk (now prev : Z)                  (** [while ( *ptr )] *)
  | SClose (now prev c : Z)
  | SUnlink (now prev c : Z)
  | SFree (now prev c : Z)
  | SUnlock.

Inductive thread := TMain | TSweep.

Record sys := Sys {
  mem : memory;
  first : Z;                              (** [p->clients] *)
  lock : option thread;                   (** [p->clients_lock] *)
  clock : Z;
  main_at : main_pc;
  sweep_at : sweep_pc;
}.
Definition set_main (pc : main_pc) (y : sys) : sys :=
  Sys (mem y) (first y) (lock y) (clock y) pc (sweep_at y).
Definition set_sweep (pc : sweep_pc) (y : sys) : sys :=
  Sys (mem y) (first y) (lock y) (clock y) (main_at y) pc.
Definition set_lock (o : option thread) (y : sys) : sys :=
  Sys (mem y) (first y) o (clock y) (main_at y) (sweep_at y).
Definition set_mem (m : memory) (y : sys) : sys :=
  Sys m (first y) (lock y) (clock y) (main_at y) (sweep_at y).
Definition set_first (c : Z) (y : sys) : sys :=
  Sys (mem y) c (lock y) (clock y) (main_at y) (sweep_at y).
Definition pass (d : nat) (y : sys) : sys :=
  Sys (mem y) (first y) (lock y) (clock y + Z.of_nat d) (main_at y) (sweep_at y).

(** What the calls of the main thread give, where its next statement makes one: a
    datagram, memory, a socket, an answer. *)
Record input := In {
  in_from : option sockaddr_in;
  in_calloc : bool;
  in_sock : Z;
  in_answer : bool;
}.

Inductive action := Main (i : input) | Sweeper | Passes (d : nat).

Section threads.
(** Where [calloc] finds memory. *)
Context (calloc_at : memory -> Z).

(** One statement of the main thread; with it the operation on the list, when the
    statement completes one.  A thread that finds the lock taken does not move. *)
Definition main_step (i : input) (y : sys) : option (sys * option table_op) :=
  match main_at y with
  | Recv =>
      match in_from i with
      | None => Some (y, None)
      | Some a => Some (set_main (Lock a) y, None)
      end
  | Lock a =>
      match lock y with
      | None => Some (set_main (Walk a (first y)) (set_lock (Some TMain) y), None)
      | Some _ => Some (y, None)
      end
  | Walk a c =>
      if c =? 0 then Some (set_main (Alloc a) y, None)
      else
        n ← mem y !! c;
        Some (set_main (if addr_equal (addr (n_client n)) a then Seen a c else Walk a (n_next n)) y,
              None)
  | Seen a c =>
      n ← mem y !! c;
      let x := Client (addr (n_client n)) (up_fd (n_client n)) (clock y) in
      Some (set_main (Unlock (Some c)) (set_mem (<[c := Node x (n_next n)]> (mem y)) y),
            Some (Get false (-1) (clock y) a))
  | Alloc a =>
      if negb (in_calloc i) then
        Some (set_main (Unlock None) y, Some (Get false (in_sock i) (clock y) a))
      else if in_sock i <? 0 then
        Some (set_main (Unlock None) y, Some (Get true (in_sock i) (clock y) a))
      else
        let c := calloc_at (mem y) in
        Some (set_main (Link a c)
                (set_mem (<[c := Node (Client a (in_sock i) 0) 0]> (mem y)) y), None)
  | Link a c =>
      n ← mem y !! c;
      let x := Client (addr (n_client n)) (up_fd (n_client n)) (clock y) in
      Some (set_main (Unlock (Some c))
              (set_first c (set_mem (<[c := Node x (first y)]> (mem y)) y)),
            Some (Get true (up_fd x) (clock y) a))
  | Unlock oc =>
      Some (set_main (match oc with Some c => Send c | None => Recv end) (set_lock None y), None)
  | Send c => _ ← mem y !! c; Some (set_main (Reply c) y, None)
  | Reply c =>
      _ ← mem y !! c; Some (set_main (if in_answer i then Deliver c else Recv) y, None)
  | Deliver c => _ ← mem y !! c; Some (set_main Recv y, None)
  end.

(** [*ptr] and [*ptr = c]. *)
Definition load (prev : Z) (y : sys) : option Z :=
  if prev =? 0 then Some (first y) else n_next <$> mem y !! prev.
Definition assign (prev c : Z) (y : sys) : option sys :=
  if prev =? 0 then Some (set_first c y)
  else n ← mem y !! prev; Some (set_mem (<[prev := Node (n_client n) c]> (mem y)) y).

Definition sweep_step (y : sys) : option (sys * option table_op) :=
  match sweep_at y with
  | Asleep => Some (set_sweep (SLock (clock y)) y, None)
  | SLock now =>
      match lock y with
      | None => Some (set_sweep (SWalk now 0) (set_lock (Some TSweep) y), None)
      | Some _ => Some (y, None)
      end
  | SWalk now prev =>
      c ← load prev y;
      if c =? 0 then Some (set_sweep SUnlock y, Some (Sweep now))
      else
        n ← mem y !! c;
        Some (set_sweep (if CLIENT_TIMEOUT <? now - last_seen (n_client n) then SClose now prev c
                         else SWalk now c) y, None)
  | SClose now prev c => _ ← mem y !! c; Some (set_sweep (SUnlink now prev c) y, None)
  | SUnlink now prev c =>
      n ← mem y !! c;
      y' ← assign prev (n_next n) y;
      Some (set_sweep (SFree now prev c) y', None)
  | SFree now prev c =>
      _ ← mem y !! c;
      Some (set_sweep (SWalk now prev) (set_mem (delete c (mem y)) y), None)
  | SUnlock => Some (set_sweep Asleep (set_lock None y), None)
  end.

Definition act (x : action) (y : sys) : option (sys * option table_op) :=
  match x with
  | Main i => main_step i y
  | Sweeper => sweep_step y
  | Passes d => Some (pass d y, None)
  end.

(** A schedule; the result has the operations on the list in the order in which they
    were completed. *)
Fixpoint run (sched : list action) (y : sys) : option (sys * list table_op) :=
  match sched with
  | [] => Some (y, [])
  | x :: sched' =>
      '(y1, o) ← act x y;
      '(y2, ops) ← run sched' y1;
      Some (y2, option_list o ++ ops)%list
  end.

Definition started (now : Z) : sys := Sys ∅ 0 None now Recv Asleep.
End threads.

(** The list as it is found in memory. *)
Fixpoint contents (fuel : nat) (m : memory) (c : Z) : list client :=
  match fuel with
  | O => []
  | S fuel' =>
      match m !! c with
      | None => []
      | Some n => n_client n :: contents fuel' m (n_next n)
      end
  end.
Definition in_list (y : sys) : list client := contents (size (mem y)) (mem y) (first y).

(** ** The list in memory

    [seg m h l t]: from the address [h] the links lead over the clients [l], each
    with its address, to [t]. *)
Abbreviation placed := (list (Z * client)).

Fixpoint seg (m : memory) (h : Z) (l : placed) (t : Z) : Prop :=
  match l with
  | [] => h = t
  | (c, x) :: l' => h = c /\ 0 < c /\ exists nx, m !! c = Some (Node x nx) /\ seg m nx l' t
  end.

Definition first_at (l : placed) : Z := match l with [] => 0 | (c, _) :: _ => c end.
Definition last_at (l : placed) : Z := match last l with None => 0 | Some (c, _) => c end.

Lemma seg_app m h l1 l2 t : seg m h (l1 ++ l2) t <-> exists k, seg m h l1 k /\ seg m k l2 t.
Proof.
  revert h. induction l1 as [|[c x] l1 IH]; intros h; cbn [seg app].
  - split; [eauto|by intros (k & -> & ?)].
  - split.
    + intros (-> & Hc & nx & Hm & (k & ? & ?)%IH). eauto 10.
    + intros (k & (-> & Hc & nx & Hm & ?) & ?). split_and!; [done..|]. exists nx.
      split; [done|]. apply IH. eauto.
Qed.

Lemma seg_end m h l : seg m h l 0 -> h = first_at l.
Proof. destruct l as [|[c x] l]; cbn; [done|by intros (-> & _)]. Qed.

Lemma seg_split m h l1 l2 :
  seg m h (l1 ++ l2) 0 <-> seg m h l1 (first_at l2) /\ seg m (first_at l2) l2 0.
Proof.
  rewrite seg_app. split.
  - intros (k & H1 & H2). by rewrite <- (seg_end _ _ _ H2).
  - intros []. eauto.
Qed.

Lemma seg_frame m m' h l t :
  (forall c, c ∈ l.*1 -> m' !! c = m !! c) -> seg m h l t -> seg m' h l t.
Proof.
  revert h. induction l as [|[c x] l IH]; intros h Hf; cbn [seg]; [done|].
  intros (-> & Hc & nx & Hm & Hs). split_and!; [done..|]. exists nx.
  rewrite Hf by (cbn; left). split; [done|]. apply IH; [|done].
  intros c' Hc'. apply Hf. by right.
Qed.

Lemma seg_lookup m h l t c x : seg m h l t -> (c, x) ∈ l ->
  0 < c /\ exists nx, m !! c = Some (Node x nx).
Proof.
  revert h. induction l as [|[c' x'] l IH]; intros h; [by intros _ ?%elem_of_nil|].
  cbn [seg]. intros (-> & Hc & nx & Hm & Hs) [[= -> ->]|Hin]%elem_of_cons; eauto.
Qed.

Lemma seg_head m c x l t h : seg m h ((c, x) :: l) t -> t = 0 ->
  m !! c = Some (Node x (first_at l)).
Proof. cbn [seg]. intros (-> & _ & nx & -> & Hs) ->. by rewrite (seg_end _ _ _ Hs). Qed.

Lemma seg_unique m h l l' : seg m h l 0 -> seg m h l' 0 -> l = l'.
Proof.
  revert h l'. induction l as [|[c x] l IH]; intros h [|[c' x'] l']; cbn [seg]; [done|lia..|].
  intros (-> & _ & nx & Hm & Hs) (<- & _ & nx' & Hm' & Hs'). simplify_eq.
  f_equal. by eapply IH.
Qed.

(** The last client of a segment made to point elsewhere. *)
Lemma seg_redirect m h l c x k t : c ∉ l.*1 -> seg m h (l ++ [(c, x)]) k ->
  seg (<[c := Node x t]> m) h (l ++ [(c, x)]) t.
Proof.
  intros Hni (k' & H1 & (-> & Hc & nx & Hm & _))%seg_app. apply seg_app. exists c. split.
  - eapply seg_frame; [|done]. intros c' Hc'. apply lookup_insert_ne. by intros ->.
  - cbn [seg]. split_and!; [done..|]. exists t. by rewrite lookup_insert_eq.
Qed.

(** A client changed in place. *)
Lemma seg_update m h l1 c x l2 x' :
  NoDup (l1 ++ (c, x) :: l2).*1 -> seg m h (l1 ++ (c, x) :: l2) 0 ->
  seg (<[c := Node x' (first_at l2)]> m) h (l1 ++ (c, x') :: l2) 0.
Proof.
  intros Hnd (H1 & H2)%seg_split. cbn [first_at] in H1. apply seg_split.
  rewrite fmap_app in Hnd. apply NoDup_app in Hnd as (_ & Hni & [Hni2 _]%NoDup_cons).
  cbn [first_at]. split.
  - eapply seg_frame; [|done]. intros c' Hc'. apply lookup_insert_ne. intros <-.
    apply (Hni _ Hc'). by left.
  - cbn [seg] in *. destruct H2 as (_ & Hc & nx & Hm & Hs). split_and!; [done..|].
    exists (first_at l2). rewrite lookup_insert_eq. split; [done|].
    rewrite <- (seg_end _ _ _ Hs). eapply seg_frame; [|done].
    intros c' Hc'. apply lookup_insert_ne. by intros <-.
Qed.

Lemma load_spec y l1 l2 : seg (mem y) (first y) (l1 ++ l2) 0 ->
  load (last_at l1) y = Some (first_at l2).
Proof.
  intros (H1 & _)%seg_split. unfold load, last_at.
  destruct l1 as [|[c x] l1 _] using rev_ind; [by rewrite H1|].
  rewrite last_snoc. apply seg_app in H1 as (k & _ & (-> & Hc & nx & Hm & Ht)).
  destruct (Z.eqb_spec c 0); [lia|]. cbn [seg] in Ht. subst nx. by rewrite Hm.
Qed.

Lemma assign_spec y l1 l2 l3 :
  NoDup (l1 ++ l2).*1 -> seg (mem y) (first y) (l1 ++ l2) 0 ->
  seg (mem y) (first_at l3) l3 0 -> (forall c, c ∈ l3.*1 -> c ∉ l1.*1) ->
  exists y', assign (last_at l1) (first_at l3) y = Some y' /\
    seg (mem y') (first y') (l1 ++ l3) 0 /\
    (forall c, is_Some (mem y' !! c) <-> is_Some (mem y !! c)) /\
    lock y' = lock y /\ clock y' = clock y /\ main_at y' = main_at y.
Proof.
  intros Hnd (H1 & _)%seg_split H3 Hdis. unfold assign, last_at.
  destruct l1 as [|[c x] l1 _] using rev_ind.
  - cbn [seg last] in *. eexists. split; [done|]. by cbn.
  - rewrite last_snoc. assert (c ∉ l1.*1) as Hni.
    { rewrite !fmap_app in Hnd. apply NoDup_app in Hnd as (Hnd & _ & _).
      apply NoDup_app in Hnd as (_ & Hd & _). intros Hin. apply (Hd _ Hin). by left. }
    pose proof (seg_redirect _ _ _ _ _ _ (first_at l3) Hni H1) as Hr.
    apply seg_app in H1 as (k & _ & (-> & Hc & nx & Hm & _)).
    destruct (Z.eqb_spec c 0); [lia|]. rewrite Hm. cbn [mbind option_bind].
    eexists. split; [done|]. cbn. split_and!; try done.
    + apply seg_split. split; [done|]. eapply seg_frame; [|done]. intros c' Hc'.
      apply lookup_insert_ne. intros <-. apply (Hdis _ Hc').
      rewrite fmap_app. apply elem_of_app. right. by left.
    + intros c'. destruct (decide (c = c')) as [->|]; [|by rewrite lookup_insert_ne].
      rewrite lookup_insert_eq, Hm. split; eauto.
Qed.

Lemma contents_seg m h l fuel : seg m h l 0 -> m !! 0 = None -> (length l <= fuel)%nat ->
  contents fuel m h = l.*2.
Proof.
  revert h fuel. induction l as [|[c x] l IH]; intros h fuel Hs H0 Hf.
  - cbn in Hs. subst h. destruct fuel; cbn [contents]; [done|]. by rewrite H0.
  - cbn in Hf. destruct fuel as [|fuel]; [lia|]. cbn [seg] in Hs.
    destruct Hs as (-> & _ & nx & Hm & Hs). cbn [contents]. rewrite Hm. cbn.
    f_equal. apply IH; [done|done|lia].
Qed.

(** ** What the operations do to the list *)
Definition commit (op : table_op) (L : list client) : list client :=
  match op with
  | Get calloc sock now a =>
      match find_client a now L with
      | Some (_, L') => L'
      | None => if calloc && negb (sock <? 0) then Client a sock now :: L else L
      end
  | Sweep now => (sweep now L).1
  end.
Definition commit_opt (o : option table_op) (L : list client) : list client :=
  match o with None => L | Some op => commit op L end.

Lemma commit_run ops p :
  clients (run_proxy ops p).1 = foldl (fun L op => commit op L) (clients p) ops.
Proof.
  revert p. induction ops as [|[calloc sock now a|now] ops IH]; intros p; cbn [run_proxy foldl]; [done| |].
  - unfold get_client, commit. destruct (find_client a now (clients p)) as [[c L']|].
    + specialize (IH (set_clients L' p)). by destruct (run_proxy ops _).
    + destruct calloc; cbn [negb andb]; [destruct (sock <? 0); cbn [negb]|].
      * specialize (IH p). by destruct (run_proxy ops _).
      * specialize (IH (set_clients (Client a sock now :: clients p) p)). by destruct (run_proxy ops _).
      * specialize (IH p). by destruct (run_proxy ops _).
  - rewrite IH. unfold cleanup_thread. cbn [commit]. by destruct (sweep now (clients p)).
Qed.

Lemma find_client_absent a now L : a ∉ map addr L -> find_client a now L = None.
Proof.
  induction L as [|c L IH]; [done|]. cbn [map find_client]. intros [Hne Hni]%not_elem_of_cons.
  destruct (addr_equal (addr c) a) eqn:He; [by apply addr_equal_spec in He|].
  by rewrite IH.
Qed.

Lemma find_client_here a now L1 x L2 : a ∉ map addr L1 -> addr x = a ->
  find_client a now (L1 ++ x :: L2) =
    Some (Client a (up_fd x) now, L1 ++ Client a (up_fd x) now :: L2).
Proof.
  intros Hni Ha. induction L1 as [|c L1 IH]; cbn [app find_client].
  - by rewrite (proj2 (addr_equal_spec _ _) Ha), Ha.
  - cbn [map] in Hni. apply not_elem_of_cons in Hni as [Hne Hni].
    destruct (addr_equal (addr c) a) eqn:He; [by apply addr_equal_spec in He|].
    by rewrite (IH Hni).
Qed.

(** ** The invariant *)
Definition main_inside (pc : main_pc) : bool :=
  match pc with Walk _ _ | Seen _ _ | Alloc _ | Link _ _ | Unlock _ => true | _ => false end.
Definition sweep_inside (pc : sweep_pc) : bool :=
  match pc with Asleep | SLock _ => false | _ => true end.
Definition sweep_now (pc : sweep_pc) : option Z :=
  match pc with
  | Asleep | SUnlock => None
  | SLock now | SWalk now _ | SClose now _ _ | SUnlink now _ _ | SFree now _ _ => Some now
  end.

(** Memory that is allocated and not in the list. *)
Definition hand (y : sys) : list Z :=
  (match main_at y with Link _ c => [c] | _ => [] end) ++
  (match sweep_at y with SFree _ _ c => [c] | _ => [] end).

Definition main_view (y : sys) (l : placed) : Prop :=
  match main_at y with
  | Walk a c => exists l1 l2, l = (l1 ++ l2)%list /\ c = first_at l2 /\ a ∉ map addr l1.*2
  | Seen a c => exists l1 x l2, l = (l1 ++ (c, x) :: l2)%list /\ addr x = a /\ a ∉ map addr l1.*2
  | Alloc a => a ∉ map addr l.*2
  | Link a c => (a ∉ map addr l.*2) /\
      exists sock, 0 <= sock /\ mem y !! c = Some (Node (Client a sock 0) 0) /\ 0 < c
  | _ => True
  end.

Definition idle (now : Z) (x : client) : Prop := CLIENT_TIMEOUT < now - last_seen x.

(** What the sweeper has still to do: [L] is the list before it began. *)
Definition half_swept (now : Z) (L : list client) (l1 l2 : placed) : Prop :=
  (sweep now L).1 = (l1.*2 ++ (sweep now l2.*2).1)%list.

Definition sweep_view (y : sys) (l : placed) (L : list client) : Prop :=
  match sweep_at y with
  | Asleep | SLock _ | SUnlock => l.*2 = L
  | SWalk now prev =>
      exists l1 l2, l = (l1 ++ l2)%list /\ prev = last_at l1 /\ half_swept now L l1 l2
  | SClose now prev c | SUnlink now prev c =>
      exists l1 x l2, l = (l1 ++ (c, x) :: l2)%list /\ prev = last_at l1 /\
        idle now x /\ half_swept now L l1 l2
  | SFree now prev c =>
      exists l1 l2, l = (l1 ++ l2)%list /\ prev = last_at l1 /\ half_swept now L l1 l2
  end.

Record inv (y : sys) (l : placed) (L : list client) : Prop := {
  i_seg : seg (mem y) (first y) l 0;
  i_nodup : NoDup (l.*1 ++ hand y);
  i_dom : forall c, is_Some (mem y !! c) <-> c ∈ l.*1 ++ hand y;
  i_null : mem y !! 0 = None;
  i_main_lock : main_inside (main_at y) = match lock y with Some TMain => true | _ => false end;
  i_sweep_lock : sweep_inside (sweep_at y) = match lock y with Some TSweep => true | _ => false end;
  i_now : forall now, sweep_now (sweep_at y) = Some now -> now <= clock y;
  i_main : main_view y l;
  i_sweep : sweep_view y l L;
}.

(** The client that the main thread goes on using after [get_client]. *)
Definition holding (y : sys) : option Z :=
  match main_at y with
  | Unlock oc => oc
  | Send c | Reply c | Deliver c => Some c
  | _ => None
  end.

(** At most a minute has passed since the client in use was marked as seen. *)
Definition in_time (y : sys) : bool :=
  match holding y with
  | None => true
  | Some c =>
      match mem y !! c with
      | None => true
      | Some n => clock y <=? last_seen (n_client n) + CLIENT_TIMEOUT
      end
  end.

Section proofs.
Context (calloc_at : memory -> Z).
(** [calloc] gives memory that is not in use, and never [NULL] when it succeeds. *)
Context (calloc_fresh : forall m, 0 < calloc_at m /\ m !! calloc_at m = None).

Lemma inv_started now : inv (started now) [] [].
Proof.
  constructor; cbn; try done.
  - by apply NoDup_nil_2.
  - intros c. rewrite lookup_empty. split; [by intros []|by intros ?%elem_of_nil].
Qed.

Lemma sweep_out y l L : inv y l L -> sweep_inside (sweep_at y) = false -> l.*2 = L.
Proof. intros [] Hs. unfold sweep_view in *. by destruct (sweep_at y). Qed.

Lemma main_out y l L : inv y l L -> sweep_inside (sweep_at y) = true ->
  main_inside (main_at y) = false.
Proof. intros [] Hs. rewrite i_main_lock0. rewrite Hs in *. by destruct (lock y) as [[]|]. Qed.

Lemma main_in y l L : inv y l L -> main_inside (main_at y) = true ->
  sweep_inside (sweep_at y) = false /\ l.*2 = L /\ lock y = Some TMain.
Proof.
  intros Hinv Hm. assert (sweep_inside (sweep_at y) = false) as Hs.
  { destruct (sweep_inside (sweep_at y)) eqn:E; [|done].
    by rewrite (main_out _ _ _ Hinv E) in Hm. }
  split_and!; [done|by eapply sweep_out|]. destruct Hinv. rewrite Hm in *.
  by destruct (lock y) as [[]|].
Qed.

(** A step of one thread that only moves it on. *)
Lemma main_moves y l L pc : inv y l L ->
  main_inside pc = main_inside (main_at y) ->
  (match pc with Link _ c => [c] | _ => [] end) = (match main_at y with Link _ c => [c] | _ => [] end) ->
  main_view (set_main pc y) l -> inv (set_main pc y) l L.
Proof.
  intros [] Hin Hh Hv. constructor; try done; unfold hand in *; cbn in *; rewrite ?Hh, ?Hin; done.
Qed.
Lemma sweep_moves y l L pc : inv y l L ->
  sweep_inside pc = sweep_inside (sweep_at y) ->
  (match pc with SFree _ _ c => [c] | _ => [] end) = (match sweep_at y with SFree _ _ c => [c] | _ => [] end) ->
  (forall now, sweep_now pc = Some now -> now <= clock y) ->
  sweep_view (set_sweep pc y) l L -> inv (set_sweep pc y) l L.
Proof.
  intros [] Hin Hh Hn Hv. constructor; try done; unfold hand in *; cbn in *; rewrite ?Hh, ?Hin; done.
Qed.

Lemma here y l L l1 c x l2 : inv y l L -> l = (l1 ++ (c, x) :: l2)%list ->
  0 < c /\ mem y !! c = Some (Node x (first_at l2)) /\ c ∉ l1.*1.
Proof.
  intros [] ->. apply seg_split in i_seg0 as [_ H2]. cbn [first_at] in H2.
  pose proof (seg_head _ _ _ _ _ _ H2 eq_refl) as Hm. destruct H2 as (_ & Hc & _).
  split_and!; [done..|]. rewrite fmap_app in i_nodup0.
  apply NoDup_app in i_nodup0 as (Hnd & _). apply NoDup_app in Hnd as (_ & Hd & _).
  intros Hin. apply (Hd _ Hin). by left.
Qed.

Lemma seen_inv y l L a c : inv y l L -> main_at y = Seen a c ->
  exists n, mem y !! c = Some n /\
  let x := Client (addr (n_client n)) (up_fd (n_client n)) (clock y) in
  exists l', inv (set_main (Unlock (Some c)) (set_mem (<[c := Node x (n_next n)]> (mem y)) y)) l'
             (commit (Get false (-1) (clock y) a) L) /\
    l'.*1 = l.*1 /\ c ∈ l.*1.
Proof.
  intros Hinv Hpc. pose proof Hinv as [].
  destruct (main_in _ _ _ Hinv) as (Hs & HL & Hlk); [by rewrite Hpc|].
  unfold main_view in i_main0. rewrite Hpc in i_main0.
  destruct i_main0 as (l1 & x & l2 & -> & Hx & Hni).
  destruct (here _ _ _ _ _ _ _ Hinv eq_refl) as (Hc & Hm & Hni1).
  exists (Node x (first_at l2)). split; [done|]. cbn [n_client n_next]. subst a.
  exists (l1 ++ (c, Client (addr x) (up_fd x) (clock y)) :: l2)%list.
  assert ((l1 ++ (c, Client (addr x) (up_fd x) (clock y)) :: l2).*1 = (l1 ++ (c, x) :: l2).*1) as Hfst
    by (by rewrite !fmap_app).
  split; [|split; [done|rewrite fmap_app; apply elem_of_app; right; left]].
  constructor; cbn; try done.
  - eapply seg_update; [|done]. by apply NoDup_app in i_nodup0 as (? & _).
  - unfold hand in *. cbn. rewrite Hpc in i_nodup0. by rewrite Hfst.
  - intros c'. unfold hand in *. cbn. rewrite Hfst. rewrite Hpc in i_dom0.
    rewrite <- i_dom0. destruct (decide (c = c')) as [<-|].
    + rewrite lookup_insert_eq, Hm. split; eauto.
    + by rewrite lookup_insert_ne.
  - rewrite lookup_insert_ne; [done|lia].
  - by rewrite <- i_main_lock0, Hpc.
  - unfold sweep_view; cbn. rewrite <- HL, !fmap_app. cbn.
    rewrite (find_client_here (addr x)) by done. by destruct (sweep_at y).
Qed.

Lemma alloc_inv y l L a i : inv y l L -> main_at y = Alloc a ->
  exists y' o, main_step calloc_at i y = Some (y', o) /\
    inv y' l (commit_opt o L) /\ (forall c, holding y' = Some c -> c ∈ l.*1).
Proof using calloc_fresh.
  intros Hinv Hpc. pose proof Hinv as [].
  destruct (main_in _ _ _ Hinv) as (Hs & HL & Hlk); [by rewrite Hpc|].
  unfold main_view in i_main0. rewrite Hpc in i_main0.
  unfold main_step. rewrite Hpc.
  assert (forall b sock, b = false \/ sock < 0 -> commit (Get b sock (clock y) a) L = L) as Hno.
  { intros b sock Hbs. cbn [commit]. subst L. rewrite find_client_absent by done.
    destruct b, (Z.ltb_spec sock 0); cbn; try done. destruct Hbs; [done|lia]. }
  destruct (in_calloc i); cbn [negb]; [destruct (Z.ltb_spec (in_sock i) 0)|].
  - do 2 eexists. split; [done|]. cbn [commit_opt]. rewrite Hno by lia. split; [|done].
    by apply main_moves; rewrite ?Hpc.
  - do 2 eexists. split; [done|]. cbn [commit_opt]. split; [|done].
    destruct (calloc_fresh (mem y)) as [Hpos Hfree]. set (c := calloc_at (mem y)) in *.
    assert (c ∉ l.*1 ++ hand y) as Hc.
    { intros Hin. apply i_dom0 in Hin. rewrite Hfree in Hin. by destruct Hin. }
    assert (hand y = []) as Hh.
    { unfold hand. rewrite Hpc. by destruct (sweep_at y). }
    rewrite Hh, app_nil_r in i_nodup0, Hc.
    setoid_rewrite Hh in i_dom0. setoid_rewrite app_nil_r in i_dom0.
    assert (hand (set_main (Link a c) (set_mem
              (<[c:=Node (Client a (in_sock i) 0) 0]> (mem y)) y)) = [c]) as Hh'.
    { unfold hand. cbn. unfold hand in Hh. rewrite Hpc in Hh. cbn in Hh. by rewrite Hh. }
    constructor; rewrite ?Hh'; cbn; try done.
    + eapply seg_frame; [|done]. intros c' Hc'. apply lookup_insert_ne. by intros ->.
    + apply NoDup_app. split_and!; [done| |apply NoDup_singleton].
      intros c' Hc' ->%list_elem_of_singleton. done.
    + intros c'. destruct (decide (c = c')) as [<-|Hne].
      * rewrite lookup_insert_eq. split; [|eauto]. intros _. apply elem_of_app. right. by left.
      * rewrite lookup_insert_ne, i_dom0, elem_of_app by done. split; [by left|].
        intros [|Heq%list_elem_of_singleton]; [done|]. by rewrite Heq in Hne.
    + rewrite lookup_insert_ne; [done|lia].
    + by rewrite <- i_main_lock0, Hpc.
    + unfold main_view; cbn. split; [done|]. exists (in_sock i).
      by rewrite lookup_insert_eq.
  - do 2 eexists. split; [done|]. cbn [commit_opt]. rewrite Hno by auto. split; [|done].
    by apply main_moves; rewrite ?Hpc.
Qed.

Lemma link_inv y l L a c : inv y l L -> main_at y = Link a c ->
  exists n, mem y !! c = Some n /\
  let x := Client (addr (n_client n)) (up_fd (n_client n)) (clock y) in
  inv (set_main (Unlock (Some c)) (set_first c (set_mem (<[c := Node x (first y)]> (mem y)) y)))
    ((c, x) :: l) (commit (Get true (up_fd x) (clock y) a) L).
Proof.
  intros Hinv Hpc. pose proof Hinv as [].
  destruct (main_in _ _ _ Hinv) as (Hs & HL & Hlk); [by rewrite Hpc|].
  unfold main_view in i_main0. rewrite Hpc in i_main0.
  destruct i_main0 as (Hni & sock & Hsock & Hm & Hc).
  eexists. split; [done|]. cbn.
  assert ((match sweep_at y with SFree _ _ c => [c] | _ => [] end : list Z) = []) as Hnil
    by (by destruct (sweep_at y)).
  unfold hand in *. rewrite Hpc, Hnil in *. cbn in *.
  assert (c ∉ l.*1) as Hcl.
  { apply NoDup_app in i_nodup0 as (_ & Hd & _). intros Hin. apply (Hd _ Hin). by left. }
  constructor; cbn; try done; unfold hand; cbn; rewrite ?Hnil, ?app_nil_r.
  - split_and!; [done..|]. exists (first y). rewrite lookup_insert_eq. split; [done|].
    eapply seg_frame; [|done]. intros c' Hc'. apply lookup_insert_ne. by intros ->.
  - apply NoDup_cons. split; [done|]. by apply NoDup_app in i_nodup0 as (? & _).
  - intros c'. rewrite elem_of_cons. destruct (decide (c = c')) as [<-|Hne].
    + rewrite lookup_insert_eq. split; eauto.
    + rewrite lookup_insert_ne, i_dom0, elem_of_app, list_elem_of_singleton by done.
      split; intros [?|?]; subst; auto; done.
  - rewrite lookup_insert_ne; [done|lia].
  - rewrite <- HL, find_client_absent by done. cbn.
    destruct (Z.ltb_spec sock 0); [lia|]. unfold sweep_view; cbn. by destruct (sweep_at y).
Qed.

(** The client the main thread holds when it leaves [get_client] is in the list. *)
Definition kept (y : sys) (l : placed) : Prop := forall c, holding y = Some c -> c ∈ l.*1.

Lemma walk_inv y l L a c : inv y l L -> main_at y = Walk a c -> c <> 0 ->
  exists n, mem y !! c = Some n /\
    inv (set_main (if addr_equal (addr (n_client n)) a then Seen a c else Walk a (n_next n)) y) l L.
Proof.
  intros Hinv Hpc Hc0. pose proof Hinv as []. unfold main_view in i_main0. rewrite Hpc in i_main0.
  destruct i_main0 as (l1 & [|[c' x] l2] & Hl & -> & Hni); [done|]. cbn [first_at] in *.
  destruct (here _ _ _ _ _ _ _ Hinv Hl) as (Hc & Hm & _). eexists. split; [done|].
  cbn [n_client n_next]. destruct (addr_equal (addr x) a) eqn:He.
  - apply main_moves; rewrite ?Hpc; try done. exists l1, x, l2. by apply addr_equal_spec in He.
  - apply main_moves; rewrite ?Hpc; try done. exists (l1 ++ [(c', x)])%list, l2.
    rewrite <- app_assoc. split_and!; [done..|]. rewrite fmap_app, map_app.
    intros [Hin|Heq%list_elem_of_singleton]%elem_of_app; [done|].
    subst a. by rewrite (proj2 (addr_equal_spec _ _) eq_refl) in He.
Qed.

(** A statement that uses the client outside of the lock. *)
Ltac using_step Hpc Hinv :=
  unfold main_step, kept, holding; rewrite Hpc;
  match goal with |- context [mem ?y !! ?c] => destruct (mem y !! c) eqn:Hm end;
  cbn [mbind option_bind]; [|by eauto];
  match goal with l : placed |- _ => exists l end;
  try match goal with |- context [in_answer ?i] => destruct (in_answer i) end;
  (split; [by apply main_moves; rewrite ?Hpc|intros Hk c'; cbn; done || exact (Hk c')]).

(** A statement of the main thread: it keeps the invariant, and is undefined only
    where a client is used outside of the lock. *)
Lemma main_step_inv i y l L : inv y l L ->
  match main_step calloc_at i y with
  | Some (y', o) => exists l', inv y' l' (commit_opt o L) /\ (kept y l -> kept y' l')
  | None => exists c, holding y = Some c /\ mem y !! c = None
  end.
Proof using calloc_fresh.
  intros Hinv. destruct (main_at y) as [|a|a c|a c|a|a c|oc|c|c|c] eqn:Hpc.
  - unfold main_step. rewrite Hpc. destruct (in_from i) as [a|]; exists l; [|done].
    split; [|done]. by apply main_moves; rewrite ?Hpc.
  - unfold main_step. rewrite Hpc. destruct (lock y) eqn:Hlk; exists l; [done|].
    split; [|done]. destruct Hinv. constructor; try done; cbn in *.
    + unfold hand in *. by rewrite Hpc in *.
    + unfold hand in *. by rewrite Hpc in *.
    + by rewrite i_sweep_lock0, Hlk.
    + exists [], l. cbn. split_and!; [done|by apply (seg_end (mem y))|by intros ?%elem_of_nil].
  - unfold main_step. rewrite Hpc. destruct (Z.eqb_spec c 0) as [->|Hc0].
    + exists l. split; [|done]. pose proof Hinv as []. apply main_moves; rewrite ?Hpc; try done.
      unfold main_view in *. rewrite Hpc in i_main0. cbn.
      destruct i_main0 as (l1 & [|[c x] l2] & -> & Hf & Hni); [by rewrite app_nil_r|].
      cbn in Hf. subst c. by destruct (here _ _ _ _ _ _ _ Hinv eq_refl).
    + destruct (walk_inv _ _ _ _ _ Hinv Hpc Hc0) as (n & -> & Hw). cbn [mbind option_bind].
      exists l. split; [done|]. intros _. by destruct (addr_equal _ _).
  - destruct (seen_inv _ _ _ _ _ Hinv Hpc) as (n & Hm & l' & Hi & Hfst & Hin).
    unfold main_step. rewrite Hpc, Hm. cbn [mbind option_bind]. exists l'. split; [done|].
    intros _ c'. cbn. intros [= <-]. by rewrite Hfst.
  - destruct (alloc_inv _ _ _ _ i Hinv Hpc) as (y' & o & -> & Hi & Hk). eauto.
  - destruct (link_inv _ _ _ _ _ Hinv Hpc) as (n & Hm & Hi).
    unfold main_step. rewrite Hpc, Hm. cbn [mbind option_bind]. eexists. split; [done|].
    intros _ c'. cbn. intros [= <-]. left.
  - unfold main_step. rewrite Hpc. exists l. split.
    + pose proof (main_in _ _ _ Hinv ltac:(by rewrite Hpc)) as (Hs & HL & Hlk).
      destruct Hinv. constructor; cbn; try done; destruct oc; try done;
        unfold hand in *; rewrite Hpc in *; done.
    + unfold kept, holding. rewrite Hpc. by destruct oc.
  - using_step Hpc Hinv.
  - using_step Hpc Hinv.
  - using_step Hpc Hinv.
Qed.

Lemma in_time_spec y c n : in_time y = true -> holding y = Some c -> mem y !! c = Some n ->
  clock y <= last_seen (n_client n) + CLIENT_TIMEOUT.
Proof. unfold in_time. intros Ht Hh Hm. rewrite Hh, Hm in Ht. lia. Qed.

Lemma sweep_cons now x (l : list client) :
  (sweep now (x :: l)).1 =
    if CLIENT_TIMEOUT <? now - last_seen x then (sweep now l).1 else x :: (sweep now l).1.
Proof. cbn [sweep]. destruct (sweep now l). by case_match. Qed.

Lemma outside_view y l : main_inside (main_at y) = false -> main_view y l.
Proof. unfold main_view. by destruct (main_at y). Qed.
Lemma outside_hand y : main_inside (main_at y) = false ->
  hand y = match sweep_at y with SFree _ _ c => [c] | _ => [] end.
Proof. unfold hand. by destruct (main_at y). Qed.

Lemma swalk_inv y l L now prev : inv y l L -> sweep_at y = SWalk now prev ->
  exists y' o, sweep_step y = Some (y', o) /\ inv y' l (commit_opt o L) /\ holding y' = holding y.
Proof.
  intros Hinv Hpc. pose proof Hinv as []. unfold sweep_view in i_sweep0. rewrite Hpc in i_sweep0.
  destruct i_sweep0 as (l1 & l2 & -> & -> & Hhalf).
  unfold sweep_step. rewrite Hpc, (load_spec _ l1 l2) by done. cbn [mbind option_bind].
  assert (now <= clock y) as Hnow by (apply i_now0; by rewrite Hpc).
  pose proof (main_out _ _ _ Hinv ltac:(by rewrite Hpc)) as Hout.
  destruct l2 as [|[c x] l2]; cbn [first_at].
  - do 2 eexists. split; [done|]. split; [|done]. unfold half_swept in Hhalf.
    cbn [commit_opt commit]. rewrite Hhalf. rewrite app_nil_r in *. cbn.
    destruct (sweep now L) as [kept0 closed] eqn:Hsw. cbn [fst] in *.
    unfold hand in *. rewrite Hpc in *.
    constructor; unfold hand; cbn; try done; by rewrite app_nil_r.
  - destruct (here _ _ _ _ _ _ _ Hinv eq_refl) as (Hc & Hm & _).
    destruct (Z.eqb_spec c 0); [lia|]. rewrite Hm. cbn [mbind option_bind n_client].
    do 2 eexists. split; [done|]. split; [|done]. unfold half_swept in Hhalf.
    cbn [fmap list_fmap snd] in Hhalf. rewrite sweep_cons in Hhalf.
    destruct (Z.ltb_spec CLIENT_TIMEOUT (now - last_seen x)); apply sweep_moves;
      rewrite ?Hpc; try done; try (by intros ? [= <-]).
    + exists l1, x, l2. done.
    + exists (l1 ++ [(c, x)])%list, l2. rewrite <- app_assoc. split_and!; [done| |].
      * unfold last_at. by rewrite last_snoc.
      * unfold half_swept. cbn [commit_opt]. by rewrite Hhalf, fmap_app, <- app_assoc.
Qed.

Definition without (c : Z) (l : placed) : placed := filter (fun p => p.1 <> c) l.

Lemma without_none c l : c ∉ l.*1 -> without c l = l.
Proof.
  unfold without. induction l as [|[c' x] l IH]; [done|]. cbn [fmap list_fmap fst].
  intros [Hne Hni]%not_elem_of_cons. rewrite filter_cons_True by (cbn; congruence). by rewrite IH.
Qed.

Lemma without_middle l1 c x l2 : NoDup (l1 ++ (c, x) :: l2).*1 ->
  without c (l1 ++ (c, x) :: l2) = (l1 ++ l2)%list.
Proof.
  rewrite fmap_app. cbn [fmap list_fmap fst]. intros (_ & Hd & [Hc _]%NoDup_cons)%NoDup_app.
  unfold without. rewrite filter_app, filter_cons_False by (cbn; auto).
  fold (without c l1) (without c l2). rewrite !without_none; [done|done|].
  intros Hin. apply (Hd _ Hin). left.
Qed.

Lemma sunlink_inv y l L now prev c : inv y l L -> sweep_at y = SUnlink now prev c ->
  exists y' l' n, sweep_step y = Some (y', None) /\ inv y' l' L /\ main_at y' = main_at y /\
    mem y !! c = Some n /\ idle now (n_client n) /\ now <= clock y /\
    (forall c', c' ∈ l.*1 -> c' = c \/ c' ∈ l'.*1) /\ l' = without c l.
Proof.
  intros Hinv Hpc. pose proof Hinv as []. unfold sweep_view in i_sweep0. rewrite Hpc in i_sweep0.
  destruct i_sweep0 as (l1 & x & l2 & -> & -> & Hidle & Hhalf).
  pose proof (main_out _ _ _ Hinv ltac:(by rewrite Hpc)) as Hout.
  destruct (here _ _ _ _ _ _ _ Hinv eq_refl) as (Hc & Hm & _).
  rewrite (outside_hand y Hout), Hpc, app_nil_r in i_nodup0.
  pose proof i_nodup0 as Hnd. rewrite fmap_app in Hnd. cbn [fmap list_fmap fst] in Hnd.
  apply NoDup_app in Hnd as (_ & Hdis & [Hc2 Hnd2]%NoDup_cons).
  pose proof i_seg0 as (Hs1 & (_ & _ & nx & Hm' & Hs2))%seg_split.
  rewrite (seg_end _ _ _ Hs2) in Hs2.
  destruct (assign_spec y l1 ((c, x) :: l2) l2 i_nodup0 i_seg0 Hs2)
    as (y' & Hasg & Hs' & Hdom' & Hlk & Hclk & Hmn).
  { intros c' Hin Hin1. apply (Hdis _ Hin1). by right. }
  unfold sweep_step. rewrite Hpc, Hm. cbn [mbind option_bind n_next]. rewrite Hasg.
  cbn [mbind option_bind]. exists (set_sweep (SFree now (last_at l1) c) y'), (l1 ++ l2)%list, (Node x (first_at l2)).
  split; [done|]. split; [|split_and!; try done].
  - assert (main_inside (main_at (set_sweep (SFree now (last_at l1) c) y')) = false) as Hout'
      by (cbn; by rewrite Hmn).
    constructor; try (by cbn; rewrite ?Hmn, ?Hlk, ?Hclk, ?Hpc in *; auto).
    + rewrite outside_hand by done. cbn. rewrite fmap_app, <- app_assoc. rewrite fmap_app in i_nodup0.
      cbn [fmap list_fmap fst] in i_nodup0.
      by rewrite (Permutation_app_comm (l2.*1) [c]).
    + intros c'. rewrite outside_hand by done. cbn. rewrite Hdom', i_dom0, outside_hand, Hpc by done.
      rewrite !fmap_app, app_nil_r, !elem_of_app. cbn.
      rewrite elem_of_cons, list_elem_of_singleton. tauto.
    + cbn. destruct (mem y' !! 0) eqn:H0; [|done].
      assert (is_Some (mem y !! 0)) as [? Hbad] by (apply Hdom'; eauto). congruence.
    + by apply outside_view.
    + exists l1, l2. done.
  - apply i_now0. by rewrite Hpc.
  - intros c'. rewrite !fmap_app, !elem_of_app. cbn. rewrite elem_of_cons. tauto.
  - by rewrite without_middle.
Qed.

Lemma sfree_inv y l L now prev c : inv y l L -> sweep_at y = SFree now prev c ->
  sweep_step y = Some (set_sweep (SWalk now prev) (set_mem (delete c (mem y)) y), None) /\
  inv (set_sweep (SWalk now prev) (set_mem (delete c (mem y)) y)) l L.
Proof.
  intros Hinv Hpc. pose proof Hinv as []. unfold sweep_view in i_sweep0. rewrite Hpc in i_sweep0.
  pose proof (main_out _ _ _ Hinv ltac:(by rewrite Hpc)) as Hout.
  pose proof (outside_hand y Hout) as Hh. rewrite Hpc in Hh. rewrite Hh in i_nodup0.
  apply NoDup_app in i_nodup0 as (Hnd & Hdis & _).
  assert (c ∉ l.*1) as Hni by (intros Hin; apply (Hdis _ Hin); left).
  assert (is_Some (mem y !! c)) as [n Hm]
    by (apply i_dom0; rewrite Hh; apply elem_of_app; right; left).
  unfold sweep_step. rewrite Hpc, Hm. cbn [mbind option_bind]. split; [done|].
  constructor; try (by cbn; rewrite ?Hpc in *; auto).
  - cbn. eapply seg_frame; [|done]. intros c' Hc'. apply lookup_delete_ne. by intros ->.
  - rewrite outside_hand by done. cbn. by rewrite app_nil_r.
  - intros c'. rewrite outside_hand by done. cbn. rewrite app_nil_r.
    destruct (decide (c = c')) as [<-|].
    + rewrite lookup_delete_eq. split; [by intros []|done].
    + rewrite lookup_delete_ne, i_dom0, Hh, elem_of_app, list_elem_of_singleton by done.
      split; [by intros [|]|by left].
  - cbn. rewrite lookup_delete_None. by right.
  - by apply outside_view.
Qed.

(** A statement of the sweeper is always defined and keeps the invariant; a client
    in use stays in the list if it was seen in time. *)
Lemma sweep_step_inv y l L : inv y l L ->
  exists y' o l', sweep_step y = Some (y', o) /\ inv y' l' (commit_opt o L) /\
    (in_time y = true -> kept y l -> kept y' l').
Proof.
  intros Hinv. destruct (sweep_at y) as [|now|now prev|now prev c|now prev c|now prev c|] eqn:Hpc.
  - unfold sweep_step. rewrite Hpc. do 3 eexists. split; [done|]. split; [|by intros _].
    pose proof Hinv as []. unfold sweep_view in i_sweep0. rewrite Hpc in i_sweep0.
    apply sweep_moves; rewrite ?Hpc; try done. by intros ? [= <-].
  - unfold sweep_step. rewrite Hpc. pose proof Hinv as []. destruct (lock y) eqn:Hlk.
    { do 3 eexists. split; [done|]. by split. }
    do 3 eexists. split; [done|]. split; [|by intros _].
    unfold sweep_view in i_sweep0. rewrite Hpc in i_sweep0.
    constructor; try done; cbn in *.
    + unfold hand in *. by rewrite Hpc in *.
    + unfold hand in *. by rewrite Hpc in *.
    + intros ? [= <-]. apply i_now0. by rewrite Hpc.
    + exists [], l. split_and!; [done..|]. unfold half_swept. by rewrite i_sweep0.
  - destruct (swalk_inv _ _ _ _ _ Hinv Hpc) as (y' & o & Hst & Hi & Hh).
    exists y', o, l. split_and!; [done..|]. intros _ Hk c. rewrite Hh. apply Hk.
  - pose proof Hinv as []. unfold sweep_view in i_sweep0. rewrite Hpc in i_sweep0.
    pose proof i_sweep0 as (l1 & x & l2 & Hl & _).
    destruct (here _ _ _ _ _ _ _ Hinv Hl) as (_ & Hm & _).
    unfold sweep_step. rewrite Hpc, Hm. do 3 eexists. split; [done|]. split; [|by intros _].
    apply sweep_moves; rewrite ?Hpc; try done. intros ? [= <-]. apply i_now0. by rewrite Hpc.
  - destruct (sunlink_inv _ _ _ _ _ _ Hinv Hpc)
      as (y' & l' & n & Hst & Hi & Hmn & Hm & Hidle & Hnow & Hincl & _).
    exists y', None, l'. split_and!; [done..|]. intros Ht Hk c'. unfold holding. rewrite Hmn. intros Hc'.
    destruct (Hincl c' (Hk _ Hc')) as [->|]; [|done].
    pose proof (in_time_spec _ _ _ Ht Hc' Hm). unfold idle in Hidle. lia.
  - destruct (sfree_inv _ _ _ _ _ _ Hinv Hpc) as (-> & Hi). do 3 eexists. split; [done|]. by split.
  - unfold sweep_step. rewrite Hpc. do 3 eexists. split; [done|]. split; [|by intros _].
    pose proof (main_out _ _ _ Hinv ltac:(by rewrite Hpc)) as Hout.
    destruct Hinv. unfold sweep_view in i_sweep0. rewrite Hpc in i_sweep0.
    constructor; try done; unfold hand in *; rewrite ?Hpc in *; done.
Qed.

Lemma act_inv x y l L : inv y l L ->
  match act calloc_at x y with
  | Some (y', o) =>
      exists l', inv y' l' (commit_opt o L) /\ (in_time y = true -> kept y l -> kept y' l')
  | None => exists c, holding y = Some c /\ mem y !! c = None
  end.
Proof using calloc_fresh.
  intros Hinv. destruct x as [i| |d]; cbn [act].
  - pose proof (main_step_inv i _ _ _ Hinv) as Hm.
    destruct (main_step calloc_at i y) as [[y' o]|]; [|done].
    destruct Hm as (l' & ? & ?). exists l'. eauto.
  - destruct (sweep_step_inv _ _ _ Hinv) as (y' & o & l' & -> & ? & ?). eauto.
  - exists l. split; [|done]. destruct Hinv. constructor; try done.
    cbn. intros now Hn. specialize (i_now0 _ Hn). lia.
Qed.

Lemma run_inv sched y l L y' ops : inv y l L -> run calloc_at sched y = Some (y', ops) ->
  exists l', inv y' l' (foldl (fun L op => commit op L) L ops).
Proof using calloc_fresh.
  revert y l L ops. induction sched as [|x sched IH]; intros y l L ops Hinv; cbn [run].
  - intros [= <- <-]. by exists l.
  - pose proof (act_inv x _ _ _ Hinv) as Ha. destruct (act calloc_at x y) as [[y1 o]|]; [|done].
    destruct Ha as (l1 & Hi1 & _). cbn [mbind option_bind].
    destruct (run calloc_at sched y1) as [[y2 ops']|] eqn:Hr; [|done]. cbn [mbind option_bind].
    intros [= -> <-]. destruct (IH _ _ _ _ Hi1 Hr) as (l2 & Hi2). exists l2. by destruct o.
Qed.

Lemma inv_in_list y l L : inv y l L -> in_list y = l.*2.
Proof.
  intros []. unfold in_list. apply contents_seg; [done..|].
  rewrite <- size_dom, <- (length_fmap fst l), <- (size_list_to_set (C:=gset Z) l.*1).
  - apply subseteq_size. intros c Hc%elem_of_list_to_set. apply elem_of_dom, i_dom0.
    apply elem_of_app. by left.
  - by apply NoDup_app in i_nodup0 as (? & _).
Qed.

Lemma free_list y l L : inv y l L -> lock y = None ->
  l.*2 = L /\ forall c, is_Some (mem y !! c) <-> c ∈ l.*1.
Proof.
  intros Hinv Hlk. pose proof Hinv as []. rewrite Hlk in *.
  split; [by eapply sweep_out|]. intros c. rewrite i_dom0, outside_hand by done.
  destruct (sweep_at y); try done; by rewrite app_nil_r.
Qed.

(** C13: whatever the schedule of the two threads, when the lock is free the list in
    memory is what the completed lookups and sweeps, each done at once in the order
    of completion, make of the empty list, and every client that is allocated is in
    the list. *)
Theorem threads_linearize sched now p y ops :
  clients p = [] -> run calloc_at sched (started now) = Some (y, ops) -> lock y = None ->
  in_list y = clients (run_proxy ops p).1 /\ size (mem y) = length (in_list y).
Proof using calloc_fresh.
  intros Hp Hrun Hlk.
  destruct (run_inv _ _ _ _ _ _ (inv_started now) Hrun) as (l & Hinv).
  rewrite commit_run, Hp, (inv_in_list _ _ _ Hinv).
  destruct (free_list _ _ _ Hinv Hlk) as (HL & Hdom). split; [done|].
  rewrite <- size_dom, length_fmap, <- (length_fmap fst l), <- (size_list_to_set (C:=gset Z) l.*1).
  - f_equal. apply leibniz_equiv. intros c. by rewrite elem_of_dom, elem_of_list_to_set, Hdom.
  - pose proof (i_nodup _ _ _ Hinv) as Hnd. by apply NoDup_app in Hnd as (? & _).
Qed.

(** Every state of the schedule is in time. *)
Fixpoint punctual (sched : list action) (y : sys) : bool :=
  in_time y &&
  match sched with
  | [] => true
  | x :: sched' =>
      match act calloc_at x y with
      | None => true
      | Some (y', _) => punctual sched' y'
      end
  end.

Lemma punctual_inv sched y l L : inv y l L -> kept y l -> punctual sched y = true ->
  exists y' ops l', run calloc_at sched y = Some (y', ops) /\
    inv y' l' (foldl (fun L op => commit op L) L ops) /\ kept y' l'.
Proof using calloc_fresh.
  revert y l L. induction sched as [|x sched IH]; intros y l L Hinv Hk; cbn [run punctual].
  - intros _. by exists y, [], l.
  - intros [Ht Hp]%andb_true_iff. pose proof (act_inv x _ _ _ Hinv) as Ha.
    destruct (act calloc_at x y) as [[y1 o]|].
    + destruct Ha as (l1 & Hi1 & Hk1).
      destruct (IH _ _ _ Hi1 (Hk1 Ht Hk) Hp) as (y2 & ops & l2 & Hr & Hi2 & Hk2).
      cbn [mbind option_bind]. rewrite Hr. do 3 eexists. split; [done|]. split; [|done].
      by destruct o.
    + destruct Ha as (c & Hc & Hn). exfalso. specialize (Hk _ Hc).
      assert (is_Some (mem y !! c)) as [? ?]; [|congruence].
      destruct Hinv. apply i_dom0, elem_of_app. by left.
Qed.

(** C14: as long as no turn of the main loop goes on with its client for more than a
    minute, no schedule makes a thread touch freed memory, and the client in use
    is in the list, so that its socket is open. *)
Theorem punctual_threads_safe sched now :
  punctual sched (started now) = true ->
  exists y ops, run calloc_at sched (started now) = Some (y, ops) /\
    forall c, holding y = Some c -> exists n, mem y !! c = Some n /\ n_client n ∈ in_list y.
Proof using calloc_fresh.
  intros Hp. assert (kept (started now) []) as Hk0 by done.
  destruct (punctual_inv _ _ _ _ (inv_started now) Hk0 Hp) as (y & ops & l & Hr & Hinv & Hk).
  exists y, ops. split; [done|]. intros c Hc. specialize (Hk _ Hc).
  apply list_elem_of_fmap in Hk as ([c' x] & -> & Hin). cbn.
  destruct (seg_lookup _ _ _ _ _ _ (i_seg _ _ _ Hinv) Hin) as (_ & nx & Hm).
  exists (Node x nx). split; [done|]. rewrite (inv_in_list _ _ _ Hinv). cbn.
  by apply (list_elem_of_fmap_2 snd l (c', x)).
Qed.

(** ** The lock is given back *)
Lemma run_step x sched y y1 o : act calloc_at x y = Some (y1, o) ->
  run calloc_at (x :: sched) y =
    '(y2, ops) ← run calloc_at sched y1; Some (y2, option_list o ++ ops)%list.
Proof. intros Ha. cbn [run]. by rewrite Ha. Qed.

Definition stays (now : Z) (p : Z * client) : Prop := ~ idle now p.2.
#[local] Instance stays_dec now p : Decision (stays now p).
Proof. unfold stays, idle. apply _. Defined.

(** What the sweeper does next, at a known place in the list. *)
Lemma swalk_step y l1 l2 L now : inv y (l1 ++ l2) L -> sweep_at y = SWalk now (last_at l1) ->
  sweep_step y = Some (match l2 with
    | [] => (set_sweep SUnlock y, Some (Sweep now))
    | (c, x) :: _ =>
        (set_sweep (if CLIENT_TIMEOUT <? now - last_seen x then SClose now (last_at l1) c
                    else SWalk now c) y, None)
    end) /\
  inv (set_sweep (match l2 with
    | [] => SUnlock
    | (c, x) :: _ => if CLIENT_TIMEOUT <? now - last_seen x then SClose now (last_at l1) c
                     else SWalk now c
    end) y) (l1 ++ l2) (match l2 with [] => (sweep now L).1 | _ => L end).
Proof.
  intros Hinv Hpc. destruct (swalk_inv _ _ _ _ _ Hinv Hpc) as (y' & o & Hst & Hi & _).
  rewrite Hst. unfold sweep_step in Hst. rewrite Hpc in Hst. pose proof (i_seg _ _ _ Hinv) as Hs.
  rewrite (load_spec _ l1 l2 Hs) in Hst. cbn [mbind option_bind] in Hst.
  destruct l2 as [|[c x] l2]; cbn [first_at] in Hst.
  - cbn in Hst. injection Hst as <- <-. by split.
  - destruct (here _ _ _ _ _ _ _ Hinv eq_refl) as (Hc & Hm & _).
    destruct (Z.eqb_spec c 0); [lia|]. rewrite Hm in Hst. cbn in Hst.
    injection Hst as <- <-. by split.
Qed.

Lemma sremove y l1 c x l2 L now : inv y (l1 ++ (c, x) :: l2) L ->
  sweep_at y = SClose now (last_at l1) c ->
  exists y', run calloc_at [Sweeper; Sweeper; Sweeper] y = Some (y', []) /\
    inv y' (l1 ++ l2) L /\ sweep_at y' = SWalk now (last_at l1) /\ main_at y' = main_at y.
Proof.
  intros Hinv Hpc. destruct (here _ _ _ _ _ _ _ Hinv eq_refl) as (_ & Hm & _).
  destruct (sweep_step_inv _ _ _ Hinv) as (y1 & o & l' & Hst & Hi & _).
  unfold sweep_step in Hst. rewrite Hpc, Hm in Hst. cbn in Hst. injection Hst as <- <-.
  cbn [commit_opt] in Hi. pose proof (i_seg _ _ _ Hinv) as Hs1. pose proof (i_seg _ _ _ Hi) as Hs2.
  cbn in Hs2. rewrite <- (seg_unique _ _ _ _ Hs1 Hs2) in Hi. clear Hs1 Hs2.
  destruct (sunlink_inv _ _ _ now (last_at l1) c Hi eq_refl)
    as (y2 & l2' & n & Hst2 & Hi2 & Hmn2 & _ & _ & _ & _ & Hl2).
  rewrite without_middle in Hl2
    by (pose proof (i_nodup _ _ _ Hi) as Hnd; by apply NoDup_app in Hnd as (? & _)). subst l2'.
  assert (sweep_at y2 = SFree now (last_at l1) c) as Hpc2.
  { unfold sweep_step in Hst2. cbn in Hst2. rewrite Hm in Hst2. cbn in Hst2.
    destruct (assign _ _ _); [|done]. cbn in Hst2. by injection Hst2 as <-. }
  destruct (sfree_inv _ _ _ _ _ _ Hi2 Hpc2) as (Hst3 & Hi3).
  eexists. split; [|split; [exact Hi3|done]].
  rewrite (run_step Sweeper _ _ (set_sweep (SUnlink now (last_at l1) c) y) None)
    by (cbn; unfold sweep_step; by rewrite Hpc, Hm).
  rewrite (run_step Sweeper _ _ _ _ Hst2), (run_step Sweeper _ _ _ _ Hst3). done.
Qed.

Lemma run_app s1 s2 y y1 ops1 : run calloc_at s1 y = Some (y1, ops1) ->
  run calloc_at (s1 ++ s2) y =
    '(y2, ops2) ← run calloc_at s2 y1; Some (y2, ops1 ++ ops2)%list.
Proof.
  revert y ops1. induction s1 as [|x s1 IH]; intros y ops1; cbn [run app].
  - intros [= <- <-]. by destruct (run calloc_at s2 y) as [[]|].
  - destruct (act calloc_at x y) as [[ya o]|]; [|done]. cbn [mbind option_bind].
    destruct (run calloc_at s1 ya) as [[yb opsb]|] eqn:Hr; [|done]. cbn [mbind option_bind].
    intros [= -> <-]. rewrite (IH _ _ Hr). destruct (run calloc_at s2 y1) as [[]|]; [|done].
    cbn. by rewrite app_assoc.
Qed.

Lemma sweep_done l2 l1 y L now : inv y (l1 ++ l2) L -> sweep_at y = SWalk now (last_at l1) ->
  exists k y' ops, (k <= 4 * length l2 + 2)%nat /\
    run calloc_at (replicate k Sweeper) y = Some (y', ops) /\
    inv y' (l1 ++ filter (stays now) l2) (sweep now L).1 /\
    lock y' = None /\ main_at y' = main_at y.
Proof.
  revert l1 y. induction l2 as [|[c x] l2 IH]; intros l1 y Hinv Hpc;
    destruct (swalk_step _ _ _ _ _ Hinv Hpc) as (Hst & Hi); cbn match in *.
  - exists 2%nat. do 2 eexists. split; [cbn; lia|]. cbn [replicate].
    rewrite (run_step Sweeper _ _ _ _ Hst). cbn. split; [done|]. split; [|done].
    destruct (sweep_step_inv _ _ _ Hi) as (y' & o & l' & Hs' & Hi' & _). cbn in Hs'.
    injection Hs' as <- <-. cbn [commit_opt] in Hi'.
    pose proof (i_seg _ _ _ Hi') as Hs1. pose proof (i_seg _ _ _ Hi) as Hs2. cbn in Hs1, Hs2.
    by rewrite (seg_unique _ _ _ _ Hs2 Hs1).
  - destruct (Z.ltb_spec CLIENT_TIMEOUT (now - last_seen x)) as [Hidle|Hfresh].
    + destruct (sremove _ _ _ _ _ _ _ Hi eq_refl) as (y2 & Hr2 & Hi2 & Hpc2 & Hmn2).
      destruct (IH _ _ Hi2 Hpc2) as (k & y' & ops & Hk & Hr & Hi' & Hl & Hm).
      exists (4 + k)%nat, y', ops. cbn [length]. split; [lia|].
      change (replicate (4 + k) Sweeper) with
        (Sweeper :: ([Sweeper; Sweeper; Sweeper] ++ replicate k Sweeper))%list.
      rewrite (run_step Sweeper _ _ _ _ Hst), (run_app _ _ _ _ _ Hr2), Hr. cbn -[filter].
      split; [done|]. rewrite filter_cons_False by (unfold stays, idle; cbn; auto with lia).
      split; [done|]. split; [done|]. by rewrite Hm, Hmn2.
    + destruct (IH (l1 ++ [(c, x)])%list _ ltac:(by rewrite <- app_assoc))
        as (k & y' & ops & Hk & Hr & Hi' & Hl & Hm).
      { cbn. unfold last_at. by rewrite last_snoc. }
      exists (S k), y', ops. cbn [length replicate]. split; [lia|].
      rewrite (run_step Sweeper _ _ _ _ Hst), Hr. cbn -[filter]. split; [done|].
      rewrite filter_cons_True by (unfold stays, idle; cbn; lia).
      by rewrite <- app_assoc in Hi'.
Qed.

Lemma sweeper_releases y l L : inv y l L -> lock y = Some TSweep ->
  exists k y' ops, (k <= 4 * length l + 5)%nat /\
    run calloc_at (replicate k Sweeper) y = Some (y', ops) /\ lock y' = None.
Proof.
  intros Hinv Hlk. pose proof Hinv as []. rewrite Hlk in i_sweep_lock0.
  destruct (sweep_at y) as [|now|now prev|now prev c|now prev c|now prev c|] eqn:Hpc; try done;
    unfold sweep_view in i_sweep0; rewrite Hpc in i_sweep0.
  - destruct i_sweep0 as (l1 & l2 & -> & -> & _).
    destruct (sweep_done _ _ _ _ _ Hinv Hpc) as (k & y' & ops & Hk & Hr & _ & Hl & _).
    exists k, y', ops. rewrite length_app. split; [lia|done].
  - destruct i_sweep0 as (l1 & x & l2 & -> & -> & _).
    destruct (sremove _ _ _ _ _ _ _ Hinv Hpc) as (y2 & Hr2 & Hi2 & Hpc2 & _).
    destruct (sweep_done _ _ _ _ _ Hi2 Hpc2) as (k & y' & ops & Hk & Hr & _ & Hl & _).
    exists (3 + k)%nat, y', ops. rewrite length_app. cbn [length]. split; [lia|]. split; [|done].
    change (replicate (3 + k) Sweeper) with ([Sweeper; Sweeper; Sweeper] ++ replicate k Sweeper)%list.
    by rewrite (run_app _ _ _ _ _ Hr2), Hr.
  - pose proof i_sweep0 as (l1 & x & l2 & Hl & -> & _).
    destruct (sunlink_inv _ _ _ _ _ _ Hinv Hpc)
      as (y2 & l2' & n & Hst2 & Hi2 & _ & Hm & _ & _ & _ & Hl2).
    assert (sweep_at y2 = SFree now (last_at l1) c) as Hpc2.
    { unfold sweep_step in Hst2. rewrite Hpc, Hm in Hst2. cbn in Hst2.
      destruct (assign _ _ _); [|done]. cbn in Hst2. by injection Hst2 as <-. }
    destruct (sfree_inv _ _ _ _ _ _ Hi2 Hpc2) as (Hst3 & Hi3).
    subst l. rewrite without_middle in Hl2
      by (apply NoDup_app in i_nodup0 as (? & _); done). subst l2'.
    destruct (sweep_done _ _ _ _ _ Hi3 eq_refl) as (k & y' & ops & Hk & Hr & _ & Hlk' & _).
    exists (2 + k)%nat, y', ops. rewrite length_app. cbn [length]. split; [lia|]. split; [|done].
    cbn [replicate Nat.add]. rewrite (run_step Sweeper _ _ _ _ Hst2), (run_step Sweeper _ _ _ _ Hst3).
    by rewrite Hr.
  - destruct i_sweep0 as (l1 & l2 & -> & -> & _).
    destruct (sfree_inv _ _ _ _ _ _ Hinv Hpc) as (Hst3 & Hi3).
    destruct (sweep_done _ _ _ _ _ Hi3 eq_refl) as (k & y' & ops & Hk & Hr & _ & Hlk' & _).
    exists (1 + k)%nat, y', ops. rewrite length_app. split; [lia|]. split; [|done].
    cbn [replicate Nat.add]. by rewrite (run_step Sweeper _ _ _ _ Hst3), Hr.
  - exists 1%nat. do 2 eexists. split; [lia|]. cbn. unfold sweep_step. by rewrite Hpc.
Qed.

(** The main thread alone gives the lock back within [n] statements, whatever its
    calls give. *)
Definition releases (n : nat) (y : sys) : Prop :=
  forall ins, length ins = n -> exists k y' ops,
    run calloc_at (map Main (take k ins)) y = Some (y', ops) /\ lock y' = None.

Lemma releases_step n y :
  (forall i, exists y1 o, main_step calloc_at i y = Some (y1, o) /\ releases n y1) ->
  releases (S n) y.
Proof.
  intros H [|i ins] Hlen; [done|]. cbn in Hlen. destruct (H i) as (y1 & o & Hst & Hr).
  destruct (Hr ins ltac:(lia)) as (k & y' & ops & Hrun & Hl).
  exists (S k), y', (option_list o ++ ops)%list. cbn [take map].
  rewrite (run_step (Main i) _ _ _ _ Hst), Hrun. done.
Qed.

Lemma releases_mono n m y : (n <= m)%nat -> releases n y -> releases m y.
Proof.
  intros Hle H ins Hlen. destruct (H (take n ins)) as (k & y' & ops & Hrun & Hl).
  { rewrite length_take. lia. }
  exists (k `min` n)%nat, y', ops. by rewrite take_take in Hrun.
Qed.

Lemma unlock_releases y oc : main_at y = Unlock oc -> releases 1 y.
Proof.
  intros Hpc. apply releases_step. intros i. unfold main_step. rewrite Hpc.
  do 2 eexists. split; [done|]. intros ins _. by exists 0%nat, (set_main
    (match oc with Some c => Send c | None => Recv end) (set_lock None y)), [].
Qed.

Lemma alloc_releases y a : main_at y = Alloc a -> releases 3 y.
Proof.
  intros Hpc. apply releases_step. intros i. unfold main_step. rewrite Hpc.
  destruct (in_calloc i); cbn [negb]; [destruct (in_sock i <? 0)|]; do 2 eexists; (split; [done|]).
  1, 3: by apply (releases_mono 1); [lia|]; eapply unlock_releases.
  apply releases_step. intros i'. unfold main_step. cbn. rewrite lookup_insert_eq. cbn.
  do 2 eexists. split; [done|]. by eapply unlock_releases.
Qed.

Lemma walk_releases l2 l1 y L a : inv y (l1 ++ l2) L -> main_at y = Walk a (first_at l2) ->
  releases (length l2 + 4) y.
Proof.
  revert l1 y. induction l2 as [|[c x] l2 IH]; intros l1 y Hinv Hpc; cbn [length Nat.add];
    apply releases_step; intros i; unfold main_step; rewrite Hpc; cbn [first_at].
  - cbn. do 2 eexists. split; [done|]. by eapply alloc_releases.
  - destruct (here _ _ _ _ _ _ _ Hinv eq_refl) as (Hc & Hm & _).
    assert (first_at ((c, x) :: l2) <> 0) as Hc0 by (cbn; lia).
    destruct (walk_inv _ _ _ _ _ Hinv Hpc Hc0) as (n & Hm' & Hi).
    cbn [first_at] in Hm'. simplify_eq. cbn [n_client n_next] in Hi.
    destruct (Z.eqb_spec c 0); [lia|]. rewrite Hm. cbn [mbind option_bind n_client n_next].
    do 2 eexists. split; [done|]. destruct (addr_equal (addr x) a).
    + apply (releases_mono 2); [lia|]. apply releases_step. intros i'.
      unfold main_step. cbn. rewrite Hm. cbn. do 2 eexists. split; [done|]. by eapply unlock_releases.
    + apply (IH (l1 ++ [(c, x)])%list); [by rewrite <- app_assoc|done].
Qed.

Lemma main_releases y l L : inv y l L -> lock y = Some TMain -> releases (length l + 4) y.
Proof.
  intros Hinv Hlk. pose proof Hinv as []. rewrite Hlk in i_main_lock0.
  destruct (main_at y) as [|a|a c|a c|a|a c|oc|c|c|c] eqn:Hpc; try done;
    unfold main_view in i_main0; rewrite Hpc in i_main0.
  - destruct i_main0 as (l1 & l2 & -> & -> & _).
    apply (releases_mono (length l2 + 4)); [rewrite length_app; lia|]. by eapply walk_releases.
  - apply (releases_mono 2); [lia|]. apply releases_step. intros i.
    destruct (seen_inv _ _ _ _ _ Hinv Hpc) as (n & Hm & _).
    unfold main_step. rewrite Hpc, Hm. do 2 eexists. split; [done|]. by eapply unlock_releases.
  - apply (releases_mono 3); [lia|]. by eapply alloc_releases.
  - apply (releases_mono 2); [lia|]. apply releases_step. intros i.
    destruct (link_inv _ _ _ _ _ Hinv Hpc) as (n & Hm & _).
    unfold main_step. rewrite Hpc, Hm. do 2 eexists. split; [done|]. by eapply unlock_releases.
  - apply (releases_mono 1); [lia|]. by eapply unlock_releases.
Qed.

(** No thread keeps the lock for good: from any state of any schedule its holder
    alone gives it back, the sweeper within four statements per client and five
    more, the main thread within one per client and four more, whatever its calls
    give. *)
Theorem lock_released sched now y ops :
  run calloc_at sched (started now) = Some (y, ops) ->
  match lock y with
  | None => True
  | Some TSweep => exists k y' ops', (k <= 4 * length (in_list y) + 5)%nat /\
      run calloc_at (replicate k Sweeper) y = Some (y', ops') /\ lock y' = None
  | Some TMain => forall ins, length ins = (length (in_list y) + 4)%nat ->
      exists k y' ops', run calloc_at (map Main (take k ins)) y = Some (y', ops') /\ lock y' = None
  end.
Proof using calloc_fresh.
  intros Hrun. destruct (run_inv _ _ _ _ _ _ (inv_started now) Hrun) as (l & Hinv).
  rewrite (inv_in_list _ _ _ Hinv), length_fmap.
  destruct (lock y) as [[]|] eqn:Hlk; [|by eapply sweeper_releases|done].
  by apply (main_releases _ _ _ Hinv).
Qed.

(** C15: the lock does not protect the turn of the main loop: it ends with the lookup,
    and whenever a minute has passed since, a sweep frees the client that the turn
    goes on to use. *)
Theorem slow_turn_uses_freed_client sched now y ops c n i :
  run calloc_at sched (started now) = Some (y, ops) ->
  lock y = None -> sweep_at y = Asleep -> holding y = Some c ->
  mem y !! c = Some n -> last_seen (n_client n) + CLIENT_TIMEOUT < clock y ->
  exists k, run calloc_at (replicate k Sweeper ++ [Main i]) y = None.
Proof using calloc_fresh.
  intros Hrun Hlk Hpc Hh Hm Hslow.
  destruct (run_inv _ _ _ _ _ _ (inv_started now) Hrun) as (l & Hinv).
  destruct (free_list _ _ _ Hinv Hlk) as (HL & Hdom).
  set (y1 := set_sweep (SLock (clock y)) y).
  set (y2 := set_sweep (SWalk (clock y) 0) (set_lock (Some TSweep) y1)).
  assert (act calloc_at Sweeper y = Some (y1, None)) as H1
    by (cbn; unfold sweep_step; by rewrite Hpc).
  assert (act calloc_at Sweeper y1 = Some (y2, None)) as H2
    by (unfold y1; cbn; unfold sweep_step; cbn; by rewrite Hlk).
  assert (run calloc_at [Sweeper; Sweeper] y = Some (y2, [])) as H12
    by (by rewrite (run_step _ _ _ _ _ H1), (run_step _ _ _ _ _ H2)).
  destruct (run_inv _ _ _ _ _ _ Hinv H12) as (l' & Hi2). cbn [foldl] in Hi2.
  pose proof (i_seg _ _ _ Hinv) as Hs1. pose proof (i_seg _ _ _ Hi2) as Hs2. cbn in Hs2.
  rewrite <- (seg_unique _ _ _ _ Hs1 Hs2) in Hi2. clear Hs2.
  destruct (sweep_done l [] y2 _ (clock y) Hi2 eq_refl) as (k & y3 & ops3 & _ & Hr & Hi3 & Hlk3 & Hmn3).
  destruct (free_list _ _ _ Hi3 Hlk3) as (_ & Hdom3).
  exists (2 + k)%nat. cbn [replicate Nat.add app].
  rewrite (run_step _ _ _ _ _ H1), (run_step _ _ _ _ _ H2), (run_app _ _ _ _ _ Hr). cbn [run act].
  assert (mem y3 !! c = None) as Hgone.
  { destruct (mem y3 !! c) as [n'|] eqn:Hm3; [exfalso|done].
    assert (c ∈ (filter (stays (clock y)) l).*1) as Hc by (apply (Hdom3 c); eauto).
    apply list_elem_of_fmap in Hc as ([c' x] & -> & [Hst Hin]%list_elem_of_filter).
    destruct (seg_lookup _ _ _ _ _ _ Hs1 Hin) as (_ & nx & Hmx). cbn in Hm. simplify_eq.
    unfold stays, idle in Hst. cbn in Hst, Hslow. lia. }
  unfold main_step. rewrite Hmn3. cbn [main_at y2 y1 set_sweep set_lock].
  unfold holding in Hh. pose proof (i_main_lock _ _ _ Hinv) as Hml. rewrite Hlk in Hml.
  destruct (main_at y); cbn in *; try done; simplify_eq; by rewrite Hgone.
Qed.

End proofs.

(** ** Concrete runs *)

(** An allocator: behind everything that is in use. *)
Definition behind (m : memory) : Z := 1 + foldr (fun p => Z.max p.1) 0 (map_to_list m).

Lemma behind_fresh m : 0 < behind m /\ m !! behind m = None.
Proof.
  unfold behind. assert (forall l : list (Z * node), 0 <= foldr (fun p => Z.max p.1) 0 l /\
    forall p, p ∈ l -> p.1 <= foldr (fun p => Z.max p.1) 0 l) as H.
  { induction l as [|p l [H0 IH]]; cbn; [by split; [lia|intros p ?%elem_of_nil]|].
    split; [lia|]. intros q [->|Hq]%elem_of_cons; [lia|]. specialize (IH q Hq). lia. }
  destruct (H (map_to_list m)) as [H0 Hmax]. split; [lia|].
  destruct (m !! _) as [n|] eqn:Hm; [exfalso|done].
  apply elem_of_map_to_list in Hm. specialize (Hmax _ Hm). cbn in Hmax. lia.
Qed.

Definition from_alice : input := In (Some alice) true 4 true.

(** A turn of the main loop for a new client, up to the first use of it, with the
    sweeper waiting for the lock. *)
Definition first_turn : list action :=
  [Main from_alice; Main from_alice; Sweeper; Main from_alice; Sweeper; Main from_alice;
   Main from_alice; Main from_alice].

Lemma threads_linearize_witness :
  exists y ops, run behind first_turn (started 100) = Some (y, ops) /\
    in_list y = [Client alice 4 100] /\
    in_list y = clients (run_proxy ops some_proxy).1 /\ size (mem y) = length (in_list y).
Proof.
  eexists _, _. split; [vm_compute; reflexivity|]. split; [vm_compute; reflexivity|].
  eapply (threads_linearize behind behind_fresh first_turn 100 some_proxy); vm_compute; reflexivity.
Defined.

Lemma punctual_threads_safe_witness :
  exists y ops, run behind (first_turn ++ [Passes 60; Sweeper; Sweeper; Main from_alice]) (started 100)
      = Some (y, ops) /\
    forall c, holding y = Some c -> exists n, mem y !! c = Some n /\ n_client n ∈ in_list y.
Proof.
  apply (punctual_threads_safe behind behind_fresh). vm_compute. reflexivity.
Defined.

(** The main thread searches the list; the lock is taken. *)
Lemma lock_released_witness :
  exists y ops, run behind (take 4 first_turn) (started 100) = Some (y, ops) /\
  match lock y with
  | None => True
  | Some TSweep => exists k y' ops', (k <= 4 * length (in_list y) + 5)%nat /\
      run behind (replicate k Sweeper) y = Some (y', ops') /\ lock y' = None
  | Some TMain => forall ins, length ins = (length (in_list y) + 4)%nat ->
      exists k y' ops', run behind (map Main (take k ins)) y = Some (y', ops') /\ lock y' = None
  end.
Proof.
  eexists _, _. split; [vm_compute; reflexivity|].
  eapply (lock_released behind behind_fresh (take 4 first_turn) 100). vm_compute. reflexivity.
Defined.

(** The main thread stops for 61 seconds before it forwards the datagram. *)
Definition slow_turn : list action := replicate 6 (Main from_alice) ++ [Passes 61].

Lemma slow_turn_uses_freed_client_witness :
  exists y ops k, run behind slow_turn (started 100) = Some (y, ops) /\
    run behind (replicate k Sweeper ++ [Main from_alice]) y = None.
Proof.
  assert (exists k, run behind (replicate k Sweeper ++ [Main from_alice])
    (Sys {[1 := Node (Client alice 4 100) 0]} 1 None 161 (Send 1) Asleep) = None) as [k Hk].
  { eapply (slow_turn_uses_freed_client behind behind_fresh slow_turn 100 _
      [Get true 4 100 alice] 1 (Node (Client alice 4 100) 0)); vm_compute; reflexivity. }
  do 2 eexists. exists k. split; [vm_compute; reflexivity|exact Hk].
Defined.
