(* ===== verification/UdpXorPlain.v ===== *)
(** * The UDP proxy for several clients without clean-up

    [python/udp_xor_proxy/udp_xor_proxy_multi.c]: its [main], set-up and loop.  The
    list of clients, the cipher and the command line are those of [UdpXorMulti] and
    [UdpXorProxy]; nothing ever takes a client out of the list. *)
From S2P Require Import Prelude.
From S2P Require Import Decimal.
From S2P Require Import UdpXorProxy.
From S2P Require Import UdpXorMulti.
From stdpp Require Import gmap.
From stdpp Require Import options.
#[local] Open Scope Z_scope.

(** What the file has in common with [udp_xor_proxy_multi_cleanup.c], down to the layout of
    its lines. *)
Definition plain_client : Type := client.
Definition plain_proxy : Type := proxy.
Definition plain_xor_buffer : list Z -> list Z -> Z -> option (list Z) := xor_buffer.
Definition plain_addr_equal : sockaddr_in -> sockaddr_in -> bool := addr_equal.
Definition plain_get_client : bool -> Z -> Z -> sockaddr_in -> proxy -> proxy * option client := get_client.
Definition plain_parse_hostport : string -> bool -> parsed := parse_hostport.

Inductive plain_started :=
  | PlainFailed
  | PlainCrashed
  | PlainRunning (local_addr : sockaddr_in) (p : proxy).

(** [main] up to its loop; [sock] and [bound] are what [socket] and [bind] give. *)
Definition plain_start (inet_pton : string -> option Z) (sock bound : Z) (argv : list string)
    : plain_started :=
  match parse_args argv no_args with
  | None => PlainFailed
  | Some a =>
      match remote_arg a with
      | None => PlainFailed
      | Some remote =>
          match (match listen_arg a with
                 | Some l => parse_hostport l false
                 | None => Parsed "0.0.0.0" 12345
                 end) with
          | Exit1 => PlainFailed
          | Undefined => PlainCrashed
          | Parsed listen_host listen_port =>
              match parse_hostport remote true with
              | Exit1 => PlainFailed
              | Undefined => PlainCrashed
              | Parsed remote_host remote_port =>
                  if sock <? 0 then PlainFailed
                  else if bound <? 0 then PlainFailed
                  else match key_arg a with
                       | None => PlainCrashed
                       | Some k =>
                           PlainRunning (make_addr inet_pton listen_host listen_port)
                             (make_proxy sock (make_addr inet_pton remote_host remote_port) k)
                       end
              end
          end
      end
  end.

(** What reaches the running proxy: a datagram at the local socket, with what the
    calls of the turn give, or an answer at the socket of a client. *)
Inductive plain_event :=
  | Hears (calloc : bool) (sock now : Z) (d : list Z) (from : sockaddr_in)
  | Gets (fd : Z) (d : list Z).

(** The loop of [main]. *)
Fixpoint plain_loop (evs : list plain_event) (w : inbox) (p : proxy)
    : option (proxy * inbox * list sendto) :=
  match evs with
  | [] => Some (p, w, [])
  | Hears calloc sock now d from :: evs' =>
      '(p1, out, taken) ← main_turn calloc sock now (Datagram d from 16)
                            (fun fd => head (default [] (w !! fd))) p;
      let w1 := match taken with Some fd => take_answer fd w | None => w end in
      '(p2, w2, outs) ← plain_loop evs' w1 p1;
      Some (p2, w2, out ++ outs)%list
  | Gets fd d :: evs' => plain_loop evs' (<[fd := default [] (w !! fd) ++ [d]]> w)%list p
  end.

(** ** The clients are kept *)
Definition peer (c : client) : sockaddr_in * Z := (addr c, up_fd c).
Definition peers (p : proxy) : list (sockaddr_in * Z) := map peer (clients p).

(** The sender of a datagram for which the proxy can make a client. *)
Definition heard (a : sockaddr_in) (ev : plain_event) : Prop :=
  match ev with
  | Hears calloc sock _ d from => calloc = true /\ 0 <= sock /\ d <> [] /\ from = a
  | Gets _ _ => False
  end.

Lemma find_client_peers a now l c l' : find_client a now l = Some (c, l') ->
  map peer l' = map peer l /\ a ∈ map addr l.
Proof.
  revert c l'. induction l as [|c0 l IH]; intros c l'; cbn [find_client]; [done|].
  destruct (addr_equal (addr c0) a) eqn:He.
  - intros [= <- <-]. apply addr_equal_spec in He as <-. split; [done|left].
  - destruct (find_client a now l) as [[c1 l1]|]; [|done]. cbn [mbind option_bind].
    intros [= <- <-]. destruct (IH c1 l1 eq_refl) as [Hp Ha]. cbn [map]. rewrite Hp.
    split; [done|by right].
Qed.

Lemma map_addr_peer l : map fst (map peer l) = map addr l.
Proof. by rewrite map_map. Qed.

Lemma get_client_peers calloc sock now a p : distinct (clients p) ->
  let p' := (get_client calloc sock now a p).1 in
  distinct (clients p') /\
  exists new, peers p' = (new ++ peers p)%list /\
    forall a', a' ∈ map fst new <-> a' = a /\ calloc = true /\ 0 <= sock /\ a ∉ map addr (clients p).
Proof.
  intros Hd. pose proof (get_client_map calloc sock now a p Hd) as Hg.
  unfold get_client in *. pose proof (find_client_map a now (clients p) Hd) as Hf.
  destruct (find_client a now (clients p)) as [[c l]|] eqn:Hfc; cbn zeta.
  - cbn [fst]. destruct (table_get _ _ _ _ _) as [m r]. destruct Hg as (Hd' & _).
    split; [done|]. exists []. apply find_client_peers in Hfc as [Hp Ha].
    split; [exact Hp|]. intros a'. split; [by intros ?%elem_of_nil|by intros (_ & _ & _ & ?)].
  - apply as_map_None in Hf. destruct (table_get _ _ _ _ _) as [m r].
    destruct calloc; cbn [negb] in *; [destruct (Z.ltb_spec sock 0)|]; cbn [fst] in *;
      destruct Hg as (Hd' & _); (split; [done|]).
    + exists []. split; [done|]. intros a'. split; [by intros ?%elem_of_nil|lia].
    + exists [(a, sock)]. split; [done|]. intros a'. cbn [map fst].
      rewrite list_elem_of_singleton. intuition.
    + exists []. split; [done|]. intros a'. split; [by intros ?%elem_of_nil|by intros (_ & ? & _)].
Qed.

Lemma turn_peers calloc sock now d from len waiting p p' out taken :
  distinct (clients p) ->
  main_turn calloc sock now (Datagram d from len) waiting p = Some (p', out, taken) ->
  distinct (clients p') /\
  exists new, peers p' = (new ++ peers p)%list /\
    forall a, a ∈ map fst new <-> heard a (Hears calloc sock now d from) /\ a ∉ map addr (clients p).
Proof.
  intros Hd. unfold main_turn, heard. destruct d as [|b d].
  { intros [= <- <- <-]. split; [done|]. exists []. split; [done|]. intros a.
    split; [by intros ?%elem_of_nil|]. by intros [(_ & _ & ? & _) _]. }
  destruct (xor_buffer _ _ _) as [buf|]; [|done]. cbn [mbind option_bind].
  pose proof (get_client_peers calloc sock now from p Hd) as Hg. cbn zeta in Hg.
  destruct (get_client calloc sock now from p) as [p1 oc]. cbn [fst] in Hg. intros Ht.
  assert (p' = p1) as ->.
  { destruct oc as [c|]; [|by injection Ht]. destruct (waiting (up_fd c)) as [[|x ans]|]; [by injection Ht| |by injection Ht].
    destruct (xor_buffer (x :: ans) _ _); [|done]. by injection Ht. }
  destruct Hg as (Hd1 & new & Hp & Hnew). split; [done|]. exists new. split; [done|].
  intros a. rewrite Hnew. intuition congruence.
Qed.

(** Without the clean-up the list only grows: every client keeps its socket for
    good, and after any sequence of datagrams and answers there is exactly one
    client, and one open socket, for each address that was ever heard while memory
    and a socket could be had. *)
Theorem plain_keeps_every_client evs w p p' w' outs :
  distinct (clients p) -> plain_loop evs w p = Some (p', w', outs) ->
  NoDup (map fst (peers p')) /\ peers p `suffix_of` peers p' /\
  forall a, a ∈ map fst (peers p') <-> a ∈ map fst (peers p) \/ Exists (heard a) evs.
Proof.
  revert w p outs. induction evs as [|[calloc sock now d from|fd d] evs IH]; intros w p outs Hd;
    cbn [plain_loop].
  - intros [= <- _ _]. unfold peers. rewrite map_addr_peer. split; [done|]. split; [done|].
    intros a. rewrite Exists_nil. tauto.
  - destruct (main_turn _ _ _ _ _ p) as [[[p1 out] taken]|] eqn:Ht; [|done].
    cbn [mbind option_bind].
    destruct (turn_peers _ _ _ _ _ _ _ _ _ _ _ Hd Ht) as (Hd1 & new & Hp1 & Hnew).
    destruct (plain_loop evs _ p1) as [[[p2 w2] outs2]|] eqn:Hl; [|done].
    cbn [mbind option_bind]. intros [= -> -> _].
    destruct (IH _ _ _ Hd1 Hl) as (Hnd & Hsuf & Hall). split; [done|]. split.
    + etransitivity; [|exact Hsuf]. rewrite Hp1. by eexists.
    + intros a. rewrite Hall, Exists_cons, Hp1, map_app, elem_of_app, Hnew.
      unfold peers. rewrite map_addr_peer.
      destruct (decide (a ∈ map addr (clients p))); tauto.
  - intros Hl. destruct (IH _ _ _ Hd Hl) as (Hnd & Hsuf & Hall). split_and!; [done|done|].
    intros a. rewrite Hall, Exists_cons. cbn [heard]. tauto.
Qed.

(** ** A concrete run *)
Definition heard_twice : list plain_event :=
  [Hears true 4 0 [65] alice; Hears true 5 100000 [66] bob; Gets 4 [67]; Hears true 6 200000 [68] alice].

Lemma plain_keeps_every_client_witness :
  exists p' w' outs, plain_loop heard_twice ∅ some_proxy = Some (p', w', outs) /\
    map fst (peers p') = [bob; alice] /\
    NoDup (map fst (peers p')) /\ peers some_proxy `suffix_of` peers p'.
Proof.
  destruct (plain_loop heard_twice ∅ some_proxy) as [[[p' w'] outs]|] eqn:Hr; [|discriminate Hr].
  exists p', w', outs. split; [done|]. split; [by injection Hr as <- _ _|].
  destruct (plain_keeps_every_client heard_twice ∅ some_proxy p' w' outs) as (? & ? & _);
    [apply NoDup_nil_2|exact Hr|done].
Defined.
