(* ===== verification/SimplePdrv.v ===== *)
(** * The text devices

    [openwrt/kernel/gpt/simple_pdrv.c], [simple_pdrv_cdev.c] and
    [simple_pdrv_cdev_full.c]: a buffer of 128 bytes behind a sysfs attribute and a
    character device, in three variants of the same program.  [Misc] uses a misc
    device and ignores the position of a write; [Cdev] and [CdevFull] use a cdev and
    the kernel's [simple_write_to_buffer].  The two buffer helpers belong to the
    kernel: the code is modelled over any implementation ([SimpleBuffer]) with the
    documented behaviour ([SimpleBufferSpec]). *)
From S2P Require Import Prelude.
From S2P Require Import Kernel.
From stdpp Require Import options.

Abbreviation ENOSPC := 28.

Class SimpleBuffer := {
  (** [simple_read_from_buffer (to, count, &pos, from, available)]: result, new
      position, bytes delivered; the first argument is the number of bytes the
      user address refuses. *)
  simple_read_from_buffer : Z -> Z -> Z -> list Z -> Z * Z * list Z;
  (** [simple_write_to_buffer (to, available, &pos, from, count)]: result, new
      position, new contents of [to]. *)
  simple_write_to_buffer : Z -> list Z -> Z -> Z -> list Z -> Z * Z * list Z;
}.

Class SimpleBufferSpec `{SimpleBuffer} := {
  simple_read_spec count pos from : 0 <= pos -> 0 <= count ->
    let out := take (Z.to_nat count) (drop (Z.to_nat pos) from) in
    simple_read_from_buffer 0 count pos from =
      (Z.of_nat (length out), pos + Z.of_nat (length out), out);
  simple_write_spec to available pos from : 0 <= pos < available ->
    available <= Z.of_nat (length to) ->
    let xs := take (Z.to_nat (available - pos)) from in
    simple_write_to_buffer 0 to available pos from =
      (Z.of_nat (length xs), pos + Z.of_nat (length xs),
       take (Z.to_nat pos) to ++ xs ++ drop (Z.to_nat pos + length xs) to);
  simple_write_bounds u to available pos from : 0 <= u -> 0 <= pos ->
    available <= Z.of_nat (length to) ->
    let '(ret, pos', to') := simple_write_to_buffer u to available pos from in
    ret <= Z.max 0 available /\ 0 <= pos' /\ length to' = length to /\
    drop (Z.to_nat available) to' = drop (Z.to_nat available) to;
}.

Record simple_priv := Priv { buf : list Z; len : Z }.
Definition BUF_SIZE : Z := 128.

Section code.
Context `{SimpleBuffer}.
Notation prog := (M simple_priv).

(** [priv->buf[i] = c], undefined outside of the array. *)
Definition store (i c : Z) (p : simple_priv) : option simple_priv :=
  b ← zset i c (buf p); Some (Priv b (len p)).
(** [memcpy (priv->buf, xs, n)] with the [n] bytes [xs]. *)
Definition copy_in (xs : list Z) (b : list Z) : list Z := xs ++ drop (length xs) b.

(** The bytes of the string in a buffer. *)
Fixpoint c_string (b : list Z) : list Z :=
  match b with [] => [] | c :: b' => if c =? 0 then [] else c :: c_string b' end.

Definition value_show (p : simple_priv) : list Z := c_string (buf p) ++ [10].

(** [None]: a write outside of the buffer. *)
Definition value_store (text : list Z) (p : simple_priv) : option (simple_priv * Z) :=
  let count := Z.of_nat (length text) in
  let n := Z.min count (BUF_SIZE - 1) in
  let p := Priv (copy_in (take (Z.to_nat n) text) (buf p)) n in
  p ← store n 0 p;
  Some (p, count).

Definition simple_read (u count pos : Z) (p : simple_priv) : Z * Z * list Z :=
  simple_read_from_buffer u count pos (take (Z.to_nat (len p)) (buf p)).

(** The write of the misc device; [u] bytes cannot be copied from the user. *)
Definition misc_write (u : Z) (from : list Z) (p : simple_priv) : option (simple_priv * Z) :=
  let n := Z.min (Z.of_nat (length from)) (BUF_SIZE - 1) in
  let copied := take (Z.to_nat (n - u)) from in
  let p := Priv (copy_in copied (buf p)) (len p) in
  if c_true u then Some (p, - EFAULT)
  else
    p ← store n 0 p;
    Some (Priv (buf p) n, n).

(** The write of the character device: result, new position. *)
Definition cdev_write (u pos : Z) (from : list Z) (p : simple_priv)
    : option (simple_priv * Z * Z) :=
  let '(ret, pos', b) := simple_write_to_buffer u (buf p) (BUF_SIZE - 1) pos from in
  let p := Priv b (if 0 <=? ret then ret else len p) in
  p ← store (len p) 0 p;
  Some (p, ret, pos').
End code.

(** ** Probe and remove *)
Section drivers.
Context {S : Type}.
Notation prog := (M S).

(** [devm_kzalloc] memory is given back by the kernel. *)
Definition misc_probe : prog Z :=
  priv ← ask (devm_kzalloc "simple_priv");
  if priv =? 0 then mret (- ENOMEM)
  else
    ret ← ask misc_register;
    if c_true ret then mret ret
    else
      do_ platform_set_drvdata;;
      ret ← ask (device_create_file "value");
      if c_true ret then
        do_ misc_deregister;;
        mret ret
      else mret 0.

Definition misc_remove : prog Z :=
  do_ (device_remove_file "value");;
  do_ misc_deregister;;
  mret 0.

Definition cdev_probe : prog Z :=
  priv ← ask (devm_kzalloc "simple_priv");
  if priv =? 0 then mret (- ENOMEM)
  else
    ret ← ask alloc_chrdev_region;
    if c_true ret then mret ret
    else
      do_ cdev_init;;
      ret ← ask cdev_add;
      if c_true ret then
        do_ unregister_chrdev_region;;
        mret ret
      else
        cls ← ask class_create;
        if IS_ERR cls then
          do_ cdev_del;;
          do_ unregister_chrdev_region;;
          mret (PTR_ERR cls)
        else
          dev ← ask device_create;
          if IS_ERR dev then
            do_ class_destroy;;
            do_ cdev_del;;
            do_ unregister_chrdev_region;;
            mret (PTR_ERR dev)
          else
            do_ (device_create_file "value");;
            do_ platform_set_drvdata;;
            mret 0.

Definition full_probe : prog Z :=
  priv ← ask (devm_kzalloc "simple_priv");
  if priv =? 0 then mret (- ENOMEM)
  else
    ret ← ask alloc_chrdev_region;
    if c_true ret then mret ret
    else
      let err_unregister_chrdev ret := do_ unregister_chrdev_region;; mret ret in
      let err_cdev_del ret := do_ cdev_del;; err_unregister_chrdev ret in
      let err_class_destroy ret := do_ class_destroy;; err_cdev_del ret in
      let err_device_destroy ret := do_ device_destroy;; err_class_destroy ret in
      do_ cdev_init;;
      ret ← ask cdev_add;
      if c_true ret then err_unregister_chrdev ret
      else
        cls ← ask class_create;
        if IS_ERR cls then err_cdev_del (PTR_ERR cls)
        else
          dev ← ask device_create;
          if IS_ERR dev then err_class_destroy (PTR_ERR dev)
          else
            ret ← ask (device_create_file "value");
            if c_true ret then err_device_destroy ret
            else
              do_ platform_set_drvdata;;
              mret 0.

Definition cdev_remove : prog Z :=
  do_ (device_remove_file "value");;
  do_ device_destroy;;
  do_ class_destroy;;
  do_ cdev_del;;
  do_ unregister_chrdev_region;;
  mret 0.
Definition full_remove : prog Z := cdev_remove.

(** [simple_init] and [simple_exit] of the three files are the same; [simple_dev] is
    the device they share. *)
Definition simple_init : prog (Z * Z) :=
  simple_dev ← ask platform_device_register_simple;
  if IS_ERR simple_dev then mret (PTR_ERR simple_dev, simple_dev)
  else
    ret ← ask platform_driver_register;
    if c_true ret then
      do_ (platform_device_unregister simple_dev);;
      mret (ret, simple_dev)
    else mret (0, simple_dev).
Definition simple_exit (simple_dev : Z) : prog unit :=
  do_ platform_driver_unregister;;
  do_ (platform_device_unregister simple_dev).
End drivers.

(** ** The text in the buffer *)
Section text.
Context `{HSB : SimpleBufferSpec}.
Implicit Types (p : simple_priv).
#[local] Set Default Proof Using "Type*".

(** 128 bytes, at most 127 of them text, the last one 0. *)
Record text_ok p : Prop := {
  text_size : length (buf p) = 128%nat;
  text_len : 0 <= len p <= 127;
  text_last : buf p !! 127%nat = Some 0;
}.

Lemma c_string_length b n : b !! n = Some 0 -> (length (c_string b) <= n)%nat.
Proof.
  revert n. induction b as [|c b IH]; intros n Hn; [done|]. cbn [c_string].
  destruct (Z.eqb_spec c 0) as [|Hc]; [cbn; lia|]. destruct n as [|n]; [by injection Hn|].
  cbn [length]. specialize (IH n Hn). lia.
Qed.

Lemma copy_in_spec xs b : length b = 128%nat -> (length xs <= 127)%nat ->
  length (copy_in xs b) = 128%nat /\ copy_in xs b !! 127%nat = b !! 127%nat /\
  take (length xs) (copy_in xs b) = xs.
Proof.
  intros Hl Hx. unfold copy_in. split_and!.
  - rewrite length_app, length_drop. lia.
  - rewrite lookup_app_r, lookup_drop by lia. f_equal. lia.
  - by rewrite take_app_length.
Qed.

(** Ending a text of [n] bytes. *)
Lemma store_end b n : length b = 128%nat -> 0 <= n <= 127 -> b !! 127%nat = Some 0 ->
  exists b', store n 0 (Priv b n) = Some (Priv b' n) /\ text_ok (Priv b' n) /\
    take (Z.to_nat n) b' = take (Z.to_nat n) b.
Proof.
  intros Hl Hn Hlast. unfold store. cbn [buf len]. rewrite zset_Some by lia.
  eexists. split; [done|]. split.
  - split; cbn [buf len]; [by rewrite length_insert|done|].
    destruct (decide (Z.to_nat n = 127%nat)) as [->|Hne];
      [by rewrite list_lookup_insert_eq by lia|by rewrite list_lookup_insert_ne].
  - by rewrite take_insert_ge by lia.
Qed.

Definition text p : list Z := take (Z.to_nat (len p)) (buf p).

Lemma min_text (from : list Z) : 0 <= Z.min (Z.of_nat (length from)) 127 <= 127 /\
  take (Z.to_nat (Z.min (Z.of_nat (length from)) 127)) from = take 127 from /\
  length (take 127 from) = Z.to_nat (Z.min (Z.of_nat (length from)) 127).
Proof.
  rewrite length_take. split; [lia|]. split; [|lia].
  destruct (le_lt_dec (length from) 127).
  - rewrite !take_ge by lia. done.
  - by replace (Z.to_nat (Z.min (Z.of_nat (length from)) 127)) with 127%nat by lia.
Qed.

Lemma value_store_ok xs p : text_ok p ->
  exists p', value_store xs p = Some (p', Z.of_nat (length xs)) /\ text_ok p' /\
    text p' = take 127 xs.
Proof.
  intros [Hs Hl Hz]. unfold value_store, BUF_SIZE. change (128 - 1) with 127.
  destruct (min_text xs) as (Hn & Ht & Hlen). rewrite Ht. set (n := Z.min _ _) in *.
  destruct (copy_in_spec (take 127 xs) (buf p)) as (Hcl & Hcz & Hct); [done|rewrite length_take; lia|].
  destruct (store_end (copy_in (take 127 xs) (buf p)) n) as (b & Hst & Hok & Htk);
    [done|done|by rewrite Hcz|].
  cbv zeta. rewrite Hst. cbn [mbind option_bind]. eexists. split; [done|]. split; [done|].
  unfold text. cbn [buf len]. by rewrite Htk, <- Hlen.
Qed.

Lemma misc_write_ok u xs p : text_ok p -> 0 <= u ->
  exists p' ret, misc_write u xs p = Some (p', ret) /\ text_ok p' /\
    (u = 0 -> ret = Z.min (Z.of_nat (length xs)) 127 /\ text p' = take 127 xs) /\
    (u <> 0 -> ret = - EFAULT).
Proof.
  intros [Hs Hl Hz] Hu. unfold misc_write, BUF_SIZE. change (128 - 1) with 127.
  destruct (min_text xs) as (Hn & Ht & Hlen). set (n := Z.min _ _) in *. cbv zeta.
  destruct (copy_in_spec (take (Z.to_nat (n - u)) xs) (buf p)) as (Hcl & Hcz & Hct);
    [done|rewrite length_take; lia|].
  unfold c_true. destruct (Z.eqb_spec u 0) as [->|Hne]; cbn [negb].
  - rewrite Z.sub_0_r, Ht in *. unfold store at 1. cbn [buf len]. rewrite zset_Some by lia.
    cbn [mbind option_bind]. eexists _, _. split; [done|].
    destruct (store_end (copy_in (take 127 xs) (buf p)) n) as (b & Hst & Hok & Htk);
      [done|done|by rewrite Hcz|].
    unfold store in Hst. cbn [buf len] in Hst. rewrite zset_Some in Hst by lia.
    injection Hst as Hb. rewrite Hb. cbn [buf]. split; [done|]. split; [|done]. intros _.
    split; [done|]. unfold text. cbn [buf len]. by rewrite Htk, <- Hlen.
  - eexists _, _. split; [done|]. split; [by split; cbn [buf len]; rewrite ?Hcz|]. split; done.
Qed.

Lemma cdev_write_ok u pos xs p : text_ok p -> 0 <= u -> 0 <= pos ->
  exists p' ret pos', cdev_write u pos xs p = Some (p', ret, pos') /\ text_ok p' /\ 0 <= pos'.
Proof.
  intros [Hs Hl Hz] Hu Hp. unfold cdev_write, BUF_SIZE. change (128 - 1) with 127.
  pose proof (simple_write_bounds u (buf p) 127 pos xs Hu Hp ltac:(lia)) as Hb.
  destruct (simple_write_to_buffer u (buf p) 127 pos xs) as [[ret pos'] b].
  destruct Hb as (Hret & Hpos & Hlen & Hdrop). change (Z.to_nat 127) with 127%nat in Hdrop.
  assert (b !! 127%nat = Some 0) as Hbz.
  { pose proof (lookup_drop b 127 0) as H1. rewrite Hdrop, lookup_drop in H1.
    change (127 + 0)%nat with 127%nat in H1. by rewrite <- H1. }
  set (n := if 0 <=? ret then ret else len p).
  assert (0 <= n <= 127) as Hn by (unfold n; case_zs; lia).
  destruct (store_end b n) as (b' & Hst & Hok & _); [lia|done|done|].
  cbv zeta. cbn [len]. rewrite Hst. cbn [mbind option_bind]. by eexists _, _, _.
Qed.

(** ** Any use of a device *)
Inductive text_op :=
  | Store (xs : list Z)
  | MiscWrite (u : Z) (xs : list Z)
  | CdevWrite (u pos : Z) (xs : list Z).
Definition op_ok (op : text_op) : Prop :=
  match op with
  | Store _ => True
  | MiscWrite u _ => 0 <= u
  | CdevWrite u pos _ => 0 <= u /\ 0 <= pos
  end.
Definition run_text (op : text_op) p : option simple_priv :=
  match op with
  | Store xs => fst <$> value_store xs p
  | MiscWrite u xs => fst <$> misc_write u xs p
  | CdevWrite u pos xs => (fun x => x.1.1) <$> cdev_write u pos xs p
  end.

(** Whatever is stored and written, at whatever positions and with whatever
    faults, nothing is written outside of the 128 bytes, the length stays at most
    127, and the last byte stays 0, so showing the value never reads past the
    buffer. *)
Theorem text_stays_in_buffer ops p :
  Forall op_ok ops -> text_ok p ->
  exists p', foldl (fun q op => q ≫= run_text op) (Some p) ops = Some p' /\ text_ok p' /\
    (length (value_show p') <= 128)%nat.
Proof.
  intros Hops. revert p. induction Hops as [|op ops Hop _ IH]; intros p Hp; cbn [foldl].
  - exists p. split; [done|]. split; [done|]. unfold value_show. rewrite length_app. cbn [length].
    pose proof (c_string_length _ _ (text_last _ Hp)). lia.
  - assert (exists p1, run_text op p = Some p1 /\ text_ok p1) as (p1 & Hr & Hp1).
    { destruct op as [xs|u xs|u pos xs]; cbn [run_text op_ok] in *.
      - destruct (value_store_ok xs p Hp) as (p' & -> & ? & _). by exists p'.
      - destruct (misc_write_ok u xs p Hp Hop) as (p' & ret & -> & ? & _). by exists p'.
      - destruct (cdev_write_ok u pos xs p Hp) as (p' & ret & pos' & -> & ? & _); [lia..|].
        by exists p'. }
    cbn [mbind option_bind]. rewrite Hr. by apply IH.
Qed.

Lemma read_text count p : 0 <= count -> text_ok p ->
  simple_read 0 count 0 p =
    (Z.of_nat (length (take (Z.to_nat count) (text p))),
     Z.of_nat (length (take (Z.to_nat count) (text p))), take (Z.to_nat count) (text p)).
Proof.
  intros Hc Hp. unfold simple_read. rewrite simple_read_spec by done. fold (text p).
  change (Z.to_nat 0) with 0%nat. by rewrite drop_0, Z.add_0_l.
Qed.

(** What is stored through the attribute or written to the misc device is what a
    read from the start gives back, up to the first 127 bytes; the store reports all
    bytes as taken, the write only those it kept. *)
Theorem text_roundtrip xs count p :
  text_ok p -> 0 <= count ->
  (exists p', value_store xs p = Some (p', Z.of_nat (length xs)) /\
     (simple_read 0 count 0 p').2 = take (Z.to_nat count) (take 127 xs)) /\
  (exists p', misc_write 0 xs p = Some (p', Z.min (Z.of_nat (length xs)) 127) /\
     (simple_read 0 count 0 p').2 = take (Z.to_nat count) (take 127 xs)).
Proof.
  intros Hp Hc. split.
  - destruct (value_store_ok xs p Hp) as (p' & Hs & Hok & Ht). exists p'. split; [done|].
    by rewrite read_text, Ht.
  - destruct (misc_write_ok 0 xs p Hp ltac:(lia)) as (p' & ret & Hs & Hok & Ht & _).
    destruct (Ht eq_refl) as [-> Htx]. exists p'. split; [done|]. by rewrite read_text, Htx.
Qed.

(** A write that fits puts its bytes at the position and a 0 at index [length xs]. *)
Lemma cdev_write_fits pos xs p : text_ok p -> (pos + length xs <= 127)%nat -> (pos < 127)%nat ->
  cdev_write 0 (Z.of_nat pos) xs p =
    Some (Priv (<[length xs := 0]> (take pos (buf p) ++ xs ++ drop (pos + length xs) (buf p)))
            (Z.of_nat (length xs)), Z.of_nat (length xs), Z.of_nat (pos + length xs)).
Proof.
  intros [Hs Hl Hz] Hlen Hpos. unfold cdev_write, BUF_SIZE. change (128 - 1) with 127.
  rewrite (simple_write_spec (buf p) 127) by lia. cbv zeta.
  rewrite (take_ge xs) by lia. rewrite Nat2Z.id. unfold store. cbn [buf len].
  destruct (Z.leb_spec 0 (Z.of_nat (length xs))); [|lia].
  rewrite zset_Some by (rewrite !length_app, length_take, length_drop; lia).
  cbn [mbind option_bind]. by rewrite Nat2Z.id, Nat2Z.inj_add.
Qed.

(** Two writes through one open character device do not add up: the second one
    lands behind the first, but the length becomes that of the second alone, and its
    end overwrites the first text, so a read gives only the beginning of the two
    texts, as many bytes as the second one has. *)
Theorem cdev_write_truncates xs ys count p :
  text_ok p -> 0 <= count -> (length xs + length ys <= 126)%nat ->
  exists p1 p2,
    cdev_write 0 0 xs p = Some (p1, Z.of_nat (length xs), Z.of_nat (length xs)) /\
    cdev_write 0 (Z.of_nat (length xs)) ys p1 =
      Some (p2, Z.of_nat (length ys), Z.of_nat (length xs + length ys)) /\
    (simple_read 0 count 0 p2).2 = take (Z.to_nat count) (take (length ys) (xs ++ ys)).
Proof.
  intros Hp Hc Hlen. pose proof (cdev_write_fits 0 xs p Hp ltac:(lia) ltac:(lia)) as H1.
  change (Z.of_nat 0) with 0 in H1.
  destruct (cdev_write_ok 0 0 xs p Hp ltac:(lia) ltac:(lia)) as (p1 & r1 & q1 & H1' & Hp1 & _).
  rewrite H1 in H1'. injection H1' as Hp1e _ _.
  pose proof (cdev_write_fits (length xs) ys p1 Hp1 ltac:(lia) ltac:(lia)) as H2.
  destruct (cdev_write_ok 0 (Z.of_nat (length xs)) ys p1 Hp1 ltac:(lia) ltac:(lia))
    as (p2 & r2 & q2 & H2' & Hp2 & _).
  rewrite H2 in H2'. injection H2' as Hp2e _ _. exists p1, p2.
  split; [by rewrite <- Hp1e|]. split; [by rewrite <- Hp2e|].
  rewrite read_text by done. cbn [snd]. f_equal. unfold text. rewrite <- Hp2e. cbn [buf len].
  rewrite Nat2Z.id, take_insert_ge by lia.
  assert (take (length xs) (buf p1) = xs) as ->.
  { rewrite <- Hp1e. cbn [buf]. rewrite take_insert_ge by lia. by rewrite take_app_length. }
  by rewrite app_assoc, take_app_le by (rewrite length_app; lia).
Qed.
End text.

(** ** Loading and unloading *)
(** The same with the result of [device_create_file] known. *)
Ltac attribute_paths Hf :=
  repeat (lazymatch goal with
          | |- wp _ (do_ (device_create_file _)) _ _ _ =>
              let r := fresh "r" in let Hr := fresh "Hr" in
              unfold do_ at 1; apply wp_bind, wp_ask; intros r Hr; rewrite Hf in Hr; subst r;
              apply wp_ret
          | _ => wp_step
          end; cbn beta zeta).

(** Probe and remove of the misc variant and of the full cdev variant balance,
    whatever fails.  The short cdev variant ignores the result of
    [device_create_file]: when the attribute could not be made, the probe still
    succeeds, and the remove gives back an attribute that was never created. *)
Theorem simple_probe_resources {S} (e : env S) s :
  balanced e misc_probe misc_remove s /\
  balanced e full_probe full_remove s /\
  ((forall t, answer e t (device_create_file "value") = 0) ->
     balanced e cdev_probe cdev_remove s) /\
  ((forall t, answer e t (device_create_file "value") = - ENOMEM) ->
     wp e cdev_probe (fun r s' t' =>
       r = 0 -> wp e cdev_remove (fun _ _ t'' => ledger t'' = None) s' t') s []).
Proof.
  unfold balanced, misc_probe, full_probe, cdev_probe, full_remove, misc_remove, cdev_remove.
  cbv zeta. split_and!.
  - balanced_paths.
  - balanced_paths.
  - intros Hf. attribute_paths Hf; end_path.
  - intros Hf. attribute_paths Hf; intros ?; norm_tests; try path_contra; wp_run; path_ledger; done.
Qed.

(** ** The buffer helpers, and concrete runs *)
#[export] Instance list_buffer : SimpleBuffer := {
  simple_read_from_buffer u count pos from :=
    let out := take (Z.to_nat count) (drop (Z.to_nat pos) from) in
    if u =? 0 then (Z.of_nat (length out), pos + Z.of_nat (length out), out)
    else (- EFAULT, pos, []);
  simple_write_to_buffer u to available pos from :=
    if available <=? pos then (- ENOSPC, pos, to)
    else
      let xs := take (Z.to_nat (available - pos)) from in
      if u =? 0 then
        (Z.of_nat (length xs), pos + Z.of_nat (length xs),
         take (Z.to_nat pos) to ++ xs ++ drop (Z.to_nat pos + length xs) to)
      else (- EFAULT, pos, to);
}.

#[export] Instance list_buffer_spec : SimpleBufferSpec.
Proof.
  split; intros; cbn [simple_read_from_buffer simple_write_to_buffer list_buffer].
  - done.
  - destruct (Z.leb_spec available pos); [lia|]. done.
  - destruct (Z.leb_spec available pos); [split_and!; done || lia|].
    destruct (u =? 0); [|split_and!; done || lia].
    set (xs := take _ from). assert (length xs <= Z.to_nat (available - pos))%nat as Hx
      by (unfold xs; rewrite length_take; lia).
    split_and!; [lia|lia| |].
    + rewrite !length_app, length_take, length_drop. lia.
    + rewrite !drop_app, !drop_drop, !length_take, (drop_ge (take _ _)), (drop_ge xs); cbn [app];
        try (rewrite ?length_take; lia).
      f_equal. lia.
Qed.

Definition blank_priv : simple_priv := Priv (replicate 128 0) 0.
Lemma blank_ok : text_ok blank_priv.
Proof. by split. Qed.

Lemma text_stays_in_buffer_witness :
  exists p', foldl (fun q op => q ≫= run_text op) (Some blank_priv)
    [Store [104; 105]; MiscWrite 1 [65; 66]; CdevWrite 0 120 [1; 2; 3; 4; 5; 6; 7; 8; 9]] = Some p' /\
    text_ok p' /\ (length (value_show p') <= 128)%nat.
Proof.
  apply text_stays_in_buffer; [|apply blank_ok]. repeat constructor; cbn; lia.
Defined.

Lemma text_roundtrip_witness :
  exists p', value_store [104; 105] blank_priv = Some (p', 2) /\
    (simple_read 0 128 0 p').2 = [104; 105].
Proof. apply (text_roundtrip [104; 105] 128 blank_priv blank_ok ltac:(lia)). Defined.

Lemma cdev_write_truncates_witness :
  exists p1 p2, cdev_write 0 0 [104; 101; 108] blank_priv = Some (p1, 3, 3) /\
    cdev_write 0 3 [108; 111] p1 = Some (p2, 2, 5) /\ (simple_read 0 128 0 p2).2 = [104; 101].
Proof.
  apply (cdev_write_truncates [104; 101; 108] [108; 111] 128 blank_priv blank_ok);
    [lia|cbn; lia].
Defined.

Lemma simple_probe_resources_witness :
  wp (Env (fun _ c => match c with
                      | device_create_file _ => - ENOMEM
                      | _ => granted c
                      end) (fun _ s => s)) cdev_probe
    (fun r s' t' => r = 0 -> wp (Env (fun _ c => match c with
                      | device_create_file _ => - ENOMEM
                      | _ => granted c
                      end) (fun _ s => s)) cdev_remove (fun _ _ t'' => ledger t'' = None) s' t') tt [].
Proof.
  apply (simple_probe_resources (Env (fun _ c => match c with
                      | device_create_file _ => - ENOMEM
                      | _ => granted c
                      end) (fun _ s => s)) tt). done.
Defined.
