(* ===== verification/TextDevices.v ===== *)
(** * The text devices as files

    The tables of file operations of [gpt/simple_pdrv.c], [simple_pdrv_cdev.c] and
    [simple_pdrv_cdev_full.c], over the operations of [SimplePdrv]: what an open file
    keeps between calls, and what users of the file and of the sysfs attribute see of
    each other.  The three files have the same [value_show], [value_store],
    [simple_read], [simple_init] and [simple_exit], so those of [SimplePdrv] stand for
    all of them; here they have the names of their files. *)
From S2P Require Import Prelude.
From S2P Require Import Kernel.
From S2P Require Import SimplePdrv.
From stdpp Require Import options.
#[local] Open Scope Z_scope.

(** An open file. *)
Record file := File { private_data : Z; f_pos : Z }.

(** The table of a device; a table without [open] leaves [private_data] as the kernel
    has set it, the record around the device.  Reads and writes have no faults. *)
Record file_operations := Fops {
  open : Z -> Z * file;                       (** of a device in the record at this address *)
  read : Z -> file -> simple_priv -> list Z * file;
  write : list Z -> file -> simple_priv -> option (simple_priv * Z * file);
  release : file -> Z;
}.

Definition at_pos (pos : Z) (f : file) : file := File (private_data f) pos.

Definition read_file `{SimpleBuffer} (count : Z) (f : file) (p : simple_priv) : list Z * file :=
  let '(ret, pos, out) := simple_read 0 count (f_pos f) p in (out, at_pos pos f).

(** ** [simple_pdrv.c] *)
Definition misc_open (priv : Z) : Z * file := (0, File priv 0).
(** The position stays where it is. *)
Definition misc_file_write (from : list Z) (f : file) (p : simple_priv) : option (simple_priv * Z * file) :=
  '(p', ret) ← misc_write 0 from p; Some (p', ret, f).
Definition misc_fops `{SimpleBuffer} : file_operations := Fops misc_open read_file misc_file_write (fun _ => 0).

(** ** [simple_pdrv_cdev_full.c] *)
Definition full_value_show : simple_priv -> list Z := value_show.
Definition full_value_store : list Z -> simple_priv -> option (simple_priv * Z) := value_store.
Definition full_simple_read `{SimpleBuffer} (count : Z) (f : file) (p : simple_priv) : list Z * file := read_file count f p.
Definition full_simple_write `{SimpleBuffer} (from : list Z) (f : file) (p : simple_priv)
    : option (simple_priv * Z * file) :=
  let '(ret, pos, b) := simple_write_to_buffer 0 (buf p) (BUF_SIZE - 1) (f_pos f) from in
  let p := Priv b (if 0 <=? ret then ret else len p) in
  p ← store (len p) 0 p;
  Some (p, ret, at_pos pos f).
(** [container_of] of the character device in the record at [priv]. *)
Definition full_simple_open (priv : Z) : Z * file := (0, File priv 0).
Definition full_simple_release (f : file) : Z := 0.
Definition full_simple_init {S} : M S (Z * Z) := simple_init.
Definition full_simple_exit {S} (simple_dev : Z) : M S unit := simple_exit simple_dev.
Definition full_fops `{SimpleBuffer} : file_operations :=
  Fops full_simple_open full_simple_read full_simple_write full_simple_release.

(** ** [simple_pdrv_cdev.c]

    It defines no [simple_open] and no [simple_release]: the first is the kernel's, which
    takes [i_private] of the inode, and the second is nothing. *)
Definition cdev_value_show : simple_priv -> list Z := value_show.
Definition cdev_value_store : list Z -> simple_priv -> option (simple_priv * Z) := value_store.
Definition cdev_simple_read `{SimpleBuffer} (count : Z) (f : file) (p : simple_priv) : list Z * file := read_file count f p.
Definition cdev_simple_init {S} : M S (Z * Z) := simple_init.
Definition cdev_simple_exit {S} (simple_dev : Z) : M S unit := simple_exit simple_dev.

(** ** A file and the attribute *)
Section files.
Context `{SimpleBuffer}.

(** Opens the device, writes the pieces one after the other and closes it: the record
    and the results of the writes. *)
Fixpoint write_all (o : file_operations) (pieces : list (list Z)) (f : file) (p : simple_priv)
    : option (simple_priv * list Z) :=
  match pieces with
  | [] => Some (p, [])
  | xs :: pieces' =>
      '(p1, ret, f1) ← write o xs f p;
      '(p2, rets) ← write_all o pieces' f1 p1;
      Some (p2, ret :: rets)
  end.
Definition write_file (o : file_operations) (pieces : list (list Z)) (p : simple_priv)
    : option (simple_priv * list Z) := write_all o pieces (open o 1).2 p.
Definition cat (o : file_operations) (count : Z) (p : simple_priv) : list Z :=
  (read o count (open o 1).2 p).1.
End files.

Section facts.
Context `{HSB : SimpleBufferSpec}.
#[local] Set Default Proof Using "Type*".
Implicit Types (p : simple_priv).

Lemma c_string_text xs b : Forall (fun c => c <> 0) xs -> c_string (xs ++ 0 :: b) = xs.
Proof.
  induction 1 as [|c xs Hc _ IH]; [done|]. cbn [app c_string].
  destruct (Z.eqb_spec c 0); [done|]. by rewrite IH.
Qed.

(** A buffer that ends its text with a 0. *)
Definition ended p : Prop := 0 <= len p /\ buf p !! Z.to_nat (len p) = Some 0.

Lemma show_ended xs p : ended p -> text p = xs -> Forall (fun c => c <> 0) xs ->
  value_show p = xs ++ [10].
Proof.
  intros [Hl Hz] Ht Hxs. unfold value_show. f_equal.
  pose proof (take_drop_middle _ _ _ Hz) as Hm. fold (text p) in Hm. rewrite Ht in Hm.
  rewrite <- Hm. by apply c_string_text.
Qed.

Lemma store_ends n p p' : store n 0 p = Some p' -> len p = n -> 0 <= n -> ended p'.
Proof.
  unfold store, ended. intros Hs Hn Hp.
  destruct (zset n 0 (buf p)) as [b|] eqn:Hz; cbn in Hs; [|done]. injection Hs as <-. cbn.
  rewrite Hn. split; [done|]. unfold zset in Hz.
  revert Hz. case_match; [|done]. intros [= <-].
  apply list_lookup_insert_eq. lia.
Qed.

Lemma full_write_is_cdev xs f p :
  full_simple_write xs f p =
    ('(p', ret, pos) ← cdev_write 0 (f_pos f) xs p; Some (p', ret, at_pos pos f)).
Proof.
  unfold full_simple_write, cdev_write.
  destruct (simple_write_to_buffer _ _ _ _ _) as [[ret pos] b].
  cbv zeta. by destruct (store _ _ _).
Qed.

(** A device of which the contents are shown and read alike. *)
Definition holds p (xs : list Z) : Prop := text_ok p /\ ended p /\ text p = xs.

Lemma misc_holds xs f p : text_ok p -> (length xs <= 127)%nat ->
  exists p', misc_file_write xs f p = Some (p', Z.of_nat (length xs), f) /\ holds p' xs.
Proof.
  intros Hp Hx. destruct (misc_write_ok 0 xs p Hp ltac:(lia)) as (p' & ret & Hw & Hok & Ht & _).
  destruct (Ht eq_refl) as [-> Htx]. exists p'. unfold misc_file_write. rewrite Hw. cbn.
  rewrite Z.min_l by lia. split; [done|]. split; [done|]. rewrite take_ge in Htx by lia.
  split; [|done]. unfold misc_write in Hw. cbn in Hw.
  destruct (store _ _ _) as [q|] eqn:Hs; [|done]. cbn in Hw.
  assert (p' = Priv (buf q) (Z.of_nat (length xs))) as ->
    by (unfold BUF_SIZE in Hw; rewrite Z.min_l in Hw by lia; congruence).
  unfold store in Hs. destruct (zset _ _ _) as [b|] eqn:Hz; [|done]. cbn in Hs.
  injection Hs as <-. unfold ended. cbn. unfold BUF_SIZE in Hz. rewrite Z.min_l in Hz by lia.
  split; [lia|].
  unfold zset in Hz. revert Hz. case_match eqn:E; [|done]. intros [= <-].
  apply list_lookup_insert_eq. apply andb_true_iff in E as [_ Hlt%Z.ltb_lt]. cbn [buf] in *. lia.
Qed.

Lemma full_holds xs f p : text_ok p -> f_pos f = 0 -> (length xs <= 127)%nat ->
  exists p', full_simple_write xs f p =
      Some (p', Z.of_nat (length xs), at_pos (Z.of_nat (length xs)) f) /\ holds p' xs.
Proof.
  intros Hp Hf Hx. rewrite full_write_is_cdev, Hf.
  pose proof (cdev_write_fits 0 xs p Hp ltac:(lia) ltac:(lia)) as Hw.
  destruct (cdev_write_ok 0 0 xs p Hp ltac:(lia) ltac:(lia)) as (p' & r & q & Hw' & Hok & _).
  change (Z.of_nat 0) with 0 in Hw. rewrite Hw in Hw'. injection Hw' as Hpe _ _. rewrite Hw. cbn.
  exists p'. rewrite take_0, app_nil_l, Hpe. split; [done|]. split; [done|]. subst p'.
  destruct Hp as [Hl _ _]. unfold ended, text. cbn [buf len]. rewrite Nat2Z.id. split.
  - split; [lia|]. apply list_lookup_insert_eq. rewrite length_app, length_drop. lia.
  - by rewrite take_insert_ge, take_app_length by lia.
Qed.

(** A text of at most 127 bytes, none of them 0, written to a file of either device in
    one piece, is what the attribute shows, followed by a new line, and what a file
    opened later reads; and what is stored through the attribute is read from a file. *)
Theorem files_and_attribute xs count p (o : file_operations) :
  text_ok p -> (length xs <= 127)%nat -> Forall (fun c => c <> 0) xs -> 0 <= count ->
  o = misc_fops \/ o = full_fops ->
  exists p', write_file o [xs] p = Some (p', [Z.of_nat (length xs)]) /\ text_ok p' /\
    value_show p' = xs ++ [10] /\ cat o count p' = take (Z.to_nat count) xs /\
    exists p2, value_store (value_show p') p' = Some (p2, Z.of_nat (length xs + 1)) /\
      cat o count p2 = take (Z.to_nat count) (take 127 (xs ++ [10])).
Proof.
  intros Hp Hx Hnz Hc Ho.
  assert (exists p', write_file o [xs] p = Some (p', [Z.of_nat (length xs)]) /\ holds p' xs)
    as (p' & Hw & Hok & Hend & Ht).
  { unfold write_file. cbn [write_all]. destruct Ho as [-> | ->]; cbn [open misc_fops full_fops write].
    - destruct (misc_holds xs (misc_open 1).2 p Hp Hx) as (p' & Hw & Hh).
      exists p'. unfold misc_fops. cbn [write]. rewrite Hw. by cbn.
    - destruct (full_holds xs (full_simple_open 1).2 p Hp eq_refl Hx) as (p' & Hw & Hh).
      exists p'. rewrite Hw. by cbn. }
  assert (forall q, text_ok q -> cat o count q = take (Z.to_nat count) (text q)) as Hcat.
  { intros q Hq. unfold cat. destruct Ho as [-> | ->]; cbn [open read misc_fops full_fops];
      unfold read_file, full_simple_read, read_file;
      cbn [f_pos misc_open full_simple_open snd]; by rewrite read_text. }
  exists p'. split; [done|]. split; [done|].
  pose proof (show_ended xs p' Hend Ht Hnz) as Hshow. split; [done|].
  split; [by rewrite Hcat, Ht by done|]. rewrite Hshow.
  destruct (value_store_ok (xs ++ [10]) p' Hok) as (p2 & Hs & Hok2 & Ht2).
  exists p2. rewrite length_app in Hs. split; [done|]. by rewrite Hcat, Ht2 by done.
Qed.
End facts.

Lemma files_and_attribute_witness :
  exists p', write_file full_fops [[104; 105]] blank_priv = Some (p', [2]) /\ text_ok p' /\
    value_show p' = [104; 105; 10] /\ cat full_fops 10 p' = [104; 105] /\
    exists p2, value_store (value_show p') p' = Some (p2, 3) /\
      cat full_fops 10 p2 = [104; 105; 10].
Proof.
  apply (files_and_attribute [104; 105] 10 blank_priv full_fops blank_ok);
    [cbn; lia|by repeat constructor|lia|by right].
Defined.
