(* ===== verification/GpioDrivers.v ===== *)
(** * The drivers that watch one pin

    [openwrt/kernel/gpt/mygpio_full.c] (interrupt with debouncing, character device,
    module parameters) and the three drivers that only report the interrupt:
    [gpio_single/mygpio_single.c], [gpt/pdrv_gpio_sysfs.c] and
    [pdev/pdev-main.c].  [unsigned long] has 32 bits on the machines the modules are
    built for; [msecs_to_jiffies] belongs to the kernel. *)
From S2P Require Import Prelude.
From S2P Require Import Kernel.
From S2P Require Import Decimal.
From stdpp Require Import options.

Record mygpio := MyGpio {
  gpio_num : Z;
  gpio_irq : Z;
  gpio_val : Z;
  last_jiffies : Z;
  debounce_ms : Z;
}.

(** [time_before (a, b)]: the sign of the difference as a [long]. *)
Definition time_before (a b : Z) : bool := i32 (a - b) <? 0.

Section code.
Context (msecs_to_jiffies : Z -> Z).
Notation prog := (M mygpio).
Implicit Types s : mygpio.

Definition set_irq (i : Z) s := MyGpio (gpio_num s) i (gpio_val s) (last_jiffies s) (debounce_ms s).
Definition set_val (v : Z) s := MyGpio (gpio_num s) (gpio_irq s) v (last_jiffies s) (debounce_ms s).
Definition set_last (j : Z) s := MyGpio (gpio_num s) (gpio_irq s) (gpio_val s) j (debounce_ms s).

Definition gpio_irq_handler : prog unit :=
  now ← ask jiffies;
  last ← gets last_jiffies;
  ms ← gets debounce_ms;
  if time_before now (u32 (last + msecs_to_jiffies ms)) then mret tt
  else
    modify (set_last now);;
    g ← gets gpio_num;
    v ← ask (gpio_get_value g);
    modify (set_val v).

(** The characters of ["%d\n"]. *)
Definition print_line (v : Z) : list Z :=
  (if v <? 0 then [45] else []) ++ bytes_of (decimal 10 (Z.abs v)) ++ [10].

(** [snprintf] into 4 bytes: at most 3 characters and a 0. *)
Definition TMP_SIZE : Z := 4.
Definition tmp_of (line : list Z) : list Z := take 3 line ++ [0].

(** Result, new offset, bytes delivered; [None]: bytes outside of [tmp] are read.
    [u] is what [copy_to_user] could not copy. *)
Definition mygpio_read (u count offset v : Z) : option (Z * Z * list Z) :=
  let line := print_line v in
  let len := Z.of_nat (length line) in
  if len <=? offset then Some (0, offset, [])
  else
    let count := if len - offset <? count then len - offset else count in
    if TMP_SIZE <? offset + count then None
    else if c_true u then Some (- EFAULT, offset, [])
    else Some (count, offset + count,
               take (Z.to_nat count) (drop (Z.to_nat offset) (tmp_of line))).

Definition mygpio_probe : prog Z :=
  g ← gets gpio_num;
  ret ← ask (gpio_request g);
  if c_true ret then mret ret
  else
    ret ← ask (gpio_direction_input g);
    if c_true ret then do_ (gpio_free g);; mret ret
    else
      i ← ask (gpio_to_irq g);
      modify (set_irq i);;
      if i <? 0 then do_ (gpio_free g);; mret i
      else
        ret ← ask (request_irq i);
        if c_true ret then do_ (gpio_free g);; mret ret
        else
          ret ← ask alloc_chrdev_region;
          if c_true ret then
            do_ (free_irq i);;
            do_ (gpio_free g);;
            mret ret
          else
            do_ cdev_init;;
            ret ← ask cdev_add;
            if c_true ret then
              do_ unregister_chrdev_region;;
              do_ (free_irq i);;
              do_ (gpio_free g);;
              mret ret
            else mret 0.

Definition mygpio_remove : prog Z :=
  do_ cdev_del;;
  do_ unregister_chrdev_region;;
  i ← gets gpio_irq;
  when (0 <=? i) (do_ (free_irq i));;
  g ← gets gpio_num;
  do_ (gpio_free g);;
  mret 0.

Definition mygpio_init : prog (Z * Z) :=
  pdev ← ask platform_device_register_simple;
  if IS_ERR pdev then mret (PTR_ERR pdev, pdev)
  else
    ret ← ask platform_driver_register;
    if c_true ret then
      do_ (platform_device_unregister pdev);;
      mret (ret, pdev)
    else mret (0, pdev).
Definition mygpio_exit (pdev : Z) : prog unit :=
  do_ platform_driver_unregister;;
  do_ (platform_device_unregister pdev).
End code.

(** The drivers of one fixed pin keep the interrupt number only. *)
Section single.
Context (GPIO_NUMBER : Z).
Notation prog := (M Z).

Definition single_irq_handler : prog unit := do_ (gpio_get_value GPIO_NUMBER).

Definition single_probe : prog Z :=
  ret ← ask (gpio_request GPIO_NUMBER);
  if c_true ret then mret ret
  else
    ret ← ask (gpio_direction_input GPIO_NUMBER);
    if c_true ret then do_ (gpio_free GPIO_NUMBER);; mret ret
    else
      i ← ask (gpio_to_irq GPIO_NUMBER);
      modify (fun _ => i);;
      if i <? 0 then do_ (gpio_free GPIO_NUMBER);; mret i
      else
        ret ← ask (request_irq i);
        if c_true ret then do_ (gpio_free GPIO_NUMBER);; mret ret
        else mret 0.

Definition single_remove : prog Z :=
  i ← gets (fun i => i);
  when (0 <=? i) (do_ (free_irq i));;
  do_ (gpio_free GPIO_NUMBER);;
  mret 0.

(** [mygpio_init] and [mygpio_exit] of [mygpio_single.c]; the two other drivers only
    register, with [module_platform_driver]. *)
Definition single_init : prog (Z * Z) :=
  pdev ← ask platform_device_register_simple;
  if IS_ERR pdev then mret (PTR_ERR pdev, pdev)
  else
    ret ← ask platform_driver_register;
    if c_true ret then
      do_ (platform_device_unregister pdev);;
      mret (ret, pdev)
    else mret (0, pdev).
Definition single_exit (pdev : Z) : prog unit :=
  do_ platform_driver_unregister;;
  do_ (platform_device_unregister pdev).
End single.

(** The copies of the same driver, with their pins. *)
Definition mygpio_single_probe : M Z Z := single_probe 532.
Definition mygpio_single_remove : M Z Z := single_remove 532.
Definition mygpio_single_gpt_probe : M Z Z := single_probe 4.
Definition mygpio_single_gpt_remove : M Z Z := single_remove 4.
Definition pdrv_gpio_sysfs_probe : M Z Z := single_probe 4.
Definition pdrv_gpio_sysfs_remove : M Z Z := single_remove 4.
Definition pdev_probe : M Z Z := single_probe 532.
Definition pdev_remove : M Z Z := single_remove 532.

(** ** Resources *)

(** Probe and remove of every driver of a pin balance, whatever fails. *)
Theorem gpio_drivers_balanced (e : env mygpio) (e' : env Z) s i :
  balanced e mygpio_probe mygpio_remove s /\
  balanced e' mygpio_single_probe mygpio_single_remove i /\
  balanced e' mygpio_single_gpt_probe mygpio_single_gpt_remove i /\
  balanced e' pdrv_gpio_sysfs_probe pdrv_gpio_sysfs_remove i /\
  balanced e' pdev_probe pdev_remove i.
Proof.
  assert (forall g, balanced e' (single_probe g) (single_remove g) i) as Hsingle.
  { intros g. unfold balanced, single_probe, single_remove. balanced_paths. }
  split; [|split_and!; apply Hsingle]. unfold balanced, mygpio_probe, mygpio_remove.
  balanced_paths. cbn in *. path_contra.
Qed.

(** ** Debouncing *)
Section debounce.
Context (msecs_to_jiffies : Z -> Z).
Implicit Types s : mygpio.

(** The time since [last], when it is less than half the range of the counter. *)
Lemma time_before_elapsed last d k : 0 <= d -> 0 <= k -> k - d < 2 ^ 31 -> - 2 ^ 31 <= k - d ->
  time_before (u32 (last + k)) (u32 (last + d)) = (k <? d).
Proof.
  intros Hd Hk Hhi Hlo. unfold time_before, wraps, wrapu.
  change (2 ^ (32 - 1)) with 2147483648. change (2 ^ 32) with 4294967296.
  rewrite <- (Zplus_mod_idemp_l (_ - _)), Zminus_mod_idemp_l, Zminus_mod_idemp_r, Zplus_mod_idemp_l.
  replace (last + k - (last + d) + 2147483648) with (k - d + 2147483648) by lia.
  rewrite Z.mod_small by lia. destruct (Z.ltb_spec k d), (Z.ltb_spec (k - d + 2147483648 - 2147483648) 0); lia.
Qed.

(** [k] jiffies after the last accepted edge, for less than half the range of the
    counter and across its wrap-around, an interrupt is accepted exactly when the
    debounce time has passed: it then stores the level and the time, and otherwise
    changes nothing.  But before the first accepted edge the time of the last one is
    0, which a 32-bit counter that starts five minutes before its wrap-around takes
    for the future: every interrupt of those five minutes is dropped. *)
Theorem gpio_debounce (e : env mygpio) s t :
  let d := msecs_to_jiffies (debounce_ms s) in
  0 <= d < 2 ^ 30 ->
  (forall k, 0 <= k < 2 ^ 31 ->
     answer e t jiffies = u32 (last_jiffies s + k) ->
     wp e (gpio_irq_handler msecs_to_jiffies) (fun _ s' t' =>
       (k < d -> s' = s) /\
       (d <= k -> last_jiffies s' = u32 (last_jiffies s + k) /\
          exists v, s' = set_val v (set_last (u32 (last_jiffies s + k)) s) /\
            Ev (gpio_get_value (gpio_num s)) v ∈ t')) s t) /\
  (forall before_wrap, 0 < before_wrap <= 300 * 1000 -> last_jiffies s = 0 ->
     answer e t jiffies = 2 ^ 32 - before_wrap ->
     wp e (gpio_irq_handler msecs_to_jiffies) (fun _ s' t' => s' = s) s t).
Proof.
  cbv zeta. intros Hd. unfold gpio_irq_handler. split.
  - intros k Hk Hnow. apply wp_bind, wp_ask. intros now ->. rewrite Hnow.
    do 2 apply wp_bind, wp_gets. rewrite time_before_elapsed by lia.
    destruct (Z.ltb_spec k (msecs_to_jiffies (debounce_ms s))).
    + apply wp_ret. split; [done|lia].
    + apply wp_bind, wp_modify, wp_bind, wp_gets, wp_bind, wp_ask. intros v _. apply wp_modify.
      split; [lia|]. intros _. split; [done|]. exists v. split; [done|]. left.
  - intros b Hb Hlast Hnow. apply wp_bind, wp_ask. intros now ->. rewrite Hnow.
    do 2 apply wp_bind, wp_gets. rewrite Hlast.
    replace (2 ^ 32 - b) with (u32 (- b)).
    + assert (time_before (u32 (- b)) (u32 (0 + msecs_to_jiffies (debounce_ms s))) = true) as ->;
        [|by apply wp_ret].
      pose proof (time_before_elapsed (- b) (b + msecs_to_jiffies (debounce_ms s)) 0) as Ht.
      rewrite Z.add_0_r in Ht. replace (- b + (b + msecs_to_jiffies (debounce_ms s)))
        with (0 + msecs_to_jiffies (debounce_ms s)) in Ht by lia.
      rewrite Ht by lia. apply Z.ltb_lt. lia.
    + unfold wrapu. symmetry. apply (Z.mod_unique_pos _ _ (-1)); lia.
Qed.
End debounce.

(** ** Reading the level *)
Lemma digit_line v : 0 <= v <= 9 -> print_line v = [48 + v; 10].
Proof.
  intros Hv. unfold print_line. destruct (Z.ltb_spec v 0); [lia|]. rewrite Z.abs_eq by lia.
  change (decimal 10 v) with (if v <? 10 then String (digit v) EmptyString
    else String.append (decimal 9 (v / 10)) (String (digit (v mod 10)) EmptyString)).
  destruct (Z.ltb_spec v 10); [|lia]. cbn [bytes_of app]. by rewrite code_digit by lia.
Qed.

(** The error codes of [gpio_get_value] with three digits or more. *)
Lemma error_line v : - 4095 <= v <= - 100 -> 5 <= Z.of_nat (length (print_line v)).
Proof.
  intros Hv. assert (forallb (fun n => 5 <=? Z.of_nat (length (print_line (- Z.of_nat n))))
    (seq 100 3996) = true) as Hall by (vm_compute; reflexivity).
  rewrite forallb_forall in Hall. specialize (Hall (Z.to_nat (- v))).
  replace (- Z.of_nat (Z.to_nat (- v))) with v in Hall by lia.
  apply Z.leb_le, Hall, in_seq. lia.
Qed.

(** While the pin has a level, reads deliver the digit and the end of the line, in
    pieces of any size and nothing more.  When the last interrupt stored an error code
    of three digits or more, the length [snprintf] reports is greater than its buffer,
    and a read from the start copies bytes from behind it to the user. *)
Theorem mygpio_read_line v count offset :
  0 <= count -> 0 <= offset ->
  (0 <= v <= 1 ->
     let out := take (Z.to_nat count) (drop (Z.to_nat offset) [48 + v; 10]) in
     mygpio_read 0 count offset v =
       Some (Z.of_nat (length out), offset + Z.of_nat (length out), out)) /\
  (- 4095 <= v <= - 100 -> 5 <= count -> forall u, mygpio_read u count 0 v = None).
Proof.
  intros Hc Ho. split.
  - intros Hv. unfold mygpio_read. rewrite digit_line by lia. cbn [length].
    change (Z.of_nat 2) with 2. change TMP_SIZE with 4. change (c_true 0) with false.
    destruct (Z.leb_spec 2 offset) as [Hge|Hlt].
    + rewrite drop_ge by (cbn; lia). by rewrite take_nil, Z.add_0_r.
    + set (n := if 2 - offset <? count then 2 - offset else count).
      assert (0 <= n <= 2 - offset /\ n <= count /\ (n = count \/ n = 2 - offset)) as (Hn & Hnc & Hor)
        by (unfold n; case_zs; lia).
      destruct (Z.ltb_spec 4 (offset + n)); [lia|]. cbv zeta.
      assert (take (Z.to_nat n) (drop (Z.to_nat offset) (tmp_of [48 + v; 10])) =
              take (Z.to_nat count) (drop (Z.to_nat offset) [48 + v; 10])) as ->.
      { unfold tmp_of. change (take 3 [48 + v; 10] ++ [0]) with ([48 + v; 10] ++ [0]).
        rewrite drop_app_le by (cbn; lia). rewrite take_app_le by (rewrite length_drop; cbn; lia).
        destruct Hor as [->| ->]; [done|]. rewrite !take_ge; [done| |];
          rewrite length_drop; cbn; lia. }
      assert (Z.of_nat (length (take (Z.to_nat count) (drop (Z.to_nat offset) [48 + v; 10]))) = n) as ->
        by (rewrite length_take, length_drop; cbn [length]; lia).
      done.
  - intros Hv Hc5 u. unfold mygpio_read. pose proof (error_line v Hv) as Hl.
    destruct (Z.leb_spec (Z.of_nat (length (print_line v))) 0); [lia|].
    destruct (Z.ltb_spec (Z.of_nat (length (print_line v)) - 0) count);
      unfold TMP_SIZE; case_z; done || lia.
Qed.

(** ** Concrete runs *)
Lemma gpio_debounce_witness :
  wp (Env (fun _ c => match c with jiffies => 4294967290 | _ => 1 end) (fun _ s => s))
    (gpio_irq_handler (fun ms => ms / 10)) (fun _ s' _ => s' = MyGpio 4 7 0 0 50)
    (MyGpio 4 7 0 0 50) [].
Proof.
  apply (proj2 (gpio_debounce (fun ms => ms / 10)
    (Env (fun _ c => match c with jiffies => 4294967290 | _ => 1 end) (fun _ s => s))
    (MyGpio 4 7 0 0 50) [] ltac:(vm_compute; split; congruence)) 6);
    [lia|reflexivity|reflexivity].
Defined.

Lemma mygpio_read_line_witness :
  mygpio_read 0 1 0 1 = Some (1, 1, [49]) /\ mygpio_read 0 4096 0 (- 517) = None.
Proof.
  split.
  - exact (proj1 (mygpio_read_line 1 1 0 ltac:(lia) ltac:(lia)) ltac:(lia)).
  - apply (mygpio_read_line (- 517) 4096 0); lia.
Defined.
