(* ===== verification/TtyModules.v ===== *)
(** * The small terminal drivers

    Four loopback terminals: [gpt/tty_loopback.c] ([Loopback]), [gpt/mini_uart.c]
    ([MiniUart]), [dummy_uart/dummy_uart-main.c] ([DummyUart]) and
    [softuart_tty/softuart_tty-main.c] ([SoftUart]), whose work item echoes what was
    written last.  The return value of [tty_port_register_device] is a pointer, or
    an error in a pointer; two of the drivers store it in an [int]. *)
From S2P Require Import Prelude.
From S2P Require Import Kernel.
From S2P Require Import Wire.
From stdpp Require Import options.

Definition TTY_ROOM : Z := 4096.

(** The four modules load and unload alike: a platform device of their own, whose
    pointer they keep, and the driver. *)
Section module.
Context {S : Type}.
Definition platform_module_init : M S (Z * Z) :=
  pdev ← ask platform_device_register_simple;
  if IS_ERR pdev then mret (PTR_ERR pdev, pdev)
  else
    ret ← ask platform_driver_register;
    if c_true ret then
      do_ (platform_device_unregister pdev);;
      mret (ret, pdev)
    else mret (0, pdev).
Definition platform_module_exit (pdev : Z) : M S unit :=
  do_ platform_driver_unregister;;
  do_ (platform_device_unregister pdev).

(** A load that fails leaves nothing, and the unload gives back what it holds. *)
Lemma platform_module_balanced (e : env S) s :
  wp e platform_module_init (fun '(r, pdev) s' t' =>
    if r =? 0 then wp e (platform_module_exit pdev) (fun _ _ t'' => ledger t'' = Some []) s' t'
    else ledger t' = Some []) s [].
Proof.
  unfold platform_module_init, platform_module_exit. wp_run. all: norm_tests.
  all: lazymatch goal with |- if ?b then _ else _ => destruct b eqn:? end; try path_contra.
  all: wp_run; path_ledger; done.
Qed.
End module.

(** ** [tty_loopback.c] *)
Module Loopback.
Record loopback := Loop {
  LB : Z;            (** the pointer of the module *)
  tty_drv : Z;
  baud : Z;
  cflag : Z;
  counter : Z;
}.
Definition set_tty_drv (d : Z) (s : loopback) := Loop (LB s) d (baud s) (cflag s) (counter s).
Definition set_termios (b c : Z) (s : loopback) := Loop (LB s) (tty_drv s) b c (counter s).
Definition add_counter (n : Z) (s : loopback) :=
  Loop (LB s) (tty_drv s) (baud s) (cflag s) (i32 (counter s + n)).
Definition clear_LB (s : loopback) := Loop 0 (tty_drv s) (baud s) (cflag s) (counter s).

Definition lb_open : M loopback Z := ask tty_port_open.
Definition lb_close : M loopback unit := do_ tty_port_close.

Definition lb_write (buf : list Z) : M loopback Z :=
  ok ← ask tty_port_initialized;
  if ok =? 0 then mret (- EIO)
  else
    for_each (fun b => do_ (tty_insert_flip_char b)) buf;;
    do_ tty_flip_buffer_push;;
    let count := Z.of_nat (length buf) in
    modify (add_counter count);;
    mret count.

Definition lb_write_room : Z := TTY_ROOM.

Definition lb_set_termios (c_cflag : Z) : M loopback unit :=
  b ← ask tty_get_baud_rate;
  old ← gets baud;
  let b := if b =? 0 then old else b in
  modify (set_termios b c_cflag).

Definition lb_probe : M loopback Z :=
  p ← ask (kzalloc "loopback");
  modify (fun _ => Loop p 0 9600 0 0);;
  if p =? 0 then mret (- ENOMEM)
  else
    let err_free ret := do_ (kfree p);; modify clear_LB;; mret ret in
    d ← ask alloc_tty_driver;
    modify (set_tty_drv d);;
    if d =? 0 then err_free (- ENOMEM)
    else
      let err_put_driver ret := do_ (put_tty_driver d);; err_free ret in
      let err_unregister ret := do_ (tty_unregister_driver d);; err_put_driver ret in
      ret ← ask (tty_register_driver d);
      if c_true ret then err_put_driver ret
      else
        do_ tty_port_init;;
        dev ← ask (tty_port_register_device d);
        let ret := i32 dev in
        if c_true ret then err_unregister ret
        else mret 0.

Definition lb_remove : M loopback Z :=
  p ← gets LB;
  if p =? 0 then mret 0
  else
    d ← gets tty_drv;
    do_ (tty_unregister_device d);;
    do_ (tty_unregister_driver d);;
    do_ (put_tty_driver d);;
    do_ tty_port_destroy;;
    do_ (kfree p);;
    modify clear_LB;;
    mret 0.

Definition lb_init : M loopback (Z * Z) := platform_module_init.
Definition lb_exit (pdev : Z) : M loopback unit := platform_module_exit pdev.
End Loopback.

(** ** [mini_uart.c]: the state is the driver pointer [mu->tty_drv] *)
Module MiniUart.
(** Opens the terminal whose [driver_data] is [mu]; what [driver_data] is afterwards. *)
Definition muart_open (mu : Z) : Z := mu.

(** [None]: the port of a null pointer. *)
Definition muart_write (mu : Z) (buf : list Z) : M Z (option Z) :=
  if mu =? 0 then mret None
  else
    do_ (tty_insert_flip_string buf);;
    do_ tty_flip_buffer_push;;
    mret (Some (Z.of_nat (length buf))).

Definition muart_probe : M Z Z :=
  mu ← ask (devm_kzalloc "muart_dev");
  if mu =? 0 then mret (- ENOMEM)
  else
    drv ← ask tty_alloc_driver;
    if IS_ERR drv then mret (PTR_ERR drv)
    else
      modify (fun _ => drv);;
      do_ tty_port_init;;
      ret ← ask (tty_register_driver drv);
      if c_true ret then mret ret
      else
        ttydev ← ask (tty_port_register_device drv);
        if IS_ERR ttydev then
          do_ (tty_unregister_driver drv);;
          mret (PTR_ERR ttydev)
        else
          do_ platform_set_drvdata;;
          mret 0.

Definition muart_remove : M Z Z :=
  drv ← gets (fun d => d);
  do_ (tty_unregister_driver drv);;
  do_ tty_port_destroy;;
  mret 0.

Definition muart_init : M Z (Z * Z) := platform_module_init.
Definition muart_exit (pdev : Z) : M Z unit := platform_module_exit pdev.
End MiniUart.

(** ** [dummy_uart-main.c]: the state is the driver pointer [d->tty_drv] *)
Module DummyUart.
(** Opens a terminal with this [driver_data]; [owner] is the record around its port.
    The result and [driver_data] afterwards. *)
Definition bitbang_open (driver_data owner : Z) : Z * Z :=
  if driver_data =? 0 then
    if owner =? 0 then (- ENODEV, driver_data) else (0, owner)
  else (0, driver_data).
Definition bitbang_close (driver_data : Z) : Z := driver_data.

(** The bytes are dropped. *)
Definition bitbang_write (buf : list Z) : M Z Z := mret (Z.of_nat (length buf)).

Definition bitbang_tty_init : M Z Z :=
  drv ← ask tty_alloc_driver;
  if IS_ERR drv then mret (- ENOMEM)
  else
    modify (fun _ => drv);;
    do_ tty_port_init;;
    ret ← ask (tty_register_driver drv);
    if c_true ret then mret ret
    else
      ttydev ← ask (tty_port_register_device drv);
      if IS_ERR ttydev then
        do_ (tty_unregister_driver drv);;
        mret (PTR_ERR ttydev)
      else mret ret.

Definition bitbang_uart_probe : M Z Z :=
  d ← ask (devm_kzalloc "bitbang_data");
  if d =? 0 then mret (- ENOMEM)
  else
    ret ← bitbang_tty_init;
    if c_true ret then mret (- ENOMEM)
    else
      do_ platform_set_drvdata;;
      mret 0.

Definition bitbang_uart_remove : M Z Z :=
  drv ← gets (fun d => d);
  do_ (tty_unregister_device drv);;
  do_ (tty_unregister_driver drv);;
  do_ tty_port_destroy;;
  mret 0.

Definition __init_module : M Z (Z * Z) := platform_module_init.
Definition __exit_module (pdev : Z) : M Z unit := platform_module_exit pdev.
End DummyUart.

(** ** [softuart_tty-main.c] *)
Module SoftUart.
Record suart_dev := Suart {
  tty_drv : Z;
  rx_buf : list Z;   (** the bytes of the buffer that were written *)
  rx_len : Z;
}.
Definition RX_BUF_SIZE : Z := 256.
Definition set_tty_drv (d : Z) (s : suart_dev) := Suart d (rx_buf s) (rx_len s).
(** [memcpy (rx_buf, buf, n)] and [rx_len = n]. *)
Definition set_rx (xs : list Z) (s : suart_dev) :=
  Suart (tty_drv s) (xs ++ drop (length xs) (rx_buf s)) (Z.of_nat (length xs)).
Definition clear_len (s : suart_dev) := Suart (tty_drv s) (rx_buf s) 0.

Definition suart_rx_work_fn : M suart_dev unit :=
  do_ (spin_lock "rx_lock");;
  n ← gets rx_len;
  when (c_true n)
    (b ← gets rx_buf;
     do_ (tty_insert_flip_string (take (Z.to_nat n) b));;
     do_ tty_flip_buffer_push;;
     modify clear_len);;
  do_ (spin_unlock "rx_lock").

(** Opens the terminal whose [driver_data] is [su]; what [driver_data] is afterwards. *)
Definition suart_open (su : Z) : Z := su.

(** [None]: the lock of a null pointer. *)
Definition suart_write (su : Z) (buf : list Z) : M suart_dev (option Z) :=
  let count := Z.of_nat (length buf) in
  if count =? 0 then mret (Some 0)
  else if su =? 0 then mret None
  else
    do_ (spin_lock "rx_lock");;
    let count := if RX_BUF_SIZE <? count then RX_BUF_SIZE else count in
    modify (set_rx (take (Z.to_nat count) buf));;
    do_ (spin_unlock "rx_lock");;
    do_ (schedule_work "rx_work");;
    mret (Some count).

Definition suart_read (count : Z) : Z := 0.

Definition suart_probe : M suart_dev Z :=
  su ← ask (devm_kzalloc "suart_dev");
  if su =? 0 then mret (- ENOMEM)
  else
    modify (fun _ => Suart 0 [] 0);;
    drv ← ask tty_alloc_driver;
    if IS_ERR drv then mret (PTR_ERR drv)
    else
      modify (set_tty_drv drv);;
      do_ tty_port_init;;
      ret ← ask (tty_register_driver drv);
      if c_true ret then mret ret
      else
        dev ← ask (tty_port_register_device drv);
        let ret := i32 dev in
        if c_true ret then
          do_ (tty_unregister_driver drv);;
          mret ret
        else
          do_ platform_set_drvdata;;
          mret 0.

Definition suart_remove : M suart_dev Z :=
  do_ (cancel_work_sync "rx_work");;
  d ← gets tty_drv;
  do_ (tty_unregister_driver d);;
  do_ tty_port_destroy;;
  mret 0.

Definition suart_init : M suart_dev (Z * Z) := platform_module_init.
Definition suart_exit (pdev : Z) : M suart_dev unit := platform_module_exit pdev.
End SoftUart.

(** ** Registering the device *)

(** What the kernel's pointers look like: the low half of a pointer to a device is
    not 0, and a pointer is not an error. *)
Definition device_pointers {S} (e : env S) : Prop := forall t d,
  let p := answer e t (tty_port_register_device d) in IS_ERR p = false /\ i32 p <> 0.

(** Was the device registered? *)
Fixpoint registered (t : trace) : option Z :=
  match t with
  | [] => None
  | Ev (tty_port_register_device d) _ :: _ => Some d
  | _ :: t' => registered t'
  end.

Ltac tty_paths Hp :=
  repeat (lazymatch goal with
          | |- wp _ (ask (tty_port_register_device ?d)) _ _ ?t =>
              let p := fresh "p" in let E := fresh "E" in
              apply wp_ask; intros p E; destruct (Hp t d) as [? ?]; rewrite <- E in *; clear E
          | _ => wp_step
          end; cbn beta zeta).

(** Two of the drivers take the pointer to the device they registered for an error
    code: whenever the kernel makes the device, their probe fails with the low half
    of the pointer.  The loopback driver then leaves the device and the port behind,
    in memory it has freed; the software UART leaves them and the driver. *)
Theorem tty_probe_rejects_device (e : env Loopback.loopback) (e' : env SoftUart.suart_dev) s s' :
  device_pointers e -> device_pointers e' ->
  wp e Loopback.lb_probe (fun r _ t => r <> 0 /\
    ledger t = Some (match registered t with
                     | Some d => [R_tty_device d; R_tty_port]
                     | None => []
                     end)) s [] /\
  wp e' SoftUart.suart_probe (fun r _ t => r <> 0 /\
    forall d, registered t = Some d ->
      ledger t = Some [R_tty_device d; R_tty_port; R_tty_driver d]) s' [].
Proof.
  intros Hp Hp'. split.
  - unfold Loopback.lb_probe. cbv zeta. tty_paths Hp.
    all: norm_tests; (split; [try (path_facts; done)|path_ledger; try done]).
  - unfold SoftUart.suart_probe. tty_paths Hp'.
    all: norm_tests.
    all: split; [path_facts; try (done || lia)|intros d; cbn; intros [=]; subst; path_ledger; done].
Qed.

(** ** What the software UART echoes *)

(** The two operations on the buffer: a write, and a run of the work item. *)
Inductive suart_op := Write (buf : list Z) | Work.
Definition suart_run (su : Z) (op : suart_op) : M SoftUart.suart_dev unit :=
  match op with
  | Write buf => _ ← SoftUart.suart_write su buf; mret tt
  | Work => SoftUart.suart_rx_work_fn
  end.

(** What comes back: at each run of the work item the first 256 bytes of the last
    write since the run before, the ones of [pending] if there was none. *)
Fixpoint echo (pending : list Z) (ops : list suart_op) : list Z :=
  match ops with
  | [] => []
  | Write [] :: ops' => echo pending ops'
  | Write buf :: ops' => echo (take 256 buf) ops'
  | Work :: ops' => pending ++ echo [] ops'
  end.

Definition holds (pending : list Z) (s : SoftUart.suart_dev) : Prop :=
  SoftUart.rx_len s = Z.of_nat (length pending) /\
  take (length pending) (SoftUart.rx_buf s) = pending.

Lemma holds_none s : SoftUart.rx_len s = 0 -> holds [] s.
Proof. done. Qed.

Lemma set_rx_holds xs s : holds xs (SoftUart.set_rx xs s).
Proof. split; [done|]. cbn. by rewrite take_app_length. Qed.

Lemma suart_work_run (e : env SoftUart.suart_dev) su pending s t Q :
  holds pending s ->
  (forall s' t', holds [] s' -> inserted t' = inserted t ++ pending -> Q tt s' t') ->
  wp e (suart_run su Work) Q s t.
Proof.
  intros [Hn Hb] HQ. cbn [suart_run]. unfold SoftUart.suart_rx_work_fn.
  apply wp_bind, wp_do. intros ?. apply wp_bind, wp_gets. rewrite Hn. unfold c_true.
  destruct (Z.eqb_spec (Z.of_nat (length pending)) 0) as [H0|H0]; cbn [negb when]; wp_run.
  - destruct pending; [|done]. apply HQ; [done|]. by rewrite app_nil_r.
  - apply HQ; [done|]. cbn [inserted]. by rewrite Nat2Z.id, Hb.
Qed.

Lemma suart_write_run (e : env SoftUart.suart_dev) su buf pending s t Q :
  su <> 0 -> holds pending s ->
  (forall s' t', holds (match buf with [] => pending | _ => take 256 buf end) s' ->
     inserted t' = inserted t -> Q tt s' t') ->
  wp e (suart_run su (Write buf)) Q s t.
Proof.
  intros Hsu Hs HQ. cbn [suart_run]. unfold SoftUart.suart_write.
  destruct buf as [|b buf']; [cbn; wp_run; by apply HQ|].
  set (buf := b :: buf') in *. destruct (Z.eqb_spec su 0); [done|].
  destruct (Z.eqb_spec (Z.of_nat (length buf)) 0); [cbn in *; lia|]. cbv zeta.
  assert (take (Z.to_nat (if SoftUart.RX_BUF_SIZE <? Z.of_nat (length buf)
    then SoftUart.RX_BUF_SIZE else Z.of_nat (length buf))) buf = take 256 buf) as ->.
  { unfold SoftUart.RX_BUF_SIZE. case_z; [done|]. by rewrite !take_ge by lia. }
  wp_run.
  apply HQ; [apply set_rx_holds|done].
Qed.

Lemma suart_runs (e : env SoftUart.suart_dev) su ops pending s t :
  su <> 0 -> holds pending s ->
  wp e (for_each (suart_run su) ops)
    (fun _ _ t' => inserted t' = inserted t ++ echo pending ops) s t.
Proof.
  intros Hsu. revert pending s t. induction ops as [|[buf|] ops IH]; intros pending s t Hs;
    cbn [for_each]; apply wp_bind || (apply wp_ret; by rewrite app_nil_r).
  - apply (suart_write_run _ _ _ _ _ _ _ Hsu Hs). intros s' t' Hs' Ht'.
    destruct buf as [|b buf'].
    + eapply wp_mono; [by apply (IH pending)|]. cbn beta. intros _ _ t'' ->. by rewrite Ht'.
    + eapply wp_mono; [by apply IH|]. cbn beta. intros _ _ t'' ->. by rewrite Ht'.
  - apply (suart_work_run _ _ _ _ _ _ Hs). intros s' t' Hs' Ht'.
    eapply wp_mono; [by apply (IH [])|]. cbn beta. intros _ _ t'' ->. cbn [echo].
    by rewrite Ht', app_assoc.
Qed.

(** With a device behind the terminal, whatever writes and runs of the work item
    follow each other, what comes back is what [echo] says: each run delivers the first
    256 bytes of the last write before it, once, and an earlier write that no run came
    between is lost, though its [suart_write] returned its length.  The driver never
    sets [driver_data], so what really happens is the other case: a write of anything
    dereferences the null pointer the terminal was opened with, and mini_uart's too. *)
Theorem suart_echo (e : env SoftUart.suart_dev) (e' : env Z) s s' t t' su ops buf :
  (su <> 0 -> SoftUart.rx_len s = 0 ->
   wp e (for_each (suart_run su) ops)
     (fun _ _ t1 => inserted t1 = inserted t ++ echo [] ops) s t) /\
   (buf <> [] ->
   wp e (SoftUart.suart_write (SoftUart.suart_open 0) buf) (fun r _ _ => r = None) s t /\
   wp e' (MiniUart.muart_write (MiniUart.muart_open 0) buf) (fun r _ _ => r = None) s' t').
Proof.
  split.
  - intros Hsu Hn. by apply suart_runs.
  - intros Hb. split; [|done]. unfold SoftUart.suart_write. destruct buf; [done|]. cbn. by apply wp_ret.
Qed.

(** ** What the probes and removes leave behind *)
(** Everything held after a probe that failed, and after a probe and a remove. *)
Definition leaves {S} (e : env S) (probe remove : M S Z) (failed gone : list resource -> Prop)
    (s : S) : Prop :=
  wp e probe (fun r s' t' =>
    if r =? 0 then wp e remove (fun _ _ t'' => exists l, ledger t'' = Some l /\ gone l) s' t'
    else exists l, ledger t' = Some l /\ failed l) s [].

Ltac leaves_path :=
  norm_tests;
  lazymatch goal with |- if ?b then _ else _ => destruct b eqn:? end; try path_contra;
  wp_run; eexists; (split; [path_ledger; reflexivity|eauto]).

(** None of the two platform drivers gives its tty driver back: after a probe and
    a remove the dummy UART still holds the driver, mini_uart the driver and its device;
    a probe that fails leaves at most the driver and the initialised port. *)
Theorem tty_drivers_leave (e : env Z) s :
  leaves e MiniUart.muart_probe MiniUart.muart_remove
    (fun l => l = [] \/ exists d, l = [R_tty_port; R_tty_driver d])
    (fun l => exists d, l = [R_tty_device d; R_tty_driver d]) s /\
  leaves e DummyUart.bitbang_uart_probe DummyUart.bitbang_uart_remove
    (fun l => l = [] \/ exists d, l = [R_tty_port; R_tty_driver d])
    (fun l => exists d, l = [R_tty_driver d]) s.
Proof.
  unfold leaves. split.
  - unfold MiniUart.muart_probe, MiniUart.muart_remove. wp_run. all: leaves_path.
  - unfold DummyUart.bitbang_uart_probe, DummyUart.bitbang_uart_remove, DummyUart.bitbang_tty_init.
    wp_run. all: leaves_path.
Qed.

(** ** Concrete runs *)
Definition quiet_tty : SoftUart.suart_dev := SoftUart.Suart 4096 [] 0.

Lemma tty_probe_rejects_device_witness :
  wp calm Loopback.lb_probe (fun r _ t => r <> 0 /\
    ledger t = Some (match registered t with
                     | Some d => [R_tty_device d; R_tty_port]
                     | None => []
                     end)) (Loopback.Loop 0 0 0 0 0) [].
Proof.
  apply (tty_probe_rejects_device calm calm (Loopback.Loop 0 0 0 0 0) quiet_tty).
  - intros t d. split; [reflexivity|]. vm_compute. discriminate.
  - intros t d. split; [reflexivity|]. vm_compute. discriminate.
Defined.

Lemma suart_echo_witness :
  wp calm (for_each (suart_run 8192) [Write [1; 2]; Write [3]; Work; Work])
    (fun _ _ t1 => inserted t1 = [3]) quiet_tty [] /\
  wp calm (SoftUart.suart_write (SoftUart.suart_open 0) [65]) (fun r _ _ => r = None) quiet_tty [].
Proof.
  split.
  - apply (proj1 (suart_echo calm calm quiet_tty 0 [] [] 8192
      [Write [1; 2]; Write [3]; Work; Work] [])); [discriminate|reflexivity].
  - apply (proj2 (suart_echo calm calm quiet_tty 0 [] [] 0 [] [65])). discriminate.
Defined.
