(* ===== verification/SoftUartEcho.v ===== *)
(** * The echoing software UART

    [soft_uart/gpt/softuart_tty.c]: every character written comes back at once.  The
    state is behind the pointer [g_suart].  The source names fields ([port->state],
    [tty_class]) the kernel's structures no longer have; they are read as the port
    and the device of the terminal. *)
From S2P Require Import Prelude.
From S2P Require Import Kernel.
From S2P Require Import Wire.
From S2P Require Import TtyModules.
From stdpp Require Import options.

Record suart := Suart {
  g_suart : Z;     (** the pointer of the module *)
  tty_drv : Z;
  pdev : Z;
  drvdata : Z;     (** what [platform_set_drvdata] stored *)
  tty_port : bool; (** has the terminal been given the port? *)
}.
Definition set_g_suart (p : Z) s := Suart p (tty_drv s) (pdev s) (drvdata s) (tty_port s).
Definition set_tty_drv (d : Z) s := Suart (g_suart s) d (pdev s) (drvdata s) (tty_port s).
Definition set_pdev (p : Z) s := Suart (g_suart s) (tty_drv s) p (drvdata s) (tty_port s).
Definition set_drvdata (p : Z) s := Suart (g_suart s) (tty_drv s) (pdev s) p (tty_port s).
Definition set_tty_port s := Suart (g_suart s) (tty_drv s) (pdev s) (drvdata s) true.
Abbreviation prog := (M suart).

Definition suart_install : prog Z :=
  ret ← ask tty_standard_install;
  if c_true ret then mret ret
  else
    modify set_tty_port;;
    mret 0.

Definition suart_open : prog Z := ask tty_port_open.
Definition suart_close : prog unit := do_ tty_port_close.

Definition suart_write (buf : list Z) : prog Z :=
  for_each (fun c => do_ (tty_insert_flip_char c)) buf;;
  do_ tty_flip_buffer_push;;
  mret (Z.of_nat (length buf)).

Definition suart_write_room : Z := 4096.

Definition suart_probe (pdev : Z) : prog Z :=
  do_ tty_port_init;;
  let err_port_destroy ret := do_ tty_port_destroy;; mret ret in
  d ← ask alloc_tty_driver;
  modify (set_tty_drv d);;
  if d =? 0 then err_port_destroy (- ENOMEM)
  else
    let err_put_drv ret := do_ (put_tty_driver d);; err_port_destroy ret in
    let err_unreg_tty_driver ret := do_ (tty_unregister_driver d);; err_put_drv ret in
    ret ← ask (tty_register_driver d);
    if c_true ret then err_put_drv ret
    else
      p ← ask (tty_port_register_device d);
      let ret := i32 p in
      if IS_ERR ret then err_unreg_tty_driver ret
      else
        modify (set_pdev pdev);;
        su ← gets g_suart;
        do_ platform_set_drvdata;;
        modify (set_drvdata su);;
        mret 0.

Definition suart_remove : prog Z :=
  su ← gets drvdata;
  if su =? 0 then mret 0
  else
    d ← gets tty_drv;
    do_ (tty_device_destroy d);;
    do_ (tty_unregister_driver d);;
    do_ (put_tty_driver d);;
    do_ tty_port_destroy;;
    mret 0.

Definition suart_init : prog Z :=
  g ← ask (kzalloc "suart");
  modify (fun _ => Suart g 0 0 0 false);;
  if g =? 0 then mret (- ENOMEM)
  else
    p ← ask platform_device_register_simple;
    modify (set_pdev p);;
    if IS_ERR p then
      do_ (kfree g);;
      mret (PTR_ERR p)
    else
      ret ← ask platform_driver_register;
      if c_true ret then
        do_ (platform_device_unregister p);;
        do_ (kfree g);;
        mret ret
      else mret 0.

Definition suart_exit : prog unit :=
  do_ platform_driver_unregister;;
  p ← gets pdev;
  when (c_true p) (do_ (platform_device_unregister p));;
  g ← gets g_suart;
  do_ (kfree g).

(** ** What the modules hold *)

(** The low half of a pointer to a device is an error code exactly when the pointer
    is, and a platform device is never a null pointer. *)
Definition device_results (e : env suart) : Prop := forall t d,
  (let p := answer e t (tty_port_register_device d) in IS_ERR (i32 p) = IS_ERR p) /\
  answer e t platform_device_register_simple <> 0.

(** A life of the module: load, probe, and if the probe bound the driver, remove; unload. *)
Definition echo_life : M suart (option Z) :=
  ret ← suart_init;
  if c_true ret then mret None
  else
    p ← gets pdev;
    ret ← suart_probe p;
    when (negb (c_true ret)) (_ ← suart_remove; mret tt);;
    suart_exit;;
    mret (Some ret).

Ltac device_paths Hp :=
  repeat (lazymatch goal with
          | |- wp _ (ask (tty_port_register_device ?d)) _ _ ?t =>
              let p := fresh "p" in let E := fresh "E" in
              apply wp_ask; intros p E; pose proof (proj1 (Hp t d)) as Hpd; cbn beta zeta in Hpd;
              rewrite <- E in *; clear E
          | |- wp _ (ask platform_device_register_simple) _ _ ?t =>
              let p := fresh "p" in let E := fresh "E" in
              apply wp_ask; intros p E; pose proof (proj2 (Hp t 0)) as Hreg;
              rewrite <- E in *; clear E
          | _ => wp_step
          end; cbn beta zeta).

(** The module gives everything back, whatever fails and wherever: a load that fails, a
    probe that fails (with the unload after it) and a whole life leave nothing. *)
Theorem echo_life_balanced (e : env suart) s :
  device_results e ->
  wp e echo_life (fun _ _ t => ledger t = Some []) s [].
Proof.
  intros Hp. unfold echo_life, suart_init, suart_probe, suart_remove, suart_exit.
  cbv zeta. device_paths Hp. all: norm_tests; try path_contra.
  all: cbn [g_suart tty_drv pdev drvdata set_tty_drv set_pdev
            set_drvdata] in *; try path_contra.
  all: path_ledger; done.
Qed.

Lemma flip_chars {S} (e : env S) buf (Q : unit -> S -> trace -> Prop) s t :
  (forall t', inserted t' = inserted t ++ buf -> Q tt s t') ->
  wp e (for_each (fun c => do_ (tty_insert_flip_char c)) buf) Q s t.
Proof.
  revert t. induction buf as [|c buf IH]; intros t HQ; cbn [for_each].
  - apply wp_ret, HQ. by rewrite app_nil_r.
  - apply wp_bind, wp_do. intros r. apply IH. intros t' Ht'. apply HQ. rewrite Ht'. cbn [inserted].
    by rewrite <- app_assoc.
Qed.

(** Both loopback terminals give back what is written, byte for byte and in order,
    and report all of it; [tty_loopback.c] also counts it, modulo the width of its
    [int], and refuses everything while the port is not initialised. *)
Theorem loopbacks_echo (e : env suart) (e' : env Loopback.loopback) buf s t s' t' :
  wp e (suart_write buf) (fun r s1 t1 =>
    r = Z.of_nat (length buf) /\ s1 = s /\ inserted t1 = inserted t ++ buf) s t /\
  wp e' (Loopback.lb_write buf) (fun r s1 t1 =>
    if answer e' t' tty_port_initialized =? 0 then
      r = - EIO /\ s1 = s' /\ inserted t1 = inserted t'
    else
      r = Z.of_nat (length buf) /\ inserted t1 = inserted t' ++ buf /\
      s1 = Loopback.add_counter (Z.of_nat (length buf)) s') s' t'.
Proof.
  split.
  - unfold suart_write. apply wp_bind, flip_chars. intros t1 Ht1. wp_run. done.
  - unfold Loopback.lb_write. apply wp_bind, wp_ask. intros ok ->. case_z.
    + by apply wp_ret.
    + apply wp_bind, flip_chars. intros t1 Ht1. wp_run. done.
Qed.

(** ** Concrete runs *)
Lemma echo_life_balanced_witness :
  wp calm echo_life (fun _ _ t => ledger t = Some []) (Suart 0 0 0 0 false) [].
Proof.
  apply (echo_life_balanced calm (Suart 0 0 0 0 false)).
  intros t d. split; [reflexivity|]. vm_compute. discriminate.
Defined.
