(* ===== verification/SoftUartLink.v ===== *)
(** * The software UART on a linked port

    [soft_uart/gpt/softuart_tty-main.c]: the work item and the write of
    [TtyModules.SoftUart], with another probe and remove. *)
From S2P Require Import Prelude.
From S2P Require Import Kernel.
From S2P Require Import TtyModules.
From stdpp Require Import options.

Abbreviation suart_dev := SoftUart.suart_dev.

(** The same text as in [TtyModules.SoftUart]. *)
Definition suart_rx_work_fn : M suart_dev unit := SoftUart.suart_rx_work_fn.
Definition suart_open (su : Z) : Z := su.
Definition suart_write (su : Z) (buf : list Z) : M suart_dev (option Z) :=
  SoftUart.suart_write su buf.

Definition suart_probe : M suart_dev Z :=
  su ← ask (devm_kzalloc "suart_dev");
  if su =? 0 then mret (- ENOMEM)
  else
    modify (fun _ => SoftUart.Suart 0 [] 0);;
    drv ← ask tty_alloc_driver;
    if IS_ERR drv then mret (PTR_ERR drv)
    else
      modify (SoftUart.set_tty_drv drv);;
      do_ tty_port_init;;
      ret ← ask (tty_register_driver drv);
      if c_true ret then
        do_ (put_tty_driver drv);;
        mret ret
      else
        ret ← ask (tty_port_link_device drv);
        if c_true ret then
          do_ (tty_unregister_driver drv);;
          do_ (put_tty_driver drv);;
          mret ret
        else
          do_ platform_set_drvdata;;
          mret 0.

Definition suart_remove : M suart_dev Z :=
  do_ (cancel_work_sync "rx_work");;
  d ← gets SoftUart.tty_drv;
  do_ (tty_unregister_driver d);;
  do_ (put_tty_driver d);;
  do_ tty_port_destroy;;
  mret 0.

(** The driver balances when the probe succeeds, but it never makes the device it
    announces: what is held in between is the driver and the port, no terminal.  A
    probe that fails puts the driver back and leaves the initialised port. *)
Theorem link_makes_no_device (e : env SoftUart.suart_dev) s :
  wp e suart_probe (fun r s' t' =>
    if r =? 0 then
      (exists d, ledger t' = Some [R_tty_registered d; R_tty_port; R_tty_driver d]) /\
      wp e suart_remove (fun _ _ t'' => ledger t'' = Some []) s' t'
    else ledger t' = Some [] \/ ledger t' = Some [R_tty_port]) s [].
Proof.
  unfold suart_probe, suart_remove. wp_run. all: norm_tests.
  all: lazymatch goal with |- if ?b then _ else _ => destruct b eqn:? end; try path_contra.
  all: first [split; [eexists; path_ledger; reflexivity|wp_run; path_ledger; done]
             |left; path_ledger; done|right; path_ledger; done].
Qed.

