(* ===== verification/LinuxDrivers.v ===== *)
(** * The device-tree test drivers

    [linux/kernel/regulator/regulator-main.c] (regulators and three optional pins of a
    panel) and [linux/kernel/gpioirq/gpioirq-main.c] (an interrupt of a pin).  What is
    allocated with [devm_] belongs to the device and is given back by the kernel; the
    regulators that are enabled are not. *)
From S2P Require Import Prelude.
From S2P Require Import Kernel.
From stdpp Require Import options.

(** ** [regulator-main.c] *)
Record jdi_panel := Jdi { enable_gpio : Z; reset_gpio : Z; dcdc_en_gpio : Z }.
Definition set_enable (p : Z) (s : jdi_panel) := Jdi p (reset_gpio s) (dcdc_en_gpio s).
Definition set_reset (p : Z) (s : jdi_panel) := Jdi (enable_gpio s) p (dcdc_en_gpio s).
Definition set_dcdc (p : Z) (s : jdi_panel) := Jdi (enable_gpio s) (reset_gpio s) p.

(** [pgp] is a field of the state, as its getter and setter. *)
Definition dsi_gpio_acquire (get : jdi_panel -> Z) (put : Z -> jdi_panel -> jdi_panel)
    (name : string) (level : Z) : M jdi_panel Z :=
  p ← gets get;
  if c_true p then mret 0
  else
    gp ← ask (devm_gpiod_get_optional_out name level);
    let ret := if IS_ERR gp then PTR_ERR gp else 0 in
    modify (put gp);;
    mret ret.

Definition regulator_init : M jdi_panel Z :=
  ret ← ask devm_regulator_bulk_get;
  if ret <? 0 then mret ret
  else ask regulator_bulk_enable.

Definition regulator_probe : M jdi_panel Z :=
  of_id ← ask of_match_device;
  if of_id =? 0 then mret (- ENODEV)
  else
    jdi ← ask (devm_kzalloc "jdi_panel");
    if jdi =? 0 then mret (- ENOMEM)
    else
      modify (fun _ => Jdi 0 0 0);;
      ret ← regulator_init;
      if ret <? 0 then mret ret
      else
        ret ← dsi_gpio_acquire enable_gpio set_enable "enable" 0;
        if c_true ret then mret ret
        else
          ret ← dsi_gpio_acquire reset_gpio set_reset "reset" 1;
          if c_true ret then mret ret
          else
            ret ← dsi_gpio_acquire dcdc_en_gpio set_dcdc "dcdc-en" 0;
            if c_true ret then mret ret
            else
              r ← gets reset_gpio;
              do_ (gpiod_set_value_cansleep r 0);;
              d ← gets dcdc_en_gpio;
              do_ (gpiod_set_value_cansleep d 1);;
              mret ret.

Definition regulator_remove : M jdi_panel Z :=
  do_ regulator_bulk_disable;;
  p ← gets enable_gpio;
  do_ (gpiod_set_value_cansleep p 0);;
  r ← gets reset_gpio;
  do_ (gpiod_set_value_cansleep r 1);;
  d ← gets dcdc_en_gpio;
  do_ (gpiod_set_value_cansleep d 0);;
  mret 0.

(** ** [gpioirq-main.c]: the state is [irq_gpio] *)
Definition setup_irq : M Z Z :=
  g ← gets (fun g => g);
  _ ← ask (gpiod_to_irq g);
  irq ← ask platform_get_irq;
  ask (devm_request_threaded_irq irq).

Definition dev_gpio_acquire (name : string) : M Z Z :=
  p ← gets (fun g => g);
  if c_true p then mret 0
  else
    gp ← ask (devm_gpiod_get_optional name);
    let ret := if IS_ERR gp then PTR_ERR gp else 0 in
    modify (fun _ => gp);;
    mret ret.

Definition gpioirq_probe : M Z Z :=
  of_id ← ask of_match_device;
  if of_id =? 0 then mret (- ENODEV)
  else
    jdi ← ask (devm_kzalloc "jdi_panel");
    if jdi =? 0 then mret (- ENOMEM)
    else
      modify (fun _ => 0);;
      ret ← dev_gpio_acquire "irq";
      if c_true ret then mret ret
      else setup_irq.

(** Both modules load alike: the result of the registration is dropped. *)
Definition panel_init {S} : M S Z := do_ platform_driver_register;; mret 0.
Definition panel_exit {S} : M S unit := do_ platform_driver_unregister.

(** ** Facts *)

(** The pins asked for, newest first. *)
Fixpoint pins (t : trace) : list string :=
  match t with
  | [] => []
  | Ev (devm_gpiod_get_optional_out n _) _ :: t' => n :: pins t'
  | _ :: t' => pins t'
  end.
(** The level the program left on a pin. *)
Fixpoint left_at (p : Z) (t : trace) : option Z :=
  match t with
  | [] => None
  | Ev (gpiod_set_value_cansleep p' v) _ :: t' => if p' =? p then Some v else left_at p t'
  | _ :: t' => left_at p t'
  end.

Ltac power_paths Hen :=
  repeat (lazymatch goal with
          | |- wp _ (ask regulator_bulk_enable) _ _ ?t =>
              let r := fresh "r" in let E := fresh "E" in
              apply wp_ask; intros r E; pose proof (Hen t); rewrite <- E in *; clear E
          | _ => wp_step
          end; cbn beta zeta).

(** Enabling succeeded. *)
Ltac settled :=
  repeat match goal with
  | H : ?r <= 0, H2 : (?r <? 0) = false |- _ =>
      apply Z.ltb_ge in H2; assert (r = 0) by lia; subst r; clear H H2
  end.

(** A probe that fails because a pin cannot be had leaves the regulators on, and no
    remove follows a failed probe.  One that succeeds takes the panel out of reset and
    switches its converter on; the remove after it switches the regulators off, unless
    that fails, and puts the pins back. *)
Theorem regulator_probe_powers (e : env jdi_panel) s :
  (forall t, answer e t regulator_bulk_enable <= 0) ->
  wp e regulator_probe (fun r s' t' =>
    (r <> 0 -> ledger t' = Some (match pins t' with [] => [] | _ => [R_regulators] end)) /\
    (r = 0 ->
       ledger t' = Some [R_regulators] /\ left_at (dcdc_en_gpio s') t' = Some 1 /\
       (reset_gpio s' <> dcdc_en_gpio s' -> left_at (reset_gpio s') t' = Some 0) /\
       wp e regulator_remove (fun _ _ t'' =>
         ledger t'' = Some [] \/ ledger t'' = Some [R_regulators]) s' t')) s [].
Proof.
  intros Hen. unfold regulator_probe, regulator_init, dsi_gpio_acquire, regulator_remove.
  power_paths Hen. all: norm_tests; try path_contra. all: split; intros Hr.
  all: try (exfalso; cbn in *; path_facts; lia). all: settled.
  1-7: path_ledger; done.
  cbn [set_enable set_reset set_dcdc enable_gpio reset_gpio dcdc_en_gpio]. cbn [left_at].
  rewrite !Z.eqb_refl. split_and!.
  - path_ledger; done.
  - done.
  - intros Hne. by destruct (Z.eqb_spec r5 r4).
  - wp_run. lazymatch goal with |- context [Ev regulator_bulk_disable ?x] => destruct (x =? 0) eqn:? end;
      [left|right]; path_ledger; done.
Qed.

Lemma regulator_probe_powers_witness :
  wp (Env (fun _ c => match c with
                      | devm_gpiod_get_optional_out "reset" _ => - 517
                      | _ => granted c
                      end) (fun _ s => s)) regulator_probe
    (fun r s' t' => r <> 0 -> ledger t' = Some (match pins t' with [] => [] | _ => [R_regulators] end))
    (Jdi 0 0 0) [].
Proof.
  eapply wp_mono; [apply (regulator_probe_powers (Env (fun _ c => match c with
                      | devm_gpiod_get_optional_out "reset" _ => - 517
                      | _ => granted c
                      end) (fun _ s => s)) (Jdi 0 0 0)); intros; vm_compute; congruence|].
  intros r s t [H _]. exact H.
Defined.
