(* ===== verification/Macros.v ===== *)
(** * Division and alignment macros

    [c/ceil_div.c] and [c/buffer_align.c].  The macros are used on [int]: an
    intermediate result outside the type, or a division by 0, is undefined ([None]). *)
From S2P Require Import Prelude.
From stdpp Require Import options.
#[local] Open Scope Z_scope.

Definition int_of (x : Z) : option Z :=
  if (- 2 ^ 31 <=? x) && (x <? 2 ^ 31) then Some x else None.
Definition c_add (a b : Z) : option Z := int_of (a + b).
Definition c_sub (a b : Z) : option Z := int_of (a - b).
Definition c_mul (a b : Z) : option Z := int_of (a * b).
Definition c_div (a b : Z) : option Z := if b =? 0 then None else int_of (Z.quot a b).
Definition c_rem (a b : Z) : option Z := if b =? 0 then None else int_of (Z.rem a b).

Definition CEIL_DIV (A B : Z) : option Z :=
  s ← c_add A B; n ← c_sub s 1; c_div n B.
Definition ROUND_DIV (A B : Z) : option Z :=
  r ← c_rem A B; s ← c_add A r; c_div s B.
Definition ALIGN_BUFFER_SIZE (x Z_ : Z) : option Z :=
  if x <? Z_ then Some Z_
  else
    q ← c_div x Z_;
    r ← c_rem x Z_;
    n ← c_add q (if c_true r then 1 else 0);
    c_mul Z_ n.

(** ** The two programs

    What they print of each number; the quotient as a [float] is left out. *)
Definition pairs : list (Z * Z) :=
  [(0, 1); (8, 4); (9, 3); (10, 5); (17, 5); (55, 8); (60, 30); (77, 17); (99, 90); (9, 5); (9, 6);
   (9, 7); (90, 61)].
Record division := Division { pair_d : Z; pair_r : Z; ceil : Z; round : Z; mark : bool (** '!' *) }.
Definition ceil_div_line (p : Z * Z) : option division :=
  l ← CEIL_DIV p.1 p.2; m ← ROUND_DIV p.1 p.2; Some (Division p.1 p.2 l m (negb (l =? m))).
Definition ceil_div_main : option (list division) := mapM ceil_div_line pairs.

Definition MTD_PAGE_SZ : Z := 1056.
Definition sizes : list Z :=
  [MTD_PAGE_SZ - 512; MTD_PAGE_SZ; MTD_PAGE_SZ + 16; MTD_PAGE_SZ * 2; MTD_PAGE_SZ * 2 + 256; MTD_PAGE_SZ * 4;
   MTD_PAGE_SZ * 7 + 15].
Definition buffer_align_line (sz : Z) : option (Z * Z * Z * Z) :=
  sza ← ALIGN_BUFFER_SIZE sz MTD_PAGE_SZ; rest ← c_sub sza sz; Some (MTD_PAGE_SZ, sz, sza, rest).
Definition buffer_align_main : option (list (Z * Z * Z * Z)) := mapM buffer_align_line sizes.

(** ** Facts *)

Lemma int_of_small x : - 2 ^ 31 <= x < 2 ^ 31 -> int_of x = Some x.
Proof.
  intros [H1 H2]. unfold int_of. apply Z.leb_le in H1. apply Z.ltb_lt in H2. by rewrite H1, H2.
Qed.

(** Division of numbers that are not negative. *)
Lemma c_div_small a b : 0 <= a < 2 ^ 31 -> 0 < b -> c_div a b = Some (a / b).
Proof.
  intros Ha Hb. unfold c_div. destruct (Z.eqb_spec b 0); [lia|]. rewrite Z.quot_div_nonneg by lia.
  apply int_of_small. pose proof (Z.div_pos a b). pose proof (Z.div_le_upper_bound a b a). nia.
Qed.
Lemma c_rem_small a b : 0 <= a < 2 ^ 31 -> 0 < b -> c_rem a b = Some (a mod b).
Proof.
  intros Ha Hb. unfold c_rem. destruct (Z.eqb_spec b 0); [lia|]. rewrite Z.rem_mod_nonneg by lia.
  apply int_of_small. pose proof (Z.mod_pos_bound a b). pose proof (Z.mod_le a b). lia.
Qed.

(** For a dividend that is not negative and a positive divisor, as long as nothing
    overflows, [CEIL_DIV] is the least number of pieces that hold the dividend,
    [ROUND_DIV] the nearest quotient with halves rounded up, and [ALIGN_BUFFER_SIZE] the
    least multiple of the page, one page at least, that holds the size.  Near the end
    of the range [CEIL_DIV] is undefined although its result would fit. *)
Theorem macros_divide a b :
  0 <= a < 2 ^ 31 -> 0 < b < 2 ^ 31 ->
  (a + b < 2 ^ 31 -> exists n, CEIL_DIV a b = Some n /\ (n - 1) * b < a <= n * b) /\
  (2 ^ 31 <= a + b -> CEIL_DIV a b = None) /\
  (a + a mod b < 2 ^ 31 -> exists n, ROUND_DIV a b = Some n /\ 2 * a - b < 2 * (n * b) <= 2 * a + b) /\
  (a + b <= 2 ^ 31 -> exists k, ALIGN_BUFFER_SIZE a b = Some (k * b) /\ 1 <= k /\ a <= k * b /\
     forall j, 1 <= j -> a <= j * b -> k <= j).
Proof.
  intros Ha Hb. pose proof (Z.mod_pos_bound a b ltac:(lia)) as Hm.
  pose proof (Z.div_mod a b ltac:(lia)) as Hdm. split_and!.
  - intros Hs. unfold CEIL_DIV, c_add, c_sub. rewrite int_of_small by lia. cbn [mbind option_bind].
    rewrite int_of_small by lia. cbn [mbind option_bind]. rewrite c_div_small by lia.
    eexists. split; [done|]. pose proof (Z.mod_pos_bound (a + b - 1) b ltac:(lia)).
    pose proof (Z.div_mod (a + b - 1) b ltac:(lia)). nia.
  - intros Hs. unfold CEIL_DIV, c_add, int_of. destruct (Z.ltb_spec (a + b) (2 ^ 31)); [lia|].
    by rewrite andb_false_r.
  - intros Hs. unfold ROUND_DIV. rewrite c_rem_small by lia. cbn [mbind option_bind]. unfold c_add.
    rewrite int_of_small by lia. cbn [mbind option_bind]. rewrite c_div_small by lia.
    eexists. split; [done|]. pose proof (Z.mod_pos_bound (a + a mod b) b ltac:(lia)).
    pose proof (Z.div_mod (a + a mod b) b ltac:(lia)).
    set (n := (a + a mod b) / b) in *. set (q := a / b) in *. set (r := a mod b) in *.
    assert (n = q \/ n = q + 1) by nia. nia.
  - intros Hs. unfold ALIGN_BUFFER_SIZE. destruct (Z.ltb_spec a b).
    + exists 1. split_and!; try lia. f_equal. lia.
    + rewrite c_div_small, c_rem_small by lia. cbn [mbind option_bind].
      set (k := a / b + (if c_true (a mod b) then 1 else 0)).
      assert (1 <= k /\ a <= k * b /\ (k - 1) * b < a /\ k * b < 2 ^ 31) as (Hk1 & Hk2 & Hk3 & Hk4).
      { unfold k, c_true. destruct (Z.eqb_spec (a mod b) 0); cbn [negb]; nia. }
      unfold c_add, c_mul. fold k. rewrite int_of_small by nia. cbn [mbind option_bind].
      rewrite int_of_small by nia. exists k. split_and!; [f_equal; lia|done|done|]. intros j Hj Hja. nia.
Qed.

Lemma macros_divide_witness :
  (exists n, CEIL_DIV 17 5 = Some n /\ (n - 1) * 5 < 17 <= n * 5) /\ CEIL_DIV 2147483647 2 = None.
Proof.
  split; [apply (macros_divide 17 5); lia|apply (macros_divide 2147483647 2); lia].
Defined.

(** The lines that get a mark, and the room left in the pages. *)
Theorem programs_print :
  (exists lines, ceil_div_main = Some lines /\
     map (fun x => (pair_d x, pair_r x)) (List.filter mark lines) = [(17, 5); (99, 90); (9, 7); (90, 61)]) /\
  exists lines, buffer_align_main = Some lines /\
    map (fun x => (x.1.2 / MTD_PAGE_SZ, x.2)) lines = [(1, 512); (1, 0); (2, 1040); (2, 0); (3, 800); (4, 0); (8, 1041)] /\
    Forall (fun '(page, sz, sza, rest) => (page | sza) /\ sz + rest = sza /\ 0 <= rest < page) lines.
Proof.
  split; eexists; (split; [vm_compute; reflexivity|]); [vm_compute; reflexivity|].
  split; [vm_compute; reflexivity|]. repeat constructor; try lia; apply Z.mod_divide; done.
Qed.
