(* ===== verification/MacroHeader.v ===== *)
(** * The header of macros

    [imx8mm/hello_world/macro.h] against the older headers it replaces ([c/macro.h] and
    its copies, [linux/kernel/slave-spi-driver/macro.h]), and the program that tests it
    ([imx8mm/hello_world/main.c]).  The arithmetic is that of [Macros]: [int], with
    [None] for an overflow, a division by 0 or a shift by the width or more. *)
From S2P Require Import Prelude.
From S2P Require Import Macros.
From stdpp Require Import options.
#[local] Open Scope Z_scope.

(** ** The new header *)

(** [bits] is the width of the unsigned type; the count is compared as a [size_t]. *)
Definition BIT_MASK_RIGHT (bits n : Z) : Z :=
  if n =? 0 then 0
  else if bits <=? wrapu 64 n then 2 ^ bits - 1
  else Z.shiftr (2 ^ bits - 1) (bits - n).
Definition BIT_MASK_UNSIGNED (bits : Z) : Z := 2 ^ bits - 1.
Definition SIGN (X : Z) : Z := b2z (0 <? X) - b2z (X <? 0).

Definition new_CEIL_DIV (A B : Z) : option Z :=
  q ← c_div A B; r ← c_rem A B; c_add q (b2z (negb (r =? 0))).
Definition new_ROUND_DIV (A B : Z) : option Z :=
  q ← c_div A B; r ← c_rem A B; h ← c_add B 1; h ← c_div h 2; c_add q (b2z (h <=? r)).
Definition ALIGN_OF (x sz : Z) : option Z :=
  m ← c_sub sz 1; s ← c_add x m; Some (Z.land s (Z.lnot m)).
Definition ALIGN_SHORT (x : Z) : option Z := ALIGN_OF x 2.
Definition ALIGN_DWORD (x : Z) : option Z := ALIGN_OF x 4.

(** [test_macros]: the assertions, in their order. *)
Definition test_macros : bool :=
  (BIT_MASK_RIGHT 8 0 =? 0) && (BIT_MASK_RIGHT 32 8 =? 255) && (BIT_MASK_RIGHT 32 12 =? 4095) &&
  (BIT_MASK_RIGHT 32 32 =? 4294967295) && (BIT_MASK_UNSIGNED 8 =? 255) &&
  (SIGN (-10) =? -1) && (SIGN 0 =? 0) && (SIGN 10 =? 1) &&
  bool_decide (new_CEIL_DIV 10 3 = Some 4) && bool_decide (new_CEIL_DIV 10 3 = Some 4) &&
  bool_decide (new_CEIL_DIV 12 3 = Some 4) && bool_decide (new_ROUND_DIV 10 3 = Some 3) &&
  bool_decide (new_ROUND_DIV 8 3 = Some 3) && bool_decide (new_ROUND_DIV 7 3 = Some 2) &&
  bool_decide (ALIGN_OF 10 4 = Some 12) && bool_decide (ALIGN_OF 12 4 = Some 12) &&
  bool_decide (ALIGN_OF 13 4 = Some 16) && bool_decide (ALIGN_SHORT 3 = Some 4) &&
  bool_decide (ALIGN_SHORT 4 = Some 4) && bool_decide (ALIGN_SHORT 5 = Some 6) &&
  bool_decide (ALIGN_DWORD 5 = Some 8) && bool_decide (ALIGN_DWORD 8 = Some 8) &&
  bool_decide (ALIGN_DWORD 9 = Some 12) && bool_decide (ALIGN_BUFFER_SIZE 10 8 = Some 16) &&
  bool_decide (ALIGN_BUFFER_SIZE 16 8 = Some 16) && bool_decide (ALIGN_BUFFER_SIZE 1 8 = Some 8).

(** ** The older headers *)

(** A narrow type is promoted to [int], so the shift is of 32 bits at least. *)
Definition old_BIT_MASK_RIGHT (bits n : Z) : option Z :=
  let count := wrapu 64 (bits - n) in
  if count <? Z.max 32 bits then
    Some (Z.land (if negb (n =? 0) then 2 ^ bits - 1 else 0) (Z.shiftr (2 ^ bits - 1) count))
  else None.
Definition MATH_DIV (a b : Z) : option Z := r ← c_rem a b; s ← c_add a r; c_div s b.
Definition DIV_ROUND_CLOSEST (n d : Z) : option Z :=
  h ← c_div d 2;
  s ← (if Bool.eqb (n <? 0) (d <? 0) then c_add n h else c_sub n h);
  c_div s d.
Definition old_ALIGN_OF (x sz : Z) : option Z :=
  m ← c_sub sz 1; s ← c_add x m; Some (Z.land s (- sz)).
(** The SPI slave's. *)
Definition spi_CEIL_DIV (a b : Z) : option Z := r ← c_rem a b; s ← c_add a r; c_div s b.

(** ** Facts *)
Lemma c_div_mod a b : 0 <= a < 2 ^ 31 -> 0 < b -> a = b * (a / b) + a mod b /\ 0 <= a mod b < b /\
  0 <= a / b <= a.
Proof.
  intros Ha Hb. pose proof (Z.mod_pos_bound a b Hb). pose proof (Z.div_mod a b ltac:(lia)).
  pose proof (Z.div_pos a b ltac:(lia) Hb). split_and!; try lia. nia.
Qed.

Lemma int_of_Some x y : int_of x = Some y -> y = x /\ - 2 ^ 31 <= x < 2 ^ 31.
Proof.
  unfold int_of. destruct (_ && _) eqn:E; [|done]. intros [= <-].
  apply andb_true_iff in E as [?%Z.leb_le ?%Z.ltb_lt]. done.
Qed.

Ltac int_steps :=
  repeat (first [rewrite c_div_small by lia | rewrite c_rem_small by lia |
                 rewrite int_of_small by lia]; cbn [mbind option_bind]).

Lemma ceil_div_value a b : 0 <= a < 2 ^ 31 -> 0 < b < 2 ^ 31 ->
  new_CEIL_DIV a b = Some (a / b + b2z (negb (a mod b =? 0))).
Proof.
  intros Ha Hb. destruct (c_div_mod a b) as (H1 & H2 & H3); [lia..|].
  unfold new_CEIL_DIV, c_add. int_steps.
  apply int_of_small. destruct (Z.eqb_spec (a mod b) 0); cbn [negb b2z]; [lia|]. nia.
Qed.

(** For a dividend that is not negative and a positive divisor: the new [CEIL_DIV] is
    defined on all of them, is the quotient rounded up, and is what the older one
    computes where that does not overflow; [ROUND_DIV] is the nearest quotient with
    halves rounded up, like [MATH_DIV]; but the macro that the header of the SPI slave
    calls [CEIL_DIV] rounds down when the remainder is less than half the divisor. *)
Theorem divisions_agree a b : 0 <= a < 2 ^ 31 -> 0 < b < 2 ^ 31 - 1 ->
  exists n, new_CEIL_DIV a b = Some n /\ (n - 1) * b < a <= n * b /\
    (forall m, CEIL_DIV a b = Some m -> m = n) /\
    (exists k, new_ROUND_DIV a b = Some k /\ 2 * a - b < 2 * (k * b) <= 2 * a + b /\
       forall m, MATH_DIV a b = Some m -> m = k) /\
    (0 < 2 * (a mod b) < b -> forall m, spi_CEIL_DIV a b = Some m -> m = n - 1).
Proof.
  intros Ha Hb. destruct (c_div_mod a b) as (H1 & H2 & H3); [lia..|].
  rewrite ceil_div_value by lia. set (q := a / b) in *. set (r := a mod b) in *.
  assert (forall m, MATH_DIV a b = Some m -> m = q + b2z (b <=? 2 * r)) as Hround.
  { intros m. unfold MATH_DIV, c_add. rewrite c_rem_small by lia. cbn [mbind option_bind]. fold r.
    destruct (int_of (a + r)) as [s|] eqn:E; [|done].
    apply int_of_Some in E as [-> ?]. cbn [mbind option_bind].
    rewrite c_div_small by lia. intros [= <-].
    destruct (Z.leb_spec b (2 * r)); cbn [b2z]; symmetry; [|apply Z.div_unique with (r := 2 * r); lia].
    apply Z.div_unique with (r := 2 * r - b); lia. }
  eexists. split; [done|]. split_and!.
  - destruct (Z.eqb_spec r 0); cbn [negb b2z]; nia.
  - destruct (Z.eqb_spec r 0); cbn [negb b2z]; nia.
  - intros m. unfold CEIL_DIV, c_add, c_sub.
    destruct (int_of (a + b)) as [s|] eqn:E; [|done].
    apply int_of_Some in E as [-> ?]. cbn [mbind option_bind]. int_steps.
    intros [= <-]. symmetry. destruct (Z.eqb_spec r 0); cbn [negb b2z].
    + apply Z.div_unique with (r := b - 1); lia.
    + apply Z.div_unique with (r := r - 1); lia.
  - assert (((b + 1) / 2 <=? r) = (b <=? 2 * r)) as Heq.
    { pose proof (Z.div_mod (b + 1) 2 ltac:(lia)). pose proof (Z.mod_pos_bound (b + 1) 2 ltac:(lia)).
      destruct (Z.leb_spec ((b + 1) / 2) r), (Z.leb_spec b (2 * r)); done || lia. }
    exists (q + b2z (b <=? 2 * r)). split_and!; [|destruct (Z.leb_spec b (2 * r)); cbn [b2z]; nia..|done].
    unfold new_ROUND_DIV, c_add. int_steps. fold q r. rewrite Heq.
    apply int_of_small. destruct (Z.leb_spec b (2 * r)); cbn [b2z]; nia.
  - intros Hr m Hm. rewrite (Hround m Hm). destruct (Z.leb_spec b (2 * r)), (Z.eqb_spec r 0); cbn; lia.
Qed.

Lemma ones_eq n : 2 ^ n - 1 = Z.ones n.
Proof. rewrite Z.ones_equiv. lia. Qed.

(** Masks of the rightmost bits, for the four unsigned types: the new macro is right for
    every count up to the width and beyond; the older one shifts by the width, which is
    undefined, when no bit of a type of 32 bits or more is asked for. *)
Theorem masks_right bits n : bits ∈ [8; 16; 32; 64] -> 0 <= n < 2 ^ 64 ->
  BIT_MASK_RIGHT bits n = 2 ^ Z.min n bits - 1.
Proof.
  intros Hb Hn.
  assert (8 <= bits <= 64) as Hbits by (repeat (apply elem_of_cons in Hb as [->|Hb]; [lia|]); by apply elem_of_nil in Hb).
  unfold BIT_MASK_RIGHT, wrapu. rewrite Z.mod_small by lia.
  destruct (Z.eqb_spec n 0) as [->|Hne]; [by rewrite Z.min_l by lia|].
  destruct (Z.leb_spec bits n); [by rewrite Z.min_r by lia|]. rewrite Z.min_l by lia.
  rewrite Z.shiftr_div_pow2 by lia. rewrite !ones_eq, Z.ones_div_pow2 by lia. f_equal. lia.
Qed.

Theorem old_masks_right bits n : bits ∈ [8; 16; 32; 64] -> 0 <= n <= bits ->
  old_BIT_MASK_RIGHT bits n = if (n =? 0) && (32 <=? bits) then None else Some (2 ^ n - 1).
Proof.
  intros Hb Hn.
  assert (8 <= bits <= 64) as Hbits by (repeat (apply elem_of_cons in Hb as [->|Hb]; [lia|]); by apply elem_of_nil in Hb).
  unfold old_BIT_MASK_RIGHT, wrapu. rewrite Z.mod_small by lia. cbv zeta.
  destruct (Z.eqb_spec n 0) as [->|Hne]; cbn [negb andb].
  - rewrite Z.land_0_l, Z.sub_0_r.
    destruct (Z.ltb_spec bits (Z.max 32 bits)), (Z.leb_spec 32 bits); done || lia.
  - destruct (Z.ltb_spec (bits - n) (Z.max 32 bits)); [|lia].
    rewrite Z.shiftr_div_pow2, !ones_eq, Z.ones_div_pow2 by lia.
    rewrite Z.land_ones by lia. rewrite Z.ones_mod_pow2 by lia. do 2 f_equal. lia.
Qed.

(** Both headers align alike, up to the least multiple of a power of two. *)
Theorem aligns x k : 0 <= k <= 30 -> 0 <= x -> x + 2 ^ k <= 2 ^ 31 ->
  exists y, ALIGN_OF x (2 ^ k) = Some y /\ old_ALIGN_OF x (2 ^ k) = Some y /\
    (2 ^ k | y) /\ x <= y < x + 2 ^ k.
Proof.
  intros Hk Hx Hs. assert (0 < 2 ^ k) as Hp by (apply Z.pow_pos_nonneg; lia).
  unfold ALIGN_OF, old_ALIGN_OF, c_sub, c_add. int_steps.
  assert (Z.lnot (2 ^ k - 1) = - 2 ^ k) as Hn by (unfold Z.lnot; lia).
  assert (Z.land (x + (2 ^ k - 1)) (Z.lnot (2 ^ k - 1)) = (x + (2 ^ k - 1)) / 2 ^ k * 2 ^ k) as Hy.
  { rewrite <- Z.ldiff_land, ones_eq, Z.ldiff_ones_r by lia.
    by rewrite Z.shiftr_div_pow2, Z.shiftl_mul_pow2 by lia. }
  eexists. split; [by rewrite Hy|]. rewrite <- Hn. split; [by rewrite Hy|]. split.
  - apply Z.divide_factor_r.
  - pose proof (Z.div_mod (x + (2 ^ k - 1)) (2 ^ k) ltac:(lia)).
    pose proof (Z.mod_pos_bound (x + (2 ^ k - 1)) (2 ^ k) Hp). lia.
Qed.

(** The program that tests the header ends its tests. *)
Theorem macro_tests_pass : test_macros = true.
Proof. vm_compute. reflexivity. Qed.

(** ** Concrete values *)
Lemma divisions_agree_witness :
  exists n, new_CEIL_DIV 10 3 = Some n /\ (n - 1) * 3 < 10 <= n * 3 /\
    (forall m, spi_CEIL_DIV 10 3 = Some m -> m = n - 1).
Proof.
  destruct (divisions_agree 10 3) as (n & H1 & H2 & _ & _ & H5); [lia..|].
  exists n. split; [exact H1|]. split; [exact H2|]. apply H5. vm_compute. by split.
Defined.
