(* ===== verification/DebugMacros.v ===== *)
(** * Debug macros

    What the debug headers print, at which level: [imx8mm/hello_world/dbg.h], the older
    [c/dbg.h] and [c/signal_thrd/dbg.h] with [trace.h], and the headers of the kernel
    modules ([linux/kernel/testmod/kdbg.h] and [soft_uart/bitbang/kdbg.h]).  A level is
    the [unsigned] [dbg_lvl], or the [int] parameter of a module; whether a macro prints
    is a [bool].  The text in front of a message is left out. *)
From S2P Require Import Prelude.
From S2P Require Import MacroHeader.
From S2P Require Import Kernel.
From S2P Require Import BitbangDriver.
From stdpp Require Import options.
#[local] Open Scope Z_scope.

(** ** Binary numbers as text *)

(** [imx8mm/hello_world/dbg.h]; the results are the characters, 49 for a 1. *)
Definition WTBSM (word shift : Z) : Z := if c_true (Z.land word (Z.shiftl 1 shift)) then 49 else 48.
Definition NIBBLE_TO_BINARY (word : Z) : list Z :=
  [WTBSM word 3; WTBSM word 2; WTBSM word 1; WTBSM word 0].
Definition BYTE_TO_BINARY (byte : Z) : list Z :=
  NIBBLE_TO_BINARY (Z.shiftr byte 4) ++ NIBBLE_TO_BINARY byte.
Definition WORD_TO_BINARY (word : Z) : list Z :=
  BYTE_TO_BINARY (Z.shiftr word 24) ++ BYTE_TO_BINARY (Z.shiftr word 16) ++
  BYTE_TO_BINARY (Z.shiftr word 8) ++ BYTE_TO_BINARY word.

(** [c/dbg.h] and [c/signal_thrd/dbg.h] *)
Definition masked (word mask : Z) : Z := if c_true (Z.land word mask) then 49 else 48.
Definition old_BYTE_TO_BINARY (byte : Z) : list Z :=
  map (masked byte) [0x80; 0x40; 0x20; 0x10; 0x08; 0x04; 0x02; 0x01].
Definition old_WORD_TO_BINARY (word : Z) : list Z :=
  map (masked word)
    [0x80000000; 0x40000000; 0x20000000; 0x10000000; 0x08000000; 0x04000000; 0x02000000; 0x01000000;
     0x800000; 0x400000; 0x200000; 0x100000; 0x080000; 0x040000; 0x020000; 0x010000;
     0x8000; 0x4000; 0x2000; 0x1000; 0x0800; 0x0400; 0x0200; 0x0100;
     0x80; 0x40; 0x20; 0x10; 0x08; 0x04; 0x02; 0x01].

(** ** Levels *)

Definition DBG_SHIFT_VERBOSE : Z := 1.
Definition DBG_SHIFT_TRACE : Z := 2.
Definition DBG_SHIFT_MORE : Z := 3.

(** [imx8mm/hello_world/dbg.h] *)
Module New.
Definition DBG_LVL_INC (dbg_lvl : Z) : Z := u32 (Z.lor (Z.shiftl dbg_lvl 1) 1).
Definition VERB (dbg_lvl : Z) : bool := c_true (Z.land dbg_lvl (Z.shiftl 1 DBG_SHIFT_VERBOSE)).
Definition DBG (dbg_lvl : Z) : bool := c_true dbg_lvl.
Definition TRACE_PRINT_MASK (mask dbg_lvl : Z) : bool := Z.land dbg_lvl mask =? mask.
Definition TRACE_PRINT_SHIFT (shift dbg_lvl : Z) : bool := TRACE_PRINT_MASK (Z.shiftl 1 shift) dbg_lvl.
Definition TRACE_PRINT_SHIFT2 (shift0 shift1 dbg_lvl : Z) : bool :=
  TRACE_PRINT_MASK (Z.lor (Z.shiftl 1 shift0) (Z.shiftl 1 shift1)) dbg_lvl.

(** With [TRACE_SHIFT_UNIT] defined as [u], or not. *)
Definition TRACE (unit : option Z) (dbg_lvl : Z) : bool :=
  match unit with
  | Some u => TRACE_PRINT_SHIFT u dbg_lvl
  | None => TRACE_PRINT_SHIFT DBG_SHIFT_TRACE dbg_lvl
  end.
Definition TRACE_MORE (unit : option Z) (dbg_lvl : Z) : bool :=
  match unit with
  | Some u => TRACE_PRINT_SHIFT2 u DBG_SHIFT_TRACE dbg_lvl
  | None => TRACE_PRINT_SHIFT DBG_SHIFT_MORE dbg_lvl
  end.
Definition TRACE_HIGH (unit : option Z) (dbg_lvl : Z) : bool :=
  match unit with
  | Some u => TRACE_PRINT_SHIFT2 u DBG_SHIFT_MORE dbg_lvl
  | None => TRACE_MORE None dbg_lvl
  end.

(** [__builtin_ctz]: the number of zeros below the lowest 1; undefined for 0. *)
Fixpoint ctz_from (fuel : nat) (i x : Z) : option Z :=
  match fuel with
  | O => None
  | S fuel' => if Z.testbit x i then Some i else ctz_from fuel' (i + 1) x
  end.
Definition ctz (x : Z) : option Z := ctz_from 32 0 x.

Definition DBG_LVL (dbg_lvl : Z) : option Z :=
  if c_true dbg_lvl then
    ctz (u32 (Z.lnot (Z.land dbg_lvl (BIT_MASK_RIGHT 32 (DBG_SHIFT_MORE + 1)))))
  else Some 0.
End New.

(** [c/signal_thrd/dbg.h] and [trace.h]; [c/dbg.h] has the first two. *)
Module Old.
Definition old_VERB (dbg_lvl : Z) : bool := 1 <? dbg_lvl.
Definition old_DBG (dbg_lvl : Z) : bool := c_true dbg_lvl.
Definition TRACE_SHIFT_MAX : Z := 2.
Definition TRACE_MASK_DEFAULT : Z := Z.shiftl 1 TRACE_SHIFT_MAX.
Definition TRACESM (mask dbg_lvl : Z) : bool := c_true (Z.land dbg_lvl mask).
Definition old_TRACE (dbg_lvl : Z) : bool := TRACESM TRACE_MASK_DEFAULT dbg_lvl.
End Old.

(** The kernel modules: [testmod/kdbg.h] and its copies, and [bitbang/kdbg.h]. *)
Module KDbg.
Definition kdbg_TRACE (DBG_LVL : Z) : bool := 1 <? DBG_LVL.
Definition kdbg_DBG (DBG_LVL : Z) : bool := c_true DBG_LVL.
Definition TRACE_LVL_MIN : Z := 3.
Definition bitbang_TRACE_LVL (lvl DBG_LVL : Z) : bool := lvl <=? DBG_LVL.
Definition bitbang_TRACE (DBG_LVL : Z) : bool := bitbang_TRACE_LVL TRACE_LVL_MIN DBG_LVL.
Definition bitbang_VERB (DBG_LVL : Z) : bool := 1 <? DBG_LVL.
Definition bitbang_DBG (DBG_LVL : Z) : bool := c_true DBG_LVL.
End KDbg.

(** ** Messages of a program

    [imx8mm/hello_world/dbg.h]: what is printed with which [errno], oldest first.  [ERROR]
    ends the program. *)
Record program := Program { dbg_lvl : Z; errno : Z; printed : list (string * Z) }.
Inductive statement :=
  | Fails (e : Z)              (** a call of the library that sets [errno] *)
  | DBG_CLEAR_ERR
  | Says (shown : Z -> bool) (fmt : string)      (** [INFO], [DBG], [VERB], [ERR], [WARN] *)
  | TRACE_PRINT_COND (shown : Z -> bool) (fmt : string)
  | WARNING (fmt : string)
  | ERROR (fmt : string).

Definition say (fmt : string) (e : Z) (a : program) : program :=
  Program (dbg_lvl a) (errno a) (printed a ++ [(fmt, e)]).
Definition set_errno (e : Z) (a : program) : program := Program (dbg_lvl a) e (printed a).

(** The result, and whether the program goes on. *)
Definition run1 (s : statement) (a : program) : program * bool :=
  match s with
  | Fails e => (set_errno e a, true)
  | DBG_CLEAR_ERR => (set_errno 0 a, true)
  | Says shown fmt => (if shown (dbg_lvl a) then say fmt 0 a else a, true)
  | TRACE_PRINT_COND shown fmt =>
      (if shown (dbg_lvl a) then set_errno 0 (say fmt (errno a) a) else a, true)
  | WARNING fmt => (set_errno 0 (say fmt (errno a) a), true)
  | ERROR fmt => (say fmt (errno a) a, false)
  end.
Fixpoint run (l : list statement) (a : program) : program :=
  match l with
  | [] => a
  | s :: l' => let '(a', on) := run1 s a in if on then run l' a' else a'
  end.

(** ** Facts about numbers *)

Lemma pow2_bit x i : 0 <= i -> c_true (Z.land x (2 ^ i)) = Z.testbit x i.
Proof.
  intros Hi. unfold c_true. destruct (Z.testbit x i) eqn:Hb.
  - apply negb_true_iff, Z.eqb_neq. intros H0.
    assert (Z.testbit (Z.land x (2 ^ i)) i = true) as Ht
      by (by rewrite Z.land_spec, Hb, Z.pow2_bits_true by done).
    by rewrite H0, Z.bits_0 in Ht.
  - apply negb_false_iff, Z.eqb_eq, Z.bits_inj'. intros j Hj.
    rewrite Z.land_spec, Z.pow2_bits_eqb, Z.bits_0 by done.
    destruct (Z.eqb_spec i j) as [<-|]; [by rewrite Hb|by rewrite andb_false_r].
Qed.

Definition digit (w i : Z) : Z := 48 + b2z (Z.testbit w i).

Lemma masked_digit w i : 0 <= i -> masked w (2 ^ i) = digit w i.
Proof. intros Hi. unfold masked, digit. rewrite pow2_bit by done. by destruct (Z.testbit w i). Qed.

Lemma WTBSM_digit w k i : 0 <= i -> 0 <= k -> WTBSM (Z.shiftr w k) i = digit w (i + k).
Proof.
  intros Hi Hk. unfold WTBSM, digit. rewrite Z.shiftl_1_l, pow2_bit, Z.shiftr_spec by done.
  by destruct (Z.testbit w (i + k)).
Qed.

(** The digits of the lowest [n] bits, the highest first. *)
Definition digits (n : nat) (w : Z) : list Z := map (fun i => digit w (Z.of_nat i)) (rev (seq 0 n)).

Definition read_binary (l : list Z) : Z := foldl (fun x c => 2 * x + (c - 48)) 0 l.

Lemma read_from l x : foldl (fun x c => 2 * x + (c - 48)) x l = x * 2 ^ Z.of_nat (length l) + read_binary l.
Proof.
  unfold read_binary. revert x. induction l as [|c l IH]; intros x; cbn [foldl length]; [cbn; lia|].
  rewrite IH, (IH (2 * 0 + (c - 48))). rewrite Nat2Z.inj_succ, Z.pow_succ_r by lia. lia.
Qed.

Lemma read_digits n w : read_binary (digits n w) = w mod 2 ^ Z.of_nat n.
Proof.
  unfold digits. induction n as [|n IH]; [by rewrite Z.mod_1_r|].
  rewrite seq_S, rev_app_distr. cbn [rev app map Nat.add].
  unfold read_binary. cbn [foldl]. rewrite read_from, IH, length_map, length_rev, length_seq.
  assert (0 < 2 ^ Z.of_nat n) as Hp by (apply Z.pow_pos_nonneg; lia).
  replace (2 ^ Z.of_nat (S n)) with (2 ^ Z.of_nat n * 2)
    by (rewrite Nat2Z.inj_succ, Z.pow_succ_r by lia; lia).
  rewrite Z.rem_mul_r by lia. unfold digit.
  assert (b2z (Z.testbit w (Z.of_nat n)) = (w / 2 ^ Z.of_nat n) mod 2) as ->
    by (rewrite <- Z.testbit_spec' by lia; by destruct (Z.testbit _ _)).
  lia.
Qed.

Lemma byte_digits w k : 0 <= k ->
  BYTE_TO_BINARY (Z.shiftr w k) = map (fun i => digit w (i + k)) [7; 6; 5; 4; 3; 2; 1; 0].
Proof.
  intros Hk. unfold BYTE_TO_BINARY, NIBBLE_TO_BINARY. rewrite Z.shiftr_shiftr by done.
  rewrite !WTBSM_digit by lia. cbn [app map].
  repeat match goal with |- _ :: _ = _ :: _ => f_equal; [apply (f_equal (digit w)); lia|..] end.
Qed.

Lemma byte_digits_0 w : BYTE_TO_BINARY w = digits 8 w.
Proof. rewrite <- (Z.shiftr_0_r w) at 1. by rewrite byte_digits. Qed.

Lemma word_digits w : WORD_TO_BINARY w = digits 32 w.
Proof. unfold WORD_TO_BINARY. by rewrite !byte_digits, byte_digits_0 by done. Qed.

Lemma masked_digits (l : list Z) w : Forall (fun i => 0 <= i) l ->
  map (masked w) (map (Z.pow 2) l) = map (digit w) l.
Proof.
  intros Hl. rewrite map_map. induction Hl; cbn [map]; [done|].
  by rewrite masked_digit, IHHl.
Qed.

Lemma old_digits n w : map (masked w) (map (Z.pow 2) (map Z.of_nat (rev (seq 0 n)))) = digits n w.
Proof.
  rewrite masked_digits; [by unfold digits; rewrite map_map|].
  apply Forall_forall. intros i Hi. apply list_elem_of_fmap in Hi as (j & -> & _). lia.
Qed.

(** The two ways to print a byte and a word in binary agree on every integer; what they
    print are its lowest bits, the highest first, and reads back as the integer modulo
    the width. *)
Theorem binary_agree w :
  BYTE_TO_BINARY w = digits 8 w /\ old_BYTE_TO_BINARY w = digits 8 w /\
  read_binary (BYTE_TO_BINARY w) = u8 w /\
  WORD_TO_BINARY w = digits 32 w /\ old_WORD_TO_BINARY w = digits 32 w /\
  read_binary (WORD_TO_BINARY w) = u32 w.
Proof.
  rewrite byte_digits_0, word_digits. split_and!; try done.
  - exact (old_digits 8 w).
  - apply (read_digits 8).
  - exact (old_digits 32 w).
  - apply (read_digits 32).
Qed.

(** ** Levels *)

(** [DBG_LVL] counts the ones at the right end of the level, up to four, and is always
    defined. *)
Lemma dbg_lvl_low x : 0 <= x < 2 ^ 32 ->
  New.DBG_LVL x = if c_true x then New.ctz (u32 (Z.lnot (x mod 16))) else Some 0.
Proof.
  intros Hx. unfold New.DBG_LVL. change (BIT_MASK_RIGHT 32 (DBG_SHIFT_MORE + 1)) with (Z.ones 4).
  by rewrite Z.land_ones by done.
Qed.

Definition run_of_ones (n x : Z) : bool :=
  forallb (fun i => Z.testbit x (Z.of_nat i)) (seq 0 (Z.to_nat n)) &&
  ((n =? 4) || negb (Z.testbit x n)).

Theorem dbg_lvl_counts_ones x : 0 <= x < 2 ^ 32 ->
  exists n, New.DBG_LVL x = Some n /\ 0 <= n <= 4 /\ run_of_ones n (x mod 16) = true.
Proof.
  intros Hx. rewrite dbg_lvl_low by done.
  destruct (Z.eqb_spec x 0) as [->|Hne]; [by exists 0|].
  unfold c_true. rewrite (proj2 (Z.eqb_neq _ _) Hne). cbn [negb].
  pose proof (Z.mod_pos_bound x 16 ltac:(lia)) as Hm.
  assert (forallb (fun y => match New.ctz (u32 (Z.lnot y)) with
    | Some n => (0 <=? n) && (n <=? 4) && run_of_ones n y | None => false end)
    (map Z.of_nat (seq 0 16)) = true) as Hall by (vm_compute; reflexivity).
  rewrite forallb_forall in Hall. specialize (Hall (x mod 16)).
  destruct (New.ctz _) as [n|].
  - exists n. assert ((0 <=? n) && (n <=? 4) && run_of_ones n (x mod 16) = true) as H.
    { apply Hall, in_map_iff. exists (Z.to_nat (x mod 16)). split; [lia|apply in_seq; lia]. }
    apply andb_true_iff in H as [[?%Z.leb_le ?%Z.leb_le]%andb_true_iff ?]. done.
  - assert (false = true); [|done].
    apply Hall, in_map_iff. exists (Z.to_nat (x mod 16)). split; [lia|apply in_seq; lia].
Qed.

(** A level that an option given [n] times has raised. *)
Definition raised (n : nat) : Z := Nat.iter n New.DBG_LVL_INC 0.

Lemma raised_value n : raised n = Z.ones (Z.min (Z.of_nat n) 32).
Proof.
  induction n as [|n IH]; [done|]. unfold raised in *. cbn [Nat.iter nat_rect].
  unfold Nat.iter in IH. rewrite IH. unfold New.DBG_LVL_INC, wrapu.
  rewrite <- Z.land_ones by done. apply Z.bits_inj'. intros i Hi.
  rewrite Z.land_spec, Z.lor_spec, !Z.testbit_ones_nonneg by lia.
  rewrite Z.shiftl_spec by done.
  change 1 with (2 ^ 0) at 2. rewrite Z.pow2_bits_eqb by done.
  destruct (Z.eqb_spec 0 i) as [<-|Hne].
  - rewrite orb_true_r. cbn [andb]. destruct (Z.ltb_spec 0 32), (Z.ltb_spec 0 (Z.min (Z.of_nat (S n)) 32)); lia.
  - rewrite orb_false_r, Z.testbit_ones_nonneg by lia.
    destruct (Z.ltb_spec (i - 1) (Z.min (Z.of_nat n) 32)), (Z.ltb_spec i 32),
      (Z.ltb_spec i (Z.min (Z.of_nat (S n)) 32)); done || lia.
Qed.

(** Raised [n] times from 0, the level shows [DBG] from the first time on, [VERB] from
    the second, [TRACE] from the third and [TRACE_MORE] from the fourth; the older macros
    agree at these levels, and [DBG_LVL] gives [n] up to four.  Raising it more than 32
    times changes nothing. *)
Theorem raised_levels n :
  let l := raised n in
  l = 2 ^ Z.min (Z.of_nat n) 32 - 1 /\
  New.DBG_LVL l = Some (Z.min (Z.of_nat n) 4) /\
  New.DBG l = Nat.leb 1 n /\ New.VERB l = Nat.leb 2 n /\
  New.TRACE None l = Nat.leb 3 n /\ New.TRACE_MORE None l = Nat.leb 4 n /\
  Old.old_DBG l = New.DBG l /\ Old.old_VERB l = New.VERB l /\ Old.old_TRACE l = New.TRACE None l.
Proof.
  destruct (decide (n < 32)%nat) as [Hn|Hn].
  - do 32 (destruct n as [|n]; [vm_compute; split_and!; reflexivity|]). lia.
  - cbv zeta. rewrite raised_value. rewrite !Z.min_r by lia.
    do 4 (destruct n as [|n]; [lia|]). vm_compute. split_and!; reflexivity.
Qed.

(** Levels that are numbers rather than masks: the older [TRACE] shows 4 to 7 and not 8,
    while its [VERB] shows them all; the newer [VERB] does not show 4. *)
Theorem levels_not_nested :
  map Old.old_TRACE [3; 4; 7; 8; 12] = [false; true; true; false; true] /\
  (forall x, 2 <= x -> Old.old_VERB x = true) /\
  New.VERB 4 = false /\ New.TRACE None 4 = true /\ New.DBG_LVL 4 = Some 0.
Proof.
  split_and!; try by vm_compute. intros x Hx. unfold Old.old_VERB. lia.
Qed.

(** The bit-bang driver: a number written to the attribute [dbg] that is at most 10
    becomes the level, and the level decides alone which of its messages are printed;
    any other leaves it.  A negative level, which only the module parameter takes,
    shows [DBG] alone. *)
Theorem bitbang_messages (kstrtouint : string -> Z + Z) buf count l v :
  kstrtouint buf = inr v -> 0 <= v < 2 ^ 32 ->
  let '(ret, l') := dbg_store kstrtouint buf count l in
  (v <= 10 -> ret = count /\ l' = v /\ KDbg.bitbang_DBG l' = (1 <=? v) /\
     KDbg.bitbang_VERB l' = (2 <=? v) /\ KDbg.bitbang_TRACE l' = (3 <=? v) /\
     KDbg.kdbg_TRACE l' = (2 <=? v)) /\
  (10 < v -> ret = - ERANGE /\ l' = l) /\
  (l < 0 -> KDbg.bitbang_DBG l = true /\ KDbg.bitbang_VERB l = false /\ KDbg.bitbang_TRACE l = false).
Proof.
  intros Hk Hv. unfold dbg_store. rewrite Hk.
  assert (l < 0 -> KDbg.bitbang_DBG l = true /\ KDbg.bitbang_VERB l = false /\
    KDbg.bitbang_TRACE l = false) as Hneg.
  { intros Hl. unfold KDbg.bitbang_DBG, KDbg.bitbang_VERB, KDbg.bitbang_TRACE,
      KDbg.bitbang_TRACE_LVL, KDbg.TRACE_LVL_MIN, c_true.
    split_and!; lia. }
  destruct (Z.ltb_spec 10 v) as [Hgt|Hle]; (split; [|split; [|done]]); intros Hc; try (done || lia).
  rewrite wraps_small by (cbn; lia).
  unfold KDbg.bitbang_DBG, KDbg.bitbang_VERB, KDbg.bitbang_TRACE,
    KDbg.bitbang_TRACE_LVL, KDbg.TRACE_LVL_MIN, KDbg.kdbg_TRACE, c_true.
  split_and!; done || lia.
Qed.

(** ** Errors are reported once *)
Definition quiet (s : statement) : Prop := match s with Fails _ => False | _ => True end.
Definition reports (a : program) : nat := length (filter (fun m => m.2 <> 0) (printed a)).

(** After one call failed, any number of messages, traces and warnings, shown or not,
    report its [errno] once at most; and not at all after it was cleared. *)
Theorem errno_reported_once l a : Forall quiet l ->
  let a' := run l a in
  (reports a' <= reports a + if Z.eqb (errno a) 0 then 0 else 1)%nat /\
  (errno a' = errno a \/ errno a' = 0).
Proof.
  intros Hl. revert a. induction Hl as [|s l Hs Hl IH]; intros a; cbn [run]; [split; [lia|by left]|].
  assert (forall fmt e b, reports (say fmt e b) =
    (reports b + if Z.eqb e 0 then 0 else 1)%nat) as Hsay.
  { intros fmt e b. unfold reports, say. cbn. rewrite filter_app, length_app. f_equal.
    cbn. unfold filter. cbn. destruct (Z.eqb_spec e 0); by case_decide. }
  assert (forall b, reports (set_errno 0 b) = reports b) as Hset by done.
  destruct s as [e| |shown fmt|shown fmt|fmt|fmt]; cbn [run1]; [done|..].
  - destruct (IH (set_errno 0 a)) as [H1 H2]. rewrite Hset in H1. cbn in *. split; [lia|].
    right. by destruct H2.
  - destruct (shown (dbg_lvl a)); [|apply IH].
    destruct (IH (say fmt 0 a)) as [H1 H2]. rewrite Hsay in H1. cbn in *. split; [lia|done].
  - destruct (shown (dbg_lvl a)); [|apply IH].
    destruct (IH (set_errno 0 (say fmt (errno a) a))) as [H1 H2]. rewrite Hset, Hsay in H1. cbn in *.
    split; [lia|]. right. by destruct H2.
  - destruct (IH (set_errno 0 (say fmt (errno a) a))) as [H1 H2]. rewrite Hset, Hsay in H1. cbn in *.
    split; [lia|]. right. by destruct H2.
  - rewrite Hsay. split; [lia|by left].
Qed.
