(* ===== verification/PlatformModules.v ===== *)
(** * Platform modules without state

    [linux/kernel/dtmod/dtmod-main.c], whose probe prints what the device tree says of
    its device, [linux/kernel/platform/testmod-main.c], and the parts of
    [linux/kernel/gpioirq/gpioirq-main.c] that only print; and the skeletons of modules,
    [linux/kernel/testmod/testmod-main.c], [openwrt/kernel/kmod/kmod-main.c] and
    [gpt/pdrv_sysfs.c] with its copy.  What the device tree answers is a parameter
    ([DeviceTree]); what is printed is a list of messages, oldest first. *)
From S2P Require Import Prelude.
From S2P Require Import Kernel.
From S2P Require Import LinuxDrivers.
From S2P Require Import DebugMacros.
From stdpp Require Import options.

(** [None]: no such resource, or a property that is missing and leaves the variable as
    it was. *)
Class DeviceTree := {
  platform_get_resource_byname : string -> option (Z * Z);   (** start and end *)
  of_property_read_string : string -> option string;
  of_property_read_u32 : string -> option Z;
}.

Inductive message :=
  | Resource_missing (name : string)
  | Resource (name : string) (start size : Z)
  | String (label : option string)            (** [None]: the null pointer *)
  | Unsigned (n : Z)
  | Trace (text : string)
  | Irq (irq : Z).

Section dtmod.
Context `{DeviceTree}.

Definition resource_size (r : Z * Z) : Z := u64 (snd r - fst r + 1).
Definition names : list string := ["ohci"; "config"; "ehci"]%string.

Definition get_named_resources : list message :=
  map (fun name =>
    match platform_get_resource_byname name with
    | None => Resource_missing name
    | Some r => Resource name (fst r) (resource_size r)
    end) names.
Definition get_strring : list message := [String (of_property_read_string "label")].
Definition get_uint : list message := [Unsigned (default (u32 (Z.lnot 0)) (of_property_read_u32 "foo"))].

Definition dt_probe : list message * Z :=
  ([Trace ""%string] ++ get_named_resources ++ get_strring ++ get_uint, 0).
Definition dt_remove : list message * Z := ([Trace "Remove"%string], 0).
End dtmod.

(** [dtmod-main.c] and [testmod-main.c] drop the result of the registration. *)
Definition dt_init {S} : M S Z := do_ platform_driver_register;; mret 0.
Definition dt_exit {S} : M S unit := do_ platform_driver_unregister.
Definition testmod_probe : list message * Z := ([Trace "DBG msg"; Trace "Probed"]%string, 0).
Definition testmod_remove : list message * Z := ([Trace "DBG msg"; Trace "Removed"]%string, 0).
Definition testmod_init {S} : M S Z := do_ platform_driver_register;; mret 0.
Definition testmod_exit {S} : M S unit := do_ platform_driver_unregister.

(** [gpioirq-main.c] *)
Definition gpioirq_handler (irq : Z) : list message * Z := ([Irq irq], 1).
Definition gpioirq_remove : list message * Z := ([Trace "Removed"%string], 0).
Definition gpioirq_init {S} : M S Z := do_ platform_driver_register;; mret 0.
Definition gpioirq_exit {S} : M S unit := do_ platform_driver_unregister.

(** ** Skeletons *)

(** [testmod-main.c]: constants of the kernel's page tables, and where its log buffer
    and three variables are. *)
Inductive line :=
  | Info (text : string) (values : list Z)
  | Traced (text : string) (values : list Z)
  | Constant (name : string) (value : Z).

Record page_tables := PageTables {
  PAGE_OFFSET : Z; PGDIR_SHIFT : Z; PUD_SHIFT : Z; PMD_SHIFT : Z; PAGE_SHIFT : Z;
  PTRS_PER_PGD : Z; PTRS_PER_PUD : Z; PTRS_PER_PMD : Z; PTRS_PER_PTE : Z;
  PAGE_MASK : Z;
}.

Definition get_pgtable_macro (p : page_tables) : list line :=
  [Constant "PAGE_OFFSET" (PAGE_OFFSET p); Constant "PGDIR_SHIFT" (PGDIR_SHIFT p);
   Constant "PUD_SHIFT" (PUD_SHIFT p); Constant "PMD_SHIFT" (PMD_SHIFT p);
   Constant "PAGE_SHIFT" (PAGE_SHIFT p);
   Constant "PTRS_PER_PGD" (PTRS_PER_PGD p); Constant "PTRS_PER_PUD" (PTRS_PER_PUD p);
   Constant "PTRS_PER_PMD" (PTRS_PER_PMD p); Constant "PTRS_PER_PTE" (PTRS_PER_PTE p);
   Constant "PAGE_MASK" (PAGE_MASK p)].

(** [TRACE] of [kdbg.h]. *)
Definition traced (DBG_LVL : Z) (text : string) (values : list Z) : list line :=
  if KDbg.kdbg_TRACE DBG_LVL then [Traced text values] else [].

Definition testmod_load (DBG_LVL : Z) (p : page_tables) (log_buf g_int loc_int ptr : Z)
    : list line * Z :=
  ([Info "Init done" []] ++ get_pgtable_macro p ++ [Info "Log buffer at" [log_buf]] ++
   traced DBG_LVL "tracing here..." [] ++
   traced DBG_LVL "Addr static: local: ptr:" [g_int; loc_int; ptr], 0).
Definition testmod_unload : list line := [Info "Unloaded" []].

Definition kmod_load : list line * Z := ([Info "Init done" []], 0).
Definition kmod_unload : list line := [Info "Unloaded" []].

(** [pdrv_sysfs.c]; [module_platform_driver] registers the driver and gives its result. *)
Definition pdrv_probe (name : string) : list line * Z :=
  ([Info ("pdrv_sysfs: probe called for device " +:+ name) []], 0).
Definition pdrv_remove (name : string) : list line * Z :=
  ([Info ("pdrv_sysfs: remove called for device " +:+ name) []], 0).
Definition pdrv_sysfs_init {S} : M S Z := ask platform_driver_register.
Definition pdrv_sysfs_exit {S} : M S unit := do_ platform_driver_unregister.

(** ** Facts *)

(** The skeletons load whatever the debug level is; it decides only whether the two
    traces are among the lines, and the constants are printed once each. *)
Theorem testmod_prints lvl p log_buf g_int loc_int ptr :
  let '(lines, ret) := testmod_load lvl p log_buf g_int loc_int ptr in
  ret = 0 /\ length lines = (if (1 <? lvl)%Z then 14 else 12)%nat /\
  (forall name v, In (Constant name v) lines <-> In (Constant name v) (get_pgtable_macro p)) /\
  (In (Traced "Addr static: local: ptr:" [g_int; loc_int; ptr]) lines <-> 1 < lvl).
Proof.
  unfold testmod_load, traced, KDbg.kdbg_TRACE. destruct (Z.ltb_spec 1 lvl);
    (split_and!; [done|done|intros name v|]);
    rewrite ?in_app_iff; cbn; intuition (congruence || lia).
Qed.

(** With [module_platform_driver] a registration that fails fails the load, and load and
    unload leave nothing behind. *)
Theorem pdrv_sysfs_balanced {S} (e : env S) s :
  wp e pdrv_sysfs_init (fun r s' t =>
    if r =? 0 then wp e pdrv_sysfs_exit (fun _ _ t' => ledger t' = Some []) s' t
    else ledger t = Some []) s [].
Proof.
  unfold pdrv_sysfs_init, pdrv_sysfs_exit. wp_run.
  lazymatch goal with |- if ?b then _ else _ => destruct b eqn:? end; wp_run; path_ledger; done.
Qed.

(** The device of [test.dts]: the order of "reg-names" does not matter. *)
Theorem dt_probe_reports `{DeviceTree} :
  snd dt_probe = 0 /\ length (fst dt_probe) = 6%nat /\
  (forall i name, names !! i = Some name ->
     fst dt_probe !! S i = Some (match platform_get_resource_byname name with
       | None => Resource_missing name
       | Some (first, last) => Resource name first (u64 (last - first + 1)) end)) /\
  fst dt_probe !! 4%nat = Some (String (of_property_read_string "label")) /\
  fst dt_probe !! 5%nat = Some (Unsigned (match of_property_read_u32 "foo" with
    | Some n => n | None => 2 ^ 32 - 1 end)).
Proof.
  split_and!; try done.
  - intros i name Hi. do 3 (destruct i as [|i]; [injection Hi as <-; cbn;
      by destruct (platform_get_resource_byname _) as [[? ?]|]|]). done.
Qed.

(** The modules that drop the result of [platform_driver_register] load with success
    whatever it is; when it failed, unloading unregisters a driver that is not
    registered, and when it did not, load and unload leave nothing behind. *)
Theorem dropped_registration {S} (e : env S) (s : S) init exit :
  In (init, exit) [(dt_init, dt_exit); (testmod_init, testmod_exit);
    (gpioirq_init, gpioirq_exit); (panel_init, panel_exit)] ->
  wp e init (fun r s' t =>
    r = 0 /\
    let ok := answer e [] platform_driver_register =? 0 in
    ledger t = Some (if ok then [R_platform_driver] else []) /\
    wp e exit (fun _ _ t' => ledger t' = if ok then Some [] else None) s' t) s [].
Proof.
  intros Hin. assert (init = dt_init /\ exit = dt_exit) as [-> ->].
  { repeat (destruct Hin as [Hin|Hin]; [by injection Hin as <- <-|]). done. }
  unfold wp, dt_init, dt_exit, do_, ask, mbind, M_bind. cbn.
  split; [done|]. destruct (answer e [] platform_driver_register =? 0) eqn:E;
    cbn [ledger effect_of ev_call ev_ret]; rewrite ?E; cbn; rewrite ?E; done.
Qed.

Lemma dropped_registration_witness :
  wp (Env (fun _ _ => - 16) (fun _ s => s)) dt_init (fun r _ t => r = 0 /\ ledger t = Some []) tt [].
Proof.
  eapply wp_mono; [apply (dropped_registration (Env (fun _ _ => - 16) (fun _ s => s)) tt dt_init dt_exit);
    by left|].
  intros r s' t (Hr & Hl & _). by split.
Defined.
