(* ===== verification/SignalThreads.v ===== *)
(** * Signals of a process with threads

    [c/signal_thrd]: [signal_setup] of [sig.c] gives a handler to the signals 1 to 27;
    [signal_thrd.c] starts ten threads that sleep, the last of which ignores SIGHUP, to
    see whether that holds for itself or for all.  The dispositions belong to the
    process: the model has one table of them.  What a signal does that nobody handles is
    the system's ([default_action]). *)
From S2P Require Import Prelude.
From stdpp Require Import gmap.
From stdpp Require Import options.
#[local] Open Scope Z_scope.

Definition SIGHUP : Z := 1.
Definition SIGINT : Z := 2.
Definition SIGQUIT : Z := 3.
Definition SIGILL : Z := 4.
Definition SIGABRT : Z := 6.
Definition SIGBUS : Z := 7.
Definition SIGFPE : Z := 8.
Definition SIGKILL : Z := 9.
Definition SIGSEGV : Z := 11.
Definition SIGPIPE : Z := 13.
Definition SIGALRM : Z := 14.
Definition SIGTERM : Z := 15.
Definition SIGSTOP : Z := 19.
Definition SIGSYS : Z := 31.
Definition NUM_THRDS : Z := 10.

Inductive disposition := SIG_DFL | SIG_IGN | Handler.
Inductive action := Terminate | Stop | Nothing.
Inductive status := Running | Exited (code : Z) | Killed (signal : Z) | Stopped.

Record process := Proc {
  table : gmap Z disposition;      (** what is not in it is [SIG_DFL] *)
  state : status;
  threads : list Z;                (** those that were created *)
  interrupted : list Z;            (** sleeps cut short, newest first; 100 is [main] *)
}.
Definition set_table x p := Proc x (state p) (threads p) (interrupted p).
Definition set_state x p := Proc (table p) x (threads p) (interrupted p).
Definition set_threads x p := Proc (table p) (state p) x (interrupted p).
Definition interrupt x p := Proc (table p) (state p) (threads p) (x :: interrupted p).
Definition new_process : process := Proc ∅ Running [] [].

(** [signal]: two signals cannot be caught, and numbers outside 1..64 are refused. *)
Definition signal (n : Z) (d : disposition) (p : process) : process :=
  if (1 <=? n) && (n <=? 64) && negb (n =? SIGKILL) && negb (n =? SIGSTOP)
  then set_table (<[n := d]> (table p)) p
  else p.

(** ** [sig.c] *)

(** [signal_handler]: the status [exit] is called with, if it is. *)
Definition signal_handler (n : Z) : option Z :=
  if (n =? SIGINT) || (n =? SIGQUIT) || (n =? SIGTERM) then Some 1
  else if n =? SIGABRT then Some 1
  else if (n =? SIGBUS) || (n =? SIGFPE) || (n =? SIGILL) || (n =? SIGSEGV) || (n =? SIGSYS)
    then Some 1
  else None.

Definition signal_setup (p : process) : process :=
  foldl (fun p ch => signal ch Handler p) p (map Z.of_nat (seq 1 27)).

Definition signal_setup_listed (p : process) : process :=
  foldl (fun p ch => signal ch Handler p) p
    [SIGHUP; SIGINT; SIGQUIT; SIGILL; SIGABRT; SIGFPE; SIGPIPE; SIGPIPE; SIGBUS; SIGALRM; SIGTERM].

Section code.
Context (default_action : Z -> action).

(** A signal is delivered to a thread that sleeps. *)
Definition deliver (n thread : Z) (p : process) : process :=
  match default SIG_DFL (table p !! n) with
  | Handler =>
      match signal_handler n with
      | Some code => set_state (Exited code) p
      | None => interrupt thread p
      end
  | SIG_IGN => p
  | SIG_DFL =>
      match default_action n with
      | Terminate => set_state (Killed n) p
      | Stop => set_state Stopped p
      | Nothing => p
      end
  end.

(** ** [signal_thrd.c] *)

(** [thread_func] up to its endless sleep. *)
Definition thread_func (id : Z) (p : process) : process :=
  if id =? NUM_THRDS - 1 then signal SIGHUP SIG_IGN p else p.

(** [main] up to its endless sleep: [rcs] are the answers of [pthread_create]; the first
    failure ends the loop. *)
Fixpoint create (i : Z) (rcs : list Z) (p : process) : process :=
  match rcs with
  | [] => p
  | rc :: rcs' =>
      if NUM_THRDS <=? i then p
      else if negb (rc =? 0) then p
      else create (i + 1) rcs' (set_threads (threads p ++ [i]) p)
  end.
Definition main (rcs : list Z) : process := create 0 rcs (signal_setup new_process).

(** A created thread begins to run, or a signal arrives. *)
Inductive step := Begin (id : Z) | Arrives (n thread : Z).
Definition do_step (p : process) (x : step) : process :=
  match state p with
  | Running =>
      match x with
      | Begin id => if bool_decide (id ∈ threads p) then thread_func id p else p
      | Arrives n thread => deliver n thread p
      end
  | _ => p
  end.
Definition run (steps : list step) (p : process) : process := foldl do_step p steps.

(** ** Facts *)
Definition caught (n : Z) : bool := (1 <=? n) && (n <=? 27) && negb (n =? SIGKILL) && negb (n =? SIGSTOP).

Lemma setup_table n : table (signal_setup new_process) !! n = if caught n then Some Handler else None.
Proof.
  assert (forall l p, table (foldl (fun p ch => signal ch Handler p) p l) !! n =
    if decide (n ∈ l /\ (1 <=? n) && (n <=? 64) && negb (n =? SIGKILL) && negb (n =? SIGSTOP) = true)
    then Some Handler else table p !! n) as Hl.
  { induction l as [|x l IH]; intros p; cbn [foldl].
    - rewrite decide_False; [done|]. by intros [?%elem_of_nil _].
    - rewrite IH. unfold signal. destruct ((1 <=? x) && _ && _ && _) eqn:E.
      + cbn [set_table table]. destruct (decide (n = x)) as [->|Hne].
        * rewrite (decide_True (P := x ∈ x :: l /\ _)) by (by split; [left|]).
          destruct (decide _); [done|]. by rewrite lookup_insert_eq.
        * rewrite lookup_insert_ne by done.
          apply decide_ext. rewrite elem_of_cons.
          split; [intros [? ?]; split; [by right|done]|by intros [[?|?] ?]].
      + apply decide_ext. rewrite elem_of_cons.
        split; [intros [? ?]; split; [by right|done]|].
        intros [[->|?] ?]; [congruence|done]. }
  unfold signal_setup. rewrite Hl. unfold caught.
  destruct (decide _) as [[Hin Hn]|Hn].
  - apply list_elem_of_fmap in Hin as (k & -> & Hk%elem_of_seq).
    destruct (Z.leb_spec (Z.of_nat k) 27); [|lia].
    destruct (Z.leb_spec (Z.of_nat k) 64); [|lia]. cbn in Hn. by rewrite andb_true_r in *; rewrite Hn.
  - destruct ((1 <=? n) && (n <=? 27) && _ && _) eqn:E; [|done]. exfalso. apply Hn.
    rewrite !andb_true_iff in E. destruct E as [[[E1%Z.leb_le E2%Z.leb_le] E3] E4].
    split.
    + apply list_elem_of_fmap. exists (Z.to_nat n). split; [lia|]. apply elem_of_seq. lia.
    + rewrite E3, E4, (proj2 (Z.leb_le 1 n)), (proj2 (Z.leb_le n 64)) by lia. done.
Qed.

(** The table of a process that [main] set up: [hup] once the last thread has run. *)
Definition set_up (hup : bool) (p : process) : Prop :=
  forall n, table p !! n =
    if hup && (n =? SIGHUP) then Some SIG_IGN else if caught n then Some Handler else None.

Lemma main_set_up rcs : set_up false (main rcs) /\ state (main rcs) = Running.
Proof.
  unfold main. assert (forall i p, table (create i rcs p) = table p /\ state (create i rcs p) = state p) as Hc.
  { induction rcs as [|rc rcs IH]; intros i p; cbn [create]; [done|].
    destruct (_ <=? _); [done|]. destruct (negb _); [done|]. by destruct (IH (i + 1) (set_threads (threads p ++ [i]) p)) as [-> ->]. }
  destruct (Hc 0 (signal_setup new_process)) as [Ht Hs]. split.
  - intros n. rewrite Ht. apply setup_table.
  - by rewrite Hs.
Qed.

(** What a signal does to a process that was set up. *)
Definition fate (hup : bool) (n thread : Z) (p : process) : process :=
  if hup && (n =? SIGHUP) then p
  else if caught n then
    if bool_decide (n ∈ [SIGINT; SIGQUIT; SIGTERM; SIGABRT; SIGBUS; SIGFPE; SIGILL; SIGSEGV])
    then set_state (Exited 1) p else interrupt thread p
  else match default_action n with
       | Terminate => set_state (Killed n) p
       | Stop => set_state Stopped p
       | Nothing => p
       end.

Lemma deliver_fate hup n thread p : set_up hup p -> deliver n thread p = fate hup n thread p.
Proof.
  intros Hp. unfold deliver, fate. rewrite Hp.
  destruct (hup && (n =? SIGHUP)); [done|]. destruct (caught n) eqn:Hc; [|done]. cbn [default from_option id].
  assert (n <> SIGSYS) as Hsys by (intros ->; discriminate Hc).
  unfold signal_handler. rewrite (proj2 (Z.eqb_neq n SIGSYS)) by done. rewrite orb_false_r.
  destruct (bool_decide _) eqn:Hb.
  - apply bool_decide_eq_true in Hb. repeat (apply elem_of_cons in Hb as [->|Hb]; [done|]).
    by apply elem_of_nil in Hb.
  - apply bool_decide_eq_false in Hb. rewrite !elem_of_cons, elem_of_nil in Hb.
    repeat (match goal with |- context [n =? ?m] => destruct (Z.eqb_spec n m); [exfalso; tauto|] end);
      cbn [orb]. done.
Qed.

(** The tenth thread begins in one of the steps, while the process runs. *)
Fixpoint last_begins (p : process) (steps : list step) : bool :=
  match steps with
  | [] => false
  | x :: steps' =>
      match state p, x with
      | Running, Begin id => (id =? 9) && bool_decide (9 ∈ threads p)
      | _, _ => false
      end || last_begins (do_step p x) steps'
  end.

Lemma deliver_table n thread p : table (deliver n thread p) = table p.
Proof. unfold deliver. by repeat case_match. Qed.

Lemma step_set_up hup x p : set_up hup p ->
  set_up (hup || match state p, x with
                 | Running, Begin id => (id =? 9) && bool_decide (9 ∈ threads p)
                 | _, _ => false end) (do_step p x).
Proof.
  intros Hp. unfold do_step. destruct (state p) eqn:Hs; [|by rewrite orb_false_r..].
  destruct x as [id|n thread].
  - unfold thread_func, NUM_THRDS. change (10 - 1) with 9.
    destruct (Z.eqb_spec id 9) as [->|Hne]; cbn [andb].
    + destruct (bool_decide _); [|by rewrite orb_false_r]. rewrite orb_true_r. intros n.
      unfold signal. cbn. unfold SIGHUP. destruct (Z.eqb_spec n 1) as [->|Hn].
      * by rewrite lookup_insert_eq.
      * rewrite lookup_insert_ne by done. rewrite Hp. unfold SIGHUP.
        destruct (Z.eqb_spec n 1); [done|]. by rewrite andb_false_r.
    + rewrite orb_false_r. by destruct (bool_decide _).
  - rewrite orb_false_r. intros m. by rewrite deliver_table.
Qed.

Lemma run_set_up hup steps p : set_up hup p -> set_up (hup || last_begins p steps) (run steps p).
Proof.
  revert hup p. induction steps as [|x steps IH]; intros hup p Hp; [by rewrite orb_false_r|].
  cbn [last_begins]. unfold run. cbn [foldl]. rewrite orb_assoc.
  apply IH. by apply step_set_up.
Qed.

(** In the program, whatever threads have begun and whatever signals have arrived:
    while it runs, the signals 1 to 27 but SIGKILL and SIGSTOP are handled alike in
    every thread, eight of them ending the process with status 1 and the others cutting
    a sleep short, until the tenth thread has begun: then no thread notices SIGHUP any
    more.  All other signals do what the system does by default, SIGSYS among them, for
    which the handler has a case that is never reached. *)
Theorem signals_per_process rcs steps n thread :
  let p := run steps (main rcs) in
  state p = Running ->
  do_step p (Arrives n thread) = fate (last_begins (main rcs) steps) n thread p.
Proof.
  cbv zeta. intros Hs. unfold do_step. rewrite Hs. apply deliver_fate.
  apply (run_set_up false). apply main_set_up.
Qed.

(** The shorter list handles ten signals, SIGSEGV not among them. *)
Theorem listed_table n : table (signal_setup_listed new_process) !! n =
  if bool_decide (n ∈ [1; 2; 3; 4; 6; 8; 13; 7; 14; 15]) then Some Handler else None.
Proof.
  unfold signal_setup_listed, signal. cbn.
  destruct (bool_decide _) eqn:Hb.
  - apply bool_decide_eq_true in Hb. repeat (apply elem_of_cons in Hb as [->|Hb]; [done|]).
    by apply elem_of_nil in Hb.
  - apply bool_decide_eq_false in Hb. rewrite !elem_of_cons, elem_of_nil in Hb.
    unfold SIGHUP, SIGINT, SIGQUIT, SIGILL, SIGABRT, SIGFPE, SIGPIPE, SIGBUS, SIGALRM, SIGTERM.
    rewrite !lookup_insert_ne by (intros Heq; subst; tauto). done.
Qed.
End code.

(** ** A concrete run *)
(** The system's default for the signals that are used below. *)
Definition demo_action (n : Z) : action := if n =? 17 then Nothing else Terminate.

Lemma signals_per_process_witness :
  let p := run demo_action [Arrives SIGHUP 3; Begin 9; Arrives SIGHUP 3] (main (replicate 10 0)) in
  interrupted p = [3] /\
  do_step demo_action p (Arrives SIGSYS 4) = set_state (Killed SIGSYS) p.
Proof.
  cbv zeta. split; [vm_compute; reflexivity|].
  apply (signals_per_process demo_action (replicate 10 0)
    [Arrives SIGHUP 3; Begin 9; Arrives SIGHUP 3] SIGSYS 4). vm_compute. reflexivity.
Defined.
