(* ===== verification/ForkDemo.v ===== *)
(** * Processes that share a file and a terminal

    [c/fork_demo.c], [c/printf_fork.c], [c/printf_fork_printf.c] and [c/fscanf.c].  A
    process that forks leaves a copy of its memory to the child, the characters that
    [stdout] still holds included; open files stay shared, with their position.  Parent
    and child then run in any order.  The programs are lists of statements, which a
    schedule of processes interprets; [always] explores every schedule. *)
From S2P Require Import Prelude.
From Stdlib Require Import Ascii.
From Stdlib Require String.
From stdpp Require Import options.
#[local] Open Scope string_scope.
#[local] Open Scope list_scope.
#[local] Open Scope Z_scope.

(** ** Output *)
Inductive piece :=
  | T (s : string)
  | N (z : Z)           (** a number, in decimal *)
  | Nl.
Abbreviation text := (list piece).
#[export] Instance piece_eq_dec : EqDecision piece.
Proof. solve_decision. Defined.

(** What stands behind the last end of line, and what comes before. *)
Definition after_nl (t : text) : text :=
  fold_left (fun acc x => match x with Nl => [] | _ => acc ++ [x] end) t [].
Definition upto_nl (t : text) : text := take (length t - length (after_nl t)) t.

(** ** Processes *)
Section processes.
Context {V : Type}.                    (** the variables of the program *)

(** [None] where the behaviour is undefined: the process is killed. *)
Inductive stmt :=
  | Do (f : Z -> V -> option V)        (** with the number of the process *)
  | Printf (f : V -> option text)
  | Write (f : V -> option (bool * string))  (** whether the file is open, and the text *)
  | Fork (f : Z -> V -> V)             (** what becomes of the result *)
  | Exit.

Record proc := Proc { pid : Z; vars : V; stdout : text; todo : list stmt }.
Record world := World {
  procs : list proc;
  file : list ascii;                   (** the file and the position they share *)
  f_pos : nat;
  screen : text;                       (** where the standard outputs go *)
}.

Definition set_proc (i : nat) (p : proc) (w : world) : world :=
  World (<[i := p]> (procs w)) (file w) (f_pos w) (screen w).
Definition show (t : text) (w : world) : world :=
  World (procs w) (file w) (f_pos w) (screen w ++ t).
Definition write_at (s : string) (w : world) : world :=
  let xs := String.list_ascii_of_string s in
  World (procs w) (take (f_pos w) (file w) ++ xs ++ drop (f_pos w + length xs) (file w))
    (f_pos w + length xs)%nat (screen w).
Definition spawn (p : proc) (w : world) : world :=
  World (procs w ++ [p]) (file w) (f_pos w) (screen w).

(** Whether [stdout] is a terminal, which is written at each end of line; whether
    [fork] succeeds, and the number of the child. *)
Context (line_buffered fork_ok : bool) (child : positive).

(** A statement of process [i]; [None] if there is none. *)
Definition step (i : nat) (w : world) : option world :=
  p ← procs w !! i;
  match todo p with
  | [] => None
  | s :: l =>
      let killed := set_proc i (Proc (pid p) (vars p) [] []) w in
      Some match s with
      | Do f =>
          match f (pid p) (vars p) with
          | Some v => set_proc i (Proc (pid p) v (stdout p) l) w
          | None => killed
          end
      | Printf f =>
          match f (vars p) with
          | Some t =>
              let out := stdout p ++ t in
              if line_buffered
              then show (upto_nl out) (set_proc i (Proc (pid p) (vars p) (after_nl out) l) w)
              else set_proc i (Proc (pid p) (vars p) out l) w
          | None => killed
          end
      | Write f =>
          match f (vars p) with
          | Some (opened, s) =>
              let w := set_proc i (Proc (pid p) (vars p) (stdout p) l) w in
              if opened then write_at s w else w
          | None => killed
          end
      | Fork f =>
          if fork_ok
          then spawn (Proc (Z.pos child) (f 0 (vars p)) (stdout p) l)
                 (set_proc i (Proc (pid p) (f (Z.pos child) (vars p)) (stdout p) l) w)
          else set_proc i (Proc (pid p) (f (-1) (vars p)) (stdout p) l) w
      | Exit => show (stdout p) (set_proc i (Proc (pid p) (vars p) [] []) w)
      end
  end.

(** A schedule names the process that runs next. *)
Fixpoint run (l : list nat) (w : world) : option world :=
  match l with
  | [] => Some w
  | i :: l' => w' ← step i w; run l' w'
  end.

Definition runnable (w : world) : list nat :=
  List.filter (fun i => match step i w with Some _ => true | None => false end)
    (seq 0 (length (procs w))).
Definition finished (w : world) : Prop := runnable w = [].

(** Every schedule ends within [n] statements, in a world with [P]. *)
Fixpoint always (n : nat) (P : world -> Prop) (w : world) : Prop :=
  match runnable w with
  | [] => P w
  | l =>
      match n with
      | O => False
      | S n' =>
          foldr (fun i Q => match step i w with Some w' => always n' P w' | None => False end /\ Q)
            True l
      end
  end.

(** The same as a [bool]. *)
Fixpoint always_b (n : nat) (P : world -> Prop) `{!forall w, Decision (P w)} (w : world) : bool :=
  match runnable w with
  | [] => bool_decide (P w)
  | l =>
      match n with
      | O => false
      | S n' => forallb (fun i => match step i w with Some w' => always_b n' P w' | None => false end) l
      end
  end.

(** ** What [always] says of the schedules *)

Lemma always_b_spec n P `{!forall w, Decision (P w)} w : always_b n P w = true -> always n P w.
Proof.
  revert w. induction n as [|n IH]; intros w; cbn; destruct (runnable w) as [|j l];
    try by (intros Hb; try apply bool_decide_eq_true in Hb).
  rewrite andb_true_iff. intros [Hj Hl]. split; [destruct (step j w); [by apply IH|done]|].
  induction l as [|i l IHl]; cbn in *; [done|]. apply andb_true_iff in Hl as [Hi Hl].
  split; [destruct (step i w); [by apply IH|done]|auto].
Qed.

Lemma runnable_spec i w : i ∈ runnable w <-> is_Some (step i w).
Proof.
  unfold runnable. rewrite list_elem_of_In, filter_In, in_seq. split.
  - intros [_ H]. by destruct (step i w).
  - intros [w' Hw]. rewrite Hw. split; [|done]. split; [lia|]. cbn.
    unfold step in Hw. destruct (procs w !! i) eqn:Hp; [|done].
    by apply lookup_lt_Some in Hp.
Qed.

Lemma always_step n P w i w' : always n P w -> step i w = Some w' -> exists n', n = S n' /\ always n' P w'.
Proof.
  intros Ha Hs. assert (i ∈ runnable w) as Hi by (apply runnable_spec; eauto).
  destruct n as [|n']; cbn in Ha.
  - destruct (runnable w); [by apply not_elem_of_nil in Hi|done].
  - exists n'. split; [done|].
    assert (Forall (fun i => match step i w with Some w' => always n' P w' | None => False end)
      (runnable w)) as Hf.
    { destruct (runnable w) as [|j l]; [by apply not_elem_of_nil in Hi|].
      destruct Ha as [Hj Hl]. constructor; [done|].
      clear Hi. induction l; constructor; destruct Hl; auto. }
    rewrite Forall_forall in Hf. specialize (Hf i Hi). by rewrite Hs in Hf.
Qed.

(** A schedule can be continued to its end, and where it ends, [P] holds. *)
Lemma always_ends n P w :
  always n P w -> exists l w', run l w = Some w' /\ finished w' /\ P w'.
Proof.
  revert w. induction n as [|n IH]; intros w Ha.
  - cbn in Ha. destruct (runnable w) eqn:Hr; [|done]. by exists [], w.
  - destruct (runnable w) as [|i l] eqn:Hr.
    { cbn in Ha. rewrite Hr in Ha. by exists [], w. }
    assert (i ∈ runnable w) as Hi by (rewrite Hr; left).
    apply runnable_spec in Hi as [w' Hw].
    destruct (always_step _ _ _ _ _ Ha Hw) as (n' & [= <-] & Ha').
    destruct (IH w' Ha') as (l' & w2 & Hrun & Hend).
    exists (i :: l'), w2. split; [|done]. cbn. by rewrite Hw.
Qed.

Lemma always_runs n P w l w' :
  always n P w -> run l w = Some w' ->
  (length l <= n)%nat /\ (finished w' -> P w') /\
  (exists l' w2, run l' w' = Some w2 /\ finished w2 /\ P w2).
Proof.
  revert n w. induction l as [|i l IH]; intros n w Ha Hr.
  - injection Hr as <-. split_and!; [cbn; lia| |by eapply always_ends].
    intros Hf. destruct n; cbn in Ha; by rewrite Hf in Ha.
  - cbn in Hr. destruct (step i w) as [w1|] eqn:Hs; [|done]. cbn in Hr.
    destruct (always_step _ _ _ _ _ Ha Hs) as (n' & -> & Ha').
    destruct (IH _ _ Ha' Hr) as (Hlen & Hend). split; [cbn; lia|done].
Qed.
End processes.
Arguments stmt : clear implicits.
Arguments world : clear implicits.

(** ** [fork_demo.c] *)
Module Demo.
Record demo_variables := Vars {
  value : Z;                (** [i] points to it *)
  p : option string;        (** what [malloc] gave, and the text in it *)
  opened : bool;            (** [0 <= fd] *)
}.
Definition set_value (x : Z) (v : demo_variables) : demo_variables := Vars x (p v) (opened v).
Definition set_p (o : option string) (v : demo_variables) : demo_variables := Vars (value v) o (opened v).

(** [sprintf] into the memory, which is undefined if there is none. *)
Definition sprintf (s : string) (_ : Z) (v : demo_variables) : option demo_variables :=
  _ ← p v; Some (set_p (Some s) v).
Definition print (v : demo_variables) : option text :=
  s ← p v; Some [T s; T "-"; N (value v); T " "].
Definition write (v : demo_variables) : option (bool * string) := s ← p v; Some (opened v, s).

Definition demo_main : list (stmt demo_variables) :=
  [Do (sprintf "Hello"); Printf print; Write write;
   Fork (fun ret v => if c_true ret then set_value (value v + 1) v else v);
   Do (sprintf "World!"); Printf print; Write write;
   Do (fun _ v => Some (set_p None v)); Exit].

(** With the answers of [malloc] and [open]; the latter empties the file. *)
Definition demo_start (parent : Z) (malloc_ok open_ok : bool) : world demo_variables :=
  World [Proc parent (Vars 10 (if malloc_ok then Some "" else None) open_ok) [] demo_main] [] 0 [].
End Demo.

(** ** [printf_fork.c] *)
Module PrintfFork.
(** The two arguments of the second [printf]; which is evaluated first, the language
    leaves open. *)
Record pf_variables := Vars { fork_ret : Z; getpid : Z }.
Definition pf_main (fork_first : bool) : list (stmt pf_variables) :=
  let fork := Fork (fun ret v => Vars ret (getpid v)) in
  let get := Do (fun pid v => Some (Vars (fork_ret v) pid)) in
  [get; Printf (fun v => Some [T "printf: Before fork, pid:"; N (getpid v); T " ..."])] ++
  (if fork_first then [fork; get] else [get; fork]) ++
  [Printf (fun v => Some [T "fork:"; N (fork_ret v); T " pid:"; N (getpid v); T " "; Nl]); Exit].
Definition pf_start (fork_first : bool) (parent : Z) : world pf_variables :=
  World [Proc parent (Vars 0 0) [] (pf_main fork_first)] [] 0 [].
End PrintfFork.

(** ** [printf_fork_printf.c] *)
Module Bye.
Definition bye_main : list (stmt unit) :=
  [Printf (fun _ => Some [T "Hello... "]); Fork (fun _ v => v); Printf (fun _ => Some [T "Bye!"]); Exit].
Definition bye_start (parent : Z) : world unit := World [Proc parent tt [] bye_main] [] 0 [].
End Bye.

(** ** [fscanf.c]

    [fp] says whether the file is there, and which number [fscanf] finds in it.  What is
    printed; [fclose] of a null pointer is undefined. *)
Module Fscanf.
Definition fscanf_main (fp : option (option Z)) : option text :=
  let u := u32 (Z.lnot 0) in
  let u := match fp with Some (Some d) => u32 d | _ => u end in
  _ ← fp;
  Some [T "=> "; N (i32 u); Nl].
End Fscanf.

(** ** What they do *)

(** Decides a conjunction of equations, with a choice at each end. *)
Ltac settle :=
  repeat match goal with
  | |- _ /\ _ => split
  | |- True => exact I
  | |- _ = _ => reflexivity
  | |- _ \/ _ => first [left; reflexivity | right; reflexivity]
  end.

(** What the demonstration leaves in the file and on the screen. *)
Definition demo_ends (fork_ok open_ok : bool) (w : world Demo.demo_variables) : Prop :=
  let hello := [T "Hello"; T "-"; N 10; T " "] in
  let world n := [T "World!"; T "-"; N n; T " "] in
  file w = String.list_ascii_of_string
    (if open_ok then if fork_ok then "HelloWorld!World!" else "HelloWorld!" else "") /\
  if fork_ok
  then screen w = hello ++ world 11 ++ hello ++ world 10 \/ screen w = hello ++ world 10 ++ hello ++ world 11
  else screen w = hello ++ world 11.
#[local] Instance demo_ends_dec fork_ok open_ok w : Decision (demo_ends fork_ok open_ok w).
Proof. unfold demo_ends. destruct fork_ok; apply _. Defined.

(** The child goes on in the file where the parent stands, and the text that neither has
    printed yet is printed twice; each has its own [value].  Every schedule comes to such
    an end. *)
Theorem fork_demo_outcomes line_buffered fork_ok child parent open_ok l w :
  run line_buffered fork_ok child l (Demo.demo_start parent true open_ok) = Some w ->
  (length l <= 14)%nat /\
  (finished line_buffered fork_ok child w -> demo_ends fork_ok open_ok w) /\
  exists l' w', run line_buffered fork_ok child l' w = Some w' /\
    finished line_buffered fork_ok child w' /\ demo_ends fork_ok open_ok w'.
Proof.
  intros Hr. apply (always_runs _ _ _ 14 _ _ _ _) with (2 := Hr).
  apply (@always_b_spec _ _ _ _ _ _ (demo_ends_dec fork_ok open_ok)).
  destruct line_buffered, fork_ok, open_ok; vm_compute; reflexivity.
Qed.

(** Without memory the process is killed before it prints anything. *)
Lemma fork_demo_no_memory line_buffered fork_ok child parent open_ok l w :
  run line_buffered fork_ok child l (Demo.demo_start parent false open_ok) = Some w ->
  (length l <= 1)%nat /\ screen w = [] /\ file w = [].
Proof.
  intros Hr. destruct l as [|[|i] [|[|j] l]]; vm_compute in Hr; try done;
    injection Hr as <-; auto.
Qed.

(** The text in front of the fork is printed twice, and with it the number of the
    parent.  The child gives its own number behind [pid] only if [fork] is evaluated
    before [getpid]. *)
Theorem printf_fork_outcomes line_buffered fork_ok fork_first child parent l w :
  run line_buffered fork_ok child l (PrintfFork.pf_start fork_first parent) = Some w ->
  let line ret pid := [T "printf: Before fork, pid:"; N parent; T " ..."; T "fork:"; N ret; T " pid:"; N pid; T " "; Nl] in
  let P w :=
    if fork_ok then
      let of_parent := line (Z.pos child) parent in
      let of_child := line 0 (if fork_first then Z.pos child else parent) in
      screen w = of_parent ++ of_child \/ screen w = of_child ++ of_parent
    else screen w = line (-1) parent in
  (finished line_buffered fork_ok child w -> P w) /\
  exists l' w', run line_buffered fork_ok child l' w = Some w' /\ finished line_buffered fork_ok child w' /\ P w'.
Proof.
  intros Hr line P.
  assert (always line_buffered fork_ok child 9 P (PrintfFork.pf_start fork_first parent)) as Ha.
  { subst P line. destruct line_buffered, fork_ok, fork_first; vm_compute; settle. }
  by destruct (always_runs _ _ _ _ _ _ _ _ Ha Hr).
Qed.

(** The comment of the program shows such a run: the child gives the number of the
    parent, so [getpid] was evaluated first. *)
Definition printf_fork_sample : text :=
  [T "printf: Before fork, pid:"; N 14283; T " ..."; T "fork:"; N 14284; T " pid:"; N 14283; T " "; Nl;
   T "printf: Before fork, pid:"; N 14283; T " ..."; T "fork:"; N 0; T " pid:"; N 14283; T " "; Nl].
Lemma printf_fork_sample_order :
  (exists l w, run true true 14284 l (PrintfFork.pf_start false 14283) = Some w /\
     finished true true 14284 w /\ screen w = printf_fork_sample) /\
  forall l w, run true true 14284 l (PrintfFork.pf_start true 14283) = Some w ->
    finished true true 14284 w -> screen w <> printf_fork_sample.
Proof.
  split.
  - exists [0; 0; 0; 0; 0; 0; 1; 1]%nat. eexists. by split_and!; vm_compute.
  - intros l w Hr Hf. destruct (printf_fork_outcomes _ _ _ _ _ _ _ Hr) as [Hend _].
    by destruct (Hend Hf) as [-> | ->].
Qed.

(** The greeting is printed by both, since it is still in [stdout] at the fork. *)
Theorem hello_twice line_buffered fork_ok child parent l w :
  run line_buffered fork_ok child l (Bye.bye_start parent) = Some w ->
  finished line_buffered fork_ok child w ->
  screen w = if fork_ok then [T "Hello... "; T "Bye!"; T "Hello... "; T "Bye!"] else [T "Hello... "; T "Bye!"].
Proof.
  intros Hr Hf.
  assert (always line_buffered fork_ok child 6 (fun w => screen w =
    if fork_ok then [T "Hello... "; T "Bye!"; T "Hello... "; T "Bye!"] else [T "Hello... "; T "Bye!"])
    (Bye.bye_start parent)) as Ha.
  { destruct line_buffered, fork_ok; vm_compute; settle. }
  destruct (always_runs _ _ _ _ _ _ _ _ Ha Hr) as (_ & Hend & _). by apply Hend.
Qed.

(** An [int] that is read is printed, and -1 when there is none in the file. *)
Theorem fscanf_prints d :
  - 2 ^ 31 <= d < 2 ^ 31 ->
  Fscanf.fscanf_main (Some (Some d)) = Some [T "=> "; N d; Nl] /\
  Fscanf.fscanf_main (Some None) = Some [T "=> "; N (-1); Nl] /\
  Fscanf.fscanf_main None = None.
Proof.
  intros Hd. split_and!; [|reflexivity..]. cbn -[wraps wrapu].
  do 4 f_equal. unfold wraps, wrapu.
  rewrite Z.add_mod_idemp_l by done. rewrite Z.mod_small; lia.
Qed.

(** A run in which the child writes before the parent. *)
Lemma fork_demo_outcomes_witness :
  exists w : world Demo.demo_variables,
    run true true 7 [0; 0; 0; 0; 1; 1; 1; 1; 1; 0; 0; 0; 0; 0]%nat (Demo.demo_start 6 true true) = Some w /\
    demo_ends true true w /\ last (procs w) = Some (Proc 7 (Demo.Vars 10 None true) [] []).
Proof.
  eexists. split; [vm_compute; reflexivity|]. split; [|reflexivity].
  eapply (proj1 (proj2 (fork_demo_outcomes true true 7 6 true
    [0; 0; 0; 0; 1; 1; 1; 1; 1; 0; 0; 0; 0; 0]%nat _ ltac:(vm_compute; reflexivity)))).
  vm_compute. reflexivity.
Defined.
