(* ===== verification/CppObjects.v ===== *)
(** * Objects that own memory

    [cpp/other/class_ops.cpp], [unique_ptr.cpp] and [vector_move.cpp]: classes with a
    text and a vector that say when they are made, copied, moved, assigned and destroyed.
    A vector is the memory it owns, if any; the heap has what is in each piece of memory.
    What a moved string still holds is unspecified ([moved]), and so is whether an
    assignment keeps the memory it has where that is enough ([reuse]).  Where the
    characters of a text are stored is left out of the messages, and so are the banners. *)
From S2P Require Import Prelude.
From stdpp Require Import gmap.
From stdpp Require Import options.
#[local] Open Scope string_scope.
#[local] Open Scope list_scope.
#[local] Open Scope Z_scope.

(** ** Memory and messages *)
Abbreviation loc := nat.
Record buffer := Buffer { capacity : nat; elems : list Z }.
Inductive item :=
  | Text (s : string)
  | Number (hex : bool) (z : Z)          (** in base 16 or 10 *)
  | Address (v : option loc)             (** [data ()] of a vector *)
  | Call (fn desc : string) (data : list (option loc)).  (** [__PRETTY_FUNCTION__], [desc] and vector *)
Record state := State {
  live : gmap loc buffer;
  next : loc;
  hex : bool;                            (** the flag of [std::cerr] *)
  printed : list item;                   (** oldest first *)
}.
Definition set_live (m : gmap loc buffer) (s : state) : state := State m (next s) (hex s) (printed s).

(** [None] where memory that was freed is used. *)
Definition M (A : Type) : Type := state -> option (A * state).
#[export] Instance M_ret : MRet M := fun A x s => Some (x, s).
#[export] Instance M_bind : MBind M := fun A B f m s => '(x, s') ← m s; f x s'.

Definition say (l : list item) : M unit := fun s => Some (tt, State (live s) (next s) (hex s) (printed s ++ l)).
Definition set_hex : M unit := fun s => Some (tt, State (live s) (next s) true (printed s)).
Definition get_hex : M bool := fun s => Some (hex s, s).

(** ** [std::vector] *)
Abbreviation vector := (option loc).
Definition contents (v : vector) : M (list Z) := fun s =>
  match v with
  | None => Some ([], s)
  | Some l => b ← live s !! l; Some (elems b, s)
  end.
Definition vec_make (xs : list Z) : M vector := fun s =>
  match xs with
  | [] => Some (None, s)
  | _ => Some (Some (next s), State (<[next s := Buffer (length xs) xs]> (live s)) (S (next s)) (hex s) (printed s))
  end.
Definition vec_copy (v : vector) : M vector := xs ← contents v; vec_make xs.
(** The new vector, and what the old one is left with. *)
Definition vec_move (v : vector) : vector * vector := (v, None).
Definition vec_free (v : vector) : M unit := fun s =>
  match v with
  | None => Some (tt, s)
  | Some l => _ ← live s !! l; Some (tt, set_live (delete l (live s)) s)
  end.

Section programs.
Context (moved typeid : string -> string) (reuse : bool).

(** The elements go into the memory there is if that is enough, or else into new one. *)
Definition vec_put (v : vector) (xs : list Z) : M vector :=
  let replace := w ← vec_make xs; vec_free v;; mret w in
  match v with
  | None => replace
  | Some l => fun s =>
      b ← live s !! l;
      if reuse && (length xs <=? capacity b)%nat
      then Some (v, set_live (<[l := Buffer (capacity b) xs]> (live s)) s)
      else replace s
  end.

(** ** [Primo] *)
Record Primo := MkPrimo { desc : string; vec : vector }.
Definition PRNDESCPRIMO (fn : string) (p : Primo) : M unit := say [Call fn (desc p) [vec p]].

Definition Primo_new (d : string) : M Primo :=
  v ← vec_make [1; 2; 3];
  let p := MkPrimo d v in
  PRNDESCPRIMO "Primo(std::string)" p;; mret p.
Definition Primo_copy (from : Primo) : M Primo :=
  v ← vec_copy (vec from);
  let p := MkPrimo (desc from) v in
  PRNDESCPRIMO "Primo(const Primo&)" p;; mret p.
(** The new object and what becomes of [from]. *)
Definition Primo_move (from : Primo) : M (Primo * Primo) :=
  let '(v, v') := vec_move (vec from) in
  let p := MkPrimo (desc from) v in
  PRNDESCPRIMO "Primo(Primo&&)" p;; mret (p, MkPrimo (moved (desc from)) v').
(** [same]: the object is assigned to itself, which leaves a vector alone. *)
Definition Primo_assign (same : bool) (p from : Primo) : M Primo :=
  v ← (if same then mret (vec p) else xs ← contents (vec from); vec_put (vec p) xs);
  let p := MkPrimo (desc from +:+ "_copy") v in
  PRNDESCPRIMO "operator=(const Primo&)" p;; mret p.
Definition Primo_delete (p : Primo) : M unit :=
  PRNDESCPRIMO "~Primo()" p;; vec_free (vec p).

(** ** [class_ops.cpp] *)
Definition PRNDESC (fn d : string) : M unit := say [Call fn d []].
Definition CONSTRUCTOR (NAME d : string) : M string :=
  PRNDESC (NAME +:+ "(std::string)") d;; mret d.
Definition DESTRUCTOR (NAME : string) (d : string) : M unit := PRNDESC ("~" +:+ NAME +:+ "()") d.

(** Both take a constant object, whose text cannot be moved: it is copied.  The new text
    and what [from] is left with. *)
Definition CONSTRUCTORCOPY (NAME from : string) : M (string * string) :=
  PRNDESC (NAME +:+ "(const " +:+ NAME +:+ "&)") from;; mret (from, from).
Definition CONSTRUCTORMOVE (NAME from : string) : M (string * string) :=
  PRNDESC (NAME +:+ "(const " +:+ NAME +:+ "&&)") from;; mret (from, from).

Record Secundo := MkSecundo { sdesc : string; mprimo : Primo }.
(** The member is made before the body of the constructor runs, and destroyed after that
    of the destructor. *)
Definition Secundo_new (d : string) : M Secundo :=
  p ← Primo_new "Primo_default"; d ← CONSTRUCTOR "Secundo" d; mret (MkSecundo d p).
Definition Secundo_copy (from : Secundo) : M Secundo :=
  p ← Primo_copy (mprimo from);
  PRNDESC "Secundo(const Secundo&)" (sdesc from);; mret (MkSecundo (sdesc from) p).
Definition Secundo_move (from : Secundo) : M (Secundo * Secundo) :=
  '(p, p') ← Primo_move (mprimo from);
  PRNDESC "Secundo(Secundo&&)" (sdesc from);;
  mret (MkSecundo (sdesc from) p, MkSecundo (moved (sdesc from)) p').
Definition Secundo_delete (x : Secundo) : M unit :=
  DESTRUCTOR "Secundo" (sdesc x);; Primo_delete (mprimo x).

(** The blocks of [main]; the conditions of the first three are [false]. *)
Definition Macro_block : M unit :=
  macro ← CONSTRUCTOR "Macro" "Macro_default"; say [Text (typeid "Macro")];; DESTRUCTOR "Macro" macro.
Definition Primo_block : M unit :=
  say [Text "===="];;
  primo ← Primo_new "Primo_default"; primocopy ← Primo_copy primo;
  Primo_delete primocopy;; Primo_delete primo.
Definition Secundo_block : M unit :=
  say [Text "===="];;
  secundo ← Secundo_new "Secundo_default"; seccopy ← Secundo_copy secundo;
  '(moved, secundo) ← Secundo_move secundo;
  Secundo_delete moved;; Secundo_delete seccopy;; Secundo_delete secundo.
Definition move_block : M unit :=
  say [Text "===="];;
  secundo ← Secundo_new "secundo"; '(moved, secundo) ← Secundo_move secundo;
  say [Text "++++"];;
  Secundo_delete moved;; Secundo_delete secundo.
Definition class_ops_main : M unit :=
  (if false then Macro_block else mret tt);;
  (if false then Primo_block else mret tt);;
  (if false then Secundo_block else mret tt);;
  (if true then move_block else mret tt).

(** ** [unique_ptr.cpp]

    The [Primo] of that file has the assignment above in addition. *)

(** [operator<<] *)
Definition print_Primo (p : Primo) : M unit := say [Call "operator<<" (desc p) [vec p]].

(** [elide]: the compiler makes [prm] in the place of the result. *)
Definition create_class (elide : bool) : M Primo :=
  prm ← Primo_new "Primo create_class()";
  if elide then mret prm
  else '(result, prm) ← Primo_move prm; Primo_delete prm;; mret result.

(** A reference bound to the result keeps it until the end of the block. *)
Definition reference_block (elide : bool) : M unit :=
  pr ← create_class elide; print_Primo pr;; Primo_delete pr.

Abbreviation unique_ptr := (option Primo).
Definition make_unique : M unique_ptr := p ← Primo_new "Primo_default"; mret (Some p).
Definition ptr_move (p : unique_ptr) : unique_ptr * unique_ptr := (p, None).
Definition ptr_delete (p : unique_ptr) : M unit :=
  match p with Some x => Primo_delete x | None => mret tt end.
Fixpoint ptrs_delete (l : list unique_ptr) : M unit :=
  match l with [] => mret tt | p :: l' => ptr_delete p;; ptrs_delete l' end.

(** [p] is destroyed before [vec]. *)
Definition unique_block : M unit :=
  say [Text "===="];;
  p ← make_unique;
  let '(moved, p) := ptr_move p in
  let vec := [moved] in
  ptr_delete p;; ptrs_delete vec.
Definition unique_ptr_main (elide : bool) : M unit :=
  (if true then reference_block elide else mret tt);; (if true then unique_block else mret tt).

(** ** [vector_move.cpp] *)

Definition print_vector_info (v : vector) : M unit :=
  xs ← contents v; h ← get_hex;
  say [Text "vector size: "; Number h (Z.of_nat (length xs)); Text " data: "];;
  set_hex;;
  say [Address v];;
  h ← get_hex; say (xs ≫= fun x => [Number h x; Text " "]).

(** The vector that is returned has the memory of [inside], moved or made in place. *)
Definition return_vector : M vector :=
  say [Text "local vector inside: "];;
  inside ← vec_make [40; 30; 20; 10]; print_vector_info inside;; mret inside.

Definition vector_move_main : M unit :=
  src ← vec_make [4; 3; 2; 1];
  say [Text "vector src: "];; print_vector_info src;;
  dst_copy ← vec_copy src;
  say [Text "vector copy: "];; print_vector_info dst_copy;;
  dst_constructed ← vec_copy src;
  say [Text "vector copy constructed: "];; print_vector_info dst_constructed;;
  let '(dst_move, src) := vec_move src in
  print_vector_info dst_move;;
  say [Text "vector src after move: "];; print_vector_info src;;
  returned ← return_vector;
  say [Text "returned vector: "];; print_vector_info returned;;
  vec_free returned;; vec_free dst_move;; vec_free dst_constructed;; vec_free dst_copy;; vec_free src.

(** ** Any use of the objects

    The objects by their names; an object is moved or copied to a new name, or assigned
    to one that exists. *)
Inductive action :=
  | New (n : nat) (d : string)
  | Copy (n i : nat)
  | Move (n i : nat)
  | Assign (i j : nat)
  | Delete (i : nat).
Abbreviation objects := (gmap nat Primo).

Definition act (a : action) (o : objects) : M objects :=
  match a with
  | New n d => p ← Primo_new d; mret (<[n := p]> o)
  | Copy n i =>
      match o !! i with
      | Some from => p ← Primo_copy from; mret (<[n := p]> o)
      | None => fun _ => None
      end
  | Move n i =>
      match o !! i with
      | Some from => '(p, from) ← Primo_move from; mret (<[n := p]> (<[i := from]> o))
      | None => fun _ => None
      end
  | Assign i j =>
      match o !! i, o !! j with
      | Some p, Some from => p ← Primo_assign (i =? j)%nat p from; mret (<[i := p]> o)
      | _, _ => fun _ => None
      end
  | Delete i =>
      match o !! i with
      | Some p => Primo_delete p;; mret (delete i o)
      | None => fun _ => None
      end
  end.
Fixpoint acts (l : list action) (o : objects) : M objects :=
  match l with [] => mret o | a :: l' => o ← act a o; acts l' o end.

(** What compiles: names are new where one is declared, and known where one is used.  The
    names after it. *)
Definition scope (a : action) (names : gset nat) : option (gset nat) :=
  let declare n := if decide (n ∈ names) then None else Some ({[n]} ∪ names) in
  let used i := bool_decide (i ∈ names) in
  match a with
  | New n _ => declare n
  | Copy n i | Move n i => if used i then declare n else None
  | Assign i j => if used i && used j then Some names else None
  | Delete i => if used i then Some (names ∖ {[i]}) else None
  end.
Fixpoint scopes (l : list action) (names : gset nat) : option (gset nat) :=
  match l with [] => Some names | a :: l' => names ← scope a names; scopes l' names end.

(** ** Ownership *)

(** The memory of the object with a name. *)
Definition slot (o : objects) (i : nat) : vector := p ← o !! i; vec p.

Definition is_made (x : item) : bool :=
  match x with
  | Call fn _ _ => bool_decide (fn ∈ ["Primo(std::string)"; "Primo(const Primo&)"; "Primo(Primo&&)"])
  | _ => false
  end.
Definition is_destroyed (x : item) : bool :=
  match x with Call fn _ _ => bool_decide (fn = "~Primo()") | _ => false end.
Definition made (l : list item) : nat := length (List.filter is_made l).
Definition destroyed (l : list item) : nat := length (List.filter is_destroyed l).

#[local] Arguments made : simpl never.
#[local] Arguments destroyed : simpl never.

(** Every piece of memory belongs to one object; what is made and not destroyed is
    there. *)
Record owned (g : nat -> vector) (s : state) : Prop := {
  own_live : forall l, is_Some (live s !! l) <-> exists i, g i = Some l;
  own_once : forall i j l, g i = Some l -> g j = Some l -> i = j;
  own_next : forall l, is_Some (live s !! l) -> (l < next s)%nat;
  own_elems : forall l b, live s !! l = Some b -> elems b = [1; 2; 3] \/ elems b = [];
}.
Record inv (o : objects) (s : state) : Prop := {
  inv_owned : owned (slot o) s;
  inv_count : (made (printed s) = destroyed (printed s) + size o)%nat;
}.

Definition upd (i : nat) (v : vector) (g : nat -> vector) : nat -> vector :=
  fun j => if decide (j = i) then v else g j.

Lemma owned_ext g g' s : (forall i, g i = g' i) -> owned g s -> owned g' s.
Proof.
  intros He [H1 H2 H3 H4]. split; [|intros i j l; rewrite <- !He; by apply H2|done..].
  intros l. rewrite H1. by setoid_rewrite He.
Qed.

(** Only the heap and the next free place matter. *)
Lemma owned_heap g s s' : live s' = live s -> next s' = next s -> owned g s -> owned g s'.
Proof. intros Hl Hn [H1 H2 H3 H4]. split; [by rewrite Hl|done|by rewrite Hl, Hn|by rewrite Hl]. Qed.

(** A slot without memory gets a new piece. *)
Lemma owned_alloc g s i b h out :
  owned g s -> g i = None -> elems b = [1; 2; 3] \/ elems b = [] ->
  owned (upd i (Some (next s)) g) (State (<[next s := b]> (live s)) (S (next s)) h out).
Proof.
  intros [H1 H2 H3 H4] Hi Hb.
  assert (forall j, g j <> Some (next s)) as Hnew.
  { intros j Hj. assert (is_Some (live s !! next s)) as Hs by (apply H1; eauto).
    apply H3 in Hs. lia. }
  split; cbn; unfold upd.
  - intros l. rewrite lookup_insert_is_Some'. split.
    + intros [<-|[j Hj]%H1]; [exists i; by rewrite decide_True|].
      exists j. rewrite decide_False; [done|congruence].
    + intros [j Hj]. case_decide; [left; congruence|right; apply H1; eauto].
  - intros j k l. repeat case_decide; intros Hj Hk; simplify_eq; first [done | by eapply H2 | by destruct (Hnew j) | by destruct (Hnew k)].
  - intros l. rewrite lookup_insert_is_Some'. intros [<-|Hl%H3]; lia.
  - intros l b' [[<- <-]|[_ Hl]]%lookup_insert_Some; eauto.
Qed.

(** A slot gives its memory back. *)
Lemma owned_free g s i l :
  owned g s -> g i = Some l -> owned (upd i None g) (set_live (delete l (live s)) s).
Proof.
  intros [H1 H2 H3 H4] Hi. split; cbn; unfold upd.
  - intros k. rewrite lookup_delete_is_Some, H1. split.
    + intros [Hne [j Hj]]. exists j. rewrite decide_False; [done|congruence].
    + intros [j Hj]. case_decide; [done|]. split; [|eauto]. intros ->. eauto.
  - intros j k m. repeat case_decide; intros; simplify_eq; by eapply H2.
  - intros k [_ Hk]%lookup_delete_is_Some. by apply H3.
  - intros k b [_ Hk]%lookup_delete_Some. by apply (H4 k).
Qed.

(** Memory changes its owner, or none. *)
Lemma owned_move g s n i :
  owned g s -> g n = None -> owned (upd n (g i) (upd i None g)) s.
Proof.
  intros [H1 H2 H3 H4] Hn. split; [|intros j k m; unfold upd; repeat case_decide; intros Hj Hk; simplify_eq;
    first [done | by eapply H2 | by destruct (H2 i k m Hj Hk) | by destruct (H2 i j m Hk Hj)]|done..].
  intros l. rewrite H1. unfold upd. split.
  - intros [j Hj]. destruct (decide (j = i)) as [->|Hne].
    + exists n. by rewrite decide_True.
    + exists j. rewrite decide_False by congruence. by rewrite decide_False.
  - intros [j Hj]. repeat case_decide; try done; eauto.
Qed.

Lemma owned_put g s i l b :
  owned g s -> g i = Some l -> elems b = [1; 2; 3] \/ elems b = [] ->
  owned g (set_live (<[l := b]> (live s)) s).
Proof.
  intros [H1 H2 H3 H4] Hi Hb. assert (is_Some (live s !! l)) as Hl by (apply H1; eauto).
  assert (forall k, is_Some (<[l := b]> (live s) !! k) <-> is_Some (live s !! k)) as Hk.
  { intros k. rewrite lookup_insert_is_Some'. split; [intros [<-|?]|]; auto. }
  split; cbn.
  - intros k. rewrite Hk. apply H1.
  - done.
  - intros k. rewrite Hk. apply H3.
  - intros k b' [[_ <-]|[_ ?]]%lookup_insert_Some; eauto.
Qed.

Lemma slot_insert o n p i : slot (<[n := p]> o) i = upd n (vec p) (slot o) i.
Proof.
  unfold slot, upd. case_decide as Hd; [subst; by rewrite lookup_insert_eq|by rewrite lookup_insert_ne].
Qed.
Lemma slot_delete o n i : slot (delete n o) i = upd n None (slot o) i.
Proof.
  unfold slot, upd. case_decide as Hd; [subst; by rewrite lookup_delete_eq|by rewrite lookup_delete_ne].
Qed.

Lemma bind_some {A B} (m : M A) (f : A -> M B) s x s' : m s = Some (x, s') -> (m ≫= f) s = f x s'.
Proof. intros H. unfold mbind, M_bind. by rewrite H. Qed.

(** *** The operations on vectors *)
Definition plain (xs : list Z) : Prop := xs = [1; 2; 3] \/ xs = [].

Lemma upd_same g i : forall j, upd i (g i) g j = g j.
Proof. intros j. unfold upd. case_decide; congruence. Qed.
Lemma upd_twice g i v w : forall j, upd i v (upd i w g) j = upd i v g j.
Proof. intros j. unfold upd. by case_decide. Qed.

Lemma vec_make_owned g s n xs :
  owned g s -> g n = None -> plain xs ->
  exists v s', vec_make xs s = Some (v, s') /\ owned (upd n v g) s' /\ printed s' = printed s.
Proof.
  intros Hg Hn Hx. unfold vec_make. destruct xs as [|x xs].
  - do 2 eexists. split_and!; [done| |done]. eapply owned_ext; [|done].
    intros j. rewrite <- Hn. by rewrite upd_same.
  - do 2 eexists. split_and!; [done| |done]. by apply owned_alloc.
Qed.

Lemma contents_owned g s i :
  owned g s -> exists xs, contents (g i) s = Some (xs, s) /\ plain xs.
Proof.
  intros Hg. unfold contents. destruct (g i) as [l|] eqn:Hi; [|by exists []; split; [|right]].
  destruct (own_live _ _ Hg l) as [_ [b Hb]]; [eauto|]. rewrite Hb.
  exists (elems b). split; [done|]. by eapply own_elems.
Qed.

Lemma vec_free_owned g s i :
  owned g s -> exists s', vec_free (g i) s = Some (tt, s') /\ owned (upd i None g) s' /\ printed s' = printed s.
Proof.
  intros Hg. unfold vec_free. destruct (g i) as [l|] eqn:Hi.
  - destruct (own_live _ _ Hg l) as [_ [b Hb]]; [eauto|]. rewrite Hb.
    eexists. split_and!; [done|by apply owned_free|done].
  - eexists. split_and!; [done| |done]. eapply owned_ext; [|done]. intros j. by rewrite <- Hi, upd_same.
Qed.

Lemma vec_put_owned g s i xs :
  owned g s -> plain xs ->
  exists w s', vec_put (g i) xs s = Some (w, s') /\ owned (upd i w g) s' /\ printed s' = printed s.
Proof.
  intros Hg Hx.
  (* the new memory is taken before the old is given back *)
  assert (exists w s', (w ← vec_make xs; vec_free (g i);; mret w) s = Some (w, s') /\
    owned (upd i w g) s' /\ printed s' = printed s) as Hreplace.
  { destruct (vec_free_owned g s i Hg) as (s1 & Hfree & Hg1 & Hp1).
    destruct (vec_make_owned _ _ i xs Hg1) as (w & s2 & Hmake & Hg2 & Hp2); [|done|].
    { unfold upd. by rewrite decide_True. }
    assert (exists s3, (w ← vec_make xs; vec_free (g i);; mret w) s = Some (w, s3) /\
      live s3 = live s2 /\ next s3 = next s2 /\ printed s3 = printed s) as (s3 & H3 & Hl & Hn & Hp).
    { unfold vec_free in *. destruct (g i) as [l|] eqn:Hi; cbn in Hfree.
      - destruct (live s !! l) as [b|] eqn:Hb; [|done]. injection Hfree as <-.
        assert (l <> next s) by (apply own_next with (l := l) in Hg; [lia|eauto]).
        destruct xs; injection Hmake as <- <-; unfold mbind, M_bind, vec_make;
          cbn -[lookup insert delete].
        + rewrite Hb. by eexists.
        + rewrite lookup_insert_ne, Hb by done. eexists. split_and!; [done| |done..]. cbn.
          by rewrite delete_insert_ne by done.
      - injection Hfree as <-. destruct xs; injection Hmake as <- <-; by eexists. }
    exists w, s3. split_and!; [done| |done].
    apply (owned_heap _ s2); [done..|]. eapply owned_ext; [|done]. intros j. by rewrite upd_twice. }
  unfold vec_put. destruct (g i) as [l|] eqn:Hi; [|done].
  destruct (own_live _ _ Hg l) as [_ [b Hb]]; [eauto|]. rewrite Hb. cbn [mbind option_bind].
  destruct (reuse && _); [|done].
  eexists _, _. split_and!; [done| |done].
  apply (owned_ext g); [intros j; by rewrite <- Hi, upd_same|]. by eapply owned_put.
Qed.

(** *** The operations on objects *)
Lemma made_app x y : made (x ++ y) = (made x + made y)%nat.
Proof. unfold made. by rewrite List.filter_app, length_app. Qed.
Lemma destroyed_app x y : destroyed (x ++ y) = (destroyed x + destroyed y)%nat.
Proof. unfold destroyed. by rewrite List.filter_app, length_app. Qed.

(** [m] gives a value with [P] and a heap for [g], and says that one object was made, or
    that none was. *)
Definition gives {A} (m : M A) (s : state) (n d : nat) (P : A -> state -> Prop) : Prop :=
  exists x s', m s = Some (x, s') /\ P x s' /\
    made (printed s') = (made (printed s) + n)%nat /\ destroyed (printed s') = (destroyed (printed s) + d)%nat.

Lemma say_gives s l :
  gives (say l) s (made l) (destroyed l) (fun _ s' => live s' = live s /\ next s' = next s).
Proof.
  exists tt. eexists. split_and!; [reflexivity|done|done|apply made_app|apply destroyed_app].
Qed.

Lemma Primo_new_gives g s n d :
  owned g s -> g n = None -> gives (Primo_new d) s 1 0 (fun p s' => owned (upd n (vec p) g) s').
Proof.
  intros Hg Hn. destruct (vec_make_owned g s n [1; 2; 3] Hg Hn) as (v & s' & Hm & Hg' & Hp); [by left|].
  unfold gives, Primo_new. rewrite (bind_some _ _ _ _ _ Hm). cbn.
  do 2 eexists. split_and!; [done| |by cbn; rewrite made_app, Hp|by cbn; rewrite destroyed_app, Hp].
  by apply (owned_heap _ s').
Qed.

Lemma Primo_copy_gives g s n i p :
  owned g s -> g n = None -> g i = vec p -> gives (Primo_copy p) s 1 0 (fun q s' => owned (upd n (vec q) g) s').
Proof.
  intros Hg Hn Hi. destruct (contents_owned g s i Hg) as (xs & Hc & Hx).
  destruct (vec_make_owned g s n xs Hg Hn Hx) as (v & s' & Hm & Hg' & Hp).
  rewrite Hi in Hc. unfold gives, Primo_copy.
  rewrite (bind_some (vec_copy (vec p)) _ s v s') by (unfold vec_copy; by rewrite (bind_some _ _ _ _ _ Hc)). cbn.
  do 2 eexists. split_and!; [done| |by cbn; rewrite made_app, Hp|by cbn; rewrite destroyed_app, Hp].
  by apply (owned_heap _ s').
Qed.

Lemma Primo_assign_gives g s i j p q :
  owned g s -> g i = vec p -> g j = vec q ->
  gives (Primo_assign (i =? j)%nat p q) s 0 0 (fun p s' => owned (upd i (vec p) g) s').
Proof.
  intros Hg Hi Hj. unfold gives, Primo_assign. destruct (Nat.eqb_spec i j) as [->|Hne].
  - cbn. do 2 eexists. split_and!; [done| |by cbn; rewrite made_app|by cbn; rewrite destroyed_app].
    apply (owned_heap _ s); [done..|]. apply (owned_ext g); [|done].
    intros k. cbn. by rewrite <- Hi, upd_same.
  - destruct (contents_owned g s j Hg) as (xs & Hc & Hx). rewrite Hj in Hc.
    destruct (vec_put_owned g s i xs Hg Hx) as (v & s' & Hm & Hg' & Hp). rewrite Hi in Hm.
    rewrite (bind_some _ _ s v s') by (by rewrite (bind_some _ _ _ _ _ Hc)). cbn.
    do 2 eexists. split_and!; [done| |by cbn; rewrite made_app, Hp|by cbn; rewrite destroyed_app, Hp].
    by apply (owned_heap _ s').
Qed.

Lemma Primo_delete_gives g s i p :
  owned g s -> g i = vec p -> gives (Primo_delete p) s 0 1 (fun _ s' => owned (upd i None g) s').
Proof.
  intros Hg Hi. unfold gives, Primo_delete.
  destruct (say_gives s [Call "~Primo()" (desc p) [vec p]]) as (? & s1 & Hs & [Hl Hn] & Hm & Hd).
  destruct (vec_free_owned g s1 i) as (s2 & Hf & Hg2 & Hp); [by apply (owned_heap _ s)|].
  rewrite Hi in Hf. unfold PRNDESCPRIMO. rewrite (bind_some _ _ _ _ _ Hs), Hf.
  do 2 eexists. split_and!; [done|done|by rewrite Hp, Hm|by rewrite Hp, Hd].
Qed.

(** *** Any use of the objects *)

Lemma slot_some o i p : o !! i = Some p -> slot o i = vec p.
Proof. unfold slot. by intros ->. Qed.
Lemma slot_none (o : objects) i : i ∉ dom o -> slot o i = None.
Proof. unfold slot. by intros ->%not_elem_of_dom. Qed.

(** The objects after a step, given their slots and their number. *)
Lemma gives_inv {A} (m : M A) (f : A -> objects) g n d o s :
  inv o s ->
  gives m s n d (fun x s' => owned (g x) s') ->
  (forall x i, slot (f x) i = g x i) ->
  (forall x, size (f x) + d = size o + n)%nat ->
  exists o' s', (x ← m; mret (f x)) s = Some (o', s') /\ inv o' s' /\ exists x, o' = f x.
Proof.
  intros [Ho Hc] (x & s' & Hm & Hg & Hmade & Hdest) Hslot Hsize.
  exists (f x), s'. split_and!; [by rewrite (bind_some _ _ _ _ _ Hm)| |eauto].
  split; [by apply (owned_ext (g x))|]. rewrite Hmade, Hdest. specialize (Hsize x). lia.
Qed.

Definition runs_to (m : M objects) (s : state) (names : gset nat) : Prop :=
  exists o' s', m s = Some (o', s') /\ inv o' s' /\ dom o' = names.

(** A new object with a new name. *)
Lemma declare_inv m o s n :
  inv o s -> n ∉ dom o -> gives m s 1 0 (fun p s' => owned (upd n (vec p) (slot o)) s') ->
  runs_to (p ← m; mret (<[n := p]> o)) s ({[n]} ∪ dom o).
Proof.
  intros Hinv Hn Hm.
  destruct (gives_inv m (fun p => <[n := p]> o) (fun p => upd n (vec p) (slot o)) 1 0 _ _ Hinv Hm)
    as (o' & s' & Hrun & Hi & p & ->); [intros; apply slot_insert| |].
  - intros. rewrite map_size_insert_None by (by apply not_elem_of_dom). lia.
  - do 2 eexists. split_and!; [done|done|]. by rewrite dom_insert_L.
Qed.

Lemma move_inv o s n i p :
  inv o s -> n ∉ dom o -> o !! i = Some p -> runs_to (act (Move n i) o) s ({[n]} ∪ dom o).
Proof.
  intros Hinv Hn Hp. cbn [act]. rewrite Hp.
  assert (n <> i) as Hne by (intros ->; apply Hn, elem_of_dom; eauto).
  do 2 eexists. split; [reflexivity|]. split; [split; cbn|].
  - apply (owned_heap _ s); [done..|].
    eapply owned_ext; [|apply (owned_move (slot o) s n i); [apply Hinv|by apply slot_none]].
    intros k. rewrite slot_insert. unfold upd at 1 3. cbn. case_decide; [by apply slot_some|].
    by rewrite slot_insert.
  - rewrite made_app, destroyed_app.
    change (made (_ :: [])) with 1%nat. change (destroyed (_ :: [])) with 0%nat.
    rewrite map_size_insert_None by (rewrite lookup_insert_ne by done; by apply not_elem_of_dom).
    rewrite map_size_insert_Some by eauto. pose proof (inv_count _ _ Hinv). lia.
  - rewrite !dom_insert_L. f_equal. apply subseteq_union_1_L, singleton_subseteq_l, elem_of_dom. eauto.
Qed.

Lemma assign_inv o s i j p q :
  inv o s -> o !! i = Some p -> o !! j = Some q -> runs_to (act (Assign i j) o) s (dom o).
Proof.
  intros Hinv Hp Hq. cbn [act]. rewrite Hp, Hq.
  destruct (gives_inv (Primo_assign (i =? j)%nat p q) (fun p => <[i := p]> o)
    (fun p => upd i (vec p) (slot o)) 0 0 o s Hinv) as (o' & s' & Hm & Hi & r & ->).
  - apply Primo_assign_gives; [apply Hinv|by apply slot_some..].
  - intros. apply slot_insert.
  - intros. rewrite map_size_insert_Some by eauto. lia.
  - do 2 eexists. split_and!; [done|done|]. rewrite dom_insert_L.
    apply subseteq_union_1_L, singleton_subseteq_l, elem_of_dom. eauto.
Qed.

Lemma delete_inv o s i p :
  inv o s -> o !! i = Some p -> runs_to (act (Delete i) o) s (dom o ∖ {[i]}).
Proof.
  intros Hinv Hp. cbn [act]. rewrite Hp.
  destruct (gives_inv (Primo_delete p) (fun _ => delete i o) (fun _ => upd i None (slot o)) 0 1 o s Hinv)
    as (o' & s' & Hm & Hi & _ & ->).
  - by apply Primo_delete_gives, slot_some; [apply Hinv|].
  - intros. apply slot_delete.
  - intros _. rewrite map_size_delete_Some by eauto.
    assert (size o <> 0)%nat; [|lia]. intros H0%map_size_empty_inv. by rewrite H0, lookup_empty in Hp.
  - do 2 eexists. split_and!; [done|done|]. by rewrite dom_delete_L.
Qed.

Lemma object_act_inv a o s names :
  inv o s -> scope a (dom o) = Some names -> runs_to (act a o) s names.
Proof.
  intros Hinv Hs. pose proof (inv_owned _ _ Hinv) as Ho.
  destruct a as [n d|n i|n i|i j|i]; cbn in Hs;
    repeat match type of Hs with
    | context [bool_decide (?x ∈ dom o)] =>
        let p := fresh "p" in let Hp := fresh "Hp" in
        destruct (bool_decide_reflect (x ∈ dom o)) as [[p Hp]%elem_of_dom|]; [|done]
    | context [decide (?x ∈ dom o)] => destruct (decide (x ∈ dom o)) as [|Hn]; [done|]
    end; injection Hs as <-.
  - apply declare_inv; [done..|]. by apply Primo_new_gives, slot_none.
  - cbn [act]. rewrite Hp. apply declare_inv; [done..|].
    apply Primo_copy_gives with i; [done|by apply slot_none|by apply slot_some].
  - by eapply move_inv.
  - by eapply assign_inv.
  - by eapply delete_inv.
Qed.

Lemma object_acts_inv l o s names :
  inv o s -> scopes l (dom o) = Some names -> runs_to (acts l o) s names.
Proof.
  revert o s. induction l as [|a l IH]; intros o s Hinv Hs; cbn in Hs.
  - injection Hs as <-. by exists o, s.
  - destruct (scope a (dom o)) as [names'|] eqn:Ha; [|done]. cbn in Hs.
    destruct (object_act_inv a o s names' Hinv Ha) as (o1 & s1 & Hact & Hinv1 & <-).
    destruct (IH o1 s1 Hinv1 Hs) as (o2 & s2 & Hrest & Hend).
    exists o2, s2. split; [|done]. cbn [acts]. by rewrite (bind_some _ _ _ _ _ Hact).
Qed.

Definition start (h : bool) : state := State ∅ 0 h [].
Lemma start_inv h : inv ∅ (start h).
Proof.
  split; [|done]. split; cbn.
  - intros l. rewrite lookup_empty. split; [by intros []|]. by intros [i ?].
  - done.
  - intros l. rewrite lookup_empty. by intros [].
  - done.
Qed.


(** *** The programs *)

(** Every block gives all its memory back and destroys what it made, the three that are
    not run included. *)
Theorem blocks_leave_nothing h elide :
  Forall (fun block : M unit =>
    exists s, block (start h) = Some (tt, s) /\ live s = ∅ /\ made (printed s) = destroyed (printed s))
    [Macro_block; Primo_block; Secundo_block; move_block; class_ops_main;
     reference_block elide; unique_block; unique_ptr_main elide; vector_move_main].
Proof. destruct elide; repeat constructor; eexists; split_and!; vm_compute; reflexivity. Qed.

(** What [class_ops] prints: the vector changes its owner and is never copied; members
    come to life before their object and go after it; and a moved object is still
    destroyed, without memory. *)
Theorem class_ops_messages h :
  printed <$> (snd <$> class_ops_main (start h)) = Some
    [Text "===="; Call "Primo(std::string)" "Primo_default" [Some 0%nat];
     Call "Secundo(std::string)" "secundo" [];
     Call "Primo(Primo&&)" "Primo_default" [Some 0%nat]; Call "Secundo(Secundo&&)" "secundo" [];
     Text "++++";
     Call "~Secundo()" "secundo" []; Call "~Primo()" "Primo_default" [Some 0%nat];
     Call "~Secundo()" (moved "secundo") []; Call "~Primo()" (moved "Primo_default") [None]].
Proof. vm_compute. reflexivity. Qed.

(** The result of [create_class] has the memory of [prm], whether the compiler makes it in
    place or moves it. *)
Theorem create_class_keeps_memory h elide :
  exists s, create_class elide (start h) = Some (MkPrimo "Primo create_class()" (Some 0%nat), s) /\
    printed s = Call "Primo(std::string)" "Primo create_class()" [Some 0%nat] ::
      if elide then []
      else [Call "Primo(Primo&&)" "Primo create_class()" [Some 0%nat];
            Call "~Primo()" (moved "Primo create_class()") [None]].
Proof. destruct elide; eexists; split; vm_compute; reflexivity. Qed.

(** The vectors of [vector_move]: copies have their own memory, what is moved and what is
    returned keeps it.  After the first address every number is printed in base 16, since
    the flag of the stream stays set. *)
Theorem vectors_move :
  let info h v xs := [Text "vector size: "; Number h (Z.of_nat (length xs)); Text " data: "; Address v] ++
    (xs ≫= fun x => [Number true x; Text " "]) in
  printed <$> (snd <$> vector_move_main (start false)) = Some
    (Text "vector src: " :: info false (Some 0%nat) [4; 3; 2; 1] ++
     Text "vector copy: " :: info true (Some 1%nat) [4; 3; 2; 1] ++
     Text "vector copy constructed: " :: info true (Some 2%nat) [4; 3; 2; 1] ++
     info true (Some 0%nat) [4; 3; 2; 1] ++
     Text "vector src after move: " :: info true None [] ++
     Text "local vector inside: " :: info true (Some 3%nat) [40; 30; 20; 10] ++
     Text "returned vector: " :: info true (Some 3%nat) [40; 30; 20; 10]).
Proof. vm_compute. reflexivity. Qed.
End programs.

(** An assignment copies the elements, to an object of its own memory; assigned to itself
    an object only gets a longer text. *)
Theorem assignment_copies moved reuse h d e :
  (exists o s, acts moved reuse [New 0 d; New 1 e; Assign 0 1] ∅ (start h) = Some (o, s) /\
     exists p q x y, o !! 0%nat = Some p /\ o !! 1%nat = Some q /\ vec p = Some x /\ vec q = Some y /\ x <> y /\
       desc p = e +:+ "_copy" /\ desc q = e /\
       elems <$> live s !! x = Some [1; 2; 3] /\ elems <$> live s !! y = Some [1; 2; 3]) /\
  exists o s, acts moved reuse [New 0 d; Assign 0 0] ∅ (start h) = Some (o, s) /\
    o !! 0%nat = Some (MkPrimo (d +:+ "_copy") (Some 0%nat)).
Proof.
  split.
  - destruct reuse; do 2 eexists; (split; [vm_compute; reflexivity|]);
      do 4 eexists; repeat (split; [reflexivity|]); split_and!; try reflexivity; by intros [=].
  - do 2 eexists. split; vm_compute; reflexivity.
Qed.

