(* ===== verification/CppClasses.v ===== *)
(** * Classes, operators and overloads

    [cpp/other]: [class_try_catch.cpp] (a constructor that throws), [class_pure_virtual.cpp],
    [non_virtual_interface.cpp], [class_using.cpp] and [virtual.cpp] (which function is
    called), [class_operator.cpp] (an operator and its temporary objects),
    [std_forward_vs_move.cpp] (lvalues and rvalues) and [std_pair_ostream_overload.cpp].
    Functions say their name; where the characters of a text are stored and the banners
    are left out. *)
From S2P Require Import Prelude.
From S2P Require Import CppObjects.
From Stdlib Require Import Ascii.
From stdpp Require Import options.
#[local] Open Scope string_scope.
#[local] Open Scope list_scope.
#[local] Open Scope Z_scope.

Definition endl : item := Text (String "010" "").

(** ** Construction

    A class with the text its default constructor takes, and what the constructor throws,
    if it does.  An object is a list of classes, the base first. *)
Record class := Class { cname : string; cdesc : string; throws : option string }.
Definition constructor (c : class) : item := Call (cname c +:+ "::" +:+ cname c) (cdesc c) [].
Definition destructor (c : class) : item := Call (cname c +:+ "::~" +:+ cname c) (cdesc c) [].

(** [built]: the classes whose constructors have ended, the last first.  What is printed,
    and the exception. *)
Fixpoint construct (built l : list class) : list item * option string :=
  match l with
  | [] => ([], None)
  | c :: l' =>
      match throws c with
      | Some e => (constructor c :: map destructor built, Some e)
      | None => let '(out, r) := construct (c :: built) l' in (constructor c :: out, r)
      end
  end.
Definition destroy (l : list class) : list item := map destructor (rev l).

(** A block with one object. *)
Definition block (l : list class) (body : list item) : list item * option string :=
  match construct [] l with
  | (out, None) => (out ++ body ++ destroy l, None)
  | (out, Some e) => (out, Some e)
  end.

(** ** [class_try_catch.cpp] *)
Module TryCatch.
Definition try_Base : class := Class "Base" "Base_default" None.
Definition try_Derived : class := Class "Derived" "Derived exception" (Some "error").
Definition try_main : list item :=
  match block [try_Base; try_Derived] [] with
  | (out, None) => out
  | (out, Some what) => out ++ [Text ("main catch: [" +:+ what +:+ "]")]
  end.
End TryCatch.

(** ** Functions of a class *)
Definition Base : class := Class "Base" "Base_default" None.
Definition Derived : class := Class "Derived" "Derived_default" None.
(** The class of the whole object, which a call of a virtual function asks for. *)
Inductive dynamic := IsBase | IsDerived.

(** [class_pure_virtual.cpp]: the base has bodies for its pure functions. *)
Module PureVirtual.
Definition pure_Base_f : list item := [Text "Pure virtual:Base::f:"].
Definition pure_Base_g : list item := [Text "Pure virtual:Base::g:"].
Definition pure_Derived_f : list item := [Text "Derived::f:"].
Definition pure_Derived_g : list item := [Text "Derived::gCALLING:"] ++ pure_Base_f.
Definition pure_main : list item := fst (block [Base; Derived] (pure_Base_f ++ pure_Derived_g)).
End PureVirtual.

(** [non_virtual_interface.cpp] *)
Module Interface.
Definition nvi_Base_f : list item := [Text "Pure virtual:Base::f"].
Definition nvi_Derived_f : list item := [Text "Derived::f"].
Definition nvi_f (this : dynamic) : list item := match this with IsBase => nvi_Base_f | IsDerived => nvi_Derived_f end.
Definition interface (this : dynamic) : list item :=
  [Text "Base::interface start"; Text "****"] ++ nvi_f this ++ [Text "****"; Text "Base::interface end"].
Definition nvi_main : list item := fst (block [Base; Derived] (interface IsDerived)).
End Interface.

(** [class_using.cpp]: the declaration brings [f (int)] into the class again, which its
    own [f ()] would hide. *)
Module Using.
Definition using_Base_f : list item := [Text "Base::f():"].
Definition using_Base_f_int (_ : Z) : list item := [Text "Base::f(int):"].
Definition using_Derived_f : list item := [Text "Derived::f():"].
Definition using_Derived_f_int : Z -> list item := using_Base_f_int.
Definition using_main : list item := fst (block [Base; Derived] (using_Derived_f ++ using_Derived_f_int 0)).
End Using.

(** [virtual.cpp]: [f1] is virtual, [f2] is not. *)
Module Virtual.
Definition T1_f1 : Z := 1.
Definition T1_f2 : Z := 1.
Definition T2_f1 : Z := 2.
Definition T2_f2 : Z := 2.
Definition virtual_f (p1 : dynamic) : list item :=
  [Number false (match p1 with IsBase => T1_f1 | IsDerived => T2_f1 end); Text "  "; Number false T1_f2; endl].
Definition virtual_main : list item := virtual_f IsDerived.
End Virtual.

(** ** [class_operator.cpp] *)
Module Operator.
Record Primo := MkPrimo { v : Z; t : ascii }.
Inductive message :=
  | Made (p : Primo)
  | Destroyed (p : Primo)
  | Added (a b : Primo).

(** The sum of two [int]s, undefined where it does not fit. *)
Definition plus (x y : Z) : option Z := if (-2 ^ 31 <=? x + y) && (x + y <? 2 ^ 31) then Some (x + y) else None.

(** The member and the friend; the messages, and the object returned.  Without [elide]
    the result is copied, silently, and [res] destroyed. *)
Definition leave (elide : bool) (res : Primo) : list message := if elide then [] else [Destroyed res].
Definition member_plus (elide : bool) (this other : Primo) : option (list message * Primo) :=
  x ← plus (v this) (v other);
  let res := MkPrimo x "C" in
  Some ([Added this other; Made res] ++ leave elide res, res).
Definition friend_plus (elide : bool) (a b : Primo) : option (list message * Primo) :=
  x ← plus (v a) (v b);
  let res := MkPrimo x "F" in Some ([Made res] ++ leave elide res, res).

(** [a + b]: the member is not for constant objects; where both fit it is the better
    one. *)
Definition operator_plus (constant elide : bool) (a b : Primo) : option (list message * Primo) :=
  if constant then friend_plus elide a b else member_plus elide a b.

(** [primo = primo + Primo (b)], then the end of the block: the temporary objects go, the
    last first. *)
Definition add_block (elide : bool) (a b : Primo) : option (list message) :=
  '(out, res) ← operator_plus false elide a b;
  Some ([Made a; Made b] ++ out ++ [Destroyed res; Destroyed b; Destroyed res]).
Definition operator_main (elide : bool) : option (list message) := add_block elide (MkPrimo 33 "A") (MkPrimo 1 "B").
End Operator.

(** ** [std_forward_vs_move.cpp] *)
Module Forward.
Inductive category := LValue | RValue.
Definition y (x : category) : Z := match x with LValue => 1 | RValue => 2 end.
Definition move (_ : category) : category := RValue.
(** [std::forward <T>], for the type that was deduced from the argument. *)
Definition forward (T _ : category) : category := T.

(** The parameter [x] has a name, so it is an lvalue. *)
Definition fwd_f (T : category) : Z := let x := LValue in y x.
Definition fwd_g (T : category) : Z := let x := LValue in y (move x).
Definition fwd_h (T : category) : Z := let x := LValue in y (forward T x).
Definition fwd_main : list Z := [fwd_f LValue; fwd_f RValue; fwd_g LValue; fwd_g RValue; fwd_h LValue; fwd_h RValue].
End Forward.

(** ** [std_pair_ostream_overload.cpp] *)
Module PairStream.
Record Rec := MkRec { a : Z; b : Z; c : Z }.
Definition print_Rec (r : Rec) : list item := [Number false (a r); Text "#"; Number false (b r)].
Definition print_Pair (p : Z * Z) : list item := [Number false p.1; Text "%"; Number false p.2].
Definition pair2string (p : Z * Z) : list item := [Number false p.1; Text "&"; Number false p.2].
Definition f92s (p : Z * Z) : list item := [Number false p.1; Text "#"; Number false p.2].
(** [std::copy] to a [std::ostream_iterator] with ", ". *)
Definition out_it {A} (print : A -> list item) (l : list A) : list item := l ≫= fun x => print x ++ [Text ", "].
Definition pairs_main : list item :=
  let recs := map (fun x => MkRec x 0 0) [0; 1; 2; 3; 4; 5] in
  let pairs := map (fun x => (x, -x)) [0; 1; 2; 3; 4; 5] in
  out_it print_Rec recs ++ [endl] ++ out_it print_Pair pairs ++ [endl] ++ out_it f92s pairs ++ [endl].
End PairStream.

(** ** What they do *)

(** If nothing is thrown, destruction mirrors construction.  If a constructor throws, the
    bases whose constructors had ended are destroyed, the last first, and neither the
    class that threw nor those behind it. *)
Theorem construct_unwinds before c after e body :
  Forall (fun c => throws c = None) before ->
  block before body = (map constructor before ++ body ++ map destructor (rev before), None) /\
  (throws c = Some e ->
   block (before ++ c :: after) body =
     (map constructor (before ++ [c]) ++ map destructor (rev before), Some e)).
Proof.
  intros Hb.
  assert (forall built rest, construct built (before ++ rest) =
    let '(out, r) := construct (rev before ++ built) rest in (map constructor before ++ out, r)) as Hc.
  { induction Hb as [|x l Hx Hl IH]; intros built rest; cbn; [by destruct (construct _ _)|].
    rewrite Hx, IH, <- app_assoc. by destruct (construct _ _). }
  unfold block. split.
  - rewrite <- (app_nil_r before) at 1. rewrite Hc. cbn. by rewrite app_nil_r.
  - intros He. rewrite Hc. cbn. rewrite He. cbn.
    rewrite app_nil_r, (map_app constructor before), <- app_assoc. done.
Qed.

Lemma construct_unwinds_witness :
  block [TryCatch.try_Base; TryCatch.try_Derived] [] =
    ([constructor TryCatch.try_Base; constructor TryCatch.try_Derived; destructor TryCatch.try_Base], Some "error").
Proof.
  refine (proj2 (construct_unwinds [TryCatch.try_Base] TryCatch.try_Derived [] "error" [] _) eq_refl).
  by repeat constructor.
Defined.

(** [~Derived] is not run. *)
Theorem try_catch_prints :
  TryCatch.try_main = [Call "Base::Base" "Base_default" []; Call "Derived::Derived" "Derived exception" [];
                   Call "Base::~Base" "Base_default" []; Text "main catch: [error]"] /\
  destructor TryCatch.try_Derived ∉ TryCatch.try_main.
Proof. split; [reflexivity|]. by rewrite list_elem_of_In; cbn; intuition. Qed.

(** Every object of two classes is made and destroyed around what its functions print; a
    qualified call reaches the body of a pure function, a virtual one that of the derived
    class, and [f2] that of the type of the pointer. *)
Theorem class_mains :
  let around body := [constructor Base; constructor Derived] ++ body ++ [destructor Derived; destructor Base] in
  PureVirtual.pure_main = around (PureVirtual.pure_Base_f ++ [Text "Derived::gCALLING:"] ++ PureVirtual.pure_Base_f) /\
  Interface.nvi_main = around
    ([Text "Base::interface start"; Text "****"] ++ Interface.nvi_Derived_f ++ [Text "****"; Text "Base::interface end"]) /\
  Using.using_main = around (Using.using_Derived_f ++ Using.using_Base_f_int 0) /\
  Virtual.virtual_main = [Number false 2; Text "  "; Number false 1; endl].
Proof. done. Qed.

Definition count (P : Operator.message -> bool) (l : list Operator.message) : nat := length (List.filter P l).
Definition is_Made (m : Operator.message) : bool := match m with Operator.Made _ => true | _ => false end.
Definition is_Destroyed (m : Operator.message) : bool := match m with Operator.Destroyed _ => true | _ => false end.

(** The sum is the member's, undefined where it does not fit an [int].  What is printed of
    the objects that are made and destroyed balances only if the compiler leaves the copy
    of the result out, since copies say nothing; and the object that is assigned to goes
    with the sum in it. *)
Theorem add_block_prints elide a b :
  let x := Operator.v a + Operator.v b in
  match Operator.add_block elide a b with
  | Some out =>
      -2 ^ 31 <= x < 2 ^ 31 /\
      count is_Destroyed out = (count is_Made out + if elide then 0 else 1)%nat /\
      last out = Some (Operator.Destroyed (Operator.MkPrimo x "C"))
  | None => ~ (-2 ^ 31 <= x < 2 ^ 31)
  end.
Proof.
  cbv zeta. unfold Operator.add_block, Operator.operator_plus, Operator.member_plus, Operator.plus.
  destruct (Z.leb_spec (-2 ^ 31) (Operator.v a + Operator.v b)),
    (Z.ltb_spec (Operator.v a + Operator.v b) (2 ^ 31)); cbn [andb mbind option_bind]; try lia.
  split; [lia|]. by destruct elide.
Qed.

(** A constant object is added by the friend, silently. *)
Lemma constant_plus elide a b out p :
  Operator.operator_plus true elide a b = Some (out, p) ->
  Operator.t p = "F"%char /\ Forall (fun m => is_Made m || is_Destroyed m) out.
Proof.
  cbn. unfold Operator.friend_plus. destruct (Operator.plus _ _); cbn; [|done]. intros [= <- <-].
  destruct elide; by repeat constructor.
Qed.

Theorem forward_prints :
  Forward.fwd_main = [1; 1; 2; 2; 1; 2] /\
  forall T, Forward.fwd_f T = 1 /\ Forward.fwd_g T = 2 /\ Forward.fwd_h T = Forward.y T.
Proof. split; [done|]. by intros []. Qed.

(** Each element is followed by the separator, the last one too. *)
Theorem pairs_print :
  PairStream.pairs_main =
    [Number false 0; Text "#"; Number false 0; Text ", "; Number false 1; Text "#"; Number false 0; Text ", ";
     Number false 2; Text "#"; Number false 0; Text ", "; Number false 3; Text "#"; Number false 0; Text ", ";
     Number false 4; Text "#"; Number false 0; Text ", "; Number false 5; Text "#"; Number false 0; Text ", "; endl] ++
    ([0; 1; 2; 3; 4; 5] ≫= fun x => [Number false x; Text "%"; Number false (- x); Text ", "]) ++ [endl] ++
    ([0; 1; 2; 3; 4; 5] ≫= fun x => [Number false x; Text "#"; Number false (- x); Text ", "]) ++ [endl].
Proof. done. Qed.
