(* ===== verification/EnumMap.v ===== *)
(** * Enumerations with their names

    [qt/EnumMapTemplateTest/Cam.h] and [Cam.cpp], and [qt/EnumMapTest/CamCommands.h]: a
    list macro is expanded into the constants of an [enum class], an array of their
    names and an array to iterate over.  An [enum class] of type [int] has every [int]
    as a value; it is a [Z] here, and the constants are numbered by their place. *)
From S2P Require Import Prelude.
From stdpp Require Import options.
#[local] Open Scope string_scope.
#[local] Open Scope Z_scope.

(** ** The lists *)
Definition CAM_PARAMS_LIST : list string :=
  ["URL_H"; "URL_L"; "HOST"; "LOGIN"; "PASSWORD"; "SSH_PORT"; "HTTP_LOGIN"; "HTTP_PASSWORD";
   "HTTP_PORT"].
Definition CAM_COMMANDS_LIST : list string := ["NIGHT_ON"; "NIGHT_OFF"; "BITRATE1"; "BITRATE2"].
Definition CAM_ARG_LIST : list string := ["TYPE"; "EXECUTABLE"; "ARG"; "METHOD"; "PATH"].
Definition CamCommands_LIST : list string := ["URL_H"; "CMD_NIGHT_ON"; "CMD_NIGHT_OFF"].

(** ** What the macros make of one *)

(** The constants, each with its value, and [Count] after them. *)
Fixpoint enumerators (i : Z) (names : list string) : list (string * Z) :=
  match names with
  | [] => [("Count", i)]
  | name :: names' => (name, i) :: enumerators (i + 1) names'
  end.
Definition DECL_ENUM (LIST : list string) : list (string * Z) := enumerators 0 LIST.

(** [Enum::name]; [None] does not compile. *)
Fixpoint find_enum (name : string) (e : list (string * Z)) : option Z :=
  match e with
  | [] => None
  | (n, v) :: e' => if String.eqb name n then Some v else find_enum name e'
  end.
Definition enum (LIST : list string) (name : string) : option Z := find_enum name (DECL_ENUM LIST).

(** The array to iterate over. *)
Definition DECL_ENUM_ITERATOR (LIST : list string) : option (list Z) := mapM (enum LIST) LIST.

(** [enumToString] and [toQString]. *)
Definition enumToString (value : Z) (strings : list string) : string :=
  if (value <? 0) || (Z.of_nat (length strings) <=? value) then "Unknown"
  else default "" (strings !! Z.to_nat value).
Definition toString (LIST : list string) (value : Z) : string := enumToString value LIST.

(** [CamCommands::toString] compares with [Count] in place of the size of the array. *)
Definition CamCommands_toString (cmd : Z) : option string :=
  count ← enum CamCommands_LIST "Count";
  if (cmd <? 0) || (count <=? cmd) then Some "Unknown"
  else CamCommands_LIST !! Z.to_nat cmd.

(** The constructor of [Cam]: what it prints, a list for each line. *)
Definition Cam_lines : option (list (list string)) :=
  p ← enum CAM_PARAMS_LIST "HOST";
  c ← enum CAM_COMMANDS_LIST "NIGHT_ON";
  a ← enum CAM_ARG_LIST "TYPE";
  ps ← DECL_ENUM_ITERATOR CAM_PARAMS_LIST;
  cs ← DECL_ENUM_ITERATOR CAM_COMMANDS_LIST;
  xs ← DECL_ENUM_ITERATOR CAM_ARG_LIST;
  Some [[toString CAM_PARAMS_LIST p; toString CAM_COMMANDS_LIST c; toString CAM_ARG_LIST a];
        []; map (toString CAM_PARAMS_LIST) ps; map (toString CAM_COMMANDS_LIST) cs;
        map (toString CAM_ARG_LIST) xs].

(** ** Facts about any list of names *)

(** [LIST] makes a valid enumeration: no name is used twice, [Count] included. *)
Definition names_ok (LIST : list string) : Prop := NoDup LIST /\ "Count" ∉ LIST.

Lemma find_enumerators (LIST : list string) i k name :
  NoDup LIST -> LIST !! k = Some name -> find_enum name (enumerators i LIST) = Some (i + Z.of_nat k).
Proof.
  revert i k. induction LIST as [|n LIST IH]; intros i k Hd Hk; [done|].
  apply NoDup_cons in Hd as [Hn Hd]. cbn.
  destruct k as [|k]; cbn in Hk.
  - simplify_eq. rewrite String.eqb_refl. f_equal. lia.
  - destruct (String.eqb_spec name n) as [->|_].
    + by apply list_elem_of_lookup_2 in Hk.
    + rewrite (IH (i + 1) k Hd Hk). f_equal. lia.
Qed.

Lemma count_enumerators (LIST : list string) i :
  "Count" ∉ LIST -> find_enum "Count" (enumerators i LIST) = Some (i + Z.of_nat (length LIST)).
Proof.
  revert i. induction LIST as [|n LIST IH]; intros i Hc; cbn [enumerators find_enum].
  - rewrite String.eqb_refl. f_equal. cbn. lia.
  - apply not_elem_of_cons in Hc as [Hn Hc].
    destruct (String.eqb_spec "Count" n) as [|_]; [done|].
    rewrite IH by done. f_equal. cbn [length]. lia.
Qed.

Lemma enum_lookup (LIST : list string) k name :
  NoDup LIST -> LIST !! k = Some name -> enum LIST name = Some (Z.of_nat k).
Proof. intros Hd Hk. unfold enum, DECL_ENUM. by rewrite (find_enumerators _ _ k). Qed.

Lemma toString_lookup (LIST : list string) k name :
  LIST !! k = Some name -> toString LIST (Z.of_nat k) = name.
Proof.
  intros Hk. unfold toString, enumToString. pose proof (lookup_lt_Some _ _ _ Hk).
  rewrite (proj2 (orb_false_iff _ _)) by (split; lia).
  by rewrite Nat2Z.id, Hk.
Qed.

(** The names printed of the values that are iterated over are the names of the list, in
    their order: every constant once, and [Count] not. *)
Theorem iterates_all (LIST : list string) :
  names_ok LIST ->
  exists values, DECL_ENUM_ITERATOR LIST = Some values /\
    values = seqZ 0 (Z.of_nat (length LIST)) /\
    map (toString LIST) values = LIST /\
    enum LIST "Count" = Some (Z.of_nat (length values)).
Proof.
  intros [Hd Hc]. exists (seqZ 0 (Z.of_nat (length LIST))). split; [|split; [done|split]].
  - apply mapM_Some, Forall2_same_length_lookup. split.
    + rewrite length_seqZ. lia.
    + intros k name v Hk Hv. apply lookup_seqZ in Hv as [-> _].
      by rewrite (enum_lookup _ k).
  - apply list_eq. intros k. rewrite list_lookup_fmap.
    destruct (LIST !! k) as [name|] eqn:Hk.
    + pose proof (lookup_lt_Some _ _ _ Hk). rewrite lookup_seqZ_lt by lia. cbn.
      f_equal. by apply toString_lookup.
    + apply lookup_ge_None in Hk. by rewrite lookup_seqZ_ge by lia.
  - rewrite length_seqZ. unfold enum, DECL_ENUM. rewrite count_enumerators by done.
    f_equal. lia.
Qed.

(** A constant and its name give each other back, and every other [int] is unknown. *)
Theorem names_round_trip (LIST : list string) v :
  names_ok LIST ->
  (0 <= v < Z.of_nat (length LIST) -> enum LIST (toString LIST v) = Some v) /\
  (~ 0 <= v < Z.of_nat (length LIST) -> toString LIST v = "Unknown").
Proof.
  intros [Hd _]. split; intros Hv.
  - destruct (lookup_lt_is_Some_2 LIST (Z.to_nat v)) as [name Hk]; [lia|].
    pose proof (toString_lookup _ _ _ Hk) as Ht. pose proof (enum_lookup _ _ _ Hd Hk) as He.
    rewrite Z2Nat.id in Ht, He by lia. by rewrite Ht.
  - unfold toString, enumToString.
    destruct (orb_true_iff (v <? 0) (Z.of_nat (length LIST) <=? v)) as [_ ->]; [done|]. lia.
Qed.

(** ** The lists of the code *)
#[export] Instance names_ok_dec LIST : Decision (names_ok LIST).
Proof. unfold names_ok. apply _. Defined.

Lemma lists_ok :
  Forall names_ok [CAM_PARAMS_LIST; CAM_COMMANDS_LIST; CAM_ARG_LIST; CamCommands_LIST].
Proof. apply (bool_decide_unpack _). by vm_compute. Qed.

Lemma commands_ok : names_ok CamCommands_LIST.
Proof. pose proof lists_ok as H. by repeat (apply Forall_cons in H as [? H]). Qed.

(** The two ways to write [toString] agree, and the simpler one reads inside its array. *)
Theorem toString_variants cmd :
  CamCommands_toString cmd = Some (toString CamCommands_LIST cmd).
Proof.
  unfold CamCommands_toString, toString, enumToString.
  change (enum CamCommands_LIST "Count") with (Some 3). cbn [mbind option_bind].
  change (Z.of_nat (length CamCommands_LIST)) with 3.
  destruct ((cmd <? 0) || (3 <=? cmd)) eqn:Hb; [done|].
  apply orb_false_iff in Hb as [? ?].
  destruct (lookup_lt_is_Some_2 CamCommands_LIST (Z.to_nat cmd)) as [n ->]; [cbn; lia|done].
Qed.

(** What the demonstration prints. *)
Example Cam_prints :
  Cam_lines = Some [["HOST"; "NIGHT_ON"; "TYPE"]; []; CAM_PARAMS_LIST; CAM_COMMANDS_LIST;
                    CAM_ARG_LIST].
Proof. by vm_compute. Qed.

Lemma iterates_all_witness :
  exists values, DECL_ENUM_ITERATOR CAM_ARG_LIST = Some values /\
    values = seqZ 0 5 /\ map (toString CAM_ARG_LIST) values = CAM_ARG_LIST /\
    enum CAM_ARG_LIST "Count" = Some (Z.of_nat (length values)).
Proof. apply (iterates_all CAM_ARG_LIST). apply (bool_decide_unpack _). vm_compute. exact I. Defined.
