(* ===== verification/ProgramOptions.v ===== *)
(** * Options of a program with tasks

    [cpp/boost/program_options/boost-main.cpp] reads the command line twice: once for
    the task, once more for the options of that task.  What [boost::program_options]
    makes of a command line is a parameter ([Boost]); [None] is an exception.  The
    documented behaviour that a theorem needs is [BoostSpec]. *)
From S2P Require Import Prelude.
From stdpp Require Import gmap.
From stdpp Require Import options.
#[local] Open Scope string_scope.
#[local] Open Scope list_scope.
#[local] Open Scope Z_scope.

(** ** Options *)
Inductive kind := Flag | One | Many.        (** no value, [std::string], a vector of them *)
Record option_description := Opt { long : string; short : string; of_kind : kind }.
Abbreviation options_description := (list option_description).

Inductive value := Text (s : string) | Texts (l : list string).
Abbreviation variables_map := (gmap string value).

Definition desc : options_description := [Opt "help" "h" Flag; Opt "type" "t" One].
Definition train_desc : options_description :=
  [Opt "input" "I" One; Opt "info" "i" One; Opt "output" "O" One].
Definition recognize_desc : options_description :=
  [Opt "input" "I" Many; Opt "params" "p" One; Opt "output" "O" One].
Definition score_desc : options_description :=
  [Opt "ethanol" "e" One; Opt "test" "t" One; Opt "output" "O" One].

(** What a parser gives; the flag is [allow_unregistered], and what is not registered is
    not in the result. *)
Class Boost := parse : bool -> options_description -> list string -> option variables_map.

(** What [store] puts into a map that has some of the options already. *)
Definition store (parsed vm : variables_map) : variables_map := vm ∪ parsed.

Definition has_kind (d : options_description) (name : string) (v : value) : Prop :=
  exists o, o ∈ d /\ long o = name /\
    match v with
    | Text s => match of_kind o with Many => False | Flag => s = "" | One => True end
    | Texts _ => of_kind o = Many
    end.

Class BoostSpec `{Boost} := {
  (** Values have the type of an option that is described. *)
  parse_kind u d args vm name v :
    parse u d args = Some vm -> vm !! name = Some v -> has_kind d name v;
  (** A short name of two options is ambiguous, here as the first argument. *)
  parse_ambiguous u d args i j a b :
    d !! i = Some a -> d !! j = Some b -> i <> j -> short a = short b ->
    head args = Some ("-" +:+ short a) -> parse u d args = None;
}.

(** ** The tasks *)

(** What the program prints; the names of files of a task in the order it prints them,
    several inputs as one list. *)
Inductive printed :=
  | Train (input_path info_path output_path : string)
  | Recognize (input_files : list string) (params_path output_path : string)
  | Score (ethanol_files test_path output_path : string)
  | Options (d : options_description).

(** [vm[name].as<std::string>()] where the name is there, otherwise the empty string. *)
Definition as_string (name : string) (vm : variables_map) : option string :=
  match vm !! name with
  | None => Some ""
  | Some (Text s) => Some s
  | Some (Texts _) => None
  end.
Definition as_strings (name : string) (vm : variables_map) : option (list string) :=
  match vm !! name with
  | None => Some []
  | Some (Texts l) => Some l
  | Some (Text _) => None
  end.

Definition train (vm : variables_map) : option printed :=
  input_path ← as_string "input" vm;
  info_path ← as_string "info" vm;
  output_path ← as_string "output" vm;
  Some (Train input_path info_path output_path).

Definition recognize (vm : variables_map) : option printed :=
  input_files ← as_strings "input" vm;
  params_path ← as_string "params" vm;
  output_path ← as_string "output" vm;
  Some (Recognize input_files params_path output_path).

Definition score (vm : variables_map) : option printed :=
  ethanol_files ← as_string "ethanol" vm;
  test_path ← as_string "test" vm;
  output_path ← as_string "output" vm;
  Some (Score ethanol_files test_path output_path).

Section main.
Context {boost : Boost}.

(** The second reading with the options of a task, and the task.  The handler of the
    exception prints [desc], which the task has extended. *)
Definition run_task (task_desc : options_description) (task : variables_map -> option printed)
    (args : list string) (vm : variables_map) : printed :=
  let d := desc ++ task_desc in
  default (Options d) (parsed ← parse false d args; task (store parsed vm)).

Definition main (args : list string) : printed :=
  match parse true desc args with
  | None => Options desc
  | Some parsed =>
      let vm := store parsed ∅ in
      let task_type := match vm !! "type" with Some (Text s) => s | _ => "" end in
      if String.eqb task_type "train" then run_task train_desc train args vm
      else if String.eqb task_type "recognize" then run_task recognize_desc recognize args vm
      else if String.eqb task_type "score" then run_task score_desc score args vm
      else Options (desc ++ train_desc ++ recognize_desc ++ score_desc)
  end.
End main.

(** ** What it does *)
Section facts.
Context {boost : Boost} {boost_spec : BoostSpec}.
#[local] Set Default Proof Using "Type*".

(** The option named, or nothing. *)
Definition given (name : string) (vm : variables_map) : string :=
  match vm !! name with Some (Text s) => s | _ => "" end.
Definition given_all (name : string) (vm : variables_map) : list string :=
  match vm !! name with Some (Texts l) => l | _ => [] end.

Definition only_texts (d : options_description) (name : string) : bool :=
  forallb (fun o => negb (String.eqb (long o) name) ||
                    match of_kind o with Many => false | _ => true end) d.
Definition only_lists (d : options_description) (name : string) : bool :=
  forallb (fun o => negb (String.eqb (long o) name) ||
                    match of_kind o with Many => true | _ => false end) d.

Lemma described f (d : options_description) o (name : string) :
  forallb (fun o => negb (String.eqb (long o) name) || f o) d = true ->
  o ∈ d -> long o = name -> f o = true.
Proof.
  intros Hall Ho Hl. apply forallb_forall with (x := o) in Hall; [|by apply list_elem_of_In].
  by rewrite Hl, String.eqb_refl in Hall.
Qed.

(** What is in the map after both readings has a kind in the longer description. *)
Lemma stored_kind t args v0 v1 name v :
  parse true desc args = Some v0 -> parse false (desc ++ t) args = Some v1 ->
  store v1 (store v0 ∅) !! name = Some v -> has_kind (desc ++ t) name v.
Proof.
  intros H0 H1. unfold store. rewrite map_empty_union, lookup_union_Some_raw.
  intros [Hv|[_ Hv]]; [|by eapply parse_kind].
  destruct (parse_kind _ _ _ _ _ _ H0 Hv) as (o & Ho & Hr).
  exists o. split; [apply elem_of_app; by left|done].
Qed.

Lemma as_string_given t args v0 v1 name :
  parse true desc args = Some v0 -> parse false (desc ++ t) args = Some v1 ->
  only_texts (desc ++ t) name = true ->
  as_string name (store v1 (store v0 ∅)) = Some (given name (store v1 (store v0 ∅))).
Proof.
  intros H0 H1 Hk. unfold as_string, given.
  destruct (store _ _ !! name) as [[s|l]|] eqn:Hv; [done| |done].
  destruct (stored_kind _ _ _ _ _ _ H0 H1 Hv) as (o & Ho & Hl & Hm).
  pose proof (described _ _ _ _ Hk Ho Hl) as Hf. cbn in Hf. by destruct (of_kind o).
Qed.

Lemma as_strings_given t args v0 v1 name :
  parse true desc args = Some v0 -> parse false (desc ++ t) args = Some v1 ->
  only_lists (desc ++ t) name = true ->
  as_strings name (store v1 (store v0 ∅)) = Some (given_all name (store v1 (store v0 ∅))).
Proof.
  intros H0 H1 Hk. unfold as_strings, given_all.
  destruct (store _ _ !! name) as [[s|l]|] eqn:Hv; [|done|done].
  destruct (stored_kind _ _ _ _ _ _ H0 H1 Hv) as (o & Ho & Hl & Hm).
  pose proof (described _ _ _ _ Hk Ho Hl) as Hf. cbn in Hf. by destruct (of_kind o).
Qed.

(** The names of the options of the tasks are not general options, so what they give
    comes from the second reading. *)
Lemma given_second args v0 v1 name :
  parse true desc args = Some v0 -> Forall (fun o => long o <> name) desc ->
  store v1 (store v0 ∅) !! name = v1 !! name.
Proof.
  intros H0 Hn. unfold store. rewrite map_empty_union. apply lookup_union_r.
  destruct (v0 !! name) as [v|] eqn:Hv; [|done].
  destruct (parse_kind _ _ _ _ _ _ H0 Hv) as (o & Ho & Hl & _).
  rewrite Forall_forall in Hn. by destruct (Hn o Ho).
Qed.

Lemma text_of t args v0 v1 name :
  parse true desc args = Some v0 -> parse false (desc ++ t) args = Some v1 ->
  only_texts (desc ++ t) name = true -> Forall (fun o => long o <> name) desc ->
  as_string name (store v1 (store v0 ∅)) = Some (given name v1).
Proof.
  intros H0 H1 Hk Hn. rewrite (as_string_given t args) by done.
  unfold given. by rewrite (given_second args v0 v1 name H0 Hn).
Qed.

Lemma texts_of t args v0 v1 name :
  parse true desc args = Some v0 -> parse false (desc ++ t) args = Some v1 ->
  only_lists (desc ++ t) name = true -> Forall (fun o => long o <> name) desc ->
  as_strings name (store v1 (store v0 ∅)) = Some (given_all name v1).
Proof.
  intros H0 H1 Hk Hn. rewrite (as_strings_given t args) by done.
  unfold given_all. by rewrite (given_second args v0 v1 name H0 Hn).
Qed.

#[local] Ltac read_all :=
  repeat first
    [ erewrite text_of by (eassumption || reflexivity || (repeat constructor; done))
    | erewrite texts_of by (eassumption || reflexivity || (repeat constructor; done)) ].

(** What the program prints, for each command line: the values of the second reading,
    the options of the task if that reading fails, the general options if the first
    one does, and all of them without a task.  No value is read as a type it has not. *)
Definition outcome (args : list string) : printed :=
  match parse true desc args with
  | None => Options desc
  | Some v0 =>
      let second t (run : variables_map -> printed) :=
        match parse false (desc ++ t) args with
        | None => Options (desc ++ t)
        | Some v => run v
        end in
      let task := given "type" v0 in
      if String.eqb task "train" then
        second train_desc (fun v => Train (given "input" v) (given "info" v) (given "output" v))
      else if String.eqb task "recognize" then
        second recognize_desc
          (fun v => Recognize (given_all "input" v) (given "params" v) (given "output" v))
      else if String.eqb task "score" then
        second score_desc (fun v => Score (given "ethanol" v) (given "test" v) (given "output" v))
      else Options (desc ++ train_desc ++ recognize_desc ++ score_desc)
  end.

Theorem main_outcome args : main args = outcome args.
Proof.
  unfold main, outcome. destruct (parse true desc args) as [v0|] eqn:H0; [|done].
  assert (match store v0 ∅ !! "type" with Some (Text s) => s | _ => "" end = given "type" v0) as ->
    by (unfold store, given; by rewrite map_empty_union).
  destruct (String.eqb _ "train"); [|destruct (String.eqb _ "recognize");
    [|destruct (String.eqb _ "score"); [|done]]];
    unfold run_task; cbv zeta; (destruct (parse false _ args) as [v1|] eqn:H1; [|done]);
    cbn [mbind option_bind]; unfold train, recognize, score; by read_all.
Qed.

(** The task [score] cannot be chosen by [-t]: with its own options, which have a
    [-t] too, the second reading finds that ambiguous, and the options are printed. *)
Theorem score_needs_long_option args v0 :
  head args = Some "-t" -> parse true desc args = Some v0 -> given "type" v0 = "score" ->
  main args = Options (desc ++ score_desc).
Proof.
  intros Hh H0 Ht. rewrite main_outcome. unfold outcome. rewrite H0, Ht. cbn [String.eqb].
  rewrite (parse_ambiguous false (desc ++ score_desc) args 1 3
             (Opt "type" "t" One) (Opt "test" "t" One)) by done.
  done.
Qed.
End facts.

(** ** A parser that has the documented behaviour *)
Module Plain.

(** The options that a word names. *)
Definition named (d : options_description) (word : string) : list option_description :=
  filter (fun o => word = ("-" +:+ short o)%string \/ word = ("--" +:+ long o)%string) d.

(** Options with their values as words that follow; a word that is not one is an error
    or left out. *)
Fixpoint read (u : bool) (d : options_description) (args : list string) (vm : variables_map)
    : option variables_map :=
  match args with
  | [] => Some vm
  | word :: args' =>
      match named d word with
      | [] => if u then read u d args' vm else None
      | [o] =>
          match of_kind o, args' with
          | Flag, _ => read u d args' (<[long o := Text ""]> vm)
          | One, v :: args'' => read u d args'' (<[long o := Text v]> vm)
          | Many, v :: args'' =>
              read u d args'' (<[long o := Texts (given_all (long o) vm ++ [v])]> vm)
          | _, [] => None
          end
      | _ => None
      end
  end.

#[export] Instance plain : Boost := fun u d args => read u d args ∅.

Lemma named_in d word o l : named d word = o :: l -> o ∈ d.
Proof.
  intros Hn. assert (o ∈ named d word) as Ho by (rewrite Hn; left).
  by apply list_elem_of_filter in Ho as [_ ?].
Qed.

Lemma read_kind u d args vm vm' :
  (forall name v, vm !! name = Some v -> has_kind d name v) -> read u d args vm = Some vm' ->
  forall name v, vm' !! name = Some v -> has_kind d name v.
Proof.
  remember (length args) as n eqn:Hn. revert args vm Hn.
  induction n as [n IH] using lt_wf_ind. intros [|word args] vm -> Hk; cbn [read length] in *.
  { by intros [= ->]. }
  destruct (named d word) as [|o [|? ?]] eqn:Ho; [destruct u| |]; try done.
  { apply (IH (length args)); [lia|done|done]. }
  apply named_in in Ho.
  assert (forall k : kind, forall v, of_kind o = k -> has_kind d (long o) v ->
    forall name x, <[long o := v]> vm !! name = Some x -> has_kind d name x) as Hins.
  { intros k v _ Hv name x. rewrite lookup_insert_Some. intros [[<- <-]|[_ ?]]; [done|auto]. }
  destruct (of_kind o) eqn:Hkind; [|destruct args as [|v args]; [done|]..]; intros Hr.
  - eapply (IH (length args)); [|done| |exact Hr]; [lia|].
    eapply Hins; [done|]. exists o. by rewrite Hkind.
  - eapply (IH (length args)); [|done| |exact Hr]; [cbn; lia|].
    eapply Hins; [done|]. exists o. by rewrite Hkind.
  - eapply (IH (length args)); [|done| |exact Hr]; [cbn; lia|].
    eapply Hins; [done|]. by exists o.
Qed.

Lemma two_named d word i j a b :
  d !! i = Some a -> d !! j = Some b -> (i < j)%nat ->
  word = ("-" +:+ short a)%string -> word = ("-" +:+ short b)%string ->
  exists x y l, named d word = x :: y :: l.
Proof.
  intros Ha Hb Hij Hwa Hwb.
  rewrite <- (take_drop_middle d i a Ha). unfold named. rewrite filter_app, filter_cons_True by auto.
  assert (b ∈ filter (fun o => word = ("-" +:+ short o)%string \/ word = ("--" +:+ long o)%string)
                (drop (S i) d)) as Hin.
  { apply list_elem_of_filter. split; [auto|].
    apply list_elem_of_lookup_2 with (j - S i)%nat. rewrite lookup_drop.
    by replace (S i + (j - S i))%nat with j by lia. }
  destruct (filter _ (drop (S i) d)) as [|y l]; [by apply elem_of_nil in Hin|].
  destruct (filter _ (take i d)) as [|x [|x' l']]; cbn; eauto.
Qed.

#[export] Instance plain_spec : BoostSpec.
Proof.
  split.
  - intros u d args vm name v Hp. eapply read_kind; [|exact Hp]. done.
  - intros u d [|word args] i j a b Ha Hb Hne Hs Hw; [done|]. cbn in Hw. injection Hw as Hw.
    assert (exists x y l, named d word = x :: y :: l) as (x & y & l & Hl).
    { destruct (decide (i < j)%nat).
      - eapply (two_named d word i j a b); try done. by rewrite <- Hs.
      - eapply (two_named d word j i b a); try done; [lia|by rewrite <- Hs]. }
    unfold parse, plain. cbn. by rewrite Hl.
Qed.

Example trains :
  main ["--type"; "train"; "-I"; "a.dat"; "-O"; "b.prs"] = Train "a.dat" "" "b.prs".
Proof. by vm_compute. Qed.

Lemma score_needs_long_option_witness :
  main ["-t"; "score"; "-e"; "a.trn"] = Options (desc ++ score_desc).
Proof.
  eapply (score_needs_long_option ["-t"; "score"; "-e"; "a.trn"]);
    [reflexivity|vm_compute; reflexivity|vm_compute; reflexivity].
Defined.
End Plain.
