(* ===== verification/IniStream.v ===== *)
(** * The configuration fed with chunks of INI text

    [qt/inistream/IniStreamConfig.cpp] and its header.  The chunk is the text
    that [fromUtf8] makes of the bytes.  A [QString] is the list of its characters and a [QMap]
    a finite map; the order in which [keys] and [sections] list them, and [getDouble],
    are in [IniLists].  What the code asks of Qt about characters and numbers is a
    parameter ([QtText], with the documented laws in [QtTextSpec]).  A [QVariant] holds
    a string here, or the default that a typed getter passes. *)
From S2P Require Import Prelude.
From stdpp Require Import gmap.
From stdpp Require Import options.
#[local] Open Scope Z_scope.

Abbreviation qstring := (list Z).
Abbreviation section := (gmap qstring qstring).
Abbreviation ini := (gmap qstring section).

Class QtText := {
  isSpace : Z -> bool;
  toLower : qstring -> qstring;
  toInt : qstring -> option Z;
  number : Z -> qstring;
}.
Class QtTextSpec `{QtText} := {
  toLower_idemp (s : qstring) : toLower (toLower s) = toLower s;
  toInt_number (n : Z) : - 2 ^ 31 <= n < 2 ^ 31 -> toInt (number n) = Some n;
  marks_not_spaces : isSpace 34 = false /\ isSpace 61 = false /\ isSpace 91 = false /\ isSpace 93 = false;
}.

(** Characters of the text. *)
Abbreviation NEWLINE := 10.
Abbreviation QUOTE := 34.
Abbreviation HASH := 35.
Abbreviation SEMICOLON := 59.
Abbreviation EQUALS := 61.
Abbreviation OPEN := 91.
Abbreviation CLOSE := 93.

(** ** Strings *)
Definition startsWith (c : Z) (s : qstring) : bool :=
  match s with [] => false | x :: _ => x =? c end.
Definition endsWith (c : Z) (s : qstring) : bool := startsWith c (reverse s).
Fixpoint indexOf (c : Z) (s : qstring) : option nat :=
  match s with
  | [] => None
  | x :: s' => if x =? c then Some 0%nat else S <$> indexOf c s'
  end.
(** [mid (1, size - 2)] of a string of two characters or more. *)
Definition inner (s : qstring) : qstring := take (length s - 2) (drop 1 s).
Definition isEmpty (s : qstring) : bool := match s with [] => true | _ => false end.

(** [split (c)]; [parse] skips the empty parts. *)
Fixpoint split (c : Z) (s : qstring) : list qstring :=
  match s with
  | [] => [[]]
  | x :: s' =>
      let ws := split c s' in
      if x =? c then [] :: ws
      else match ws with [] => [[x]] | w :: ws' => (x :: w) :: ws' end
  end.

Section code.
Context `{HQ : QtText}.

Fixpoint skip_spaces (s : qstring) : qstring :=
  match s with
  | [] => []
  | x :: s' => if isSpace x then skip_spaces s' else s
  end.
Definition trimmed (s : qstring) : qstring := reverse (skip_spaces (reverse (skip_spaces s))).

Definition normalize (s : qstring) : qstring := toLower s.

(** Surrounding quotes. *)
Definition unquote (val : qstring) : qstring :=
  if (2 <=? length val)%nat && startsWith QUOTE val && endsWith QUOTE val then inner val
  else val.

(** One line of [parse]: the section it is in and the data, before and after. *)
Definition parse_line (st : qstring * ini) (line : qstring) : qstring * ini :=
  let '(currentSection, m_data) := st in
  let s := trimmed line in
  if isEmpty s || startsWith SEMICOLON s || startsWith HASH s then st
  else if startsWith OPEN s && endsWith CLOSE s then
    (normalize (trimmed (inner s)), m_data)
  else
    match indexOf EQUALS s with
    | None => st
    | Some eq =>
        if isEmpty currentSection then st
        else
          let key := normalize (trimmed (take eq s)) in
          let val := trimmed (drop (eq + 1) s) in
          let sec := default ∅ (m_data !! currentSection) in
          let sec' :=
            if isEmpty val then
              match sec !! key with Some _ => delete key sec | None => sec end
            else
              let val := unquote val in
              match sec !! key with
              | None => <[key := val]> sec
              | Some old => if decide (old = val) then sec else <[key := val]> sec
              end in
          (currentSection, <[currentSection := sec']> m_data)
    end.

Definition parse_lines (st : qstring * ini) (lines : list qstring) : qstring * ini :=
  foldl parse_line st lines.
Definition parse (chunk : qstring) (m_data : ini) : ini :=
  (parse_lines ([], m_data) (List.filter (fun l => negb (isEmpty l)) (split NEWLINE chunk))).2.

(** A [QVariant]: a string, the default of [getInt], or nothing. *)
Inductive variant := VString (s : qstring) | VInt (n : Z) | VNone.
Definition toString (v : variant) : qstring :=
  match v with VString s => s | VInt n => number n | VNone => [] end.

Definition get (m_data : ini) (sec key : qstring) (def : variant) : variant :=
  match m_data !! normalize sec with
  | None => def
  | Some s => match s !! key with Some v => VString v | None => def end
  end.

Definition getInt (m_data : ini) (sec key : qstring) (def : Z) : Z :=
  match toInt (toString (get m_data sec key (VInt def))) with
  | Some val => val
  | None => def
  end.

(** "1", "true", "yes", "on" and "0", "false", "no", "off". *)
Definition yes_words : list qstring :=
  [[49]; [116; 114; 117; 101]; [121; 101; 115]; [111; 110]].
Definition no_words : list qstring :=
  [[48]; [102; 97; 108; 115; 101]; [110; 111]; [111; 102; 102]].
Definition getBool (m_data : ini) (sec key : qstring) (def : bool) : bool :=
  let s := toLower (trimmed (toString (get m_data sec key VNone))) in
  if decide (s ∈ yes_words) then true
  else if decide (s ∈ no_words) then false
  else def.

Definition hasKey (m_data : ini) (sec key : qstring) : bool :=
  match m_data !! normalize sec with
  | None => false
  | Some s => bool_decide (is_Some (s !! key))
  end.
Definition hasSection (m_data : ini) (sec : qstring) : bool :=
  bool_decide (is_Some (m_data !! normalize sec)).
Definition keys (m_data : ini) (sec : qstring) : gset qstring :=
  match m_data !! normalize sec with None => ∅ | Some s => dom s end.
Definition sections (m_data : ini) (prefix : qstring) : gset qstring :=
  filter (fun k => prefix = [] \/ take (length prefix) k = prefix) (dom m_data).
End code.

(** ** Which setting is in force *)

(** What one line says. *)
Inductive line := Skip | Header (sec : qstring) | Assign (key : qstring) (val : option qstring).
Record setting := Setting { s_sec : qstring; s_key : qstring; s_val : option qstring }.

Section meaning.
Context `{HQ : QtText}.
#[local] Set Default Proof Using "Type*".

Definition read (l : qstring) : line :=
  let s := trimmed l in
  if isEmpty s || startsWith SEMICOLON s || startsWith HASH s then Skip
  else if startsWith OPEN s && endsWith CLOSE s then Header (normalize (trimmed (inner s)))
  else
    match indexOf EQUALS s with
    | None => Skip
    | Some eq =>
        let val := trimmed (drop (eq + 1) s) in
        Assign (normalize (trimmed (take eq s)))
          (if isEmpty val then None else Some (unquote val))
    end.

(** The settings a text makes, in order; those before the first header are none. *)
Fixpoint settings (cur : qstring) (lines : list qstring) : list setting :=
  match lines with
  | [] => []
  | l :: lines' =>
      match read l with
      | Skip => settings cur lines'
      | Header sec => settings sec lines'
      | Assign k v =>
          if isEmpty cur then settings cur lines' else Setting cur k v :: settings cur lines'
      end
  end.

Definition value (m : ini) (sec key : qstring) : option qstring :=
  m !! sec ≫= fun kv => kv !! key.

(** The last of the settings of a key, or else the old value. *)
Definition in_force (sec key : qstring) (old : option qstring) (l : list setting) :=
  foldl (fun v s => if decide (s_sec s = sec /\ s_key s = key) then s_val s else v) old l.

Definition lines_of (chunk : qstring) : list qstring :=
  List.filter (fun l => negb (isEmpty l)) (split NEWLINE chunk).

(** The effect of a setting on the data. *)
Definition set (cur k : qstring) (v : option qstring) (m : ini) : ini :=
  <[cur := partial_alter (fun _ => v) k (default ∅ (m !! cur))]> m.

Lemma parse_line_read cur m l :
  parse_line (cur, m) l =
  match read l with
  | Skip => (cur, m)
  | Header sec => (sec, m)
  | Assign k v => if isEmpty cur then (cur, m) else (cur, set cur k v m)
  end.
Proof.
  unfold parse_line, read. set (s := trimmed l).
  destruct (isEmpty s || startsWith SEMICOLON s || startsWith HASH s); [done|].
  destruct (startsWith OPEN s && endsWith CLOSE s); [done|].
  destruct (indexOf EQUALS s) as [eq|]; [|done]. destruct (isEmpty cur); [done|].
  unfold set. set (k := normalize _). set (sec := default ∅ _). cbv zeta.
  f_equal. f_equal. destruct (isEmpty (trimmed _)).
  - destruct (sec !! k) eqn:E; [done|]. change (sec = delete k sec). by rewrite delete_id.
  - set (v := unquote _). destruct (sec !! k) as [old|] eqn:E; [|done].
    destruct (decide (old = v)) as [->|]; [|done]. change (sec = <[k := v]> sec). by rewrite insert_id.
Qed.

Lemma value_set cur k v m sec key :
  value (set cur k v m) sec key = if decide (cur = sec /\ k = key) then v else value m sec key.
Proof.
  unfold value, set. destruct (decide (cur = sec)) as [->|Hs].
  - rewrite lookup_insert_eq. cbn [mbind option_bind]. destruct (decide (k = key)) as [->|Hk].
    + rewrite lookup_partial_alter_eq. by rewrite decide_True.
    + rewrite lookup_partial_alter_ne by done. rewrite decide_False by (by intros []).
      by destruct (m !! sec).
  - rewrite lookup_insert_ne by done. by rewrite decide_False by (by intros []).
Qed.

Lemma parse_lines_value cur m lines sec key :
  value (parse_lines (cur, m) lines).2 sec key =
  in_force sec key (value m sec key) (settings cur lines).
Proof.
  revert cur m. induction lines as [|l lines IH]; intros cur m; [done|].
  unfold parse_lines in *. cbn [foldl settings]. rewrite parse_line_read.
  destruct (read l) as [|h|k v]; [apply IH|apply IH|]. destruct (isEmpty cur); [apply IH|].
  rewrite IH, value_set. done.
Qed.

End meaning.

(** ** Printing a configuration *)
Definition print_setting (kv : qstring * qstring) : qstring :=
  kv.1 ++ [EQUALS; QUOTE] ++ kv.2 ++ [QUOTE].
Definition section_lines (s : qstring * section) : list qstring :=
  ([OPEN] ++ s.1 ++ [CLOSE]) :: (print_setting <$> map_to_list s.2).
Definition ini_lines (m : ini) : list qstring := map_to_list m ≫= section_lines.
Definition print_ini (m : ini) : qstring := ini_lines m ≫= (fun l => l ++ [NEWLINE]).

(** Characters of a known text. *)
Ltac not_in :=
  let H := fresh in intros H; repeat (apply elem_of_cons in H as [H|H]; [discriminate H|]);
  by apply not_elem_of_nil in H.

Lemma split_line c l rest : c ∉ l -> split c (l ++ c :: rest) = l :: split c rest.
Proof.
  induction l as [|x l IH]; intros Hc; cbn [app split].
  - by rewrite Z.eqb_refl.
  - apply not_elem_of_cons in Hc as [Hx Hc]. destruct (Z.eqb_spec x c); [congruence|].
    by rewrite IH.
Qed.

Lemma lines_of_print ls : Forall (fun l => l <> [] /\ NEWLINE ∉ l) ls ->
  lines_of (ls ≫= (fun l => l ++ [NEWLINE])) = ls.
Proof.
  unfold lines_of. induction 1 as [|l ls [Hne Hl] _ IH]; [done|].
  cbn [mbind list_bind]. rewrite <- app_assoc. cbn [app]. rewrite split_line by done.
  cbn [List.filter]. destruct l; [done|]. cbn [isEmpty negb]. by f_equal.
Qed.

Section roundtrip.
Context {HQ : QtText} {HS : QtTextSpec}.
#[local] Set Default Proof Using "Type*".

(** Not a space at either end. *)
Definition solid (s : qstring) : Prop :=
  match s with [] => True | x :: _ => isSpace x = false end /\
  match reverse s with [] => True | x :: _ => isSpace x = false end.

(** A name that survives reading. *)
Definition name_ok (s : qstring) : Prop := normalize s = s /\ solid s /\ NEWLINE ∉ s.
Definition key_ok (k : qstring) : Prop :=
  name_ok k /\ (EQUALS ∉ k) /\ startsWith SEMICOLON k = false /\ startsWith HASH k = false.
Definition ini_ok (m : ini) : Prop := forall sec kv, m !! sec = Some kv ->
  sec <> [] /\ name_ok sec /\ kv <> ∅ /\
  forall k v, kv !! k = Some v -> key_ok k /\ NEWLINE ∉ v.

Lemma trimmed_solid s : solid s -> trimmed s = s.
Proof.
  intros [Hf Hl]. unfold trimmed. destruct s as [|x s]; [done|]. cbn [skip_spaces].
  rewrite Hf. destruct (reverse (x :: s)) as [|y r] eqn:E.
  - by apply (f_equal length) in E; rewrite length_reverse in E.
  - cbn [skip_spaces]. rewrite Hl, <- E. apply reverse_involutive.
Qed.

Lemma solid_between x y s : isSpace x = false -> isSpace y = false -> solid (x :: s ++ [y]).
Proof.
  intros Hx Hy. split; [done|]. by rewrite reverse_cons, reverse_app.
Qed.

Lemma inner_between x y s : inner (x :: s ++ [y]) = s.
Proof.
  unfold inner. cbn [length drop]. rewrite length_app. cbn [length].
  replace (S (length s + 1) - 2)%nat with (length s) by lia. apply take_app_length.
Qed.

Lemma endsWith_snoc c x s : endsWith c (s ++ [x]) = (x =? c).
Proof. unfold endsWith. by rewrite reverse_app. Qed.

Lemma solid_glue k c q : solid k -> isSpace c = false -> solid q -> q <> [] -> solid (k ++ c :: q).
Proof.
  intros [Hk _] Hc [_ Hq] Hne. split; [by destruct k|].
  rewrite reverse_app, reverse_cons. destruct (reverse q) eqn:E; [|done].
  by apply (f_equal reverse) in E; rewrite reverse_involutive in E.
Qed.

Lemma read_header sec : name_ok sec -> read ([OPEN] ++ sec ++ [CLOSE]) = Header sec.
Proof.
  intros (Hn & Hs & _). unfold read. cbn [app].
  rewrite trimmed_solid by (apply solid_between; apply marks_not_spaces).
  cbn [isEmpty startsWith orb]. change (OPEN :: sec ++ [CLOSE]) with ([OPEN] ++ sec ++ [CLOSE]) at 1.
  rewrite app_assoc, endsWith_snoc. cbn [Z.eqb Pos.eqb andb app].
  by rewrite inner_between, trimmed_solid, Hn.
Qed.

Lemma indexOf_first c s rest : c ∉ s -> indexOf c (s ++ c :: rest) = Some (length s).
Proof.
  induction s as [|x s IH]; intros Hc; cbn [app indexOf].
  - by rewrite Z.eqb_refl.
  - apply not_elem_of_cons in Hc as [Hx Hc]. destruct (Z.eqb_spec x c); [congruence|].
    by rewrite IH.
Qed.

Lemma unquote_quoted v : unquote ([QUOTE] ++ v ++ [QUOTE]) = v.
Proof.
  unfold unquote. cbn [app length]. rewrite length_app. cbn [length].
  change (QUOTE :: v ++ [QUOTE]) with ([QUOTE] ++ v ++ [QUOTE]) at 2.
  rewrite app_assoc, endsWith_snoc. cbn [startsWith].
  destruct (Nat.leb_spec 2 (S (length v + 1))); [|lia]. cbn [Z.eqb Pos.eqb andb app].
  apply inner_between.
Qed.

Lemma read_setting k v : key_ok k -> read (print_setting (k, v)) = Assign k (Some v).
Proof.
  intros ((Hn & Hs & _) & Heq & Hsc & Hh). unfold read, print_setting. cbn [fst snd].
  set (q := [QUOTE] ++ v ++ [QUOTE]).
  replace (k ++ [EQUALS; QUOTE] ++ v ++ [QUOTE]) with (k ++ EQUALS :: q) by done.
  assert (solid q) as Hq by (apply solid_between; apply marks_not_spaces).
  assert (q <> []) as Hne by done.
  rewrite trimmed_solid by (apply solid_glue; done || apply marks_not_spaces).
  rewrite indexOf_first by done. rewrite take_app_length, drop_app_add. cbn [drop]. rewrite ?drop_0.
  assert (endsWith CLOSE (k ++ EQUALS :: q) = false) as He.
  { unfold q. rewrite app_comm_cons, !app_assoc, endsWith_snoc. done. }
  rewrite (trimmed_solid k), (trimmed_solid q), Hn, He, andb_false_r by done.
  rewrite (unquote_quoted v : unquote q = v).
  by destruct k; [|cbn in Hsc, Hh |- *; rewrite Hsc, Hh].
Qed.

(** What the lines of a section put into the data. *)
Lemma parse_settings sec kvs m : sec <> [] -> (forall k v, (k, v) ∈ kvs -> key_ok k) ->
  parse_lines (sec, m) (print_setting <$> kvs) =
  (sec, foldl (fun m kv => set sec kv.1 (Some kv.2) m) m kvs).
Proof.
  intros Hsec. revert m. induction kvs as [|[k v] kvs IH]; intros m Hk; [done|].
  unfold parse_lines in *. cbn [fmap list_fmap foldl]. rewrite parse_line_read, read_setting.
  - replace (isEmpty sec) with false by by destruct sec. apply IH. intros k' v' ?.
    apply (Hk k' v'). by right.
  - apply (Hk k v). left.
Qed.

Lemma set_inserted sec k v kv m : set sec k (Some v) (<[sec := kv]> m) = <[sec := <[k := v]> kv]> m.
Proof. unfold set. by rewrite lookup_insert_eq, insert_insert_eq. Qed.

Lemma settings_inserted sec kvs kv m :
  foldl (fun m p => set sec p.1 (Some p.2) m) (<[sec := kv]> m) kvs =
  <[sec := foldl (fun kv p => <[p.1 := p.2]> kv) kv kvs]> m.
Proof.
  revert kv. induction kvs as [|[k v] kvs IH]; intros kv; [done|]. cbn [foldl fst snd].
  by rewrite set_inserted, IH.
Qed.

Lemma foldl_inserts {V} (l : list (qstring * V)) (m : gmap qstring V) : NoDup l.*1 ->
  foldl (fun m p => <[p.1 := p.2]> m) m l = list_to_map l ∪ m.
Proof.
  revert m. induction l as [|[k v] l IH]; intros m Hnd; [symmetry; apply map_empty_union|].
  cbn [fmap list_fmap fst] in Hnd. apply NoDup_cons in Hnd as [Hk Hnd].
  cbn [foldl fst snd]. rewrite list_to_map_cons, IH, <- insert_union_l by done. symmetry.
  by apply insert_union_r, not_elem_of_list_to_map_1.
Qed.

Lemma parse_section sec kv m cur : sec <> [] -> name_ok sec -> kv <> ∅ -> m !! sec = None ->
  (forall k v, kv !! k = Some v -> key_ok k) ->
  parse_lines (cur, m) (section_lines (sec, kv)) = (sec, <[sec := kv]> m).
Proof.
  intros Hne Hsec Hkv Hfresh Hk. unfold section_lines. unfold parse_lines. cbn [foldl fst snd].
  rewrite parse_line_read, read_header by done.
  etransitivity; [apply parse_settings; [done|]; intros k v Hin%elem_of_map_to_list; eauto|].
  f_equal. destruct (map_to_list kv) as [|[k v] l] eqn:E.
  - by apply map_to_list_empty_iff in E.
  - cbn [foldl fst snd]. replace (set sec k (Some v) m) with (<[sec := <[k := v]> ∅]> m : ini)
      by (unfold set; by rewrite Hfresh).
    rewrite settings_inserted. f_equal.
    change (foldl (fun kv p => <[p.1 := p.2]> kv) (∅ : section) ((k, v) :: l) = kv).
    rewrite <- E, foldl_inserts, map_union_empty by apply NoDup_fst_map_to_list.
    apply list_to_map_to_list.
Qed.

Lemma parse_sections (l : list (qstring * section)) m cur : NoDup l.*1 ->
  (forall sec kv, (sec, kv) ∈ l -> m !! sec = None /\ sec <> [] /\ name_ok sec /\ kv <> ∅ /\
     forall k v, kv !! k = Some v -> key_ok k) ->
  (parse_lines (cur, m) (l ≫= section_lines)).2 = foldl (fun m p => <[p.1 := p.2]> m) m l.
Proof.
  revert m cur. induction l as [|[sec kv] l IH]; intros m cur Hnd Hl; [done|].
  cbn [fmap list_fmap fst] in Hnd. apply NoDup_cons in Hnd as [Hs Hnd].
  destruct (Hl sec kv) as (? & ? & ? & ? & ?); [left|].
  cbn [mbind list_bind foldl fst snd]. unfold parse_lines. rewrite foldl_app.
  fold (parse_lines (cur, m) (section_lines (sec, kv))). rewrite parse_section by eauto.
  apply IH; [done|]. intros sec' kv' Hin. destruct (Hl sec' kv') as (? & ? & ? & ? & ?); [by right|].
  split_and!; try done. rewrite lookup_insert_ne; [done|]. intros ->. apply Hs.
  by apply (list_elem_of_fmap_2 fst l (sec', kv')).
Qed.

Lemma ini_lines_ok m : ini_ok m -> Forall (fun l => l <> [] /\ (NEWLINE ∉ l)) (ini_lines m).
Proof.
  intros Hm. apply Forall_forall. intros l Hl. unfold ini_lines in Hl.
  apply list_elem_of_bind in Hl as ([sec kv] & Hl & Hin%elem_of_map_to_list).
  destruct (Hm sec kv Hin) as (_ & (_ & _ & Hnl) & _ & Hk).
  unfold section_lines in Hl. apply elem_of_cons in Hl as [->|Hl].
  - split; [done|]. cbn [fst app].
    rewrite not_elem_of_cons, not_elem_of_app, list_elem_of_singleton. done.
  - apply list_elem_of_fmap in Hl as ([k v] & -> & Hin'%elem_of_map_to_list).
    destruct (Hk k v Hin') as (((_ & _ & Hnlk) & _) & Hnlv). unfold print_setting. cbn [fst snd].
    split; [by destruct k|]. rewrite !not_elem_of_app, !not_elem_of_cons. split_and!; done || not_in.
Qed.

(** C32: a configuration whose names are as the parser stores them (lower case, no spaces
    at the ends) is read back from its printed form exactly: every section, every key
    and every value, spaces, quotes and empty values included. *)
Theorem ini_roundtrip m : ini_ok m -> parse (print_ini m) ∅ = m.
Proof.
  intros Hm. change (parse (print_ini m) ∅) with (parse_lines ([], ∅) (lines_of (print_ini m))).2.
  unfold print_ini. rewrite lines_of_print by by apply ini_lines_ok.
  unfold ini_lines. rewrite parse_sections.
  - rewrite foldl_inserts, map_union_empty by apply NoDup_fst_map_to_list.
    apply list_to_map_to_list.
  - apply NoDup_fst_map_to_list.
  - intros sec kv Hin%elem_of_map_to_list. destruct (Hm sec kv Hin) as (? & ? & ? & Hk).
    split_and!; try done. intros k v Hv. by destruct (Hk k v Hv).
Qed.
End roundtrip.

(** ** Keys with capital letters *)
Section capitals.
Context {HQ : QtText} {HS : QtTextSpec}.
#[local] Set Default Proof Using "Type*".

Definition keys_normal (m : ini) : Prop := forall sec key v, value m sec key = Some v -> normalize key = key.

Lemma read_normal l k v : read l = Assign k v -> normalize k = k.
Proof.
  unfold read. destruct (_ || _ || _); [done|]. destruct (_ && _); [done|].
  destruct (indexOf _ _); [|done]. intros [= <- _]. apply toLower_idemp.
Qed.

Lemma parse_line_normal cur m l : keys_normal m -> keys_normal (parse_line (cur, m) l).2.
Proof.
  intros Hm. rewrite parse_line_read. destruct (read l) as [| |k v] eqn:E; [done|done|].
  destruct (isEmpty cur); [done|]. intros sec key v' Hv. cbn [snd] in Hv. rewrite value_set in Hv.
  destruct (decide _) as [[_ <-]|]; [by eapply read_normal|eauto].
Qed.

Lemma parse_normal chunk m : keys_normal m -> keys_normal (parse chunk m).
Proof.
  intros Hm. change (parse chunk m) with (parse_lines ([], m) (lines_of chunk)).2.
  generalize ([] : qstring). revert m Hm. induction (lines_of chunk) as [|l ls IH]; intros m Hm cur; [done|].
  unfold parse_lines in *. cbn [foldl]. pose proof (parse_line_normal cur m l Hm).
  destruct (parse_line (cur, m) l) as [cur' m']. by apply IH.
Qed.

(** Whatever was received, a key asked for with a capital letter is not found: the
    parser stores keys in lower case and the section is looked up so, but the key is
    looked up as it is given.  Every getter then gives its default. *)
Theorem capital_keys_lost chunks sec key :
  normalize key <> key ->
  let m := foldl (fun m c => parse c m) ∅ chunks in
  (forall def, get m sec key def = def) /\
  (forall def, - 2 ^ 31 <= def < 2 ^ 31 -> getInt m sec key def = def) /\
  hasKey m sec key = false.
Proof.
  intros Hkey m. assert (keys_normal m) as Hm.
  { unfold m. assert (keys_normal ∅) as H0 by (intros s k v; unfold value; by rewrite lookup_empty).
    clear m. revert H0. generalize (∅ : ini). induction chunks as [|c cs IH]; intros m H0; [done|].
    by apply IH, parse_normal. }
  assert (forall def, get m sec key def = def) as Hget.
  { intros def. unfold get. destruct (m !! normalize sec) as [s|] eqn:Es; [|done].
    destruct (s !! key) as [v|] eqn:Ev; [|done]. destruct Hkey. apply (Hm (normalize sec) key v).
    unfold value. by rewrite Es. }
  split_and!; [done| |].
  - intros def Hd. unfold getInt. rewrite Hget. cbn [toString]. by rewrite toInt_number.
  - unfold hasKey. destruct (m !! normalize sec) as [s|] eqn:Es; [|done].
    apply bool_decide_eq_false_2. intros [v Ev]. destruct Hkey. apply (Hm (normalize sec) key v).
    unfold value. by rewrite Es.
Qed.
End capitals.

(** ** ASCII text, and concrete runs *)
Fixpoint decimal_text (fuel : nat) (n : Z) : qstring :=
  match fuel with
  | O => []
  | S f => if n <? 10 then [48 + n] else decimal_text f (n / 10) ++ [48 + n mod 10]
  end.
Definition digits_value (s : qstring) : Z := foldl (fun a c => 10 * a + (c - 48)) 0 s.
Definition all_digits (s : qstring) : bool := forallb (fun c => (48 <=? c) && (c <=? 57)) s.
Definition ascii_int (s : qstring) : option Z :=
  match s with
  | [] => None
  | 45 :: s' => if all_digits s' then Some (- digits_value s') else None
  | _ => if all_digits s then Some (digits_value s) else None
  end.

#[export] Instance ascii_text : QtText := {
  isSpace c := (c =? 32) || (9 <=? c) && (c <=? 13);
  toLower := map (fun c => if (65 <=? c) && (c <=? 90) then c + 32 else c);
  toInt := ascii_int;
  number n := if n <? 0 then 45 :: decimal_text 11 (- n) else decimal_text 11 n;
}.

Lemma decimal_text_spec fuel n : 0 <= n < 10 ^ Z.of_nat (S fuel) ->
  all_digits (decimal_text (S fuel) n) = true /\ digits_value (decimal_text (S fuel) n) = n /\
  exists c s, decimal_text (S fuel) n = c :: s /\ c <> 45.
Proof.
  revert n. induction fuel as [|fuel IH]; intros n Hn.
  - cbn. destruct (Z.ltb_spec n 10); [|lia]. unfold digits_value. cbn.
    split_and!; [lia|lia|]. eexists _, _. split; [done|lia].
  - remember (S fuel) as f. cbn [decimal_text]. destruct (Z.ltb_spec n 10) as [|Hge].
    + unfold digits_value. cbn. split_and!; [lia|lia|]. eexists _, _. split; [done|lia].
    + destruct (IH (n / 10)) as (Ha & Hd & c & s & Hc & Hne).
      { split; [apply Z.div_pos; lia|]. apply Z.div_lt_upper_bound; [lia|].
        replace (Z.of_nat (S f)) with (1 + Z.of_nat f) in Hn by lia.
        rewrite Z.pow_add_r in Hn by lia. lia. }
      pose proof (Z.mod_pos_bound n 10). unfold all_digits, digits_value in *.
      rewrite forallb_app, foldl_app, Ha, Hd. cbn. pose proof (Z.div_mod n 10).
      split_and!; [lia|lia|]. rewrite Hc. by eexists _, _.
Qed.

#[export] Instance ascii_text_spec : QtTextSpec.
Proof.
  split.
  - intros s. cbn [toLower ascii_text]. rewrite map_map. apply map_ext. intros c.
    destruct ((65 <=? c) && (c <=? 90)) eqn:E; [|by rewrite E].
    destruct (Z.leb_spec 65 (c + 32)), (Z.leb_spec (c + 32) 90); cbn; lia || done.
  - intros n Hn. cbn [toInt number ascii_text]. destruct (Z.ltb_spec n 0).
    + destruct (decimal_text_spec 10 (- n)) as (Ha & Hd & _); [cbn; lia|].
      unfold ascii_int. rewrite Ha, Hd. f_equal. lia.
    + destruct (decimal_text_spec 10 n) as (Ha & Hd & c & s & Hc & Hne); [cbn; lia|].
      rewrite Hc in *. unfold ascii_int. rewrite Ha, Hd.
      destruct c as [|c|c]; [done| |done]. by do 6 (destruct c as [c|c|]; try done).
  - done.
Qed.

(** The section [cam0] with a key and a value in quotes. *)
Definition demo_ini : ini := {[ [99; 48] := {[ [117] := [34; 32; 34] ]} ]}.

Lemma ini_roundtrip_witness : parse (print_ini demo_ini) ∅ = demo_ini.
Proof.
  apply (ini_roundtrip demo_ini). intros sec kv Hs. unfold demo_ini in Hs.
  apply lookup_singleton_Some in Hs as [<- <-].
  unfold key_ok, name_ok, solid. split_and!; try (done || not_in).
  intros k v Hv. apply lookup_singleton_Some in Hv as [<- <-].
  split_and!; done || not_in.
Defined.

Lemma capital_keys_lost_witness :
  getInt (foldl (fun m c => parse c m) ∅ [[91; 97; 93; 10; 78; 61; 53]]) [97] [78] 7 = 7 /\
  hasKey (foldl (fun m c => parse c m) ∅ [[91; 97; 93; 10; 78; 61; 53]]) [97] [110] = true.
Proof.
  split; [|vm_compute; reflexivity].
  refine (proj1 (proj2 (capital_keys_lost [[91; 97; 93; 10; 78; 61; 53]] [97] [78] _)) 7 _); [done|lia].
Defined.
