(* ===== verification/IniLists.v ===== *)
(** * Lists of sections and keys

    The rest of [qt/inistream/IniStreamConfig.cpp]: [keys] and [sections] as the lists
    they are, in the order of a [QMap], and [getDouble]; and the program of [main.cpp].  Strings are ordered by their
    characters from the left.  What Qt does with numbers that are not whole is a
    parameter. *)
From S2P Require Import Prelude.
From stdpp Require Import gmap.
From stdpp Require Import sorting.
From S2P Require Import IniStream.
From stdpp Require Import options.
#[local] Open Scope Z_scope.

(** [operator<=] of [QString]. *)
Fixpoint qleb (a b : qstring) : bool :=
  match a, b with
  | [], _ => true
  | _ :: _, [] => false
  | x :: a', y :: b' => if x =? y then qleb a' b' else x <? y
  end.
Definition qle (a b : qstring) : Prop := qleb a b = true.
#[export] Instance qle_dec : RelDecision qle.
Proof. intros a b. unfold qle. apply _. Defined.

Lemma qleb_cons x a y b : qleb (x :: a) (y :: b) = true <-> x < y \/ x = y /\ qleb a b = true.
Proof.
  cbn. destruct (Z.eqb_spec x y) as [->|Hne].
  - split; [by right|]. intros [?|[_ ?]]; [lia|done].
  - rewrite Z.ltb_lt. split; [by left|]. intros [?|[? _]]; [done|congruence].
Qed.
#[export] Instance qle_total : Total qle.
Proof.
  intros a. unfold qle. induction a as [|x a IH]; intros [|y b]; [by left..|by right|].
  rewrite !qleb_cons. destruct (Z.lt_trichotomy x y) as [?|[->|?]]; [by left; left| |by right; left].
  destruct (IH b); [left|right]; by right.
Qed.
#[export] Instance qle_trans : Transitive qle.
Proof.
  intros a. unfold qle. induction a as [|x a IH]; intros [|y b] [|z c]; try done.
  rewrite !qleb_cons. intros [H1|[-> H1]] [H2|[-> H2]]; [left; lia|by left|by left|].
  right. split; [done|]. by eapply IH.
Qed.
#[export] Instance qle_antisymm : AntiSymm eq qle.
Proof.
  intros a. unfold qle. induction a as [|x a IH]; intros [|y b]; try done.
  rewrite !qleb_cons. intros [H1|[H1 H1']] [H2|[H2 H2']]; try lia. subst. f_equal. by apply IH.
Qed.

Section lists.
Context `{HQ : QtText}.

(** The keys of a [QMap] in their order. *)
Definition in_order (l : gset qstring) : list qstring := merge_sort qle (elements l).

Definition keys_list (m_data : ini) (sec : qstring) : list qstring :=
  match m_data !! normalize sec with None => [] | Some s => in_order (dom s) end.

(** The loop of [sections] goes through the map in its order. *)
Definition sections_list (m_data : ini) (prefix : qstring) : list qstring :=
  List.filter (fun k => isEmpty prefix || bool_decide (take (length prefix) k = prefix))
    (in_order (dom m_data)).

Section double.
(** [QVariant (def).toString ()] and [toDouble]. *)
Context {D : Type} (show_double : D -> qstring) (toDouble : qstring -> option D).
Definition getDouble (m_data : ini) (sec key : qstring) (def : D) : D :=
  let s := match get m_data sec key VNone with
           | VNone => show_double def
           | v => toString v
           end in
  match toDouble s with Some val => val | None => def end.

(** The value where there is one that is a number, otherwise the default. *)
Lemma getDouble_value m sec key def :
  getDouble m sec key def =
  match value m (normalize sec) key with
  | Some v => default def (toDouble v)
  | None => default def (toDouble (show_double def))
  end.
Proof.
  unfold getDouble, value, get. destruct (m !! normalize sec) as [s|]; [|done]. cbn.
  by destruct (s !! key).
Qed.
End double.

Lemma in_order_sorted l : StronglySorted qle (in_order l).
Proof. apply StronglySorted_merge_sort; apply _. Qed.
Lemma in_order_perm l : in_order l ≡ₚ elements l.
Proof. apply merge_sort_Permutation. Qed.

(** The only list of these strings that is in order. *)
Lemma in_order_unique l k : StronglySorted qle k -> NoDup k -> (forall x, x ∈ k <-> x ∈ l) ->
  k = in_order l.
Proof.
  intros Hk Hn Hx. apply (StronglySorted_unique qle); [done|apply in_order_sorted|].
  rewrite in_order_perm. apply NoDup_Permutation; [done|apply NoDup_elements|].
  intros x. by rewrite elem_of_elements.
Qed.

Lemma filter_sorted (f : qstring -> bool) l : StronglySorted qle l -> StronglySorted qle (List.filter f l).
Proof.
  induction 1 as [|x l Hs IH Hx]; [constructor|]. cbn. destruct (f x); [|done].
  constructor; [done|]. apply Forall_forall. intros y Hy. apply list_elem_of_In in Hy.
  apply filter_In in Hy as [Hy _]. apply list_elem_of_In in Hy. by eapply Forall_forall in Hx.
Qed.

(** The lists a program goes through are those of the settings, in order and without
    repetition: the keys of a section, with their values, are the section, and the
    sections with a prefix are exactly those. *)
Theorem lists_enumerate (m : ini) (sec prefix : qstring) :
  list_to_map (map (fun k => (k, toString (get m sec k VNone))) (keys_list m sec)) =
    default ∅ (m !! normalize sec) /\
  StronglySorted qle (keys_list m sec) /\ NoDup (keys_list m sec) /\
  (forall k, k ∈ keys_list m sec <-> hasKey m sec k = true) /\
  StronglySorted qle (sections_list m prefix) /\ NoDup (sections_list m prefix) /\
  (forall s, s ∈ sections_list m prefix <-> is_Some (m !! s) /\ prefix `prefix_of` s).
Proof.
  assert (forall l, NoDup (in_order l)) as Hnd by (intros l; rewrite in_order_perm; apply NoDup_elements).
  assert (forall l x, x ∈ in_order l <-> x ∈ l) as Hin
    by (intros l x; by rewrite in_order_perm, elem_of_elements).
  unfold keys_list, sections_list, hasKey, get. split_and!.
  - destruct (m !! normalize sec) as [s|]; [|done]. cbn [default from_option]. unfold id.
    apply map_eq. intros k. destruct (s !! k) as [v|] eqn:Hk.
    + apply elem_of_list_to_map_1.
      * rewrite map_map. cbn. by rewrite map_id.
      * apply list_elem_of_fmap. exists k. rewrite Hk. split; [done|]. apply Hin.
        by apply elem_of_dom_2 in Hk.
    + apply not_elem_of_list_to_map_1. rewrite map_map. cbn. rewrite map_id.
      intros Hx%Hin. by apply not_elem_of_dom_2 in Hk.
  - destruct (m !! normalize sec); [apply in_order_sorted|constructor].
  - destruct (m !! normalize sec); [apply Hnd|constructor].
  - intros k. destruct (m !! normalize sec) as [s|].
    + by rewrite Hin, elem_of_dom, bool_decide_eq_true.
    + by rewrite elem_of_nil.
  - apply filter_sorted, in_order_sorted.
  - apply NoDup_ListNoDup, List.NoDup_filter, NoDup_ListNoDup, Hnd.
  - intros s. rewrite <- elem_of_dom, <- Hin, !list_elem_of_In, filter_In.
    apply and_iff_compat_l. rewrite orb_true_iff, bool_decide_eq_true. split.
    + intros [Hp|Hp]; [by destruct prefix; [apply prefix_nil|]|]. exists (drop (length prefix) s).
      by rewrite <- Hp at 1; rewrite take_drop.
    + intros [k ->]. right. by rewrite take_app_length.
Qed.
End lists.

(** ** [qt/inistream/main.cpp]

    The two listings, a key with its value in each line. *)
Section program.
Context `{HQ : QtText}.

Definition text (s : string) : qstring := map (fun c => Z.of_N (Ascii.N_of_ascii c)) (String.list_ascii_of_string s).
Definition chunk (lines : list string) : qstring := NEWLINE :: (lines ≫= fun l => text l ++ [NEWLINE]).
Definition listing (m : ini) : list (qstring * qstring) :=
  map (fun key => (key, toString (get m (text "cam0") key VNone))) (keys_list m (text "cam0")).

Definition ini_main : list (qstring * qstring) * list (qstring * qstring) * ini :=
  let cfg := parse (chunk ["[cam0]"; "URL=http://example.com"; "Path=C:\Data"; "enabled=yes"]%string) ∅ in
  let all := listing cfg in
  let cfg := parse (chunk ["[cam0]"; "URL="]%string) cfg in
  let after := listing cfg in
  (all, after, parse (chunk ["[cam0]"; "Path=C:\Da_ta"]%string) cfg).
End program.

(** The keys are shown in lower case and in order, the empty value removes one. *)
Theorem ini_main_lists :
  ini_main (HQ := ascii_text) =
    ([(text "enabled", text "yes"); (text "path", text "C:\Data"); (text "url", text "http://example.com")],
     [(text "enabled", text "yes"); (text "path", text "C:\Data")],
     {[ text "cam0" := {[ text "enabled" := text "yes"; text "path" := text "C:\Da_ta" ]} ]}).
Proof. vm_compute. reflexivity. Qed.
