(* ===== verification/KeysManager.v ===== *)
(** * The key handling of the phone-like window

    [qt/qkeywin/KeysManager.cpp] and its header: twenty keys of a device, which type
    letters by repeated presses while a widget is edited and otherwise click buttons
    or are reported by signals.  Pointers are numbers, 0 the null pointer.  What the
    code makes Qt do is recorded in a log, newest first; what it asks of Qt is an
    argument: what a widget is ([Widgets]) and what holds when an event arrives
    ([qt]).  The slots that other objects connect to the signals are in [KeysWindow].
    [None] is a failed assertion or an access outside an array. *)
From S2P Require Import Prelude.
From stdpp Require Import gmap.
From stdpp Require Import options.
#[local] Open Scope Z_scope.

Definition KEY_9 : Z := 9.
Definition KEY_OK : Z := 11.
Definition KEY_K1 : Z := 12.
Definition KEY_K2 : Z := 13.
Definition KEY_K3 : Z := 14.
Definition KEY_K4 : Z := 15.
Definition KEY_K5 : Z := 16.
Definition KEY_PTT : Z := 17.
Definition KEY_CALL : Z := 18.
Definition KEY_UNKNOWN : Z := 19.
Definition KEY_MAX : Z := 20.

(** The characters of the keys, as their codes. *)
Definition sSymbols : list (list Z) :=
  [ [48; 32];
    [49; 44; 33; 63];
    [50; 1040; 1041; 1042; 1043];
    [51; 1044; 1045; 1046; 1047];
    [52; 1048; 1049; 1050; 1051];
    [53; 1052; 1053; 1054; 1055];
    [54; 1056; 1057; 1058; 1059];
    [55; 1060; 1062; 1061; 1063];
    [56; 1064; 1065; 1066; 1067];
    [57; 1068; 1069; 1070; 1071];
    [45];
    [45] ].

Inductive signal :=
  | onKey (key : Z) | onKey_ (key : Z) | onRelease (key : Z) | onRelease_ (key : Z)
  | onStartEdit (w : Z) | onEditOk (w : Z) | onEditCancel (w : Z) | onEditDone (w : Z) (ok : bool)
  | onShift (fl : bool).

Inductive out :=
  | Emit (s : signal)
  | Commit (w : Z) (s : list Z)             (** [setCommitString] and [sendEvent] *)
  | SetText (s : list Z)                    (** of the label *)
  | SetVisible (b : Z) (fl : bool) | AnimateClick (b : Z)
  | SetFocus (w : Z) | SetReadOnly (w : Z) (fl : bool)
  | StepUp (w : Z) | StepDown (w : Z)
  | ConnectStep (b w : Z) | DisconnectStep (b w : Z)
  | ConnectButton (b : Z) | DisconnectButton (b : Z)
  | StartTimer (id : Z) | KillTimer (id : Z).

Record edit_buttons := EditButtons { ok : Z; cancel : Z; shift : Z; up : Z; down : Z }.
Definition no_buttons : edit_buttons := EditButtons 0 0 0 0 0.
Definition array (b : edit_buttons) : list Z := [ok b; cancel b; shift b; up b; down b].

Record keys := Keys {
  keysPressed : list bool;
  editor : Z;
  flShift : bool;
  currentAlphaKey : Z;
  numAlphaSyms : Z;
  currentSym : Z;
  timerId : Z;
  flDigits : bool;
  editButtons : edit_buttons;
  slaveButtons : gmap Z Z;
}.
Definition set_pressed x s := Keys x (editor s) (flShift s) (currentAlphaKey s) (numAlphaSyms s)
  (currentSym s) (timerId s) (flDigits s) (editButtons s) (slaveButtons s).
Definition set_editor x s := Keys (keysPressed s) x (flShift s) (currentAlphaKey s) (numAlphaSyms s)
  (currentSym s) (timerId s) (flDigits s) (editButtons s) (slaveButtons s).
Definition set_shift x s := Keys (keysPressed s) (editor s) x (currentAlphaKey s) (numAlphaSyms s)
  (currentSym s) (timerId s) (flDigits s) (editButtons s) (slaveButtons s).
Definition set_alpha key num sym s := Keys (keysPressed s) (editor s) (flShift s) key num
  sym (timerId s) (flDigits s) (editButtons s) (slaveButtons s).
Definition set_timer x s := Keys (keysPressed s) (editor s) (flShift s) (currentAlphaKey s)
  (numAlphaSyms s) (currentSym s) x (flDigits s) (editButtons s) (slaveButtons s).
Definition set_digits x s := Keys (keysPressed s) (editor s) (flShift s) (currentAlphaKey s)
  (numAlphaSyms s) (currentSym s) (timerId s) x (editButtons s) (slaveButtons s).
Definition set_buttons x s := Keys (keysPressed s) (editor s) (flShift s) (currentAlphaKey s)
  (numAlphaSyms s) (currentSym s) (timerId s) (flDigits s) x (slaveButtons s).
Definition set_slaves x s := Keys (keysPressed s) (editor s) (flShift s) (currentAlphaKey s)
  (numAlphaSyms s) (currentSym s) (timerId s) (flDigits s) (editButtons s) x.

(** The members as they are initialised. *)
Definition new_keys : keys :=
  Keys (replicate 20 false) 0 false KEY_UNKNOWN 0 0 0 false no_buttons ∅.

(** ** Programs *)
Definition K (A : Type) : Type := keys -> list out -> option (A * keys * list out).
#[export] Instance K_ret : MRet K := fun A a s t => Some (a, s, t).
#[export] Instance K_bind : MBind K := fun A B f m s t =>
  match m s t with Some (a, s', t') => f a s' t' | None => None end.
Definition gets {A} (f : keys -> A) : K A := fun s t => Some (f s, s, t).
Definition modify (f : keys -> keys) : K unit := fun s t => Some (tt, f s, t).
Definition perform (o : out) : K unit := fun s t => Some (tt, s, o :: t).
Definition need {A} (x : option A) : K A := fun s t =>
  match x with Some a => Some (a, s, t) | None => None end.
Definition when (b : bool) (m : K unit) : K unit := if b then m else mret tt.
Fixpoint for_each {A} (f : A -> K unit) (l : list A) : K unit :=
  match l with [] => mret tt | x :: l' => f x;; for_each f l' end.

(** ** The code *)

(** What a widget is: a spin box, and one of the classes that [setReadOnly] knows. *)
Class Widgets := { is_spinbox : Z -> bool; is_editable : Z -> bool }.

(** What holds when an event arrives. *)
Record qt := Qt {
  label_alive : bool;               (** [!label.isNull ()] *)
  focusWidget : Z;
  digits_property : Z -> bool;
  clickable : Z -> bool;            (** enabled and visible *)
  new_timer : Z;                    (** the answer of [startTimer] *)
}.

Section code.
Context `{HW : Widgets} (toLower : list Z -> list Z) (KeyCodes : list Z).
Implicit Types q : qt.

Definition qobject_cast (w : Z) : Z := if c_true w && is_spinbox w then w else 0.

Definition setShift (fl : bool) : K unit :=
  modify (set_shift fl);;
  perform (Emit (onShift fl)).

Definition doToggleShift : K unit :=
  fl ← gets flShift;
  modify (set_shift (negb fl));;
  perform (Emit (onShift (negb fl))).

Definition setLabelText q (text : list Z) : K unit :=
  when (label_alive q) (perform (SetText text)).

Definition setEditorReadOnly (w : Z) (fl : bool) : K unit :=
  when (is_editable w) (perform (SetReadOnly w fl)).

Definition startEdit q (w : Z) : K unit :=
  e ← gets editor;
  if c_true e then mret tt
  else
    when (c_true w) (perform (SetFocus w));;
    let w := if c_true w then w else focusWidget q in
    if w =? 0 then mret tt
    else
      b ← gets editButtons;
      when (c_true (ok b)) (perform (SetVisible (ok b) true));;
      when (c_true (cancel b)) (perform (SetVisible (cancel b) true));;
      setEditorReadOnly w false;;
      setShift false;;
      let fl := digits_property q w in
      modify (set_digits fl);;
      modify (set_editor w);;
      setLabelText q [];;
      when (c_true (shift b)) (perform (SetVisible (shift b) (negb fl)));;
      let spb := qobject_cast w in
      when (c_true (up b))
        (perform (SetVisible (up b) (c_true spb));;
         when (c_true spb) (perform (ConnectStep (up b) spb)));;
      when (c_true (down b))
        (perform (SetVisible (down b) (c_true spb));;
         when (c_true spb) (perform (ConnectStep (down b) spb)));;
      perform (Emit (onStartEdit w)).

Definition stopEdit (result : bool) : K unit :=
  setShift false;;
  b ← gets editButtons;
  when (c_true (ok b)) (perform (SetVisible (ok b) false));;
  when (c_true (cancel b)) (perform (SetVisible (cancel b) false));;
  when (c_true (shift b)) (perform (SetVisible (shift b) false));;
  e ← gets editor;
  if e =? 0 then mret tt
  else
    let spb := qobject_cast e in
    when (c_true spb)
      (when (c_true (up b))
         (perform (SetVisible (up b) false);; perform (DisconnectStep (up b) spb));;
       when (c_true (down b))
         (perform (SetVisible (down b) false);; perform (DisconnectStep (down b) spb)));;
    perform (Emit (if result then onEditOk e else onEditCancel e));;
    perform (Emit (onEditDone e result));;
    setEditorReadOnly e true;;
    modify (set_editor 0).

(** [emitters [key] ()] and, where there is one, [emitters_release [key] ()]. *)
Definition emitters (key : Z) : K unit :=
  if key <? KEY_UNKNOWN then perform (Emit (onKey_ key)) else mret tt.
Definition emitters_release (key : Z) : K unit :=
  when ((key =? KEY_PTT) || (key =? KEY_CALL)) (perform (Emit (onRelease_ key))).

(** "[" before "<b>" sym "</b>" after "]". *)
Definition label_of (syms : list Z) (sym numAlphaSyms currentSym : Z) : list Z :=
  [91] ++ take (Z.to_nat currentSym) syms ++ [60; 98; 62] ++ [sym] ++ [60; 47; 98; 62] ++
  lastn (Z.to_nat (u32 (numAlphaSyms - currentSym - 1))) syms ++ [93].

Definition processAlphaKey q (key : Z) : K unit :=
  syms ← need (zget sSymbols key);
  digits ← gets flDigits;
  if (digits : bool) then
    sym ← need (zget syms 0);
    e ← gets editor;
    perform (Commit e [sym]);;
    setLabelText q [];;
    n ← gets numAlphaSyms;
    i ← gets currentSym;
    modify (set_alpha KEY_UNKNOWN n i)
  else
    cur ← gets currentAlphaKey;
    (if negb (key =? cur) then
       modify (set_alpha key (Z.of_nat (length syms)) 0)
     else
       n ← gets numAlphaSyms;
       i ← gets currentSym;
       let i := u32 (i + 1) in
       modify (set_alpha key n (if n <=? i then 0 else i)));;
    when (label_alive q)
      (i ← gets currentSym;
       sym ← need (zget syms i);
       n ← gets numAlphaSyms;
       fl ← gets flShift;
       let s := label_of syms sym n i in
       perform (SetText (if (fl : bool) then s else toLower s))).

Definition processKeyPress q (key : Z) (autorepeat : bool) : K unit :=
  id ← gets timerId;
  perform (KillTimer id);;
  perform (StartTimer (new_timer q));;
  modify (set_timer (new_timer q));;
  pressed ← gets keysPressed;
  pressed ← need (zset key true pressed);
  modify (set_pressed pressed);;
  e ← gets editor;
  let b := qobject_cast e in
  if c_true e && (key <=? KEY_K5) then
    if key <=? KEY_OK then processAlphaKey q key
    else if autorepeat then mret tt
    else if key =? KEY_K1 then stopEdit true
    else if key =? KEY_K2 then stopEdit false
    else if key =? KEY_K3 then
      digits ← gets flDigits;
      when (negb digits) doToggleShift;;
      when (c_true b) (perform (StepDown b))
    else if key =? KEY_K4 then when (c_true b) (perform (StepUp b))
    else mret tt
  else if autorepeat then mret tt
  else
    slaves ← gets slaveButtons;
    let btn := default 0 (slaves !! key) in
    if c_true btn && clickable q btn then perform (AnimateClick btn)
    else
      emitters key;;
      perform (Emit (onKey key)).

Definition processKeyRelease (key : Z) (autorepeat : bool) : K unit :=
  if autorepeat then mret tt
  else
    pressed ← gets keysPressed;
    pressed ← need (zset key false pressed);
    modify (set_pressed pressed);;
    e ← gets editor;
    if c_true e && (key <? KEY_K1) then mret tt
    else
      emitters_release key;;
      perform (Emit (onRelease key)).

Definition timerEvent q : K unit :=
  id ← gets timerId;
  perform (KillTimer id);;
  modify (set_timer 0);;
  for_each (fun key =>
    pressed ← gets keysPressed;
    p ← need (zget pressed key);
    when p (processKeyRelease key false)) (map Z.of_nat (seq 0 20));;
  e ← gets editor;
  cur ← gets currentAlphaKey;
  i ← gets currentSym;
  when (c_true e && (cur <=? KEY_9))
    (syms ← need (zget sSymbols cur);
     sym ← need (zget syms i);
     fl ← gets flShift;
     perform (Commit e (if (fl : bool) then [sym] else toLower [sym])));;
  n ← gets numAlphaSyms;
  modify (set_alpha KEY_UNKNOWN n 0);;
  setLabelText q [].

(** The constructor fills [KeysCodeIdx]; [value] gives [KEY_UNKNOWN] for other codes. *)
Definition KeysCodeIdx : gmap Z Z :=
  foldl (fun m i => <[nth i KeyCodes 0 := Z.of_nat i]> m) ∅ (seq 0 20).
Definition processKeyEvent q (press : bool) (code : Z) (autorepeat : bool) : K unit :=
  let key := default KEY_UNKNOWN (KeysCodeIdx !! code) in
  if key <? KEY_UNKNOWN then
    if press then processKeyPress q key autorepeat else processKeyRelease key autorepeat
  else mret tt.

Definition resetEditButtons : K unit :=
  b ← gets editButtons;
  for_each (fun x => when (c_true x) (perform (DisconnectButton x))) (array b);;
  modify (set_buttons no_buttons).

Definition setEditButtons (b : edit_buttons) : K unit :=
  resetEditButtons;;
  when (c_true (ok b)) (perform (ConnectButton (ok b)));;
  when (c_true (cancel b)) (perform (ConnectButton (cancel b)));;
  when (c_true (shift b)) (perform (ConnectButton (shift b)));;
  modify (set_buttons b);;
  for_each (fun x => when (c_true x) (perform (SetVisible x false))) (array b).

Definition setSlaveButton (idx btn : Z) : K unit :=
  if idx <? KEY_PTT then
    slaves ← gets slaveButtons;
    modify (set_slaves (<[idx := btn]> slaves))
  else need None.

(** ** Events *)
Inductive event :=
  | Key (q : qt) (press : bool) (code : Z) (autorepeat : bool)
  | Timer (q : qt)
  | StartEdit (q : qt) (w : Z)
  | StopEdit (result : bool)
  | SetShift (fl : bool) | ToggleShift
  | SetEditButtons (b : edit_buttons) | SetSlaveButton (idx btn : Z).

Definition handle (ev : event) : K unit :=
  match ev with
  | Key q press code autorepeat => processKeyEvent q press code autorepeat
  | Timer q => timerEvent q
  | StartEdit q w => startEdit q w
  | StopEdit result => stopEdit result
  | SetShift fl => setShift fl
  | ToggleShift => doToggleShift
  | SetEditButtons b => setEditButtons b
  | SetSlaveButton idx btn => setSlaveButton idx btn
  end.
End code.

(** ** Weakest preconditions: the program ends, and in a state with [Q] *)
Definition wp {A} (m : K A) (Q : A -> keys -> list out -> Prop) (s : keys) (t : list out) : Prop :=
  match m s t with Some (a, s', t') => Q a s' t' | None => False end.

Lemma k_bind {A B} (m : K A) (f : A -> K B) Q s t :
  wp m (fun a s' t' => wp (f a) Q s' t') s t -> wp (m ≫= f) Q s t.
Proof. unfold wp, mbind, K_bind. by destruct (m s t) as [[[a s'] t']|]. Qed.
Lemma k_ret {A} (a : A) (Q : A -> keys -> list out -> Prop) s t : Q a s t -> wp (mret a) Q s t.
Proof. done. Qed.
Lemma k_gets {A} (f : keys -> A) (Q : A -> keys -> list out -> Prop) s t : Q (f s) s t -> wp (gets f) Q s t.
Proof. done. Qed.
Lemma k_modify f (Q : unit -> keys -> list out -> Prop) s t : Q tt (f s) t -> wp (modify f) Q s t.
Proof. done. Qed.
Lemma wp_perform o (Q : unit -> keys -> list out -> Prop) s t : Q tt s (o :: t) -> wp (perform o) Q s t.
Proof. done. Qed.
Lemma wp_need {A} (x : option A) a (Q : A -> keys -> list out -> Prop) s t :
  x = Some a -> Q a s t -> wp (need x) Q s t.
Proof. by intros ->. Qed.
Lemma k_mono {A} (m : K A) (Q Q' : A -> keys -> list out -> Prop) s t :
  wp m Q s t -> (forall a s' t', Q a s' t' -> Q' a s' t') -> wp m Q' s t.
Proof. unfold wp. destruct (m s t) as [[[a s'] t']|]; auto. Qed.

(** A loop keeps what its body keeps. *)
Lemma k_for_each {A} (f : A -> K unit) l (P : keys -> list out -> Prop) s t :
  (forall x s t, x ∈ l -> P s t -> wp (f x) (fun _ => P) s t) ->
  P s t -> wp (for_each f l) (fun _ => P) s t.
Proof.
  revert s t. induction l as [|x l IH]; intros s t Hf HP; [done|]. cbn [for_each].
  apply k_bind. eapply k_mono; [apply Hf; [left|done]|]. cbn beta. intros _ s' t' HP'.
  apply IH; [|done]. intros y s0 t0 Hy. apply Hf. by right.
Qed.

Ltac k_step :=
  lazymatch goal with
  | |- wp (mbind _ _) _ _ _ => apply k_bind
  | |- wp (mret _) _ _ _ => apply k_ret
  | |- wp (gets _) _ _ _ => apply k_gets
  | |- wp (modify _) _ _ _ => apply k_modify
  | |- wp (perform _) _ _ _ => apply wp_perform
  | |- wp (when ?b _) _ _ _ => destruct b eqn:?; cbn [when]
  | |- wp (if ?b then _ else _) _ _ _ => destruct b eqn:?
  end.
Ltac k_run := repeat (k_step; cbn beta zeta).
Ltac k_cbn := cbn [keysPressed editor flShift currentAlphaKey numAlphaSyms currentSym timerId
  flDigits editButtons slaveButtons set_pressed set_editor set_shift set_alpha set_timer
  set_digits set_buttons set_slaves] in *.

(** A program keeps [P]. *)
Definition keeps {A} (P : keys -> list out -> Prop) (m : K A) : Prop :=
  forall s t, P s t -> wp m (fun _ => P) s t.

Section keeps.
Context (P : keys -> list out -> Prop).
Lemma keeps_bind {A B} (m : K A) (f : A -> K B) :
  keeps P m -> (forall a, keeps P (f a)) -> keeps P (m ≫= f).
Proof.
  intros Hm Hf s t HP. apply k_bind. eapply k_mono; [by apply Hm|]. intros a s' t'. apply Hf.
Qed.
Lemma keeps_ret {A} (a : A) : keeps P (mret a).
Proof. by intros s t. Qed.
Lemma keeps_gets {A} (f : keys -> A) : keeps P (gets f).
Proof. by intros s t. Qed.
Lemma keeps_modify f : (forall s t, P s t -> P (f s) t) -> keeps P (modify f).
Proof. intros Hf s t. apply Hf. Qed.
Lemma keeps_perform o : (forall s t, P s t -> P s (o :: t)) -> keeps P (perform o).
Proof. intros Ho s t. apply Ho. Qed.
Lemma keeps_when b m : (b = true -> keeps P m) -> keeps P (when b m).
Proof. destruct b; [auto|]. intros _. apply keeps_ret. Qed.
Lemma keeps_for_each {A} (f : A -> K unit) l : (forall x, x ∈ l -> keeps P (f x)) -> keeps P (for_each f l).
Proof. intros Hf s t HP. apply k_for_each; [|done]. intros x s' t' Hx. by apply Hf. Qed.
End keeps.

Ltac keeps_step :=
  lazymatch goal with
  | |- keeps _ (mbind _ _) => apply keeps_bind; [|intros ?]
  | |- keeps _ (mret _) => apply keeps_ret
  | |- keeps _ (gets _) => apply keeps_gets
  | |- keeps _ (modify _) => apply keeps_modify
  | |- keeps _ (perform _) => apply keeps_perform
  | |- keeps _ (when _ _) => apply keeps_when; intros ?
  | |- keeps _ (for_each _ _) => apply keeps_for_each; intros ? ?
  | |- keeps _ (if ?b then _ else _) => destruct b eqn:?
  end; cbn beta zeta.
Ltac keeps_run := repeat keeps_step.

(** ** Nothing fails *)
Record keys_ok (s : keys) : Prop := {
  ok_pressed : length (keysPressed s) = 20%nat;
  ok_alpha : currentAlphaKey s = KEY_UNKNOWN \/
    exists syms, zget sSymbols (currentAlphaKey s) = Some syms /\ 
      numAlphaSyms s = Z.of_nat (length syms) /\ 0 <= currentSym s < numAlphaSyms s;
}.

Lemma new_keys_ok : keys_ok new_keys.
Proof. split; [done|by left]. Qed.

Lemma symbols_of key : 0 <= key <= KEY_OK ->
  exists syms, zget sSymbols key = Some syms /\ 1 <= Z.of_nat (length syms) <= 5.
Proof.
  unfold KEY_OK. intros Hk. assert (forallb (fun k => match zget sSymbols (Z.of_nat k) with
    | Some l => (1 <=? Z.of_nat (length l)) && (Z.of_nat (length l) <=? 5) | None => false end)
    (seq 0 12) = true) as H by (vm_compute; reflexivity).
  rewrite forallb_forall in H. specialize (H (Z.to_nat key)). rewrite Z2Nat.id in H by lia.
  destruct (zget sSymbols key) as [l|]; [|by discriminate H; apply in_seq; lia].
  exists l. split; [done|]. apply andb_true_iff in H as [?%Z.leb_le ?%Z.leb_le]; [lia|].
  apply in_seq. lia.
Qed.

(** Marking a key as pressed or released. *)
Lemma keeps_mark {A} (P : keys -> list out -> Prop) key b (rest : K A) : 0 <= key < 20 ->
  (forall s t, P s t -> length (keysPressed s) = 20%nat) ->
  (forall l s t, length l = 20%nat -> P s t -> P (set_pressed l s) t) ->
  keeps P rest ->
  keeps P (pressed ← gets keysPressed; pressed ← need (zset key b pressed);
           modify (set_pressed pressed);; rest).
Proof.
  intros Hk Hl Hset Hrest s t HP. pose proof (Hl s t HP) as Hlen. apply k_bind, k_gets, k_bind.
  eapply wp_need; [by apply zset_Some; lia|]. apply k_bind, k_modify, Hrest, Hset; [|done].
  by rewrite length_insert.
Qed.

Section ok.
Context `{HW : Widgets} (toLower : list Z -> list Z) (KeyCodes : list Z).
#[local] Set Default Proof Using "Type*".
#[local] Abbreviation okP := (fun s (_ : list out) => keys_ok s).

Lemma mark_ok {A} key b (rest : K A) : 0 <= key < 20 -> keeps okP rest ->
  keeps okP (pressed ← gets keysPressed; pressed ← need (zset key b pressed);
             modify (set_pressed pressed);; rest).
Proof.
  intros Hk. apply keeps_mark; [done|by intros s _ []|]. intros l s t Hl []. by split.
Qed.

Ltac same_ok := keeps_run; intros s t []; by split.

Lemma stopEdit_ok r : keeps okP (stopEdit r).
Proof. unfold stopEdit, setShift, setEditorReadOnly. same_ok. Qed.
Lemma startEdit_ok q w : keeps okP (startEdit q w).
Proof. unfold startEdit, setShift, setEditorReadOnly, setLabelText. same_ok. Qed.

Lemma release_ok key autorepeat : 0 <= key < 20 -> keeps okP (processKeyRelease key autorepeat).
Proof.
  intros Hk. unfold processKeyRelease, emitters_release. destruct autorepeat; [apply keeps_ret|].
  apply mark_ok; [done|]. by keeps_run.
Qed.

Lemma alpha_ok q key : 0 <= key <= KEY_OK -> keeps okP (processAlphaKey toLower q key).
Proof.
  intros Hk s t Hs. destruct (symbols_of key Hk) as (syms & Hsyms & Hlen).
  unfold processAlphaKey, setLabelText. apply k_bind. eapply wp_need; [done|].
  apply k_bind, k_gets. destruct (flDigits s).
  - apply k_bind. destruct (lookup_lt_is_Some_2 syms 0) as [c Hc]; [lia|].
    apply (wp_need _ c); [by rewrite zget_lookup|]. k_run; (split; [apply Hs|by left]).
  - apply k_bind, k_gets.
    set (Q := fun s' (_ : list out) => length (keysPressed s') = 20%nat /\
      numAlphaSyms s' = Z.of_nat (length syms) /\ 0 <= currentSym s' < numAlphaSyms s' /\
      currentAlphaKey s' = key).
    apply k_bind. eapply (k_mono _ (fun _ => Q)).
    + destruct (Z.eqb_spec key (currentAlphaKey s)) as [He|Hne]; cbn [negb].
      * destruct Hs as [Hp [Hu|(syms' & Hs' & Hn & Hi)]]; [unfold KEY_OK, KEY_UNKNOWN in *; lia|].
        rewrite <- He, Hsyms in Hs'. injection Hs' as <-. k_run. unfold Q. k_cbn.
        rewrite wrapu_small by lia. split_and!; [done|done| | |done];
          destruct (Z.leb_spec (numAlphaSyms s) (currentSym s + 1)); lia.
      * apply k_modify. unfold Q. k_cbn. split_and!; [apply Hs|done|lia|lia|done].
    + cbn beta. intros _ s' t' (Hp & Hn & Hi & Hcur).
      assert (keys_ok s') as Hs' by (split; [done|right; rewrite Hcur; eauto]).
      unfold when. destruct (label_alive q); [|done]. apply k_bind, k_gets, k_bind.
      destruct (lookup_lt_is_Some_2 syms (Z.to_nat (currentSym s'))) as [c Hc]; [lia|].
      apply (wp_need _ c); [by rewrite zget_lookup by lia|]. k_run; done.
Qed.

Lemma press_ok q key autorepeat : 0 <= key < 20 -> keeps okP (processKeyPress toLower q key autorepeat).
Proof.
  intros Hk. unfold processKeyPress, doToggleShift, emitters. do 4 (keeps_step; [by keeps_run; intros s t []|]).
  apply mark_ok; [done|]. keeps_run; try (by apply stopEdit_ok); try (intros s t []; by split).
  apply alpha_ok. apply Z.leb_le in Heqb0. lia.
Qed.

Lemma keeps_held (P : keys -> list out -> Prop) (f : Z -> K unit) :
  (forall s t, P s t -> length (keysPressed s) = 20%nat) ->
  (forall key, 0 <= key < 20 -> keeps P (f key)) ->
  keeps P (for_each (fun key =>
    pressed ← gets keysPressed; p ← need (zget pressed key); when p (f key))
    (map Z.of_nat (seq 0 20))).
Proof.
  intros Hl Hf. apply keeps_for_each. intros key Hin s t HP.
  apply list_elem_of_fmap in Hin as (n & -> & Hn%elem_of_seq).
  apply k_bind, k_gets, k_bind. destruct (lookup_lt_is_Some_2 (keysPressed s) n) as [b Hb].
  { rewrite (Hl s t HP). lia. }
  apply (wp_need _ b); [rewrite zget_lookup by lia; by rewrite Nat2Z.id|].
  destruct b; [|done]. apply Hf; [lia|done].
Qed.

Lemma timer_ok q : keeps okP (timerEvent toLower q).
Proof.
  unfold timerEvent, setLabelText. do 3 (keeps_step; [by keeps_run; intros s t []|]).
  keeps_step; [apply keeps_held; [by intros s t []|intros; by apply release_ok]|].
  intros s t [Hp Ha]. do 3 (k_step; k_step). k_step. k_step.
  - apply andb_true_iff in Heqb as [_ Hcur%Z.leb_le]. unfold KEY_9 in Hcur.
    destruct Ha as [Ha|(syms & Hsyms & Hn & Hi)]; [rewrite Ha in Hcur; unfold KEY_UNKNOWN in Hcur; lia|].
    k_step. eapply wp_need; [done|]. k_step.
    destruct (lookup_lt_is_Some_2 syms (Z.to_nat (currentSym s))) as [c Hc]; [lia|].
    apply (wp_need _ c); [by rewrite zget_lookup by lia|]. k_run; (split; [done|by left]).
  - k_run; (split; [done|by left]).
Qed.

Lemma KeysCodeIdx_range code : 0 <= default KEY_UNKNOWN (KeysCodeIdx KeyCodes !! code) < 20.
Proof.
  unfold KeysCodeIdx. assert (forall l (m : gmap Z Z),
    (forall i, (i ∈ l)%nat -> (i < 20)%nat) -> (forall c k, m !! c = Some k -> 0 <= k < 20) ->
    forall c k, foldl (fun m i => <[nth i KeyCodes 0 := Z.of_nat i]> m) m l !! c = Some k -> 0 <= k < 20) as Hf.
  { induction l as [|i l IH]; intros m Hl Hm; [done|]. apply IH; [intros; apply Hl; by right|].
    intros c k [[_ <-]|[_ Hc]]%lookup_insert_Some; [|eauto]. assert (i < 20)%nat by (apply Hl; left). lia. }
  destruct (_ !! code) as [k|] eqn:E; cbn [default]; [|unfold KEY_UNKNOWN; lia].
  apply (Hf _ _) in E; [done| |]. { intros i Hi%elem_of_seq. lia. } intros c k'. by rewrite lookup_empty.
Qed.

(** Calls the code allows: [setSlaveButton] asserts that its key is below [KEY_PTT]. *)
Definition event_ok (ev : event) : Prop :=
  match ev with SetSlaveButton idx _ => 0 <= idx < KEY_PTT | _ => True end.

Lemma handle_ok ev : event_ok ev -> keeps okP (handle toLower KeyCodes ev).
Proof.
  intros Hev. destruct ev as [q press code autorepeat|q|q w|r|fl| |b|idx btn]; cbn [handle].
  - unfold processKeyEvent. cbv zeta. pose proof (KeysCodeIdx_range code).
    destruct (_ <? _); [|apply keeps_ret]. destruct press; [by apply press_ok|by apply release_ok].
  - apply timer_ok.
  - apply startEdit_ok.
  - apply stopEdit_ok.
  - unfold setShift. same_ok.
  - unfold doToggleShift. same_ok.
  - unfold setEditButtons, resetEditButtons. same_ok.
  - unfold setSlaveButton. cbn in Hev. destruct (Z.ltb_spec idx KEY_PTT); [|lia]. same_ok.
Qed.

Definition run_events (evs : list event) : K unit := for_each (handle toLower KeyCodes) evs.

(** C29: whatever events arrive, in any order and from the first on, no assertion fails and
    no array is left: the selected character is always one of the key's, or there is
    no key, and the twenty key states stay. *)
Theorem keys_never_fail evs t :
  Forall event_ok evs ->
  exists s' t', run_events evs new_keys t = Some (tt, s', t') /\ keys_ok s'.
Proof.
  intros Hevs. assert (wp (run_events evs) (fun _ => okP) new_keys t) as H.
  { apply keeps_for_each; [|apply new_keys_ok]. intros ev Hin. apply handle_ok.
    by apply (proj1 (Forall_forall _ _) Hevs). }
  unfold wp in H. destruct (run_events evs new_keys t) as [[[[] s'] t']|]; [eauto|done].
Qed.
End ok.

(** ** Concrete runs *)
#[export] Instance demo_widgets : Widgets := {
  is_spinbox w := w =? 5;
  is_editable w := w <? 10;
}.
Definition demo_qt : qt := Qt true 0 (fun w => w =? 4) (fun _ => true) 7.
(** Capital Cyrillic letters and Latin ones. *)
Definition demo_lower : list Z -> list Z :=
  map (fun c => if (1040 <=? c) && (c <=? 1071) || (65 <=? c) && (c <=? 90) then c + 32 else c).
Definition demo_codes : list Z := map Z.of_nat (seq 100 19) ++ [0].
(** A widget being edited, with nothing pending, and with a letter pending. *)
Definition editing (digits : bool) (key num sym : Z) : keys :=
  Keys (replicate 20 false) 3 false key num sym 0 digits no_buttons ∅.

Lemma keys_never_fail_witness : exists s' t',
  run_events demo_lower demo_codes
    [SetEditButtons (EditButtons 31 32 33 34 35); StartEdit demo_qt 3; Key demo_qt true 102 false;
     Key demo_qt true 102 true; Timer demo_qt; Key demo_qt true 112 false] new_keys [] = Some (tt, s', t') /\ 
  keys_ok s'.
Proof. apply (keys_never_fail demo_lower demo_codes). by repeat constructor. Defined.

