(* ===== verification/KeysTable.v ===== *)
(** * The table of keys

    The enumeration [Key] and the tables [KeyCodes] and [KeyNames] of
    [qt/qkeywin/KeysManager.h], and the loop of the constructor that turns them into
    [KeysCodeIdx] and [KeysCodeNames].  The codes are Qt's ([QtKeys], of which it is
    used that they differ); [KeysManager] and the files above it take the table as a
    parameter. *)
From S2P Require Import Prelude.
From stdpp Require Import gmap.
From S2P Require Import KeysManager.
From stdpp Require Import options.
#[local] Open Scope string_scope.
#[local] Open Scope list_scope.
#[local] Open Scope Z_scope.

(** [enum Key]: the names in the order of their values. *)
Definition Key : list string :=
  ["KEY_0"; "KEY_1"; "KEY_2"; "KEY_3"; "KEY_4"; "KEY_5"; "KEY_6"; "KEY_7"; "KEY_8"; "KEY_9";
   "KEY_DEL"; "KEY_OK"; "KEY_K1"; "KEY_K2"; "KEY_K3"; "KEY_K4"; "KEY_K5"; "KEY_PTT"; "KEY_CALL";
   "KEY_UNKNOWN"; "KEY_MAX"].

(** The values of [Qt::Key] that the table names. *)
Record QtKeys := {
  Key_Pause : Z; Key_F6 : Z; Key_F7 : Z; Key_F8 : Z; Key_F9 : Z; Key_F10 : Z; Key_F11 : Z;
  Key_F12 : Z; Key_Print : Z; Key_ScrollLock : Z; Key_Backspace : Z; Key_Return : Z;
  Key_F1 : Z; Key_F2 : Z; Key_F3 : Z; Key_F4 : Z; Key_F5 : Z; Key_PageUp : Z; Key_PageDown : Z;
}.

Definition KeyCodes (k : QtKeys) : list Z :=
  [Key_Pause k;
   Key_F6 k; Key_F7 k; Key_F8 k;
   Key_F9 k; Key_F10 k; Key_F11 k;
   Key_F12 k; Key_Print k; Key_ScrollLock k;
   Key_Backspace k; Key_Return k;
   Key_F1 k; Key_F2 k; Key_F3 k; Key_F4 k; Key_F5 k;
   Key_PageUp k; Key_PageDown k;
   0].

Definition KeyNames : list string :=
  ["#0"; "#1"; "#2"; "#3"; "#4"; "#5"; "#6"; "#7"; "#8"; "#9";
   "NO"; "OK"; "K1"; "K2"; "K3"; "K4"; "K5"; "PTT"; "CALL"; "UNKNOWN"].

(** The loop of the constructor, for the names; for the indices it is [KeysCodeIdx]. *)
Definition KeysCodeNames (codes : list Z) : gmap Z string :=
  foldl (fun m i => <[nth i codes 0 := nth i KeyNames ""]> m) ∅ (seq 0 20).

(** ** Facts *)

(** The constants of [KeysManager] are those of the enumeration. *)
Lemma Key_values :
  Forall (fun '(name, v) => exists i, Key !! i = Some name /\ v = Z.of_nat i)
    [("KEY_9", KEY_9); ("KEY_OK", KEY_OK); ("KEY_K1", KEY_K1); ("KEY_K2", KEY_K2); ("KEY_K3", KEY_K3);
     ("KEY_K4", KEY_K4); ("KEY_K5", KEY_K5); ("KEY_PTT", KEY_PTT); ("KEY_CALL", KEY_CALL);
     ("KEY_UNKNOWN", KEY_UNKNOWN); ("KEY_MAX", KEY_MAX)] /\
  Z.of_nat (length KeyNames) = KEY_MAX /\ forall k, Z.of_nat (length (KeyCodes k)) = KEY_MAX.
Proof.
  split; [|done].
  repeat constructor; [by exists 9%nat|by exists 11%nat|by exists 12%nat|by exists 13%nat|by exists 14%nat
    |by exists 15%nat|by exists 16%nat|by exists 17%nat|by exists 18%nat|by exists 19%nat|by exists 20%nat].
Qed.

(** What a table table_filled by the loop gives. *)
Lemma table_filled {A} (f : nat -> A) (codes : list Z) n :
  NoDup codes -> (n <= length codes)%nat -> forall code,
  foldl (fun m i => <[nth i codes 0 := f i]> m) (∅ : gmap Z A) (seq 0 n) !! code =
    (i ← list_find (eq code) codes; if decide (i.1 < n)%nat then Some (f i.1) else None).
Proof.
  intros Hd. induction n as [|n IH]; intros Hn code.
  { cbn. rewrite lookup_empty. destruct (list_find _ _) as [[i x]|]; [|done]. cbn.
    by destruct (decide (i < 0)%nat); [lia|]. }
  rewrite seq_S, foldl_app. cbn [foldl Nat.add].
  destruct (lookup_lt_is_Some_2 codes n) as [c Hc]; [lia|].
  rewrite (nth_lookup_Some _ _ _ _ Hc).
  destruct (decide (code = c)) as [->|Hne].
  - rewrite lookup_insert_eq.
    assert (list_find (eq c) codes = Some (n, c)) as ->.
    { apply list_find_Some. split_and!; [done|done|]. intros j y Hj Hlt <-.
      assert (j = n) by (by eapply NoDup_lookup). lia. }
    cbn. by destruct (decide (n < S n)%nat); [|lia].
  - rewrite lookup_insert_ne by done. rewrite IH by lia.
    destruct (list_find (eq code) codes) as [[i x]|] eqn:Hf; [|done]. cbn.
    apply list_find_Some in Hf as (Hi & <- & _).
    assert (i <> n) by (intros ->; congruence).
    destruct (decide (i < n)%nat), (decide (i < S n)%nat); done || lia.
Qed.

(** With codes that differ from each other and from 0, each code gives its own key and
    name, and every other code is unknown: the twentieth entry, the code 0, is itself
    [KEY_UNKNOWN]. *)
Theorem table_of_keys k :
  NoDup (KeyCodes k) ->
  (forall i code, KeyCodes k !! i = Some code ->
     default KEY_UNKNOWN (KeysCodeIdx (KeyCodes k) !! code) = Z.of_nat i /\
     KeysCodeNames (KeyCodes k) !! code = KeyNames !! i) /\
  (forall code, code ∉ KeyCodes k -> default KEY_UNKNOWN (KeysCodeIdx (KeyCodes k) !! code) = KEY_UNKNOWN) /\
  default KEY_UNKNOWN (KeysCodeIdx (KeyCodes k) !! 0) = KEY_UNKNOWN.
Proof.
  intros Hd.
  pose proof (table_filled Z.of_nat _ 20 Hd ltac:(cbn; lia)) as Hidx.
  pose proof (table_filled (fun i => nth i KeyNames "") _ 20 Hd ltac:(cbn; lia)) as Hnames.
  fold (KeysCodeIdx (KeyCodes k)) in Hidx. fold (KeysCodeNames (KeyCodes k)) in Hnames.
  assert (forall i code, KeyCodes k !! i = Some code ->
    list_find (eq code) (KeyCodes k) = Some (i, code) /\ (i < 20)%nat) as Hfind.
  { intros i code Hi. split; [|by apply lookup_lt_Some in Hi].
    apply list_find_Some. split_and!; [done|done|]. intros j y Hj Hlt <-.
    assert (j = i) by (by eapply NoDup_lookup). lia. }
  assert (forall i code, KeyCodes k !! i = Some code ->
    default KEY_UNKNOWN (KeysCodeIdx (KeyCodes k) !! code) = Z.of_nat i) as Hval.
  { intros i code Hi. destruct (Hfind i code Hi) as [Hf Hlt]. rewrite Hidx, Hf. cbn.
    by destruct (decide (i < 20)%nat); [|lia]. }
  split_and!; [|intros code Hc|by apply (Hval 19%nat)].
  - intros i code Hi. split; [by apply Hval|]. destruct (Hfind i code Hi) as [Hf Hlt].
    rewrite Hnames, Hf. cbn. destruct (decide (i < 20)%nat); [|lia].
    destruct (lookup_lt_is_Some_2 KeyNames i) as [name Hn]; [done|].
    rewrite Hn. f_equal. exact (nth_lookup_Some KeyNames i "" name Hn).
  - rewrite Hidx. destruct (list_find (eq code) (KeyCodes k)) as [[i x]|] eqn:Hf; [|done].
    apply list_find_Some in Hf as (Hi & <- & _). by apply list_elem_of_lookup_2 in Hi.
Qed.

(** The values that Qt documents. *)
Definition qt_keys : QtKeys := {|
  Key_Pause := 0x01000008; Key_F6 := 0x01000035; Key_F7 := 0x01000036; Key_F8 := 0x01000037;
  Key_F9 := 0x01000038; Key_F10 := 0x01000039; Key_F11 := 0x0100003a; Key_F12 := 0x0100003b;
  Key_Print := 0x01000009; Key_ScrollLock := 0x01000026; Key_Backspace := 0x01000003;
  Key_Return := 0x01000004; Key_F1 := 0x01000030; Key_F2 := 0x01000031; Key_F3 := 0x01000032;
  Key_F4 := 0x01000033; Key_F5 := 0x01000034; Key_PageUp := 0x01000016; Key_PageDown := 0x01000017;
|}.

Lemma table_of_keys_witness :
  default KEY_UNKNOWN (KeysCodeIdx (KeyCodes qt_keys) !! 0x01000004) = KEY_OK /\
  KeysCodeNames (KeyCodes qt_keys) !! 0x01000004 = Some "OK".
Proof.
  apply (proj1 (table_of_keys qt_keys ltac:(apply (bool_decide_unpack _); vm_compute; exact I)) 11%nat).
  reflexivity.
Defined.
