(* ===== verification/KeysTyping.v ===== *)
(** * Typing with the keys

    What sequences of presses, releases and pauses enter into the edited widget
    ([processAlphaKey] and [timerEvent] of [KeysManager.cpp]), against a reference
    that counts repeated presses; and the letter that outlives its edit. *)
From stdpp Require Import gmap.
From S2P Require Import Prelude.
From S2P Require Import KeysManager.
From stdpp Require Import options.
#[local] Open Scope Z_scope.

(** The texts given to the edited widget, oldest first. *)
Fixpoint committed (t : list out) : list (list Z) :=
  match t with
  | [] => []
  | Commit _ text :: t' => committed t' ++ [text]
  | _ :: t' => committed t'
  end.

(** What a user does at the keys while a widget is edited: presses a key that types
    (or lets it repeat), releases any key, waits for the timer. *)
Inductive tap := Tap (q : qt) (key : Z) (autorepeat : bool) | Lift (key : Z) | Pause (q : qt).
Definition tap_ok (x : tap) : Prop :=
  match x with
  | Tap _ key _ => 0 <= key <= KEY_OK
  | Lift key => 0 <= key < 20
  | Pause _ => True
  end.

Section typing.
Context `{HW : Widgets} (toLower : list Z -> list Z).
#[local] Set Default Proof Using "Type*".

Definition run_tap (x : tap) : K unit :=
  match x with
  | Tap q key autorepeat => processKeyPress toLower q key autorepeat
  | Lift key => processKeyRelease key false
  | Pause q => timerEvent toLower q
  end.

Definition symbols (key : Z) : list Z := default [] (zget sSymbols key).
(** The character after [n] more presses of the key. *)
Definition letter (shifted : bool) (key : Z) (n : nat) : list Z :=
  let c := nth (n mod length (symbols key)) (symbols key) 0 in
  if shifted then [c] else toLower [c].

(** Repeated presses: the key being pressed and how many presses followed the first. *)
Definition pending := option (Z * nat).
Definition pressed_again (p : pending) (key : Z) : pending :=
  match p with
  | Some (key', n) => if key =? key' then Some (key, S n) else Some (key, O)
  | None => Some (key, O)
  end.
Definition paused (shifted : bool) (p : pending) : list (list Z) :=
  match p with
  | Some (key, n) => if key <=? KEY_9 then [letter shifted key n] else []
  | None => []
  end.

(** Reference: what is typed in letters. *)
Fixpoint typed (shifted : bool) (p : pending) (xs : list tap) : list (list Z) :=
  match xs with
  | [] => []
  | Tap _ key _ :: xs' => typed shifted (pressed_again p key) xs'
  | Lift _ :: xs' => typed shifted p xs'
  | Pause _ :: xs' => paused shifted p ++ typed shifted None xs'
  end.
(** And in digits. *)
Fixpoint typed_digits (xs : list tap) : list (list Z) :=
  match xs with
  | [] => []
  | Tap _ key _ :: xs' => [nth 0 (symbols key) 0] :: typed_digits xs'
  | _ :: xs' => typed_digits xs'
  end.

Record typing (digits shifted : bool) (p : pending) (s : keys) : Prop := {
  ty_len : length (keysPressed s) = 20%nat;
  ty_editor : editor s <> 0;
  ty_digits : flDigits s = digits;
  ty_shift : flShift s = shifted;
  ty_key : match p with
    | None => currentAlphaKey s = KEY_UNKNOWN
    | Some (key, n) => 0 <= key <= KEY_OK /\ currentAlphaKey s = key /\ 
        numAlphaSyms s = Z.of_nat (length (symbols key)) /\ 
        currentSym s = Z.of_nat (n mod length (symbols key))
    end;
}.
Definition typing_at d f p c s t := typing d f p s /\ committed t = c.

Lemma symbols_eq key : 0 <= key <= KEY_OK ->
  zget sSymbols key = Some (symbols key) /\ (1 <= length (symbols key) <= 5)%nat.
Proof.
  intros Hk. destruct (symbols_of key Hk) as (l & Hl & ?). unfold symbols. rewrite Hl. cbn [from_option id].
  split; [done|lia].
Qed.

Lemma mod_next n l : (0 < l)%nat -> 
  (if Z.of_nat l <=? Z.of_nat (n mod l) + 1 then 0 else Z.of_nat (n mod l) + 1) = Z.of_nat (S n mod l).
Proof.
  intros Hl. pose proof (Nat.mod_upper_bound n l ltac:(lia)).
  pose proof (Nat.div_mod n l ltac:(lia)).
  destruct (Z.leb_spec (Z.of_nat l) (Z.of_nat (n mod l) + 1)).
  - rewrite <- (Nat.mod_unique (S n) l (S (n / l)) 0); rewrite ?Nat.mul_succ_r; lia.
  - rewrite <- (Nat.mod_unique (S n) l (n / l) (S (n mod l))); lia.
Qed.

Lemma release_typing d f p c key : 0 <= key < 20 -> keeps (typing_at d f p c) (processKeyRelease key false).
Proof.
  intros Hk. unfold processKeyRelease, emitters_release. apply keeps_mark; [done|by intros s t [[] _]| |].
  - intros l s t Hl [[] Hc]. by split; [split|].
  - by keeps_run.
Qed.

Lemma tap_letters f p c q key s t : 0 <= key <= KEY_OK -> typing_at false f p c s t ->
  wp (processAlphaKey toLower q key) (fun _ => typing_at false f (pressed_again p key) c) s t.
Proof.
  intros Hk [[Hlen He Hd Hf Hp] Hc]. destruct (symbols_eq key Hk) as [Hsyms Hl].
  unfold processAlphaKey. apply k_bind. eapply wp_need; [done|]. apply k_bind, k_gets. rewrite Hd.
  apply k_bind, k_gets.
  apply k_bind. eapply (k_mono _ (fun _ => typing_at false f (pressed_again p key) c)).
  - unfold pressed_again. destruct p as [[key' n]|].
    + destruct Hp as (_ & Hcur & Hn & Hi). rewrite Hcur.
      destruct (Z.eqb_spec key key') as [<-|Hne]; cbn [negb].
      * k_run. split; [|done]. split; try done. k_cbn. split_and!; [lia|lia|done|done|].
        pose proof (Nat.mod_upper_bound n (length (symbols key)) ltac:(lia)).
        rewrite Hn, Hi, wrapu_small by lia. apply mod_next. lia.
      * k_run. split; [|done]. split; try done. k_cbn. split_and!; try (done || lia). by rewrite Nat.Div0.mod_0_l.
    + rewrite Hp. replace (key =? KEY_UNKNOWN) with false
        by (symmetry; apply Z.eqb_neq; unfold KEY_OK, KEY_UNKNOWN in *; lia).
      cbn [negb]. k_run. split; [|done]. split; try done. k_cbn. split_and!; try (done || lia). by rewrite Nat.Div0.mod_0_l.
  - cbn beta. intros _ s' t' [[Hlen' He' Hd' Hf' Hp'] Hc']. unfold when.
    destruct (label_alive q); [|by split; [split|]]. apply k_bind, k_gets, k_bind.
    assert (exists n, currentSym s' = Z.of_nat (n mod length (symbols key))) as [n Hn].
    { unfold pressed_again in Hp'. destruct p as [[key' m]|]; [destruct (key =? key')|];
        destruct Hp' as (_ & _ & _ & ->); eauto. }
    destruct (lookup_lt_is_Some_2 (symbols key) (n mod length (symbols key))) as [x Hx].
    { apply Nat.mod_upper_bound. lia. }
    apply (wp_need _ x); [rewrite Hn, zget_lookup by lia; by rewrite Nat2Z.id|].
    k_run. by split; [split|].
Qed.

Lemma tap_digits f c q key s t : 0 <= key <= KEY_OK -> typing_at true f None c s t ->
  wp (processAlphaKey toLower q key)
    (fun _ => typing_at true f None (c ++ [[nth 0 (symbols key) 0]])) s t.
Proof.
  intros Hk [[Hlen He Hd Hf Hp] Hc]. destruct (symbols_eq key Hk) as [Hsyms Hl].
  unfold processAlphaKey, setLabelText. apply k_bind. eapply wp_need; [done|].
  apply k_bind, k_gets. rewrite Hd. apply k_bind.
  destruct (symbols key) as [|x syms] eqn:E; [cbn in Hl; lia|]. eapply wp_need; [done|].
  k_run; (split; [by split|cbn [committed]; by rewrite Hc]).
Qed.

Lemma press_types d f p c q key autorepeat Q s t : 0 <= key <= KEY_OK ->
  typing_at d f p c s t ->
  (forall s' t', typing_at d f p c s' t' -> wp (processAlphaKey toLower q key) Q s' t') ->
  wp (processKeyPress toLower q key autorepeat) Q s t.
Proof.
  intros Hk [[Hlen He Hd Hf Hp] Hc] HQ. unfold KEY_OK in Hk. unfold processKeyPress.
  do 10 (k_step; cbn beta zeta). k_cbn. apply k_bind. eapply wp_need; [by apply zset_Some; lia|].
  do 4 (k_step; cbn beta zeta). k_cbn. unfold c_true.
  destruct (Z.eqb_spec (editor s) 0); [done|]. unfold KEY_K5, KEY_OK.
  destruct (Z.leb_spec key 16); [|lia]. destruct (Z.leb_spec key 11); [|lia]. cbn [negb andb].
  apply HQ. split; [|done]. split; try done. k_cbn. by rewrite length_insert.
Qed.

Lemma timer_types d f p c q s t : typing_at d f p c s t ->
  wp (timerEvent toLower q) (fun _ => typing_at d f None (c ++ paused f p)) s t.
Proof.
  intros H. unfold timerEvent, setLabelText. do 6 (k_step; cbn beta zeta).
  apply k_bind. eapply k_mono; [apply (keeps_held (typing_at d f p c))|].
  - by intros s' t' [[] _].
  - intros. by apply release_typing.
  - by destruct H as [[] Hc].
  - cbn beta. intros _ s' t' [[Hlen He Hd Hf Hp] Hc]. do 6 k_step.
    unfold c_true. destruct (Z.eqb_spec (editor s') 0); [done|]. cbn [negb andb].
    apply k_bind. eapply (k_mono _ (fun _ s1 t1 => s1 = s' /\ committed t1 = c ++ paused f p)).
    + unfold paused. destruct p as [[key m]|].
      * destruct Hp as (Hk & -> & _ & Hi). destruct (symbols_eq key Hk) as [Hsyms Hl].
        unfold when. destruct (key <=? KEY_9); [|apply k_ret; by rewrite app_nil_r].
        apply k_bind. eapply wp_need; [done|]. apply k_bind.
        destruct (lookup_lt_is_Some_2 (symbols key) (m mod length (symbols key))) as [x Hx].
        { apply Nat.mod_upper_bound. lia. }
        apply (wp_need _ x); [rewrite Hi, zget_lookup by lia; by rewrite Nat2Z.id|].
        k_run. cbn [committed]. rewrite Hc. unfold letter. by rewrite Hf, nth_lookup, Hx.
      * rewrite Hp. apply k_ret. by rewrite app_nil_r.
    + cbn beta. intros _ s1 t1 [-> Hc1]. k_run; (split; [by split|done]).
Qed.

Lemma taps_letters f xs p c s t : Forall tap_ok xs -> typing_at false f p c s t ->
  wp (for_each run_tap xs) (fun _ _ t' => committed t' = c ++ typed f p xs) s t.
Proof.
  intros Hxs. revert p c s t. induction Hxs as [|x xs Hx _ IH]; intros p c s t H; cbn [for_each typed].
  - apply k_ret. rewrite app_nil_r. apply H.
  - apply k_bind. destruct x as [q key autorepeat|key|q]; cbn [run_tap typed].
    + eapply k_mono; [apply (press_types _ _ _ _ _ _ _ _ _ _ Hx H); intros; by eapply tap_letters|].
      cbn beta. intros _ s' t'. apply IH.
    + eapply k_mono; [apply (release_typing _ _ _ _ _ Hx _ _ H)|]. cbn beta. intros _ s' t'. apply IH.
    + eapply k_mono; [apply (timer_types _ _ _ _ _ _ _ H)|]. cbn beta. intros _ s' t' H'.
      rewrite app_assoc. by apply IH.
Qed.

Lemma taps_digits f xs c s t : Forall tap_ok xs -> typing_at true f None c s t ->
  wp (for_each run_tap xs) (fun _ _ t' => committed t' = c ++ typed_digits xs) s t.
Proof.
  intros Hxs. revert c s t. induction Hxs as [|x xs Hx _ IH]; intros c s t H; cbn [for_each typed_digits].
  - apply k_ret. rewrite app_nil_r. apply H.
  - apply k_bind. destruct x as [q key autorepeat|key|q]; cbn [run_tap typed_digits].
    + eapply k_mono; [apply (press_types _ _ _ _ _ _ _ _ _ _ Hx H); intros; by eapply tap_digits|].
      cbn beta. intros _ s' t' H'. rewrite cons_middle, app_assoc. by apply IH.
    + eapply k_mono; [apply (release_typing _ _ _ _ _ Hx _ _ H)|]. cbn beta. intros _ s' t'. apply IH.
    + eapply k_mono; [apply (timer_types _ _ _ _ _ _ _ H)|]. cbn beta. intros _ s' t' H'.
      apply IH. unfold paused in H'. by rewrite app_nil_r in H'.
Qed.

(** C28: while a widget is edited, what any sequence of presses, releases and pauses types
    is what [typed] says: presses of one key go round its characters, and the pause after
    them enters the one reached.  A press of another key drops the character without
    entering it, and the keys after the nine, which show a dash, enter nothing.  A
    widget for digits gets the digit of every press at once, and the dash too. *)
Theorem keys_type f xs p s s' t t' :
  Forall tap_ok xs ->
  (typing false f p s ->
   wp (for_each run_tap xs) (fun _ _ t1 => committed t1 = committed t ++ typed f p xs) s t) /\ 
  (typing true f None s' ->
   wp (for_each run_tap xs) (fun _ _ t1 => committed t1 = committed t' ++ typed_digits xs) s' t').
Proof.
  intros Hxs. split; intros H.
  - by eapply taps_letters.
  - by eapply taps_digits.
Qed.
End typing.

(** ** A letter that strays *)
Section stray.
Context `{HW : Widgets} (toLower : list Z -> list Z).
#[local] Set Default Proof Using "Type*".

(** A letter is pending, and [c] was entered so far. *)
Definition awaits (w key i : Z) (c : list (list Z)) (s : keys) (t : list out) : Prop :=
  length (keysPressed s) = 20%nat /\ editor s = w /\ flShift s = false /\ 
  currentAlphaKey s = key /\ currentSym s = i /\ committed t = c.

Lemma stopEdit_awaits r key i c s t :
  length (keysPressed s) = 20%nat -> currentAlphaKey s = key -> currentSym s = i -> committed t = c ->
  wp (stopEdit r) (fun _ => awaits 0 key i c) s t.
Proof.
  intros Hl Hk Hi Hc. unfold stopEdit, setShift, setEditorReadOnly. k_run; k_cbn;
    split_and!; try done; by apply Z.eqb_eq.
Qed.

Lemma startEdit_awaits q w key i c s t : w <> 0 -> awaits 0 key i c s t ->
  wp (startEdit q w) (fun _ s' t' => awaits w key i c s' t' /\ flDigits s' = digits_property q w) s t.
Proof.
  intros Hw (Hl & He & Hf & Hk & Hi & Hc).
  assert (c_true w = true) as Hcw by (unfold c_true; by destruct (Z.eqb_spec w 0)).
  unfold startEdit, setShift, setEditorReadOnly, setLabelText. k_step. k_step. cbn beta zeta.
  rewrite He, Hcw. cbn [c_true Z.eqb negb when]. destruct (Z.eqb_spec w 0) as [|_]; [done|].
  k_run; done.
Qed.

Lemma release_awaits w key i c d k : 0 <= k < 20 ->
  keeps (fun s t => awaits w key i c s t /\ flDigits s = d) (processKeyRelease k false).
Proof.
  intros Hk. unfold processKeyRelease, emitters_release. apply keeps_mark; [done|by intros s t [[] _]| |].
  - intros l s t Hl [(_ & H) Hd]. by split; [split|].
  - by keeps_run.
Qed.

(** A letter that is still pending when an edit ends is entered by the timer into the
    widget that is edited next, in lower case, even if that one takes digits only. *)
Theorem pending_letter_strays f key n r q q' w s t :
  typing false f (Some (key, n)) s -> key <= KEY_9 -> w <> 0 ->
  wp (stopEdit r;; startEdit q w;; timerEvent toLower q') (fun _ s' t' =>
    committed t' = committed t ++ [letter toLower false key n] /\ 
    Commit w (letter toLower false key n) ∈ t' /\ 
    editor s' = w /\ flDigits s' = digits_property q w) s t.
Proof.
  intros [Hl He _ _ (Hk & Hcur & Hn & Hi)] H9 Hw. destruct (symbols_eq key Hk) as [Hsyms Hlen].
  apply k_bind. eapply k_mono; [by eapply stopEdit_awaits|]. cbn beta. intros _ s1 t1 H1.
  apply k_bind. eapply k_mono; [by eapply startEdit_awaits|]. cbn beta. intros _ s2 t2 [H2 Hd].
  unfold timerEvent, setLabelText. do 6 (k_step; cbn beta zeta). apply k_bind.
  eapply k_mono; [apply (keeps_held (fun s' t' =>
    awaits w key (Z.of_nat (n mod length (symbols key))) (committed t) s' t' /\ 
    flDigits s' = digits_property q w))|].
  - by intros s' t' [[] _].
  - intros. by apply release_awaits.
  - by destruct H2.
  - cbn beta. intros _ s3 t3 [(Hl3 & He3 & Hf3 & Hk3 & Hi3 & Hc3) Hd3]. do 6 k_step.
    rewrite He3, Hk3, Hi3. unfold c_true. destruct (Z.eqb_spec w 0); [done|].
    destruct (Z.leb_spec key KEY_9); [|lia]. cbn [negb andb when]. apply k_bind, k_bind.
    eapply wp_need; [done|]. apply k_bind.
    destruct (lookup_lt_is_Some_2 (symbols key) (n mod length (symbols key))) as [x Hx].
    { apply Nat.mod_upper_bound. lia. }
    apply (wp_need _ x); [rewrite zget_lookup by lia; by rewrite Nat2Z.id|].
    k_step. k_step. rewrite Hf3. unfold letter. rewrite nth_lookup, Hx. cbn [from_option id].
    k_run; cbn [committed]; rewrite Hc3; (split_and!; [done| |done|done]); set_solver.
Qed.
End stray.

(** ** Concrete runs *)
(** Twice on 2 and a pause, 2 and 5 and a pause: the second 2 is lost. *)
Definition demo_taps : list tap :=
  [Tap demo_qt 2 false; Lift 2; Tap demo_qt 2 false; Lift 2; Pause demo_qt;
   Tap demo_qt 2 false; Tap demo_qt 5 false; Pause demo_qt].
Lemma keys_type_witness :
  wp (for_each (run_tap demo_lower) demo_taps) (fun _ _ t1 => committed t1 = [[1072]; [53]])
    (editing false 19 0 0) [] /\ 
  wp (for_each (run_tap demo_lower) demo_taps)
    (fun _ _ t1 => committed t1 = [[50]; [50]; [50]; [53]]) (editing true 19 0 0) [].
Proof.
  assert (Forall tap_ok demo_taps) as H by (repeat constructor; vm_compute; congruence).
  split.
  - exact (proj1 (keys_type demo_lower false demo_taps None (editing false 19 0 0) new_keys [] [] H)
      ltac:(by split)).
  - exact (proj2 (keys_type demo_lower false demo_taps None new_keys (editing true 19 0 0) [] [] H)
      ltac:(by split)).
Defined.

Lemma pending_letter_strays_witness :
  wp (stopEdit true;; startEdit demo_qt 4;; timerEvent demo_lower demo_qt) (fun _ s' t' =>
    committed t' = [[1072]] /\ Commit 4 [1072] ∈ t' /\ editor s' = 4 /\ flDigits s' = true)
    (editing false 2 5 1) [].
Proof.
  apply (pending_letter_strays demo_lower false 2 1 true demo_qt demo_qt 4 (editing false 2 5 1) []);
    [|vm_compute; congruence|done].
  by split.
Defined.
