(* ===== verification/KeysSession.v ===== *)
(** * Edit sessions

    [startEdit], [stopEdit] and [setEditButtons] of [KeysManager.cpp]: which widget may
    be written and which buttons are shown, under every sequence of events. *)
From stdpp Require Import gmap.
From S2P Require Import Prelude.
From S2P Require Import KeysManager.
From stdpp Require Import options.
#[local] Open Scope Z_scope.

(** What the log leaves of a widget and of a button; a button is taken to be visible
    until it is told otherwise. *)
Fixpoint writable (w : Z) (t : list out) : bool :=
  match t with
  | [] => false
  | SetReadOnly w' fl :: t' => if w' =? w then negb fl else writable w t'
  | _ :: t' => writable w t'
  end.
Fixpoint shown (b : Z) (t : list out) : bool :=
  match t with
  | [] => true
  | SetVisible b' fl :: t' => if b' =? b then fl else shown b t'
  | _ :: t' => shown b t'
  end.

(** A program keeps [P] if nothing fails. *)
Definition stays {A} (P : keys -> list out -> Prop) (m : K A) : Prop :=
  forall s t, P s t -> match m s t with Some (_, s', t') => P s' t' | None => True end.
Lemma stays_keeps {A} P (m : K A) : keeps P m -> stays P m.
Proof. intros Hm s t HP. specialize (Hm s t HP). unfold wp in Hm. by destruct (m s t) as [[[a s'] t']|]. Qed.
Lemma stays_bind {A B} P (m : K A) (f : A -> K B) : stays P m -> (forall a, stays P (f a)) -> stays P (m ≫= f).
Proof.
  intros Hm Hf s t HP. specialize (Hm s t HP). unfold mbind, K_bind.
  destruct (m s t) as [[[a s'] t']|]; [by apply Hf|done].
Qed.
Lemma stays_need {A} P (x : option A) : stays P (need x).
Proof. intros s t HP. unfold need. by destruct x. Qed.
Lemma stays_when P b m : stays P m -> stays P (when b m).
Proof. destruct b; [done|]. by intros _ s t. Qed.
Lemma stays_for_each {A} P (f : A -> K unit) l : (forall x, stays P (f x)) -> stays P (for_each f l).
Proof. intros Hf. induction l as [|x l IH]; cbn [for_each]; [by intros s t|]. by apply stays_bind. Qed.

Ltac stays_step :=
  lazymatch goal with
  | |- stays _ (mbind _ _) => apply stays_bind; [|intros ?]
  | |- stays _ (need _) => apply stays_need
  | |- stays _ (when _ _) => apply stays_when
  | |- stays _ (for_each _ _) => apply stays_for_each; intros ?
  | |- stays _ (if ?b then _ else _) => destruct b eqn:?
  | |- stays _ (stopEdit _) => fail
  | |- stays _ _ => apply stays_keeps; keeps_step
  end; cbn beta zeta.
Ltac stays_run := repeat stays_step.

Section session.
Context `{HW : Widgets} (toLower : list Z -> list Z) (KeyCodes : list Z).
#[local] Set Default Proof Using "Type*".

Definition always_used (b : edit_buttons) (x : Z) : Prop := x = ok b \/ x = cancel b \/ x = shift b.
Record session (s : keys) (t : list out) : Prop := {
  se_writable w : w <> 0 -> writable w t = (editor s =? w) && is_editable w;
  se_shown x : x ∈ array (editButtons s) -> x <> 0 -> shown x t = true ->
    editor s <> 0 /\ (always_used (editButtons s) x \/ is_spinbox (editor s) = true);
}.

(** Steps by what they do to the log. *)
Lemma wp_visible (b : Z) fl (Q : unit -> keys -> list out -> Prop) s t :
  (forall t', (forall x, x <> 0 -> shown x t' = if b =? x then fl else shown x t) ->
     (forall w, writable w t' = writable w t) -> Q tt s t') ->
  wp (when (c_true b) (perform (SetVisible b fl))) Q s t.
Proof.
  intros HQ. unfold c_true. destruct (Z.eqb_spec b 0) as [->|Hb]; cbn [negb when].
  - apply k_ret, HQ; [|done]. intros x Hx. destruct (Z.eqb_spec 0 x); [congruence|done].
  - by apply wp_perform, HQ.
Qed.
Lemma wp_readonly w fl (Q : unit -> keys -> list out -> Prop) s t :
  (forall t', (forall x, shown x t' = shown x t) ->
     (forall w', writable w' t' = if (w =? w') && is_editable w' then negb fl else writable w' t) -> Q tt s t') ->
  wp (setEditorReadOnly w fl) Q s t.
Proof.
  intros HQ. unfold setEditorReadOnly. destruct (is_editable w) eqn:E; cbn [when].
  - apply wp_perform, HQ; [done|]. intros w'. cbn [writable]. destruct (Z.eqb_spec w w') as [<-|]; [by rewrite E|done].
  - apply k_ret, HQ; [done|]. intros w'. destruct (Z.eqb_spec w w') as [<-|]; [by rewrite E|done].
Qed.

(** Calls that the log does not look at. *)
Definition silent (o : out) : bool :=
  match o with SetReadOnly _ _ | SetVisible _ _ => false | _ => true end.
Lemma wp_silent b o (Q : unit -> keys -> list out -> Prop) s t : silent o = true ->
  (forall t', (forall x, shown x t' = shown x t) -> (forall w, writable w t' = writable w t) -> Q tt s t') ->
  wp (when b (perform o)) Q s t.
Proof. intros Ho HQ. destruct b; [apply wp_perform|apply k_ret]; apply HQ; by destruct o. Qed.

(** A button that is shown or hidden together with its connection. *)
Lemma wp_visible_then (b : Z) fl m (Q : unit -> keys -> list out -> Prop) s t :
  (forall t0 (Q' : unit -> keys -> list out -> Prop),
     (forall t', (forall x, shown x t' = shown x t0) -> (forall w, writable w t' = writable w t0) -> Q' tt s t') ->
     wp m Q' s t0) ->
  (forall t', (forall x, x <> 0 -> shown x t' = if b =? x then fl else shown x t) ->
     (forall w, writable w t' = writable w t) -> Q tt s t') ->
  wp (when (c_true b) (perform (SetVisible b fl);; m)) Q s t.
Proof.
  intros Hm HQ. unfold c_true. destruct (Z.eqb_spec b 0) as [->|Hb]; cbn [negb when].
  - apply k_ret, HQ; [|done]. intros x Hx. destruct (Z.eqb_spec 0 x); [congruence|done].
  - apply k_bind, wp_perform, Hm. intros t' Hsh Hwr. apply HQ; [|done]. intros x Hx. by rewrite Hsh.
Qed.

Ltac follow :=
  repeat lazymatch goal with
  | |- wp (mbind _ _) _ _ _ => apply k_bind
  | |- wp (mret _) _ _ _ => apply k_ret
  | |- wp (gets _) _ _ _ => apply k_gets
  | |- wp (modify _) _ _ _ => apply k_modify
  | |- wp (when (c_true _) (perform (SetVisible _ _))) _ _ _ => apply wp_visible; intros ? ? ?
  | |- wp (when (c_true _) (perform (SetVisible _ _);; _)) _ _ _ =>
      apply wp_visible_then;
      [intros ? ? HQ; (apply wp_silent || apply (wp_silent true)); [done|exact HQ]|intros ? ? ?]
  | |- wp (when _ (perform _)) _ _ _ => apply wp_silent; [done|intros ? ? ?]
  | |- wp (perform ?o) _ _ _ => change (perform o) with (when true (perform o))
  | |- wp (setEditorReadOnly _ _) _ _ _ => apply wp_readonly; intros ? ? ?
  end; cbn beta zeta.

(** Rewrites with the facts that [follow] collects. *)
Ltac log_facts :=
  repeat match goal with
  | H : forall x, x <> 0 -> shown x ?t = @?f x |- context [shown ?y ?t] => rewrite (H y) by done
  | H : forall x, shown x ?t = @?f x |- context [shown ?y ?t] => rewrite (H y)
  | H : forall w, writable w ?t = @?f w |- context [writable ?v ?t] => rewrite (H v)
  end.

Lemma spinbox_cast w : w <> 0 -> c_true (qobject_cast w) = is_spinbox w.
Proof.
  intros Hw. unfold qobject_cast, c_true. destruct (Z.eqb_spec w 0); [done|]. cbn [negb andb].
  destruct (is_spinbox w); [|done]. by destruct (Z.eqb_spec w 0).
Qed.

Lemma array_elem b x : x ∈ array b ->
  x = ok b \/ x = cancel b \/ x = shift b \/ x = up b \/ x = down b.
Proof.
  unfold array. rewrite !elem_of_cons, elem_of_nil. intros [?|[?|[?|[?|[?|[]]]]]]; auto 6.
Qed.

Lemma stopEdit_session r : keeps session (stopEdit r).
Proof.
  intros s t [Hw Hs]. unfold stopEdit, setShift. follow. cbn [set_shift editButtons editor].
  destruct (Z.eqb_spec (editor s) 0) as [He|He].
  - follow. split.
    + intros w Hw0. log_facts. by apply Hw.
    + intros x Hx Hx0. log_facts. intros Hsh. apply Hs; [done|done|]. by repeat case_match.
  - rewrite spinbox_cast by done. apply k_bind.
    eapply (k_mono _ (fun _ s' t' => s' = set_shift false s /\ 
      (forall w, writable w t' = writable w t) /\ 
      forall x, x ∈ array (editButtons s) -> x <> 0 -> shown x t' = false)).
    + destruct (is_spinbox (editor s)) eqn:Esp; cbn [when].
      * follow. split_and!; [done|intros w; by log_facts|]. intros x Hx Hx0. log_facts.
        apply array_elem in Hx as [->|[->|[->|[->| ->]]]]; rewrite ?Z.eqb_refl; by repeat case_match.
      * apply k_ret. split_and!; [done|intros w; by log_facts|]. intros x Hx Hx0.
        apply not_true_is_false. log_facts. intros Hsh.
        destruct (Hs x Hx Hx0) as (_ & [Hu|?]); [by repeat case_match| |congruence].
        unfold always_used in Hu. destruct Hu as [->|[->| ->]]; rewrite Z.eqb_refl in Hsh; by repeat case_match.
    + cbn beta. intros _ s1 t1 (-> & Hwr & Hsh). follow. split.
      * intros w Hw0. log_facts. cbn [set_editor editor]. rewrite Hw by done.
        destruct (Z.eqb_spec 0 w); [done|]. cbn [andb negb]. by destruct (editor s =? w), (is_editable _).
      * intros x Hx Hx0. log_facts. cbn [set_editor set_shift editButtons] in Hx. by rewrite Hsh.
Qed.

Lemma startEdit_session q w : keeps session (startEdit q w).
Proof.
  intros s t H. destruct H as [Hw Hs]. unfold startEdit, setShift, setLabelText. follow.
  unfold c_true at 1. destruct (Z.eqb_spec (editor s) 0) as [He|He]; cbn [negb]; [|by apply k_ret].
  follow. set (w' := if c_true w then w else focusWidget q).
  destruct (Z.eqb_spec w' 0) as [Hw'|Hw'].
  - follow. split.
    + intros v Hv. log_facts. by apply Hw.
    + intros x Hx Hx0. log_facts. by apply Hs.
  - rewrite spinbox_cast by done. follow. split.
    + intros v Hv. log_facts. cbn [set_editor editor]. rewrite Hw by done. rewrite He.
      destruct (Z.eqb_spec 0 v); [done|]. destruct (Z.eqb_spec w' v) as [<-|]; [|done]. by destruct (is_editable w').
    + intros x Hx Hx0. log_facts. cbn [set_editor set_digits set_shift editor editButtons] in *. intros Hsh.
      split; [done|]. destruct (is_spinbox w'); [by right|left].
      apply array_elem in Hx as Hx'. unfold always_used.
      destruct Hx' as [->|[->|[->|[->| ->]]]]; auto; rewrite ?Z.eqb_refl in Hsh;
        repeat case_match; try done; auto.
Qed.

Lemma setEditButtons_session b : keeps session (setEditButtons b).
Proof.
  intros s t H. unfold setEditButtons, resetEditButtons.
  apply k_bind, k_bind, k_gets, k_bind.
  eapply k_mono; [apply (k_for_each _ _ (fun s' t' => s' = s /\ session s t')); [|done]|].
  { intros x s' t' _ [-> []]. destruct (c_true x); by split. }
  cbn beta. intros _ s1 t1 [-> [Hw Hs]]. apply k_modify. follow. cbn [for_each array]. follow.
  split.
  - intros w Hw0. log_facts. by apply Hw.
  - intros x Hx Hx0. log_facts. cbn [set_buttons editButtons] in Hx.
    apply array_elem in Hx as [->|[->|[->|[->| ->]]]]; rewrite ?Z.eqb_refl; by repeat case_match.
Qed.

Ltac same_session := keeps_run; intros s t []; by split.

Lemma release_session key autorepeat : stays session (processKeyRelease key autorepeat).
Proof. unfold processKeyRelease, emitters_release. stays_run; intros s t []; by split. Qed.
Lemma alpha_session q key : stays session (processAlphaKey toLower q key).
Proof. unfold processAlphaKey, setLabelText. stays_run; intros s t []; by split. Qed.
Lemma press_session q key autorepeat : stays session (processKeyPress toLower q key autorepeat).
Proof.
  unfold processKeyPress, doToggleShift, emitters.
  stays_run; first [apply alpha_session|apply stays_keeps, stopEdit_session|intros s t []; by split].
Qed.
Lemma timer_session q : stays session (timerEvent toLower q).
Proof.
  unfold timerEvent, setLabelText. stays_run; first [apply release_session|intros s t []; by split].
Qed.

Lemma handle_session ev : stays session (handle toLower KeyCodes ev).
Proof.
  destruct ev as [q press code autorepeat|q|q w|r|fl| |b|idx btn]; cbn [handle].
  - unfold processKeyEvent. stays_run; first [apply press_session|apply release_session].
  - apply timer_session.
  - apply stays_keeps, startEdit_session.
  - apply stays_keeps, stopEdit_session.
  - unfold setShift. stays_run; intros s t []; by split.
  - unfold doToggleShift. stays_run; intros s t []; by split.
  - apply stays_keeps, setEditButtons_session.
  - unfold setSlaveButton. stays_run; intros s t []; by split.
Qed.

(** C30: after any sequence of events the widget that is edited, if it is of a class that can
    be, is the only one that may be written; and while nothing is edited every edit
    button is hidden. *)
Theorem only_editor_writable evs :
  Forall event_ok evs ->
  exists s t, run_events toLower KeyCodes evs new_keys [] = Some (tt, s, t) /\ 
    (forall w, w <> 0 -> writable w t = (editor s =? w) && is_editable w) /\ 
    (editor s = 0 -> forall x, x ∈ array (editButtons s) -> x <> 0 -> shown x t = false).
Proof.
  intros Hevs. assert (wp (run_events toLower KeyCodes evs) (fun _ s (_ : list out) => keys_ok s) new_keys []) as H.
  { apply keeps_for_each; [|apply new_keys_ok]. intros ev Hin. apply handle_ok.
    by apply (proj1 (Forall_forall _ _) Hevs). }
  assert (session new_keys []) as H0.
  { split.
    - intros w Hw. change (false = (0 =? w) && is_editable w). by destruct (Z.eqb_spec 0 w).
    - intros x Hx Hx0. by apply array_elem in Hx as [->|[->|[->|[->| ->]]]]. }
  pose proof (stays_for_each _ _ evs handle_session new_keys [] H0) as H1. unfold run_events in *.
  unfold wp in H. destruct (for_each _ evs new_keys []) as [[[[] s] t]|]; [|done].
  exists s, t. destruct H1 as [Hw Hs]. split_and!; [done|done|].
  intros He x Hx Hx0. apply not_true_is_false. intros Hsh. by destruct (Hs x Hx Hx0 Hsh).
Qed.
End session.

(** ** A concrete run *)
Lemma only_editor_writable_witness : exists s t,
  run_events demo_lower demo_codes
    [SetEditButtons (EditButtons 31 32 33 34 35); StartEdit demo_qt 5; Key demo_qt true 112 false;
     StartEdit demo_qt 3] new_keys [] = Some (tt, s, t) /\ 
  (forall w, w <> 0 -> writable w t = (editor s =? w) && is_editable w) /\ 
  (editor s = 0 -> forall x, x ∈ array (editButtons s) -> x <> 0 -> shown x t = false).
Proof. apply (only_editor_writable demo_lower demo_codes). by repeat constructor. Defined.

