(* ===== verification/KeysWindow.v ===== *)
(** * The window around the key handling

    [MainWindow.cpp], [KbdWidget.cpp] and [KeyDialog.cpp] of [qt/qkeywin] with the rest of
    [KeysManager.cpp]: the registry of managers, the event filter, and the slots that
    the window, its page of buttons and its dialog connect to the signals.  A signal
    runs its slots where it is emitted; here they run in the same order after the
    handler that emits it, which no slot can tell: none of them reads what the handler
    sets after the signal, and the shift button only sets again what was set.  What a
    run leaves for the buttons to animate is kept in [clicks], newest first. *)
From S2P Require Import Prelude.
From stdpp Require Import gmap.
From S2P Require Import KeysManager.
From S2P Require Import KeysSession.
From stdpp Require Import strings sorting.
From stdpp Require Import options.
#[local] Open Scope Z_scope.

(** ** The registry *)

(** [watched] maps a live widget to its manager; a manager is known by the order it was
    made in.  [filters] are the event filters installed, newest first. *)
Record registry := Registry {
  watched : gmap Z Z;
  made : Z;
  filters : list (Z * Z);
}.

(** [KeysManager::get] with the constructor; widgets live as long as the program, so
    [watched.remove (nullptr)] finds nothing. *)
Definition get (w : Z) (r : registry) : option (Z * registry) :=
  if w =? 0 then None
  else
    let wd := delete 0 (watched r) in
    match wd !! w with
    | Some k => Some (k, Registry wd (made r) (filters r))
    | None => Some (made r, Registry (<[w := made r]> wd) (made r + 1) ((w, made r) :: filters r))
    end.

(** ** The window *)
Record ui := Ui {
  lineEdit : Z; textEdit : Z; lineEditDigits : Z; spinBox : Z; pushButton : Z;
  btnOK : Z; btnCancel : Z; btnShift : Z; btnUp : Z; btnDown : Z;
  labelSymbols : Z;
  pageMain : Z; pageEdit : Z;
  btn_N : list (string * Z);     (** the buttons found by "btn_N", with their names *)
}.

Record window := Win {
  keyb : keys;
  label : Z;
  page : Z;                      (** the current widget of [stackedWidget] *)
  checkBox : bool;
  shift_checked : bool;
  clicks : list Z;
  dialog_keys : keys;            (** of the manager of the dialog *)
  dialog_open : bool;
  results : list Z;              (** of the dialog, newest first *)
}.
Definition set_keyb x w := Win x (label w) (page w) (checkBox w) (shift_checked w) (clicks w)
  (dialog_keys w) (dialog_open w) (results w).
Definition set_label x w := Win (keyb w) x (page w) (checkBox w) (shift_checked w) (clicks w)
  (dialog_keys w) (dialog_open w) (results w).
Definition set_page x w := Win (keyb w) (label w) x (checkBox w) (shift_checked w) (clicks w)
  (dialog_keys w) (dialog_open w) (results w).
Definition set_checkBox x w := Win (keyb w) (label w) (page w) x (shift_checked w) (clicks w)
  (dialog_keys w) (dialog_open w) (results w).
Definition set_shift_checked x w := Win (keyb w) (label w) (page w) (checkBox w) x (clicks w)
  (dialog_keys w) (dialog_open w) (results w).
Definition animateClick b w := Win (keyb w) (label w) (page w) (checkBox w) (shift_checked w)
  (b :: clicks w) (dialog_keys w) (dialog_open w) (results w).
Definition set_dialog k open rs w := Win (keyb w) (label w) (page w) (checkBox w)
  (shift_checked w) (clicks w) k open rs.

(** An event as [eventFilter] sees it. *)
Inductive qevent :=
  | MouseMove | Paint | HoverMove | UpdateRequest | ShortcutOverride
  | KeyPress (code : Z) (autorepeat : bool) | KeyRelease (code : Z) (autorepeat : bool)
  | OtherEvent.

Section code.
Context `{HW : Widgets} (toLower : list Z -> list Z) (KeyCodes : list Z) (u : ui).

(** The rest of [KeysManager]. *)
Definition stopEditOK : K unit := stopEdit true.
Definition stopEditCancel : K unit := stopEdit false.
Definition isSpinBox : K bool := e ← gets editor; mret (c_true (qobject_cast e)).
Definition isDigits : K bool := gets flDigits.
Definition setLabel (l : Z) (w : window) : window := set_label l w.

(** No event is kept from the widget: [QObject::eventFilter] answers [false]. *)
Definition eventFilter (q : qt) (ev : qevent) : K bool :=
  match ev with
  | KeyPress code autorepeat => processKeyEvent toLower KeyCodes q true code autorepeat
  | KeyRelease code autorepeat => processKeyEvent toLower KeyCodes q false code autorepeat
  | _ => mret tt
  end;;
  mret false.

(** Slots; [call] runs a function of the manager of the window. *)
Definition onStartEdit_slot (w : window) : window := set_page (pageEdit u) w.
Definition onEditDone_slot (w : window) : window := set_page (pageMain u) w.

Definition onKeyButtonClicked (call : K unit -> window -> option window) (q : qt) (i : Z)
    (w : window) : option window :=
  if i =? KEY_K1 then call (startEdit q (lineEdit u)) w
  else if i =? KEY_K2 then call (startEdit q (textEdit u)) w
  else if i =? KEY_K3 then call (startEdit q (lineEditDigits u)) w
  else if i =? KEY_K4 then call (startEdit q (spinBox u)) (set_checkBox (negb (checkBox w)) w)
  else if i =? KEY_K5 then Some (animateClick (pushButton u) w)
  else Some w.

(** [setChecked]: [toggled] is emitted when the state changes. *)
Definition setChecked (call : K unit -> window -> option window) (fl : bool) (w : window) :
    option window :=
  if Bool.eqb (shift_checked w) fl then Some w
  else call (setShift fl) (set_shift_checked fl w).

Definition react (call : K unit -> window -> option window) (q : qt) (o : out) (w : window) :
    option window :=
  match o with
  | Emit (onKey i) => onKeyButtonClicked call q i w
  | Emit (onStartEdit _) => Some (onStartEdit_slot w)
  | Emit (onEditDone _ _) => Some (onEditDone_slot w)
  | Emit (onShift fl) => setChecked call fl w
  | AnimateClick b => Some (animateClick b w)
  | _ => Some w
  end.
Definition react_all call q (outs : list out) (w : window) : option window :=
  foldl (fun ow o => ow ≫= react call q o) (Some w) outs.

(** A call of the manager and the slots that it reaches; [fuel] bounds how deep slots
    call the manager again. *)
Fixpoint run (fuel : nat) (q : qt) (m : K unit) (w : window) : option window :=
  match fuel with
  | O => None
  | S fuel' =>
      match m (keyb w) [] with
      | Some (_, k, t) => react_all (run fuel' q) q (rev t) (set_keyb k w)
      | None => None
      end
  end.
Definition FUEL : nat := 4.

(** ** The constructors *)

(** [std::sort] by [objectName]. *)
Definition name_le (a b : string * Z) : Prop := String.leb (fst a) (fst b) = true.
#[global] Instance name_le_dec : RelDecision name_le.
Proof. intros a b. unfold name_le. apply _. Defined.
Definition kbtns : list Z := map snd (merge_sort name_le (btn_N u)).

Definition edit_page : edit_buttons :=
  EditButtons (btnOK u) (btnCancel u) (btnShift u) (btnUp u) (btnDown u).

(** [KbdWidget::KbdWidget]. *)
Definition KbdWidget (q : qt) (w : window) : option window :=
  run FUEL q (setEditButtons edit_page) (setLabel (labelSymbols u) (set_page (pageMain u) w)).

Fixpoint setSlaveButtons (q : qt) (i : Z) (bs : list Z) (w : window) : option window :=
  match bs with
  | [] => Some w
  | b :: bs' => run FUEL q (setSlaveButton i b) w ≫= setSlaveButtons q (i + 1) bs'
  end.

(** [MainWindow::MainWindow], with the managers it gets. *)
Definition MainWindow (q : qt) : option window :=
  KbdWidget q (Win new_keys 0 0 false false [] new_keys false []) ≫= setSlaveButtons q 0 kbtns.

(** ** Events *)
Inductive wevent :=
  | W_event (q : qt) (ev : qevent)        (** an event of the window, through the filter *)
  | W_timer (q : qt)
  | W_clicked (q : qt) (b : Z)            (** a button was clicked, or its animation ended *)
  | W_dialog (q : qt) (ev : qevent)       (** an event of the dialog *)
  | W_dialog_timer (q : qt).

(** The slots of the dialog: [accept] and [reject] end [exec]. *)
Definition dialog_slot (o : out) (w : window) : window :=
  match o with
  | Emit (onKey_ key) =>
      if negb (dialog_open w) then w
      else if key =? KEY_K1 then set_dialog (dialog_keys w) false (1 :: results w) w
      else if key =? KEY_K2 then set_dialog (dialog_keys w) false (0 :: results w) w
      else w
  | _ => w
  end.
Definition dialog_run (m : K unit) (w : window) : option window :=
  match m (dialog_keys w) [] with
  | Some (_, k, t) =>
      Some (foldl (fun w o => dialog_slot o w) (set_dialog k (dialog_open w) (results w) w) (rev t))
  | None => None
  end.

Definition whandle (ev : wevent) (w : window) : option window :=
  match ev with
  | W_event q ev => run FUEL q (eventFilter q ev;; mret tt) w
  | W_timer q => run FUEL q (timerEvent toLower q) w
  | W_clicked q b =>
      if b =? btnOK u then run FUEL q stopEditOK w
      else if b =? btnCancel u then run FUEL q stopEditCancel w
      else if b =? btnShift u then setChecked (run FUEL q) (negb (shift_checked w)) w
      else if b =? pushButton u then Some (set_dialog (dialog_keys w) true (results w) w)
      else Some w
  | W_dialog q ev => dialog_run (eventFilter q ev;; mret tt) w
  | W_dialog_timer q => dialog_run (timerEvent toLower q) w
  end.
Definition wrun (evs : list wevent) (w : window) : option window :=
  foldl (fun ow ev => ow ≫= whandle ev) (Some w) evs.
End code.

(** ** The window as a machine of two modes *)

(** Nothing is edited, or a widget is; [animating] are the buttons clicked by keys. *)
Record wspec := Spec {
  editing : Z;
  digits : bool;
  shifted : bool;
  checked : bool;
  animating : list Z;
  dialog : bool;
  outcomes : list Z;
}.
Definition view (w : window) : wspec :=
  Spec (editor (keyb w)) (flDigits (keyb w)) (flShift (keyb w)) (checkBox w) (clicks w)
    (dialog_open w) (results w).

Section spec.
Context (KeyCodes : list Z) (u : ui).

Definition spec_shift fl v := Spec (editing v) (digits v) fl (checked v) (animating v)
  (dialog v) (outcomes v).
Definition spec_check v := Spec (editing v) (digits v) (shifted v) (negb (checked v))
  (animating v) (dialog v) (outcomes v).
Definition spec_animate b v := Spec (editing v) (digits v) (shifted v) (checked v)
  (b :: animating v) (dialog v) (outcomes v).
Definition spec_dialog open rs v := Spec (editing v) (digits v) (shifted v) (checked v)
  (animating v) open rs.
Definition spec_stop v := Spec 0 (digits v) false (checked v) (animating v) (dialog v) (outcomes v).
Definition spec_start (q : qt) (x : Z) v :=
  if editing v =? 0 then Spec x (digits_property q x) false (checked v) (animating v) (dialog v)
    (outcomes v)
  else v.

(** The five function keys while nothing is edited. *)
Definition spec_key (q : qt) (key : Z) (v : wspec) : wspec :=
  if key =? KEY_K1 then spec_start q (lineEdit u) v
  else if key =? KEY_K2 then spec_start q (textEdit u) v
  else if key =? KEY_K3 then spec_start q (lineEditDigits u) v
  else if key =? KEY_K4 then spec_start q (spinBox u) (spec_check v)
  else if key =? KEY_K5 then spec_animate (pushButton u) v
  else v.

(** Any key then: the button with its number if there is one that can be clicked. *)
Definition spec_main (q : qt) (key : Z) (v : wspec) : wspec :=
  let btn := default 0 (zget (kbtns u) key) in
  if c_true btn && clickable q btn then spec_animate btn v else spec_key q key v.

(** And while a widget is: OK, cancel, shift; letters leave the mode alone. *)
Definition spec_editing (key : Z) (v : wspec) : wspec :=
  if (key =? KEY_K1) || (key =? KEY_K2) then spec_stop v
  else if (key =? KEY_K3) && negb (digits v) then spec_shift (negb (shifted v)) v
  else v.

Definition key_of (code : Z) : Z := default KEY_UNKNOWN (KeysCodeIdx KeyCodes !! code).

Definition spec_press (q : qt) (key : Z) (rep : bool) (v : wspec) : wspec :=
  if rep then v
  else if c_true (editing v) && (key <=? KEY_K5) then spec_editing key v
  else spec_main q key v.

Definition spec_event (ev : wevent) (v : wspec) : wspec :=
  match ev with
  | W_event q (KeyPress code rep) =>
      if key_of code <? KEY_UNKNOWN then spec_press q (key_of code) rep v else v
  | W_clicked q b =>
      if (b =? btnOK u) || (b =? btnCancel u) then spec_stop v
      else if b =? btnShift u then spec_shift (negb (shifted v)) v
      else if b =? pushButton u then spec_dialog true (outcomes v) v
      else v
  | W_dialog q (KeyPress code rep) =>
      if dialog v && negb rep then
        if key_of code =? KEY_K1 then spec_dialog false (1 :: outcomes v) v
        else if key_of code =? KEY_K2 then spec_dialog false (0 :: outcomes v) v
        else v
      else v
  | _ => v
  end.
Definition spec_run (evs : list wevent) (v : wspec) : wspec :=
  foldl (fun v ev => spec_event ev v) v evs.
End spec.

(** ** What the slots hear *)
Definition reacts (o : out) : bool :=
  match o with
  | Emit (onKey _) | Emit (onKey_ _) | Emit (onStartEdit _) | Emit (onEditDone _ _) | Emit (onShift _)
  | AnimateClick _ => true
  | _ => false
  end.
Definition heard (t : list out) : list out := List.filter reacts t.

(** The members that decide what the window does. *)
Definition signature : Type := Z * bool * bool * edit_buttons * gmap Z Z.
Definition sig (s : keys) : signature :=
  (editor s, flShift s, flDigits s, editButtons s, slaveButtons s).
Definition at_sig (v : signature) (h : list out) (s : keys) (t : list out) :
  Prop := sig s = v /\ heard t = h.

Section slots.
Context `{HW : Widgets} (toLower : list Z -> list Z) (KeyCodes : list Z) (u : ui).
#[local] Set Default Proof Using "Type*".

Lemma react_deaf call q o w : reacts o = false -> react u call q o w = Some w.
Proof. by destruct o as [[]| | | | | | | | | | | | | |]. Qed.

Lemma react_all_None call q outs :
  foldl (fun ow o => ow ≫= react u call q o) None outs = None.
Proof. by induction outs. Qed.
Lemma react_all_cons call q o outs w :
  react_all u call q (o :: outs) w = react u call q o w ≫= react_all u call q outs.
Proof.
  unfold react_all. cbn [foldl mbind option_bind].
  destruct (react u call q o w); cbn [mbind option_bind]; [done|apply react_all_None].
Qed.

Lemma react_all_heard call q outs w :
  react_all u call q outs w = react_all u call q (List.filter reacts outs) w.
Proof.
  revert w. induction outs as [|o outs IH]; intros w; [done|]. cbn [List.filter].
  destruct (reacts o) eqn:E; rewrite !react_all_cons.
  - destruct (react u call q o w); cbn [mbind option_bind]; [apply IH|done].
  - rewrite react_deaf by done. cbn [mbind option_bind]. apply IH.
Qed.

Lemma run_heard f q m w a k t : m (keyb w) [] = Some (a, k, t) ->
  run u (S f) q m w = react_all u (run u f q) q (rev (heard t)) (set_keyb k w).
Proof.
  intros Hm. cbn [run]. rewrite Hm. rewrite react_all_heard. unfold heard.
  by rewrite filter_rev.
Qed.

(** *** Handlers by what is heard of them *)
Lemma wp_deaf_when b o (Q : unit -> keys -> list out -> Prop) s t : reacts o = false ->
  (forall t', heard t' = heard t -> Q tt s t') -> wp (when b (perform o)) Q s t.
Proof.
  intros Ho HQ. destruct b; [apply wp_perform|apply k_ret]; apply HQ; [|done].
  unfold heard. cbn. by rewrite Ho.
Qed.
Lemma wp_deaf_then b (m : K unit) (Q : unit -> keys -> list out -> Prop) s t :
  (forall s0 t0 (Q' : unit -> keys -> list out -> Prop),
     (forall t', heard t' = heard t0 -> Q' tt s0 t') -> wp m Q' s0 t0) ->
  (forall t', heard t' = heard t -> Q tt s t') -> wp (when b m) Q s t.
Proof. intros Hm HQ. destruct b; [by apply Hm|by apply HQ]. Qed.

Ltac listen :=
  repeat lazymatch goal with
  | |- wp (mbind _ _) _ _ _ => apply k_bind
  | |- wp (mret _) _ _ _ => apply k_ret
  | |- wp (gets _) _ _ _ => apply k_gets
  | |- wp (modify _) _ _ _ => apply k_modify
  | |- wp (perform (Emit (onShift _))) _ _ _ => apply wp_perform
  | |- wp (perform (Emit (onStartEdit _))) _ _ _ => apply wp_perform
  | |- wp (perform (Emit (onEditDone _ _))) _ _ _ => apply wp_perform
  | |- wp (perform ?o) _ _ _ => change (perform o) with (when true (perform o))
  | |- wp (when _ (perform _)) _ _ _ => apply wp_deaf_when; [done || by case_match|intros ? ?]
  | |- wp (when _ _) _ _ _ => apply wp_deaf_then; [intros ? ? ? ?|intros ? ?]
  | H : forall t', heard t' = heard ?t0 -> ?Q tt ?s t' |- ?Q tt ?s _ => apply H; congruence
  end; cbn beta zeta.

Lemma stopEdit_heard r s t : heard t = [] ->
  wp (stopEdit r) (fun _ => at_sig (0, false, flDigits s, editButtons s, slaveButtons s)
    (if editor s =? 0 then [Emit (onShift false)]
     else [Emit (onEditDone (editor s) r); Emit (onShift false)])) s t.
Proof.
  intros Ht. unfold at_sig, stopEdit, setShift, setEditorReadOnly. listen. k_cbn.
  destruct (Z.eqb_spec (editor s) 0) as [He|He]; listen.
  - split; [unfold sig; k_cbn; by rewrite He|]. unfold heard in *; cbn in *. congruence.
  - split; [done|]. destruct r; unfold heard in *; cbn in *; congruence.
Qed.

Lemma startEdit_heard q w s : editor s = 0 -> w <> 0 ->
  wp (startEdit q w) (fun _ => at_sig (w, false, digits_property q w, editButtons s, slaveButtons s)
    [Emit (onStartEdit w); Emit (onShift false)]) s [].
Proof.
  intros He Hw. apply Z.eqb_neq in Hw as Hw'.
  unfold at_sig, startEdit, setShift, setEditorReadOnly, setLabelText, c_true. cbv zeta.
  listen. rewrite He, Hw'. cbn [Z.eqb negb]. rewrite Hw'. listen.
  split; [done|]. unfold heard in *; cbn in *; congruence.
Qed.

Lemma startEdit_busy q w s : editor s <> 0 -> startEdit q w s [] = Some (tt, s, []).
Proof.
  intros He. unfold startEdit, c_true, mbind, K_bind, gets.
  by rewrite (proj2 (Z.eqb_neq _ _) He).
Qed.

Ltac deaf := stays_run; (intros s t [Hs Ht]; split; [by rewrite <- Hs|exact Ht]).

Lemma release_quiet v h key rep : stays (at_sig v h) (processKeyRelease key rep).
Proof. unfold processKeyRelease, emitters_release. deaf. Qed.
Lemma alpha_quiet v h q key : stays (at_sig v h) (processAlphaKey toLower q key).
Proof. unfold processAlphaKey, setLabelText. deaf. Qed.
Lemma timer_quiet v h q : stays (at_sig v h) (timerEvent toLower q).
Proof.
  unfold timerEvent, setLabelText.
  stays_run; first [apply release_quiet|intros s t [Hs Ht]; split; [by rewrite <- Hs|exact Ht]].
Qed.

Lemma wp_stays {A} (m : K A) (P : keys -> list out -> Prop) Q s t :
  wp m Q s t -> stays P m -> P s t -> wp m (fun a s' t' => Q a s' t' /\ P s' t') s t.
Proof.
  unfold wp. intros Hw Hs HP. specialize (Hs s t HP). by destruct (m s t) as [[[a s'] t']|].
Qed.

(** What a press changes of [sig] and what is heard of it. *)
Definition press_effect (q : qt) (key : Z) (rep : bool) (s : keys) :
    signature * list out :=
  if c_true (editor s) && (key <=? KEY_K5) then
    if (key <=? KEY_OK) || rep then (sig s, [])
    else if (key =? KEY_K1) || (key =? KEY_K2) then
      ((0, false, flDigits s, editButtons s, slaveButtons s),
       [Emit (onEditDone (editor s) (key =? KEY_K1)); Emit (onShift false)])
    else if (key =? KEY_K3) && negb (flDigits s) then
      ((editor s, negb (flShift s), flDigits s, editButtons s, slaveButtons s),
       [Emit (onShift (negb (flShift s)))])
    else (sig s, [])
  else if rep then (sig s, [])
  else
    let btn := default 0 (slaveButtons s !! key) in
    (sig s, if c_true btn && clickable q btn then [AnimateClick btn]
          else [Emit (onKey key); Emit (onKey_ key)]).

Lemma wp_ok {A} (m : K A) (P : keys -> list out -> Prop) s t : keys_ok s ->
  keeps (fun s _ => keys_ok s) m -> wp m (fun _ => P) s t ->
  wp m (fun _ s' t' => keys_ok s' /\ P s' t') s t.
Proof.
  intros Hs Hk Hw. specialize (Hk s t Hs). unfold wp in *.
  by destruct (m s t) as [[[a s'] t']|].
Qed.

Lemma press_heard q key rep s : keys_ok s -> 0 <= key < KEY_UNKNOWN ->
  wp (processKeyPress toLower q key rep) (fun _ s' t' =>
    keys_ok s' /\ at_sig (fst (press_effect q key rep s)) (snd (press_effect q key rep s)) s' t') s [].
Proof.
  unfold KEY_UNKNOWN. intros Hok Hk. apply wp_ok; [done|apply press_ok; lia|].
  unfold processKeyPress. do 8 k_step. k_step. k_step. k_step.
  eapply wp_need; [apply zset_Some; destruct Hok; cbn; lia|]. do 4 k_step. cbn zeta. k_cbn.
  set (t0 := [StartTimer _; _]). set (s1 := set_pressed _ _).
  assert (at_sig (sig s) [] s1 t0) as H1 by done.
  assert (keys_ok s1) as Hok1
    by (destruct Hok; split; [cbn; by rewrite length_insert|done]).
  unfold press_effect. clearbody t0 s1. destruct H1 as [Hsig Ht]. unfold sig in Hsig.
  injection Hsig as Hed Hfl Hdg Heb Hsl.
  destruct (c_true (editor s) && (key <=? KEY_K5)) eqn:He.
  - destruct (Z.leb_spec key KEY_OK) as [Hle|Hgt]; cbn [orb].
    { eapply k_mono; [apply (wp_stays _ _ _ _ _ (alpha_ok toLower q key ltac:(lia) s1 t0 Hok1)
        (alpha_quiet (sig s) [] q key))|]; [by split; [unfold sig; congruence|]|].
      by intros _ s' t' [_ ?]. }
    destruct rep; [by split; [unfold sig; cbn; congruence|]|].
    apply andb_true_iff in He as [He _]. apply negb_true_iff in He.
    destruct (Z.eqb_spec key KEY_K1) as [->|Hk1]; cbn [orb].
    { eapply k_mono; [by apply stopEdit_heard|]. cbn beta. by rewrite Hed, He, Hdg, Heb, Hsl. }
    destruct (Z.eqb_spec key KEY_K2) as [->|Hk2]; cbn [orb].
    { eapply k_mono; [by apply stopEdit_heard|]. cbn beta. by rewrite Hed, He, Hdg, Heb, Hsl. }
    destruct (Z.eqb_spec key KEY_K3) as [->|Hk3]; cbn [andb].
    + apply k_bind, k_gets. rewrite Hdg. destruct (flDigits s) eqn:Hfd; cbn [negb when].
      * apply k_bind, k_ret. apply wp_deaf_when; [done|]. intros t' Ht'. cbn.
        split; [unfold sig; congruence|congruence].
      * unfold doToggleShift. listen. cbn. split; [unfold sig; cbn; congruence|].
        unfold heard in *; cbn in *; congruence.
    + destruct (key =? KEY_K4); [apply wp_deaf_when; [done|]; intros t' Ht'|];
        (split; [unfold sig; cbn; congruence|cbn; congruence]).
  - destruct rep; [by split; [unfold sig; cbn; congruence|]|].
    apply k_bind, k_gets. rewrite Hsl. destruct (c_true _ && clickable q _); cbn.
    + split; [unfold sig; congruence|]. unfold heard in *; cbn in *; congruence.
    + unfold emitters. apply k_bind.
      rewrite (proj2 (Z.ltb_lt _ _)) by (unfold KEY_UNKNOWN; lia).
      cbn. split; [unfold sig; congruence|]. unfold heard in *; cbn in *; congruence.
Qed.

(** *** Calls of the manager with their slots *)
Lemma run_spec f q m w v h :
  wp m (fun _ s' t' => keys_ok s' /\ at_sig v h s' t') (keyb w) [] ->
  exists k, keys_ok k /\ sig k = v /\
    run u (S f) q m w = react_all u (run u f q) q (rev h) (set_keyb k w).
Proof.
  unfold wp. destruct (m (keyb w) []) as [[[a k] t]|] eqn:Hm; [|done].
  intros (Hok & Hs & <-). exists k. split_and!; [done|done|]. by eapply run_heard.
Qed.

(** The button follows a shift that was set; setting it again changes nothing. *)
Lemma setChecked_set f q fl w : flShift (keyb w) = fl ->
  setChecked (run u (S f) q) fl w = Some (set_shift_checked fl w).
Proof.
  destruct w as [[] l p c sc cl dk dop rs]. cbn [keyb]. intros <-. unfold setChecked. cbn.
  destruct (Bool.eqb_spec sc flShift) as [->|Hne]; [done|].
  unfold setShift, mbind, K_bind, modify, perform, react_all. cbn. unfold setChecked. cbn.
  by rewrite Bool.eqb_reflx.
Qed.

(** *** The window against the machine *)
Record window_ok (w : window) : Prop := {
  wo_keys : keys_ok (keyb w);
  wo_page : page w = if editor (keyb w) =? 0 then pageMain u else pageEdit u;
  wo_shift : shift_checked w = flShift (keyb w);
  wo_slaves key : default 0 (slaveButtons (keyb w) !! key) = default 0 (zget (kbtns u) key);
  wo_dialog : keys_ok (dialog_keys w) /\ editor (dialog_keys w) = 0 /\
    slaveButtons (dialog_keys w) = ∅;
}.

(** The program ends in a good window that looks like [v]. *)
Definition steps (ow : option window) (v : wspec) : Prop :=
  exists w, ow = Some w /\ window_ok w /\ view w = v.

Lemma sig_inv s e f d b m : sig s = (e, f, d, b, m) ->
  editor s = e /\ flShift s = f /\ flDigits s = d /\ editButtons s = b /\ slaveButtons s = m.
Proof. by intros [= <- <- <- <- <-]. Qed.

Lemma view_fields w : view w = Spec (editor (keyb w)) (flDigits (keyb w)) (flShift (keyb w))
  (checkBox w) (clicks w) (dialog_open w) (results w).
Proof. done. Qed.

Lemma after_shift f q fl k w : window_ok w -> keys_ok k ->
  sig k = (editor (keyb w), fl, flDigits (keyb w), editButtons (keyb w), slaveButtons (keyb w)) ->
  steps (react_all u (run u (S f) q) q [Emit (onShift fl)] (set_keyb k w)) (spec_shift fl (view w)).
Proof.
  intros [Hk Hp Hs Hsl Hd] Hok (He & Hf & Hdg & Hb & Hm)%sig_inv.
  unfold react_all. cbn [foldl mbind option_bind react]. rewrite setChecked_set by done.
  eexists. split; [done|split].
  - by split; cbn; rewrite ?He, ?Hf, ?Hm.
  - rewrite (view_fields w). unfold view, spec_shift; cbn. by rewrite He, Hf, Hdg.
Qed.

Lemma after_stop f q r k w : window_ok w -> keys_ok k ->
  sig k = (0, false, flDigits (keyb w), editButtons (keyb w), slaveButtons (keyb w)) ->
  steps (react_all u (run u (S f) q) q
    (rev (if editor (keyb w) =? 0 then [Emit (onShift false)]
          else [Emit (onEditDone (editor (keyb w)) r); Emit (onShift false)]))
    (set_keyb k w)) (spec_stop (view w)).
Proof.
  intros [Hk Hp Hs Hsl Hd] Hok (He & Hf & Hdg & Hb & Hm)%sig_inv.
  exists (Win k (label w) (pageMain u) (checkBox w) false (clicks w) (dialog_keys w)
    (dialog_open w) (results w)).
  destruct (Z.eqb_spec (editor (keyb w)) 0) as [Hz|Hz]; unfold react_all;
    cbn [rev app foldl mbind option_bind react]; rewrite setChecked_set by done;
    cbn [mbind option_bind react];
    (split; [|split; [by split; cbn; rewrite ?He, ?Hf, ?Hm|
                      rewrite (view_fields w); unfold view, spec_stop; cbn; by rewrite He, Hf, Hdg]]).
  - destruct w; cbn in *. by rewrite <- Hp.
  - done.
Qed.

Lemma call_stop f q r w : window_ok w ->
  steps (run u (S (S f)) q (stopEdit r) w) (spec_stop (view w)).
Proof.
  intros Hw. pose proof Hw as [Hk _ _ _ _].
  destruct (run_spec (S f) q (stopEdit r) w _ _
    (wp_ok _ _ _ _ Hk (stopEdit_ok r) (stopEdit_heard r (keyb w) [] eq_refl)))
    as (k & Hok & Hsig & ->). by apply after_stop.
Qed.

Lemma call_start f q x w : window_ok w -> x <> 0 ->
  steps (run u (S (S f)) q (startEdit q x) w) (spec_start q x (view w)).
Proof.
  intros Hw Hx. pose proof Hw as [Hk Hp Hs Hsl Hd]. unfold spec_start. rewrite (view_fields w). cbn [editing].
  destruct (Z.eqb_spec (editor (keyb w)) 0) as [Hz|Hz].
  - destruct (run_spec (S f) q (startEdit q x) w _ _
      (wp_ok _ _ _ _ Hk (startEdit_ok q x) (startEdit_heard q x (keyb w) Hz Hx)))
      as (k & Hok & Hsig & ->).
    apply sig_inv in Hsig as (He & Hf & Hdg & Hb & Hm).
    exists (Win k (label w) (pageEdit u) (checkBox w) false (clicks w) (dialog_keys w)
      (dialog_open w) (results w)).
    unfold react_all. cbn [rev app foldl mbind option_bind react]. rewrite setChecked_set by done.
    split; [done|split].
    + split; cbn; rewrite ?He, ?Hf, ?Hm; try done. by rewrite (proj2 (Z.eqb_neq x 0)).
    + unfold view; cbn. by rewrite He, Hf, Hdg.
  - exists w. rewrite <- view_fields. split; [|by split]. cbn [run].
    rewrite startEdit_busy by done. destruct w. done.
Qed.

(** The manager has changed nothing that the window shows. *)
Lemma same_sig k w : window_ok w -> keys_ok k -> sig k = sig (keyb w) ->
  window_ok (set_keyb k w) /\ view (set_keyb k w) = view w.
Proof.
  intros [Hk Hp Hs Hsl Hd] Hok (He & Hf & Hdg & Hb & Hm)%sig_inv. split.
  - by split; cbn; rewrite ?He, ?Hf, ?Hm.
  - unfold view; cbn. by rewrite He, Hf, Hdg.
Qed.

(** Handlers of which nothing is heard. *)
Lemma call_quiet f q m w : window_ok w -> keeps (fun s _ => keys_ok s) m ->
  (forall v h, stays (at_sig v h) m) -> steps (run u (S f) q m w) (view w).
Proof.
  intros Hw Hok Hq. pose proof Hw as [Hk _ _ _ _].
  destruct (run_spec f q m w (sig (keyb w)) []) as (k & Hk' & Hsig & ->).
  { apply wp_ok; [done|done|].
    eapply k_mono; [apply (wp_stays _ _ _ _ _ (Hok (keyb w) [] Hk) (Hq (sig (keyb w)) []))|]; [done|].
    by intros _ s' t' [_ ?]. }
  exists (set_keyb k w). split; [done|]. by apply same_sig.
Qed.

Lemma set_checkBox_ok b w : window_ok w -> window_ok (set_checkBox b w).
Proof. intros []. by split. Qed.
Lemma animateClick_ok b w : window_ok w -> window_ok (animateClick b w).
Proof. intros []. by split. Qed.

(** The slot of [onKey] in a window that shows the main page. *)
Definition widgets_set : Prop :=
  lineEdit u <> 0 /\ textEdit u <> 0 /\ lineEditDigits u <> 0 /\ spinBox u <> 0.

Lemma call_onKey f q key w : widgets_set -> window_ok w ->
  steps (onKeyButtonClicked u (run u (S (S f)) q) q key w) (spec_key u q key (view w)).
Proof.
  intros (H1 & H2 & H3 & H4) Hw. unfold onKeyButtonClicked, spec_key.
  destruct (key =? KEY_K1); [by apply call_start|].
  destruct (key =? KEY_K2); [by apply call_start|].
  destruct (key =? KEY_K3); [by apply call_start|].
  destruct (key =? KEY_K4).
  { apply (call_start f q (spinBox u) (set_checkBox (negb (checkBox w)) w)); [|done].
    by apply set_checkBox_ok. }
  destruct (key =? KEY_K5); eexists; (split; [done|]); (split; [|done]);
    [by apply animateClick_ok|done].
Qed.

Lemma steps_Some ow v : steps ow v -> steps (ow ≫= Some) v.
Proof. by intros (w & -> & ?); exists w. Qed.

(** A press, from the members the manager leaves to the slots they reach. *)
Lemma call_press f q key rep w : widgets_set -> 0 <= key < KEY_UNKNOWN -> window_ok w ->
  steps (run u (S (S (S f))) q (processKeyPress toLower q key rep) w)
    (spec_press u q key rep (view w)).
Proof.
  intros Hu Hkey Hw. pose proof Hw as [Hk Hp Hs Hsl Hd].
  destruct (run_spec (S (S f)) q _ w _ _ (press_heard q key rep (keyb w) Hk Hkey))
    as (k & Hok & Hsig & ->).
  assert (sig k = sig (keyb w) -> steps (Some (set_keyb k w)) (view w)) as Hsame.
  { intros Heq. exists (set_keyb k w). split; [done|]. by apply same_sig. }
  unfold press_effect in *. unfold spec_press, spec_editing. rewrite (view_fields w) at 1.
  cbn [editing digits shifted view].
  destruct (c_true (editor (keyb w)) && (key <=? KEY_K5)) eqn:He.
  - destruct rep; rewrite ?orb_true_r, ?orb_false_r in *; [by apply Hsame|].
    destruct (Z.leb_spec key KEY_OK) as [Hle|Hgt].
    { unfold KEY_OK, KEY_K1, KEY_K2, KEY_K3 in *.
      rewrite !(proj2 (Z.eqb_neq _ _)) by lia. by apply Hsame. }
    destruct ((key =? KEY_K1) || (key =? KEY_K2)) eqn:H12.
    + pose proof (after_stop (S f) q (key =? KEY_K1) k w Hw Hok Hsig) as Hst.
      destruct (Z.eqb_spec (editor (keyb w)) 0) as [Hz|_]; [by rewrite Hz in He|exact Hst].
    + destruct ((key =? KEY_K3) && negb (flDigits (keyb w))) eqn:H3; [|by apply Hsame].
      by apply after_shift.
  - destruct rep; [by apply Hsame|]. unfold spec_main. cbn [fst snd] in *. rewrite <- Hsl.
    destruct (Hsame Hsig) as (w' & [= <-] & Hw' & Hv).
    destruct (c_true _ && clickable q _).
    + eexists. split; [done|]. split; [by apply animateClick_ok|].
      rewrite <- Hv. done.
    + unfold react_all. cbn [rev app foldl mbind option_bind react].
      rewrite <- Hv. apply (call_onKey f q key _ Hu Hw').
Qed.

(** *** Events *)
Lemma run_ext f q m m' w : (forall s t, m s t = m' s t) -> run u f q m w = run u f q m' w.
Proof. intros Hm. destruct f; [done|]. cbn [run]. by rewrite Hm. Qed.
Lemma dialog_run_ext m m' w : (forall s t, m s t = m' s t) -> dialog_run m w = dialog_run m' w.
Proof. intros Hm. unfold dialog_run. by rewrite Hm. Qed.

(** The event filter is the key event if there is one. *)
Definition key_event (q : qt) (ev : qevent) : K unit :=
  match ev with
  | KeyPress code rep => processKeyEvent toLower KeyCodes q true code rep
  | KeyRelease code rep => processKeyEvent toLower KeyCodes q false code rep
  | _ => mret tt
  end.
Lemma eventFilter_keys q ev s t :
  (eventFilter toLower KeyCodes q ev;; mret tt) s t = key_event q ev s t.
Proof.
  unfold eventFilter, key_event, mbind, K_bind.
  destruct ev; try done; by destruct (processKeyEvent _ _ _ _ _ _ _ _) as [[[[] s'] t']|].
Qed.

Lemma key_of_range code : 0 <= key_of KeyCodes code < 20.
Proof. apply KeysCodeIdx_range. Qed.

Lemma ok_ret : keeps (fun s (_ : list out) => keys_ok s) (mret tt).
Proof. apply keeps_ret. Qed.
Lemma quiet_ret v h : stays (at_sig v h) (mret tt).
Proof. apply stays_keeps, keeps_ret. Qed.

Lemma window_event q ev w : widgets_set -> window_ok w ->
  steps (whandle toLower KeyCodes u (W_event q ev) w)
    (spec_event KeyCodes u (W_event q ev) (view w)).
Proof.
  intros Hu Hw. cbn [whandle]. rewrite (run_ext _ _ _ (key_event q ev)) by apply eventFilter_keys.
  destruct ev as [| | | | |code rep|code rep|]; cbn [key_event spec_event];
    try (apply call_quiet; [done|apply ok_ret|apply quiet_ret]);
    unfold processKeyEvent; cbv zeta; fold (key_of KeyCodes code);
    pose proof (key_of_range code) as Hr; destruct (Z.ltb_spec (key_of KeyCodes code) KEY_UNKNOWN);
    try (apply call_quiet; [done|apply ok_ret|apply quiet_ret]).
  - apply (call_press 1); [done|lia|done].
  - apply call_quiet; [done|by apply release_ok|intros; apply release_quiet].
Qed.

(** *** The dialog *)
Lemma dialog_deaf o w : reacts o = false -> dialog_slot o w = w.
Proof. by destruct o as [[]| | | | | | | | | | | | | |]. Qed.
Lemma dialog_heard l w :
  foldl (fun w o => dialog_slot o w) w l =
  foldl (fun w o => dialog_slot o w) w (List.filter reacts l).
Proof.
  revert w. induction l as [|o l IH]; intros w; [done|]. cbn [List.filter foldl].
  destruct (reacts o) eqn:E; cbn [foldl]; [apply IH|]. by rewrite dialog_deaf.
Qed.
Lemma dialog_spec m w v h :
  wp m (fun _ s' t' => keys_ok s' /\ at_sig v h s' t') (dialog_keys w) [] ->
  exists k, keys_ok k /\ sig k = v /\
    dialog_run m w = Some (foldl (fun w o => dialog_slot o w)
      (set_dialog k (dialog_open w) (results w) w) (rev h)).
Proof.
  unfold wp, dialog_run. destruct (m (dialog_keys w) []) as [[[a k] t]|]; [|done].
  intros (Hok & Hs & <-). exists k. split_and!; [done|done|].
  rewrite dialog_heard. unfold heard. by rewrite filter_rev.
Qed.

Lemma set_dialog_ok k b rs w : window_ok w -> keys_ok k ->
  sig k = sig (dialog_keys w) -> window_ok (set_dialog k b rs w).
Proof.
  intros [Hk Hp Hs Hsl (Hd1 & Hd2 & Hd3)] Hok (He & _ & _ & _ & Hm)%sig_inv.
  split; try done. cbn. by rewrite He, Hm.
Qed.

Lemma dialog_quiet m w : window_ok w -> keeps (fun s _ => keys_ok s) m ->
  (forall v h, stays (at_sig v h) m) -> steps (dialog_run m w) (view w).
Proof.
  intros Hw Hok Hq. pose proof Hw as [_ _ _ _ (Hd & _)].
  destruct (dialog_spec m w (sig (dialog_keys w)) []) as (k & Hk' & Hsig & ->).
  { apply wp_ok; [done|done|].
    eapply k_mono; [apply (wp_stays _ _ _ _ _ (Hok _ [] Hd) (Hq (sig (dialog_keys w)) []))|]; [done|].
    by intros _ s' t' [_ ?]. }
  eexists. split; [done|split; [by apply set_dialog_ok|done]].
Qed.

Lemma dialog_press q key rep w : 0 <= key < KEY_UNKNOWN -> window_ok w ->
  steps (dialog_run (processKeyPress toLower q key rep) w)
    (if dialog (view w) && negb rep then
       if key =? KEY_K1 then spec_dialog false (1 :: outcomes (view w)) (view w)
       else if key =? KEY_K2 then spec_dialog false (0 :: outcomes (view w)) (view w)
       else view w
     else view w).
Proof.
  intros Hkey Hw. pose proof Hw as [_ _ _ _ (Hd & He & Hm)].
  destruct (dialog_spec _ w _ _ (press_heard q key rep _ Hd Hkey)) as (k & Hok & Hsig & ->).
  unfold press_effect in *. rewrite He in *. cbn [c_true Z.eqb negb andb] in *.
  destruct rep; cbn [negb fst snd] in *.
  { rewrite andb_false_r. eexists. split; [done|split; [by apply set_dialog_ok|done]]. }
  rewrite Hm, lookup_empty in *. cbn [default fst snd rev app c_true Z.eqb negb andb foldl] in *.
  rewrite andb_true_r. cbn [dialog_slot dialog_open set_dialog view dialog].
  destruct (dialog_open w) eqn:Ho; cbn [negb].
  - destruct (key =? KEY_K1); [|destruct (key =? KEY_K2)]; eexists;
      (split; [done|split; [by repeat apply set_dialog_ok|]]); try done.
    unfold view. cbn. by rewrite Ho.
  - eexists. split; [done|split; [by repeat apply set_dialog_ok|]]. unfold view. cbn. by rewrite Ho.
Qed.

Lemma setShift_heard fl s :
  wp (setShift fl) (fun _ => at_sig (editor s, fl, flDigits s, editButtons s, slaveButtons s)
    [Emit (onShift fl)]) s [].
Proof. by unfold at_sig, setShift; listen. Qed.
Lemma setShift_ok fl : keeps (fun s (_ : list out) => keys_ok s) (setShift fl).
Proof. unfold setShift. keeps_run; intros s t []; by split. Qed.

Lemma click_shift f q w : window_ok w ->
  steps (setChecked (run u (S (S f)) q) (negb (shift_checked w)) w)
    (spec_shift (negb (shifted (view w))) (view w)).
Proof.
  intros Hw. pose proof Hw as [Hk _ Hs _ _]. unfold setChecked. rewrite Bool.eqb_negb2.
  set (fl := negb (shift_checked w)). set (w1 := set_shift_checked fl w).
  destruct (run_spec (S f) q (setShift fl) w1 _ _
    (wp_ok _ _ _ _ Hk (setShift_ok fl) (setShift_heard fl (keyb w)))) as (k & Hok & Hsig & ->).
  destruct (after_shift f q fl k w Hw Hok Hsig) as (w' & Hw' & Hok' & Hv).
  exists w'. split; [|split; [done|]].
  - rewrite <- Hw'. unfold react_all. cbn [rev app foldl mbind option_bind react].
    apply sig_inv in Hsig as (_ & Hf & _). by rewrite !setChecked_set.
  - rewrite Hv. unfold fl. by rewrite Hs.
Qed.

Lemma whandle_steps ev w : widgets_set -> window_ok w ->
  steps (whandle toLower KeyCodes u ev w) (spec_event KeyCodes u ev (view w)).
Proof.
  intros Hu Hw. destruct ev as [q ev|q|q b|q ev|q].
  - by apply window_event.
  - apply call_quiet; [done|apply timer_ok|intros; apply timer_quiet].
  - cbn [whandle spec_event].
    destruct (b =? btnOK u); [by apply (call_stop 2)|].
    destruct (b =? btnCancel u); [by apply (call_stop 2)|]. cbn [orb].
    destruct (b =? btnShift u); [by apply (click_shift 2)|].
    destruct (b =? pushButton u); eexists; (split; [done|]); (split; [|done]); [|done].
    pose proof Hw as [_ _ _ _ (? & _)]. by apply set_dialog_ok.
  - cbn [whandle]. rewrite (dialog_run_ext _ (key_event q ev)) by apply eventFilter_keys.
    destruct ev as [| | | | |code rep|code rep|]; cbn [key_event spec_event];
      try (apply dialog_quiet; [done|apply ok_ret|apply quiet_ret]);
      unfold processKeyEvent; cbv zeta; fold (key_of KeyCodes code);
      pose proof (key_of_range code) as Hr; destruct (Z.ltb_spec (key_of KeyCodes code) KEY_UNKNOWN).
    + apply dialog_press; [lia|done].
    + unfold KEY_UNKNOWN, KEY_K1, KEY_K2 in *. rewrite !(proj2 (Z.eqb_neq _ _)) by lia.
      destruct (dialog _ && _); apply dialog_quiet; done || apply ok_ret || apply quiet_ret.
    + apply dialog_quiet; [done|by apply release_ok|intros; apply release_quiet].
    + apply dialog_quiet; [done|apply ok_ret|apply quiet_ret].
  - apply dialog_quiet; [done|apply timer_ok|intros; apply timer_quiet].
Qed.

Lemma wrun_steps evs w : widgets_set -> window_ok w ->
  steps (wrun toLower KeyCodes u evs w) (spec_run KeyCodes u evs (view w)).
Proof.
  intros Hu. revert w. induction evs as [|ev evs IH]; intros w Hw; [by exists w|].
  unfold wrun, spec_run. cbn [foldl mbind option_bind].
  destruct (whandle_steps ev w Hu Hw) as (w' & -> & Hw' & <-). by apply IH.
Qed.

(** *** The window as it is built *)
Lemma setEditButtons_heard b s :
  wp (setEditButtons b) (fun _ => at_sig (editor s, flShift s, flDigits s, b, slaveButtons s) []) s [].
Proof.
  unfold at_sig, setEditButtons, resetEditButtons, array. cbn [for_each]. listen. cbn [for_each].
  listen. split; [done|]. unfold heard in *; cbn in *; congruence.
Qed.

Lemma setEditButtons_ok b : keeps (fun s (_ : list out) => keys_ok s) (setEditButtons b).
Proof. unfold setEditButtons, resetEditButtons. keeps_run; intros s t []; by split. Qed.

(** The buttons from number [i] on. *)
Fixpoint slaves_from (i : Z) (bs : list Z) (m : gmap Z Z) : gmap Z Z :=
  match bs with [] => m | b :: bs' => slaves_from (i + 1) bs' (<[i := b]> m) end.

Lemma slaves_from_lookup bs i m key : 0 <= i -> (forall k, i <= k -> m !! k = None) ->
  slaves_from i bs m !! key = if key <? i then m !! key else zget bs (key - i).
Proof.
  revert i m. induction bs as [|b bs IH]; intros i m Hi Hm; cbn [slaves_from].
  - destruct (Z.ltb_spec key i); [done|]. rewrite Hm by lia.
    rewrite zget_lookup by lia. done.
  - rewrite IH by (lia || intros k Hk; rewrite lookup_insert_ne by lia; apply Hm; lia).
    destruct (Z.ltb_spec key (i + 1)), (Z.ltb_spec key i); try lia.
    + by rewrite lookup_insert_ne by lia.
    + replace key with i by lia. rewrite lookup_insert_eq, Z.sub_diag. done.
    + rewrite !zget_lookup by lia. replace (Z.to_nat (key - i)) with (S (Z.to_nat (key - (i + 1)))) by lia.
      done.
Qed.

Lemma setSlaveButtons_run q bs i w : 0 <= i -> i + Z.of_nat (length bs) <= KEY_PTT ->
  setSlaveButtons u q i bs w =
  Some (set_keyb (set_slaves (slaves_from i bs (slaveButtons (keyb w))) (keyb w)) w).
Proof.
  revert i w. induction bs as [|b bs IH]; intros i w Hi Hlen; cbn [setSlaveButtons slaves_from].
  - by destruct w as [[] ? ? ? ? ? ? ? ?].
  - cbn [length] in Hlen. unfold FUEL. cbn [run].
    assert (setSlaveButton i b (keyb w) [] =
      Some (tt, set_slaves (<[i := b]> (slaveButtons (keyb w))) (keyb w), [])) as ->
      by (unfold setSlaveButton; by rewrite (proj2 (Z.ltb_lt i KEY_PTT)) by lia).
    unfold react_all. cbn [rev foldl mbind option_bind]. rewrite IH by lia. by destruct w as [[] ? ? ? ? ? ? ? ?].
Qed.

Lemma MainWindow_steps q : (length (btn_N u) <= 17)%nat ->
  steps (MainWindow u q) (Spec 0 false false false [] false []).
Proof.
  intros Hlen. unfold MainWindow, KbdWidget, FUEL.
  set (w0 := setLabel _ _). set (m := setEditButtons (edit_page u)).
  destruct (run_spec 3 q m w0 _ _ (wp_ok _ _ _ _ new_keys_ok
    (setEditButtons_ok (edit_page u))
    (setEditButtons_heard (edit_page u) new_keys))) as (k & Hok & Hsig & ->).
  apply sig_inv in Hsig as (He & Hf & Hdg & Hb & Hm). unfold react_all. cbn [rev foldl].
  assert (length (kbtns u) = length (btn_N u)) as Hk.
  { unfold kbtns. rewrite length_map. apply Permutation_length, merge_sort_Permutation. }
  cbn [mbind option_bind]. rewrite setSlaveButtons_run by (unfold KEY_PTT; lia).
  eexists. split; [done|split].
  - split; cbn; rewrite ?He, ?Hf; try done.
    + destruct Hok. by split.
    + intros key. rewrite slaves_from_lookup; [|lia|by rewrite Hm].
      rewrite Z.sub_0_r, Hm. destruct (Z.ltb_spec key 0); [|done].
      unfold zget. by rewrite (proj2 (Z.leb_gt 0 key)).
    + split; [apply new_keys_ok|done].
  - unfold view; cbn. by rewrite He, Hf, Hdg.
Qed.

End slots.

(** ** The numbered buttons *)
Lemma string_leb_cons a s b t :
  String.leb (String a s) (String b t) = true <->
  (Ascii.N_of_ascii a < Ascii.N_of_ascii b)%N \/ a = b /\ String.leb s t = true.
Proof.
  unfold String.leb. cbn [String.compare]. unfold Ascii.compare.
  destruct (N.compare_spec (Ascii.N_of_ascii a) (Ascii.N_of_ascii b)) as [H|H|H].
  - assert (a = b) as -> by (rewrite <- (Ascii.ascii_N_embedding a), H; apply Ascii.ascii_N_embedding).
    split; [by right|]. intros [?|[_ ?]]; [lia|done].
  - split; [by left|done].
  - split; [done|]. intros [?|[-> _]]; lia.
Qed.
Lemma string_leb_trans s1 s2 s3 :
  String.leb s1 s2 = true -> String.leb s2 s3 = true -> String.leb s1 s3 = true.
Proof.
  revert s2 s3. induction s1 as [|a s1 IH]; intros [|b s2] [|c s3]; try done.
  rewrite !string_leb_cons. intros [H1|[-> H1]] [H2|[-> H2]]; [left; lia|by left|by left|].
  right. split; [done|]. by eapply IH.
Qed.
#[global] Instance name_le_total : Total name_le.
Proof. intros a b. unfold name_le. destruct (String.leb_total (fst a) (fst b)); auto. Qed.
#[global] Instance name_le_trans : Transitive name_le.
Proof. intros a b c. apply string_leb_trans. Qed.

Definition numbered (ptr : nat -> Z) (i : nat) : string * Z :=
  (("btn_N" +:+ String (Ascii.ascii_of_nat (48 + i)) "")%string, ptr i).

Lemma numbered_sorted ptr : StronglySorted name_le (map (numbered ptr) (seq 0 10)).
Proof. repeat constructor. Qed.

Lemma numbered_name ptr i j : (i < 10)%nat -> (j < 10)%nat ->
  fst (numbered ptr i) = fst (numbered ptr j) -> i = j.
Proof. intros Hi Hj. do 10 (destruct i as [|i]; [do 10 (destruct j as [|j]; [done|]); lia|]). lia. Qed.

(** In whatever order the ten buttons of the window are found, the sort by name
    gives the key with number [i] the button named "btn_N" with the digit [i], and a
    press of the key while nothing is edited clicks it. *)
Theorem buttons_by_name (u : ui) (ptr : nat -> Z) (q : qt) (i : nat) (v : wspec) :
  btn_N u ≡ₚ map (numbered ptr) (seq 0 10) -> (i < 10)%nat ->
  ptr i <> 0 -> clickable q (ptr i) = true -> editing v = 0 ->
  spec_press u q (Z.of_nat i) false v = spec_animate (ptr i) v.
Proof.
  intros Hp Hi Hn Hc He.
  assert (merge_sort name_le (btn_N u) = map (numbered ptr) (seq 0 10)) as Hs.
  { apply (StronglySorted_unique_strong name_le); [|apply StronglySorted_merge_sort; apply _
      |apply numbered_sorted|by rewrite merge_sort_Permutation].
    intros x y Hx Hy H1 H2. rewrite merge_sort_Permutation, Hp in Hx.
    apply list_elem_of_fmap in Hx as (j & -> & Hj%elem_of_seq).
    apply list_elem_of_fmap in Hy as (k & -> & Hk%elem_of_seq).
    f_equal. apply (numbered_name ptr); [lia..|]. by apply String.leb_antisym. }
  unfold spec_press. rewrite He. cbn [c_true Z.eqb negb andb]. unfold spec_main, kbtns.
  rewrite Hs, map_map. cbn [numbered snd].
  assert (map (fun x => ptr x) (seq 0 10) !! i = Some (ptr i)) as Hb
    by (change (((fun x => ptr x) <$> seq 0 10) !! i = Some (ptr i));
        by rewrite list_lookup_fmap, lookup_seq_lt by lia).
  rewrite zget_lookup, Nat2Z.id, Hb by lia. cbn [from_option]. unfold id. rewrite Hc, andb_true_r. unfold c_true.
  by rewrite (proj2 (Z.eqb_neq _ _) Hn).
Qed.

(** ** The registry *)
(** The managers a program gets, one for each of its calls. *)
Fixpoint gets_of (ws : list Z) (r : registry) : option (list Z * registry) :=
  match ws with
  | [] => Some ([], r)
  | w :: ws' => '(k, r') ← get w r; '(ks, r'') ← gets_of ws' r'; Some (k :: ks, r'')
  end.
Definition empty_registry : registry := Registry ∅ 0 [].

Record registry_ok (r : registry) : Prop := {
  ro_null : watched r !! 0 = None;
  ro_made : 0 <= made r;
  ro_filters w k : (w, k) ∈ filters r <-> watched r !! w = Some k;
  ro_once : NoDup (filters r);
  ro_range w k : watched r !! w = Some k -> 0 <= k < made r;
  ro_one w w' k : watched r !! w = Some k -> watched r !! w' = Some k -> w = w';
}.

Lemma get_ok w r : w <> 0 -> registry_ok r ->
  exists k r', get w r = Some (k, r') /\ registry_ok r' /\ watched r' !! w = Some k /\
    watched r ⊆ watched r'.
Proof.
  intros Hw [Hn Hm Hf Ho Hr H1]. unfold get. rewrite (proj2 (Z.eqb_neq w 0)) by done.
  rewrite delete_id by done. destruct (watched r !! w) as [k|] eqn:E.
  - eexists _, _. split; [done|]. by split_and!; [split|..].
  - eexists _, _. split; [done|]. split_and!; [|apply lookup_insert_eq|by apply insert_subseteq].
    split; cbn [watched made filters].
    + by rewrite lookup_insert_ne.
    + lia.
    + intros w' k. rewrite elem_of_cons, lookup_insert_Some, Hf. split.
      * intros [[= -> ->]|Hk]; [by left|]. right. split; [congruence|done].
      * intros [[-> ->]|[_ Hk]]; [by left|by right].
    + constructor; [|done]. rewrite Hf. congruence.
    + intros w' k. rewrite lookup_insert_Some. intros [[_ <-]|[_ Hk%Hr]]; lia.
    + intros w1 w2 k. rewrite !lookup_insert_Some.
      intros [[<- <-]|[_ Hk1]] [[<- Hk2]|[_ Hk2]]; [done| | |by eapply H1].
      * apply Hr in Hk2. lia.
      * subst k. apply Hr in Hk1. lia.
Qed.

Lemma gets_ok ws r : Forall (fun w => w <> 0) ws -> registry_ok r ->
  exists ks r', gets_of ws r = Some (ks, r') /\ registry_ok r' /\ watched r ⊆ watched r' /\
    Forall2 (fun w k => watched r' !! w = Some k) ws ks.
Proof.
  intros Hws. revert r. induction Hws as [|w ws Hw _ IH]; intros r Hr.
  - exists [], r. by split_and!; [..|constructor].
  - destruct (get_ok w r Hw Hr) as (k & r1 & Hg & Hr1 & Hk & Hsub).
    destruct (IH r1 Hr1) as (ks & r2 & Hgs & Hr2 & Hsub2 & Hks).
    exists (k :: ks), r2. cbn [gets_of]. rewrite Hg. cbn. rewrite Hgs. cbn.
    split_and!; [done|done|by etransitivity|]. constructor; [|done].
    by eapply lookup_weaken.
Qed.

Lemma filters_of r w k : registry_ok r -> watched r !! w = Some k ->
  List.filter (fun f => fst f =? w) (filters r) = [(w, k)].
Proof.
  intros [Hn Hm Hf Ho Hr H1] Hw. apply Hf in Hw as Hin.
  assert (forall k', (w, k') ∈ filters r -> k' = k) as Huniq by (intros k' Hk'%Hf; congruence).
  clear -Ho Hin Huniq. induction Ho as [|[w' k'] l Hnin Ho IH]; [by apply elem_of_nil in Hin|].
  cbn [List.filter fst]. destruct (Z.eqb_spec w' w) as [->|Hne].
  - rewrite (Huniq k') by left. f_equal.
    assert (forall x, (x, k) ∉ l -> List.filter (fun f => fst f =? w) l = [] ) as Hx.
    { intros _ _. destruct (List.filter _ l) as [|[w1 k1] l'] eqn:E; [done|].
      assert (In (w1, k1) (List.filter (fun f => fst f =? w) l)) as Hi by (rewrite E; by left).
      apply filter_In in Hi as [Hi Hw1]. cbn in Hw1. apply Z.eqb_eq in Hw1. subst w1.
      apply list_elem_of_In in Hi. rewrite (Huniq k1) in Hi by (by right).
      rewrite (Huniq k') in Hnin by left. done. }
    apply (Hx w). by rewrite (Huniq k') in Hnin by left.
  - apply IH; [|intros k0 Hk0; apply Huniq; by right].
    apply elem_of_cons in Hin as [[=]|?]; [congruence|done].
Qed.

Lemma empty_registry_ok : registry_ok empty_registry.
Proof.
  split; cbn; try done; try (by intros *; rewrite lookup_empty).
  - intros w k. rewrite lookup_empty, elem_of_nil. done.
  - constructor.
Qed.

(** A widget has one manager however often it is asked for, different widgets have
    different ones, and each manager filters the events of its widget once. *)
Theorem one_manager_each ws : Forall (fun w => w <> 0) ws ->
  exists ks r, gets_of ws empty_registry = Some (ks, r) /\ length ks = length ws /\
    (forall i j w w' k k', ws !! i = Some w -> ws !! j = Some w' ->
       ks !! i = Some k -> ks !! j = Some k' -> (w = w' <-> k = k')) /\
    (forall i w k, ws !! i = Some w -> ks !! i = Some k ->
       List.filter (fun f => fst f =? w) (filters r) = [(w, k)]).
Proof.
  intros Hws. destruct (gets_ok ws _ Hws empty_registry_ok) as (ks & r & Hg & Hr & _ & Hks).
  exists ks, r. split_and!; [done|by apply Forall2_length in Hks| |].
  - intros i j w w' k k' Hw Hw' Hk Hk'.
    pose proof (Forall2_lookup_lr _ _ _ _ _ _ Hks Hw Hk) as H1.
    pose proof (Forall2_lookup_lr _ _ _ _ _ _ Hks Hw' Hk') as H2. cbn in H1, H2.
    split; [intros ->; congruence|]. intros ->. by eapply ro_one.
  - intros i w k Hw Hk. apply filters_of; [done|].
    by apply (Forall2_lookup_lr _ _ _ _ _ _ Hks Hw Hk).
Qed.

(** ** Concrete runs *)
Definition demo_ptr (i : nat) : Z := 40 + Z.of_nat i.
(** The buttons in the order of the file of the window. *)
Definition demo_ui : ui :=
  Ui 1 2 4 5 20 31 32 33 34 35 36 61 62 (map (numbered demo_ptr) [4; 6; 5; 7; 3; 2; 9; 8; 0; 1]%nat).

(** K1 edits the line, 2 types, K1 accepts; then digit 7 clicks its button. *)
Definition demo_events : list wevent :=
  [W_event demo_qt Paint; W_event demo_qt (KeyPress 112 false);
   W_event demo_qt (KeyPress 102 false); W_event demo_qt (KeyRelease 102 false);
   W_event demo_qt (KeyPress 112 false); W_event demo_qt (KeyPress 107 false);
   W_clicked demo_qt 20; W_dialog demo_qt (KeyPress 113 false)].


Lemma buttons_by_name_witness :
  spec_press demo_ui demo_qt 7 false (Spec 0 false false false [] false []) =
  Spec 0 false false false [47] false [].
Proof.
  apply (buttons_by_name demo_ui demo_ptr demo_qt 7); [|lia|done|reflexivity|reflexivity].
  cbn [demo_ui btn_N]. apply Permutation_map. by apply (bool_decide_unpack _).
Defined.

Lemma one_manager_each_witness : exists ks r,
  gets_of [20; 7; 20] empty_registry = Some (ks, r) /\ ks !! 0%nat = ks !! 2%nat.
Proof.
  destruct (one_manager_each [20; 7; 20]) as (ks & r & Hg & Hlen & Hone & _);
    [by repeat constructor|].
  exists ks, r. split; [exact Hg|]. destruct ks as [|a [|b [|c []]]]; try discriminate Hlen.
  cbn. f_equal. apply (Hone 0%nat 2%nat 20 20 a c); reflexivity.
Defined.
