(* ===== verification/Vkbd.v ===== *)
(** * The virtual keyboard plugin

    [qt/vkbd/VkbdProxyPlugin]: the input context ([VkbdInputContext.cpp]), which Qt tells
    what has the focus and asks to show and hide a panel, and the panel
    ([WidgetKey.cpp]), a window with one button.  Objects are numbers, 0 the null
    pointer.  [None] is a null pointer or a destroyed object that is used, or a failed
    assertion.  The look of the panel ([showEvent], flags, attributes) is not modelled. *)
From S2P Require Import Prelude.
From stdpp Require Import gmap.
From stdpp Require Import options.
#[local] Open Scope Z_scope.

(** [WidgetKey]: the object it types into, and whether it is shown. *)
Record WidgetKey := Panel { item : Z; visible : bool }.

(** What the plugin makes Qt do. *)
Inductive done_to :=
  | Commit (o : Z) (text : string)     (** [setCommitString] and [sendEvent] *)
  | ClearFocus (o : Z)
  | VisibleChanged.                    (** [emitInputPanelVisibleChanged] *)

(** [VkbdInputContext], with the objects that were destroyed and what was done, newest
    first. *)
Record context := Ctx {
  view : option WidgetKey;
  m_focusItem : Z;
  dead : gset Z;
  log : list done_to;
}.
Definition set_view x c := Ctx x (m_focusItem c) (dead c) (log c).
Definition set_item x c := Ctx (view c) x (dead c) (log c).
Definition set_dead x c := Ctx (view c) (m_focusItem c) x (log c).
Definition emit x c := Ctx (view c) (m_focusItem c) (dead c) (x :: log c).
Definition new_context : context := Ctx None 0 ∅ [].

Section code.
(** [qobject_cast <QWidget *>] succeeds. *)
Context (is_widget : Z -> bool).

Definition setFocusObject (object : Z) (c : context) : context :=
  if object =? 0 then c
  else if negb (is_widget object) then c
  else
    let c := match view c with None => set_view (Some (Panel 0 false)) c | Some _ => c end in
    set_item object c.

(** The test of [view] guards nothing. *)
Definition showInputPanel (c : context) : option context :=
  match view c with
  | None => None
  | Some _ => Some (emit VisibleChanged (set_view (Some (Panel (m_focusItem c) true)) c))
  end.

Definition hideInputPanel (c : context) : context := emit VisibleChanged c.

Definition isInputPanelVisible (c : context) : bool :=
  match view c with Some v => visible v | None => false end.

(** [WidgetKey::on_pushButton_clicked] *)
Definition on_pushButton_clicked (v : WidgetKey) (c : context) : option context :=
  if item v =? 0 then None
  else if decide (item v ∈ dead c) then None
  else Some (set_view (Some (Panel (item v) false)) (emit (Commit (item v) "X") c)).

(** [WidgetKey::closeEvent]: an event that is accepted hides the window. *)
Definition closeEvent (v : WidgetKey) (c : context) : option context :=
  if item v =? 0 then Some (set_view (Some (Panel (item v) false)) c)
  else if decide (item v ∈ dead c) then None
  else
    let c := if is_widget (item v) then emit (ClearFocus (item v)) c else c in
    Some (set_view (Some (Panel (item v) false)) c).

(** [VkbdPlugin::create] *)
Definition create (key : string) : option context :=
  if String.eqb key "vkbdp" then Some new_context else None.

(** ** Events *)
Inductive event :=
  | Focus (o : Z) | Show | Hide
  | Click | Close                  (** of the panel; nothing if it is not shown *)
  | Destroy (o : Z).

Definition handle (ev : event) (c : context) : option context :=
  match ev with
  | Focus o => Some (setFocusObject o (set_dead (dead c ∖ {[o]}) c))
  | Show => showInputPanel c
  | Hide => Some (hideInputPanel c)
  | Click => match view c with
             | Some v => if visible v then on_pushButton_clicked v c else Some c
             | None => Some c
             end
  | Close => match view c with
             | Some v => if visible v then closeEvent v c else Some c
             | None => Some c
             end
  | Destroy o => Some (set_dead (dead c ∪ {[o]}) c)
  end.
Definition run (evs : list event) (c : context) : option context :=
  foldl (fun oc ev => oc ≫= handle ev) (Some c) evs.

(** ** What the history says *)

(** The widget focused last, the one that was when the panel was shown last, whether
    the panel is shown, the texts typed (newest first). *)
Record history := Hist {
  focused : Z;
  shown : Z;
  open : bool;
  typed : list (Z * string);
}.
Definition hist_step (h : history) (ev : event) : history :=
  match ev with
  | Focus o => if negb (o =? 0) && is_widget o then Hist o (shown h) (open h) (typed h) else h
  | Show => Hist (focused h) (focused h) true (typed h)
  | Hide | Destroy _ => h
  | Click => if open h then Hist (focused h) (shown h) false ((shown h, "X"%string) :: typed h) else h
  | Close => Hist (focused h) (shown h) false (typed h)
  end.
Definition hist (evs : list event) : history := foldl hist_step (Hist 0 0 false []) evs.

Fixpoint typed_of (t : list done_to) : list (Z * string) :=
  match t with
  | [] => []
  | Commit o s :: t' => (o, s) :: typed_of t'
  | _ :: t' => typed_of t'
  end.

(** A widget was focused before anything was shown, and the object typed into lives. *)
Fixpoint used_well (evs : list event) (h : history) (gone : gset Z) : Prop :=
  match evs with
  | [] => True
  | ev :: evs' =>
      match ev with
      | Show => focused h <> 0
      | Click | Close => open h = true -> shown h ∉ gone
      | _ => True
      end /\
      used_well evs' (hist_step h ev)
        (match ev with Focus o => gone ∖ {[o]} | Destroy o => gone ∪ {[o]} | _ => gone end)
  end.

Record matches (c : context) (h : history) : Prop := {
  ma_focus : m_focusItem c = focused h;
  ma_view : match view c with
            | None => focused h = 0 /\ open h = false
            | Some v => focused h <> 0 /\ visible v = open h /\
                        (open h = true -> item v = shown h /\ shown h <> 0)
            end;
  ma_typed : typed_of (log c) = typed h;
}.

Lemma handle_matches ev c h : matches c h ->
  match ev with
  | Show => focused h <> 0
  | Click | Close => open h = true -> shown h ∉ dead c
  | _ => True
  end ->
  exists c', handle ev c = Some c' /\ matches c' (hist_step h ev) /\
    dead c' = match ev with Focus o => dead c ∖ {[o]} | Destroy o => dead c ∪ {[o]} | _ => dead c end.
Proof.
  intros [Hf Hv Ht] Hev. destruct ev as [o| | | | |o]; cbn [handle hist_step].
  - eexists. split; [done|]. unfold setFocusObject. destruct (Z.eqb_spec o 0) as [Ho|Ho]; cbn [negb andb].
    { split; [by split|done]. }
    destruct (is_widget o); cbn [negb]; [|split; [by split|done]].
    destruct (view c) as [v|] eqn:E; cbn; rewrite ?E;
      (split; [|done]); (split; [done| |done]); cbn; rewrite ?E; [naive_solver|].
    destruct Hv as [_ ->]. naive_solver.
  - unfold showInputPanel. destruct (view c) as [v|]; [|by destruct Hv].
    eexists. split; [done|]. split; [|done]. split; cbn; [done| |done]. rewrite Hf. naive_solver.
  - eexists. split; [done|]. by split; [split|].
  - destruct (view c) as [v|] eqn:E.
    + destruct Hv as (Hv1 & Hv2 & Hv3). rewrite Hv2. destruct (open h) eqn:Ho.
      * destruct (Hv3 eq_refl) as [Hi Hs]. unfold on_pushButton_clicked. rewrite Hi.
        rewrite (proj2 (Z.eqb_neq _ _)) by done. rewrite decide_False by by apply Hev.
        eexists. split; [done|]. split; [|done]. split; cbn; [done|done|by rewrite Ht].
      * eexists. split; [done|]. split; [|done]. split; [done| |done]. rewrite E, Ho. naive_solver.
    + destruct Hv as [Hv1 Hv2]. rewrite Hv2. eexists. split; [done|]. split; [|done].
      split; [done| |done]. by rewrite E.
  - destruct (view c) as [v|] eqn:E.
    + destruct Hv as (Hv1 & Hv2 & Hv3). rewrite Hv2. destruct (open h) eqn:Ho.
      * destruct (Hv3 eq_refl) as [Hi Hs]. unfold closeEvent. rewrite Hi.
        rewrite (proj2 (Z.eqb_neq _ _)) by done. rewrite decide_False by by apply Hev.
        eexists. split; [done|]. destruct (is_widget (shown h)); (split; [|done]); by split.
      * eexists. split; [done|]. split; [|done]. split; [done| |done]. cbn. rewrite E. naive_solver.
    + destruct Hv as [Hv1 Hv2]. eexists. split; [done|]. split; [|done].
      split; [done| |done]. by rewrite E.
  - eexists. split; [done|]. by split; [split|].
Qed.


(** As long as no widget has had the focus, a request to show the panel fails, although
    [showInputPanel] tests the pointer. *)
Theorem show_needs_focus evs : (forall o, Focus o ∈ evs -> o = 0 \/ is_widget o = false) ->
  Show ∈ evs -> run evs new_context = None.
Proof.
  assert (forall l, foldl (fun oc ev => oc ≫= handle ev) None l = None) as Hnone by (by induction l).
  unfold run. assert (view new_context = None) as Hv by done. revert Hv.
  generalize new_context. induction evs as [|ev evs IH]; intros c Hv Hf Hs; [by apply elem_of_nil in Hs|].
  cbn [foldl mbind option_bind]. assert (forall o, Focus o ∈ evs -> o = 0 \/ is_widget o = false) as Hf'.
  { intros o Ho. apply Hf. by right. }
  destruct ev as [o| | | | |o]; cbn [handle];
    [|unfold showInputPanel; rewrite Hv; apply Hnone|..]; apply elem_of_cons in Hs as [[=]|Hs].
  - apply IH; [|done|done]. unfold setFocusObject.
    destruct (Hf o) as [->|Hw]; [by left|done|]. rewrite Hw. by destruct (o =? 0).
  - by apply IH.
  - rewrite Hv. by apply IH.
  - rewrite Hv. by apply IH.
  - by apply IH.
Qed.
End code.

(** ** Concrete runs *)
(** The focus moves while the panel is shown: the text goes to the first widget, and
    Qt's request to hide changes nothing. *)
Definition demo_events : list event := [Focus 1; Show; Focus 2; Hide; Click].


Lemma show_needs_focus_witness : run (fun _ => false) [Focus 1; Show] new_context = None.
Proof.
  apply (show_needs_focus (fun _ => false)); [by right|]. right; left.
Defined.
